(** * zurqani-weather: the normaliser of [fetch_weather.py]

    A shallow embedding of [src/fetch_weather.py]: the numeric coercions
    [_safe_float] and [_safe_int], the normaliser [build_json], the fetcher
    [fetch_open_meteo] and the driver [main], together with the parts of the
    Python run time they rest on (truthiness, [dict.get], [len], indexing,
    [float], [round], exceptions, [json.dump] and [json.load]).

    Python values are the values a JSON document decodes to.  Floats are
    IEEE 754 binary64 numbers, taken from [SpecFloat] with [prec = 53] and
    [emax = 1024]; integers are unbounded ([Z]); a [str] is a sequence of
    code points below 256 ([string]); a [dict] is an association list in
    insertion order. *)

From Stdlib Require Import ZArith List String Ascii Bool Lia.
From Stdlib Require Import Floats.SpecFloat.
Import ListNotations.

Local Open Scope string_scope.
Local Open Scope list_scope.
Local Open Scope Z_scope.

(** ** Exceptions and the error monad *)

(** The exception classes that the modelled code can meet.  The last two
    derive from [BaseException] only: [except Exception] lets them pass. *)
Inductive pyexc : Type :=
| AttributeError
| TypeError
| ValueError
| OverflowError
| KeyError
| IndexError
| ConnectionError
| HTTPError
| JSONDecodeError
| OSError
| KeyboardInterrupt
| SystemExit (code : Z).

Definition is_Exception (e : pyexc) : bool :=
  match e with
  | KeyboardInterrupt | SystemExit _ => false
  | _ => true
  end.

Inductive result (A : Type) : Type :=
| Ok (a : A)
| Raise (e : pyexc).

Arguments Ok {A} a.
Arguments Raise {A} e.

Definition bind {A B : Type} (c : result A) (k : A -> result B) : result B :=
  match c with
  | Ok a => k a
  | Raise e => Raise e
  end.

Declare Scope py_scope.
Delimit Scope py_scope with py.
Notation "x <- c ;; k" := (bind c (fun x => k))
  (at level 61, c at next level, right associativity) : py_scope.
Local Open Scope py_scope.

(** [try: body / except Exception: handler]. *)
Definition try_except {A : Type} (body : result A) (handler : pyexc -> result A)
  : result A :=
  match body with
  | Ok a => Ok a
  | Raise e => if is_Exception e then handler e else Raise e
  end.

(** A loop that appends one computed item per element, left to right, and is
    abandoned at the first exception. *)
Fixpoint mapM {A B : Type} (f : A -> result B) (l : list A) : result (list B) :=
  match l with
  | [] => Ok []
  | a :: l' => b <- f a ;; bs <- mapM f l' ;; Ok (b :: bs)
  end.

(** ** Values *)

Definition float64 : Type := spec_float.
Definition prec : Z := 53.
Definition emax : Z := 1024.

Unset Elimination Schemes.
Inductive pyval : Type :=
| PNone
| PBool (b : bool)
| PInt (n : Z)
| PFloat (f : float64)
| PStr (s : string)
| PList (l : list pyval)
| PDict (d : list (string * pyval)).
Set Elimination Schemes.

(** Truth value testing, as used by [or]. *)
Definition truthy (v : pyval) : bool :=
  match v with
  | PNone => false
  | PBool b => b
  | PInt n => negb (n =? 0)
  | PFloat (S754_zero _) => false
  | PFloat _ => true
  | PStr EmptyString => false
  | PStr _ => true
  | PList [] => false
  | PList _ => true
  | PDict [] => false
  | PDict _ => true
  end.

(** [a or b] *)
Definition py_or (a b : pyval) : pyval := if truthy a then a else b.

Fixpoint lookup (k : string) (d : list (string * pyval)) : option pyval :=
  match d with
  | [] => None
  | (k', v) :: d' => if String.eqb k k' then Some v else lookup k d'
  end.

Definition get_or (d : list (string * pyval)) (k : string) (default : pyval)
  : pyval :=
  match lookup k d with
  | Some v => v
  | None => default
  end.

(** [x.get(k, default)]: only a dict has the method. *)
Definition py_get (x : pyval) (k : string) (default : pyval) : result pyval :=
  match x with
  | PDict d => Ok (get_or d k default)
  | _ => Raise AttributeError
  end.

(** [len(x)] *)
Definition py_len (x : pyval) : result nat :=
  match x with
  | PStr s => Ok (String.length s)
  | PList l => Ok (List.length l)
  | PDict d => Ok (List.length d)
  | _ => Raise TypeError
  end.

(** [x[i]] for a non-negative integer index.  The keys of a decoded JSON
    object are strings, so an integer is never a key of it. *)
Definition py_getitem (x : pyval) (i : nat) : result pyval :=
  match x with
  | PList l =>
      match nth_error l i with
      | Some v => Ok v
      | None => Raise IndexError
      end
  | PStr s =>
      match String.get i s with
      | Some c => Ok (PStr (String c EmptyString))
      | None => Raise IndexError
      end
  | PDict _ => Raise KeyError
  | _ => Raise TypeError
  end.

(** ** Floats *)

(** [float(n)] for an integer: the nearest binary64 number, ties to even;
    infinity stands for a magnitude beyond the largest float. *)
Definition float_of_Z (n : Z) : float64 := binary_normalize prec emax n 0 false.

(** The binary64 number nearest to [m * 10 ^ e] ([0 <= m]), ties to even,
    with the sign [neg]. *)
Definition float_of_decimal (neg : bool) (m e : Z) : float64 :=
  if m =? 0 then S754_zero neg
  else if 0 <=? e then
    binary_normalize prec emax ((if neg then Z.opp else id) (m * 10 ^ e)) 0 neg
  else
    let '(q, e', l) := SFdiv_core_binary prec emax m 0 (10 ^ (- e)) 0 in
    binary_round_aux prec emax neg q e' l.

(** *** Reading a float from a string: [float(s)] *)

Definition code (c : ascii) : nat := nat_of_ascii c.

Definition is_digit (c : ascii) : bool :=
  (48 <=? code c)%nat && (code c <=? 57)%nat.

Definition digit_val (c : ascii) : Z := Z.of_nat (code c) - 48.

(** [Py_ISSPACE]: space, and tab to carriage return. *)
Definition is_space (c : ascii) : bool :=
  ((9 <=? code c)%nat && (code c <=? 13)%nat) || (code c =? 32)%nat.

(** The white space above the ASCII range, among code points below 256:
    NEL and the no-break space. *)
Definition is_space_high (c : ascii) : bool :=
  (code c =? 133)%nat || (code c =? 160)%nat.

Definition is_ascii (c : ascii) : bool := (code c <? 128)%nat.

Fixpoint transform_chars (s : list ascii) : list ascii :=
  match s with
  | [] => []
  | c :: s' =>
      if (code c <? 127)%nat then c :: transform_chars s'
      else if is_space_high c then " "%char :: transform_chars s'
      else ["?"%char]
  end.

(** [_PyUnicode_TransformDecimalAndSpaceToASCII]: an ASCII string is kept;
    otherwise white space becomes a space and the first character that is
    neither ASCII nor a space nor a decimal digit ends the string with a
    question mark.  No code point from 127 to 255 is a decimal digit. *)
Definition transform_decimal_and_space (s : list ascii) : list ascii :=
  if forallb is_ascii s then s else transform_chars s.

Definition is_underscore (c : ascii) : bool := (code c =? 95)%nat.

(** Removes the underscores of [s]; [None] unless each one stands between
    two digits.  [prev] is the character before [s], if any. *)
Fixpoint strip_underscores (prev : option ascii) (s : list ascii)
  : option (list ascii) :=
  match s with
  | [] =>
      match prev with
      | Some p => if is_underscore p then None else Some []
      | None => Some []
      end
  | c :: s' =>
      if is_underscore c then
        match prev with
        | Some p => if is_digit p then strip_underscores (Some c) s' else None
        | None => None
        end
      else
        match prev with
        | Some p =>
            if is_underscore p && negb (is_digit c) then None
            else option_map (cons c) (strip_underscores (Some c) s')
        | None => option_map (cons c) (strip_underscores (Some c) s')
        end
  end.

Fixpoint span_digits (s : list ascii) : list ascii * list ascii :=
  match s with
  | c :: s' =>
      if is_digit c then let '(ds, r) := span_digits s' in (c :: ds, r)
      else ([], s)
  | [] => ([], [])
  end.

Definition digits_to_Z (ds : list ascii) : Z :=
  fold_left (fun acc c => 10 * acc + digit_val c) ds 0.

Definition read_sign (s : list ascii) : bool * list ascii :=
  match s with
  | "-"%char :: s' => (true, s')
  | "+"%char :: s' => (false, s')
  | _ => (false, s)
  end.

Definition is_e (c : ascii) : bool := (code c =? 101)%nat || (code c =? 69)%nat.

(** The decimal syntax of [strtod] as Python restricts it: sign, digits with
    an optional point, at least one digit, an optional exponent with at
    least one digit; the whole of [s] has to be used.  The result is the
    sign, the digits read as an integer and the power of ten. *)
Definition parse_decimal (s : list ascii) : option (bool * Z * Z) :=
  let '(neg, s1) := read_sign s in
  let '(ip, s2) := span_digits s1 in
  let '(fp, s3) :=
    match s2 with
    | "."%char :: t => span_digits t
    | _ => ([], s2)
    end in
  match ip ++ fp with
  | [] => None
  | ds =>
      let m := digits_to_Z ds in
      let shift := - Z.of_nat (List.length fp) in
      match s3 with
      | [] => Some (neg, m, shift)
      | c :: t =>
          if is_e c then
            let '(eneg, t1) := read_sign t in
            match span_digits t1 with
            | ([], _) => None
            | (ed, []) =>
                let x := digits_to_Z ed in
                Some (neg, m, (if eneg then - x else x) + shift)
            | (_, _ :: _) => None
            end
          else None
      end
  end.

(** [Py_TOLOWER] on ASCII letters. *)
Definition to_lower (c : ascii) : ascii :=
  if (65 <=? code c)%nat && (code c <=? 90)%nat
  then ascii_of_nat (code c + 32) else c.

Definition eqb_nocase (s : list ascii) (t : string) : bool :=
  String.eqb (string_of_list_ascii (map to_lower s)) t.

(** [_Py_parse_inf_or_nan]: an optional sign, then [inf], [infinity] or
    [nan] in any case. *)
Definition parse_inf_or_nan (s : list ascii) : option float64 :=
  let '(neg, s1) := read_sign s in
  if eqb_nocase s1 "inf" || eqb_nocase s1 "infinity" then Some (S754_infinity neg)
  else if eqb_nocase s1 "nan" then Some S754_nan
  else None.

Fixpoint drop_spaces (s : list ascii) : list ascii :=
  match s with
  | c :: s' => if is_space c then drop_spaces s' else s
  | [] => []
  end.

Definition strip_spaces (s : list ascii) : list ascii :=
  rev (drop_spaces (rev (drop_spaces s))).

(** [float_from_string_inner] *)
Definition float_from_string_inner (s : list ascii) : option float64 :=
  let t := strip_spaces s in
  match parse_decimal t with
  | Some (neg, m, e) => Some (float_of_decimal neg m e)
  | None => parse_inf_or_nan t
  end.

(** [float(s)] for a string: [PyFloat_FromString]. *)
Definition float_of_string (s : string) : option float64 :=
  let a := transform_decimal_and_space (list_ascii_of_string s) in
  if existsb is_underscore a then
    match strip_underscores None a with
    | Some b => float_from_string_inner b
    | None => None
    end
  else float_from_string_inner a.

(** [float(x)] *)
Definition py_float (x : pyval) : result float64 :=
  match x with
  | PFloat f => Ok f
  | PInt n =>
      match float_of_Z n with
      | S754_infinity _ => Raise OverflowError
      | f => Ok f
      end
  | PBool b => Ok (float_of_Z (if b then 1 else 0))
  | PStr s =>
      match float_of_string s with
      | Some f => Ok f
      | None => Raise ValueError
      end
  | PNone | PList _ | PDict _ => Raise TypeError
  end.

(** *** Rounding a float to an integer: [round(f)] *)

(** C's [round] on the magnitude [m * 2 ^ e]: the nearest integer, halfway
    cases away from zero. *)
Definition c_round (m e : Z) : Z :=
  if 0 <=? e then m * 2 ^ e
  else (2 * m + 2 ^ (- e)) / (2 * 2 ^ (- e)).

(** [fabs(x - rounded) == 0.5] for [x = m * 2 ^ e] *)
Definition half_apart (m e r : Z) : bool :=
  if 0 <=? e then false
  else 2 * Z.abs (m - r * 2 ^ (- e)) =? 2 ^ (- e).

(** [float.__round__] with no [ndigits], on the magnitude: [round(x)], and
    in a halfway case [2.0 * round(x / 2.0)] instead. *)
Definition round_magnitude (m e : Z) : Z :=
  let r := c_round m e in
  if half_apart m e r then 2 * c_round m (e - 1) else r.

(** [round(f)]: [PyLong_FromDouble] refuses NaN and the infinities. *)
Definition py_round (f : float64) : result Z :=
  match f with
  | S754_nan => Raise ValueError
  | S754_infinity _ => Raise OverflowError
  | S754_zero _ => Ok 0
  | S754_finite s m e =>
      let r := round_magnitude (Zpos m) e in
      Ok (if s then - r else r)
  end.

(** ** The coercions of the normaliser *)

Definition _safe_float (x : pyval) : result pyval :=
  try_except
    (match x with
     | PNone => Ok PNone
     | _ => f <- py_float x ;; Ok (PFloat f)
     end)
    (fun _ => Ok PNone).

Definition _safe_int (x : pyval) : result pyval :=
  try_except
    (match x with
     | PNone => Ok PNone
     | _ => f <- py_float x ;; n <- py_round f ;; Ok (PInt n)
     end)
    (fun _ => Ok PNone).

(** ** Configuration *)

Definition PLACE_NAME : pyval := PStr "Monticello, AR".
Definition LAT : pyval :=
  Eval vm_compute in PFloat (float_of_decimal false 336289 (-4)).
Definition LON : pyval :=
  Eval vm_compute in PFloat (float_of_decimal true 917909 (-4)).
Definition TIMEZONE : pyval := PStr "America/Chicago".
Definition OUTFILE : string := "weather.json".

(** ** The clock *)

(** What [datetime.utcnow()] returns. *)
Record datetime : Type := {
  year : nat;
  month : nat;
  day : nat;
  hour : nat;
  minute : nat;
  second : nat;
  microsecond : nat
}.

Fixpoint nat_digits (fuel n : nat) (acc : list ascii) : list ascii :=
  match fuel with
  | O => acc
  | S fuel' =>
      let acc' := ascii_of_nat (48 + n mod 10) :: acc in
      if (n <? 10)%nat then acc' else nat_digits fuel' (n / 10) acc'
  end.

(** [n] in decimal, padded with zeros on the left to [width] digits. *)
Definition zero_padded (width n : nat) : string :=
  let ds := nat_digits (S n) n [] in
  string_of_list_ascii (repeat "0"%char (width - List.length ds) ++ ds).

(** [t.isoformat(timespec="seconds")] for a naive datetime. *)
Definition isoformat_seconds (t : datetime) : string :=
  (zero_padded 4 (year t) ++ "-" ++ zero_padded 2 (month t) ++ "-"
   ++ zero_padded 2 (day t) ++ "T" ++ zero_padded 2 (hour t) ++ ":"
   ++ zero_padded 2 (minute t) ++ ":" ++ zero_padded 2 (second t))%string.

Definition _now_utc_iso (utcnow : datetime) : string :=
  (isoformat_seconds utcnow ++ "+00:00")%string.

(** ** The normaliser *)

(** [d.get(k, []) or []] *)
Definition get_array (d : pyval) (k : string) : result pyval :=
  x <- py_get d k (PList []) ;; Ok (py_or x (PList [])).

(** [d.get(k, {}) or {}] *)
Definition get_section (d : pyval) (k : string) : result pyval :=
  x <- py_get d k (PDict []) ;; Ok (py_or x (PDict [])).

(** [conv(arr[i]) if i < len(arr) else None] *)
Definition bounded_item (conv : pyval -> result pyval) (arr : pyval) (i : nat)
  : result pyval :=
  n <- py_len arr ;;
  if (i <? n)%nat then x <- py_getitem arr i ;; conv x else Ok PNone.

(** [conv(cur.get(k))] *)
Definition current_item (conv : pyval -> result pyval) (cur : pyval) (k : string)
  : result pyval :=
  x <- py_get cur k PNone ;; conv x.

(** The dict display of the [current] section. *)
Definition current_record (cur : pyval) : result pyval :=
  v1 <- current_item _safe_float cur "temperature_2m" ;;
  v2 <- current_item _safe_float cur "apparent_temperature" ;;
  v3 <- current_item _safe_int cur "relative_humidity_2m" ;;
  v4 <- current_item _safe_float cur "wind_speed_10m" ;;
  v5 <- current_item _safe_int cur "wind_direction_10m" ;;
  v6 <- current_item _safe_float cur "wind_gusts_10m" ;;
  v7 <- current_item _safe_int cur "weather_code" ;;
  Ok (PDict [("temperature_c", v1); ("feels_like_c", v2); ("humidity_pct", v3);
             ("wind_speed_kmh", v4); ("wind_dir_deg", v5);
             ("wind_gust_kmh", v6); ("weather_code", v7)]).

(** The dict appended by the hourly loop at index [i]. *)
Definition hourly_record (times temp feels pop wind wdir gust wcode : pyval)
  (i : nat) : result pyval :=
  t <- py_getitem times i ;;
  v1 <- bounded_item _safe_float temp i ;;
  v2 <- bounded_item _safe_float feels i ;;
  v3 <- bounded_item _safe_int pop i ;;
  v4 <- bounded_item _safe_float wind i ;;
  v5 <- bounded_item _safe_int wdir i ;;
  v6 <- bounded_item _safe_float gust i ;;
  v7 <- bounded_item _safe_int wcode i ;;
  Ok (PDict [("time", t); ("temperature_c", v1); ("feels_like_c", v2);
             ("precip_prob_pct", v3); ("wind_speed_kmh", v4);
             ("wind_dir_deg", v5); ("wind_gust_kmh", v6); ("weather_code", v7)]).

(** The dict appended by the daily loop at index [i]. *)
Definition daily_record (d_dates tmax tmin dpop dcode : pyval) (i : nat)
  : result pyval :=
  t <- py_getitem d_dates i ;;
  v1 <- bounded_item _safe_float tmax i ;;
  v2 <- bounded_item _safe_float tmin i ;;
  v3 <- bounded_item _safe_int dcode i ;;
  v4 <- bounded_item _safe_int dpop i ;;
  Ok (PDict [("date", t); ("tmax_c", v1); ("tmin_c", v2);
             ("weather_code", v3); ("precip_prob_pct", v4)]).

(** The hourly part of [build_json]: the arrays are fetched, then the loop
    runs over [range(min(24, len(times)))]. *)
Definition hourly_section (raw : pyval) : result (list pyval) :=
  h <- get_section raw "hourly" ;;
  times <- get_array h "time" ;;
  temp <- get_array h "temperature_2m" ;;
  feels <- get_array h "apparent_temperature" ;;
  pop <- get_array h "precipitation_probability" ;;
  wind <- get_array h "wind_speed_10m" ;;
  wdir <- get_array h "wind_direction_10m" ;;
  gust <- get_array h "wind_gusts_10m" ;;
  wcode <- get_array h "weather_code" ;;
  n <- py_len times ;;
  let keep := Nat.min 24 n in
  mapM (hourly_record times temp feels pop wind wdir gust wcode) (seq 0 keep).

(** The daily part of [build_json]. *)
Definition daily_section (raw : pyval) : result (list pyval) :=
  d <- get_section raw "daily" ;;
  d_dates <- get_array d "time" ;;
  tmax <- get_array d "temperature_2m_max" ;;
  tmin <- get_array d "temperature_2m_min" ;;
  dpop <- get_array d "precipitation_probability_max" ;;
  dcode <- get_array d "weather_code" ;;
  n <- py_len d_dates ;;
  mapM (daily_record d_dates tmax tmin dpop dcode) (seq 0 (Nat.min 7 n)).

(** The current part of [build_json]. *)
Definition current_section (raw : pyval) : result pyval :=
  cur <- get_section raw "current" ;;
  current_record cur.

Definition meta_record (utcnow : datetime) (place_name lat lon tz : pyval)
  : pyval :=
  PDict [("place_name", place_name); ("lat", lat); ("lon", lon);
         ("timezone", tz); ("source", PStr "open-meteo");
         ("generated_utc", PStr (_now_utc_iso utcnow))].

(** [build_json(raw, place_name, lat, lon, tz)], run when the clock reads
    [utcnow]. *)
Definition build_json (utcnow : datetime) (raw place_name lat lon tz : pyval)
  : result pyval :=
  let meta := meta_record utcnow place_name lat lon tz in
  current <- current_section raw ;;
  hourly <- hourly_section raw ;;
  daily <- daily_section raw ;;
  Ok (PDict [("meta", meta); ("current", current);
             ("hourly", PList hourly); ("daily", PList daily)]).


(** ** Printing numbers *)

Definition digit_char (d : Z) : ascii := ascii_of_nat (48 + Z.to_nat d).

Fixpoint Z_digits_aux (fuel : nat) (n : Z) (acc : list ascii) : list ascii :=
  match fuel with
  | O => acc
  | S fuel' =>
      let acc' := digit_char (n mod 10) :: acc in
      if n <? 10 then acc' else Z_digits_aux fuel' (n / 10) acc'
  end.

(** The decimal digits of [n] ([0 <= n]), the most significant first. *)
Definition Z_digits (n : Z) : list ascii :=
  Z_digits_aux (S (Z.to_nat (Z.log2 n))) n [].

(** [int.__repr__] *)
Definition int_repr (n : Z) : list ascii :=
  if n <? 0 then "-"%char :: Z_digits (- n) else Z_digits n.

(** The same float datum: [nan] equals itself here, and the two zeros
    differ. *)
Definition float_eqb (a b : float64) : bool :=
  match a, b with
  | S754_zero s, S754_zero s' => Bool.eqb s s'
  | S754_infinity s, S754_infinity s' => Bool.eqb s s'
  | S754_nan, S754_nan => true
  | S754_finite s m e, S754_finite s' m' e' =>
      Bool.eqb s s' && Pos.eqb m m' && (e =? e')
  | _, _ => false
  end.

(** The exact decimal expansion of [m * 2 ^ e]: the pair [(i, k)] stands
    for [i / 10 ^ k]. *)
Definition exact_decimal (m : positive) (e : Z) : Z * Z :=
  if 0 <=? e then (Zpos m * 2 ^ e, 0) else (Zpos m * 5 ^ (- e), - e).

(** The search of [repr] for the shortest decimal that [float] reads back
    as [f]: with [n] significant digits, the decimals just below and just
    above [i / 10 ^ k] are tried, and of two that both read back the nearer
    one is kept (the even one when they are as near).  The pair [(d, q)]
    stands for [d * 10 ^ q].  With all [len] digits the expansion is
    exact. *)
Fixpoint shortest_search (fuel : nat) (f : float64) (s : bool)
  (i k len n : Z) : Z * Z :=
  match fuel with
  | O => (i, - k)
  | S fuel' =>
      let p := 10 ^ (len - n) in
      let lo := i / p in
      let hi := lo + 1 in
      let r := i mod p in
      let q := len - n - k in
      let lo_ok := float_eqb (float_of_decimal s lo q) f in
      let hi_ok := float_eqb (float_of_decimal s hi q) f in
      if lo_ok then
        if hi_ok && ((p <? 2 * r) || ((p =? 2 * r) && Z.odd lo))
        then (hi, q) else (lo, q)
      else if hi_ok then (hi, q)
      else shortest_search fuel' f s i k len (n + 1)
  end.

Definition shortest_decimal (s : bool) (m : positive) (e : Z) : Z * Z :=
  let '(i, k) := exact_decimal m e in
  let len := Z.of_nat (List.length (Z_digits i)) in
  shortest_search (Z.to_nat (len - 1)) (S754_finite s m e) s i k len 1.

Definition is_zero_char (c : ascii) : bool := (code c =? 48)%nat.

Fixpoint drop_zeros (s : list ascii) : list ascii :=
  match s with
  | c :: s' => if is_zero_char c then drop_zeros s' else s
  | [] => []
  end.

Definition strip_trailing_zeros (ds : list ascii) : list ascii :=
  rev (drop_zeros (rev ds)).

Definition zeros (n : Z) : list ascii := repeat "0"%char (Z.to_nat n).

(** The exponent of the [e] notation: a sign and at least two digits. *)
Definition exponent_repr (x : Z) : list ascii :=
  (if x <? 0 then "-"%char else "+"%char)
    :: (if Z.abs x <? 10 then ["0"%char] else []) ++ Z_digits (Z.abs x).

(** The digits [ds] with the decimal point after the first [decpt] of them,
    as [repr] lays them out: the [e] notation when [decpt <= -4] or
    [decpt > 16], and [.0] after an integer. *)
Definition format_repr (ds : list ascii) (decpt : Z) : list ascii :=
  let n := Z.of_nat (List.length ds) in
  if (decpt <=? -4) || (16 <? decpt) then
    match ds with
    | [] => []
    | [d] => d :: "e"%char :: exponent_repr (decpt - 1)
    | d :: rest => d :: "."%char :: rest ++ "e"%char :: exponent_repr (decpt - 1)
    end
  else if decpt <=? 0 then
    "0"%char :: "."%char :: zeros (- decpt) ++ ds
  else if decpt <? n then
    firstn (Z.to_nat decpt) ds ++ "."%char :: skipn (Z.to_nat decpt) ds
  else
    ds ++ zeros (decpt - n) ++ ["."%char; "0"%char].

Definition sign_repr (s : bool) : list ascii := if s then ["-"%char] else [].

(** [float.__repr__] *)
Definition float_repr (f : float64) : list ascii :=
  match f with
  | S754_nan => list_ascii_of_string "nan"
  | S754_infinity s => sign_repr s ++ list_ascii_of_string "inf"
  | S754_zero s => sign_repr s ++ list_ascii_of_string "0.0"
  | S754_finite s m e =>
      let '(d, q) := shortest_decimal s m e in
      let ds := Z_digits d in
      sign_repr s
        ++ format_repr (strip_trailing_zeros ds) (Z.of_nat (List.length ds) + q)
  end.

(** ** Writing JSON: [json.dumps(obj, ensure_ascii=False, indent=2)] *)

Definition dquote : ascii := ascii_of_nat 34.
Definition backslash : ascii := ascii_of_nat 92.
Definition newline : ascii := ascii_of_nat 10.

Definition hex_char (n : nat) : ascii :=
  if (n <? 10)%nat then ascii_of_nat (48 + n) else ascii_of_nat (87 + n).

(** The replacement of one character inside a string literal: the quote,
    the backslash and the control characters are escaped, nothing else. *)
Definition escape_char (c : ascii) : list ascii :=
  let n := code c in
  if (n =? 34)%nat then [backslash; dquote]
  else if (n =? 92)%nat then [backslash; backslash]
  else if (n =? 10)%nat then [backslash; "n"%char]
  else if (n =? 13)%nat then [backslash; "r"%char]
  else if (n =? 9)%nat then [backslash; "t"%char]
  else if (n =? 8)%nat then [backslash; "b"%char]
  else if (n =? 12)%nat then [backslash; "f"%char]
  else if (n <? 32)%nat then
    [backslash; "u"%char; "0"%char; "0"%char; hex_char (n / 16); hex_char (n mod 16)]
  else [c].

Definition encode_string (s : string) : list ascii :=
  dquote :: flat_map escape_char (list_ascii_of_string s) ++ [dquote].

(** [floatstr] of the encoder *)
Definition encode_float (f : float64) : list ascii :=
  match f with
  | S754_nan => list_ascii_of_string "NaN"
  | S754_infinity false => list_ascii_of_string "Infinity"
  | S754_infinity true => list_ascii_of_string "-Infinity"
  | _ => float_repr f
  end.

(** A line break and the indentation of the nesting level [lvl]. *)
Definition newline_indent (lvl : nat) : list ascii :=
  newline :: repeat " "%char (2 * lvl).

(** The text of [v] at the nesting level [lvl]. *)
Fixpoint encode (lvl : nat) (v : pyval) {struct v} : list ascii :=
  match v with
  | PNone => list_ascii_of_string "null"
  | PBool true => list_ascii_of_string "true"
  | PBool false => list_ascii_of_string "false"
  | PInt n => int_repr n
  | PFloat f => encode_float f
  | PStr s => encode_string s
  | PList [] => list_ascii_of_string "[]"
  | PList (x :: xs) =>
      "["%char :: newline_indent (S lvl) ++ encode (S lvl) x
        ++ (fix items (l : list pyval) : list ascii :=
              match l with
              | [] => []
              | y :: l' =>
                  ","%char :: newline_indent (S lvl) ++ encode (S lvl) y
                    ++ items l'
              end) xs
        ++ newline_indent lvl ++ ["]"%char]
  | PDict [] => list_ascii_of_string "{}"
  | PDict ((k, x) :: xs) =>
      "{"%char :: newline_indent (S lvl) ++ encode_string k
        ++ ":"%char :: " "%char :: encode (S lvl) x
        ++ (fix members (l : list (string * pyval)) : list ascii :=
              match l with
              | [] => []
              | (k', y) :: l' =>
                  ","%char :: newline_indent (S lvl) ++ encode_string k'
                    ++ ":"%char :: " "%char :: encode (S lvl) y
                    ++ members l'
              end) xs
        ++ newline_indent lvl ++ ["}"%char]
  end.

Definition json_dumps (v : pyval) : string := string_of_list_ascii (encode 0 v).

(** ** Reading JSON: [json.loads] *)

(** The white space of JSON: space, tab, line feed, carriage return. *)
Definition is_json_space (c : ascii) : bool :=
  (code c =? 32)%nat || (code c =? 9)%nat || (code c =? 10)%nat
  || (code c =? 13)%nat.

Fixpoint skip_ws (s : list ascii) : list ascii :=
  match s with
  | c :: s' => if is_json_space c then skip_ws s' else s
  | [] => []
  end.

Definition hex_val (c : ascii) : option nat :=
  let n := code c in
  if (48 <=? n)%nat && (n <=? 57)%nat then Some (n - 48)%nat
  else if (65 <=? n)%nat && (n <=? 70)%nat then Some (n - 55)%nat
  else if (97 <=? n)%nat && (n <=? 102)%nat then Some (n - 87)%nat
  else None.

(** The code point of [\uXXXX] from its four hexadecimal digits. *)
Definition hex4 (a b c d : ascii) : option nat :=
  match hex_val a, hex_val b, hex_val c, hex_val d with
  | Some x, Some y, Some z, Some w => Some (((x * 16 + y) * 16 + z) * 16 + w)%nat
  | _, _, _, _ => None
  end.

(** The character that follows a backslash, for the one-letter escapes. *)
Definition unescape (c : ascii) : option ascii :=
  let n := code c in
  if (n =? 34)%nat then Some dquote
  else if (n =? 92)%nat then Some backslash
  else if (n =? 47)%nat then Some "/"%char
  else if (n =? 98)%nat then Some (ascii_of_nat 8)
  else if (n =? 102)%nat then Some (ascii_of_nat 12)
  else if (n =? 110)%nat then Some newline
  else if (n =? 114)%nat then Some (ascii_of_nat 13)
  else if (n =? 116)%nat then Some (ascii_of_nat 9)
  else None.

(** [scanstring] in strict mode, from behind the opening quote: the
    content and what follows the closing quote.  A string of the model
    holds code points below 256; an escape that denotes a higher one is
    outside the model and is refused here. *)
Fixpoint scanstring (s : list ascii) : option (list ascii * list ascii) :=
  match s with
  | [] => None
  | c :: t =>
      if (code c =? 34)%nat then Some ([], t)
      else if (code c =? 92)%nat then
        match t with
        | [] => None
        | x :: t' =>
            if (code x =? 117)%nat then
              match t' with
              | h1 :: h2 :: h3 :: h4 :: t'' =>
                  match hex4 h1 h2 h3 h4 with
                  | Some n =>
                      if (n <? 256)%nat then
                        match scanstring t'' with
                        | Some (str, r) => Some (ascii_of_nat n :: str, r)
                        | None => None
                        end
                      else None
                  | None => None
                  end
              | _ => None
              end
            else
              match unescape x with
              | Some y =>
                  match scanstring t' with
                  | Some (str, r) => Some (y :: str, r)
                  | None => None
                  end
              | None => None
              end
        end
      else if (code c <? 32)%nat then None
      else
        match scanstring t with
        | Some (str, r) => Some (c :: str, r)
        | None => None
        end
  end.

(** The match of [NUMBER_RE]: the integer part, the fraction and the
    exponent when there are any, and the rest of the text. *)
Definition scan_number (s : list ascii)
  : option (list ascii * list ascii * list ascii * list ascii) :=
  let '(sign, s1) :=
    match s with
    | "-"%char :: t => (["-"%char], t)
    | _ => ([], s)
    end in
  let int_part :=
    match s1 with
    | c :: t =>
        if is_zero_char c then Some (sign ++ [c], t)
        else if is_digit c then
          let '(ds, r) := span_digits s1 in Some (sign ++ ds, r)
        else None
    | [] => None
    end in
  match int_part with
  | None => None
  | Some (ip, s2) =>
      let '(frac, s3) :=
        match s2 with
        | "."%char :: t =>
            match span_digits t with
            | ([], _) => ([], s2)
            | (fd, r) => ("."%char :: fd, r)
            end
        | _ => ([], s2)
        end in
      let '(exp, s4) :=
        match s3 with
        | c :: t =>
            if is_e c then
              let '(sg, t1) :=
                match t with
                | "-"%char :: u => (["-"%char], u)
                | "+"%char :: u => (["+"%char], u)
                | _ => ([], t)
                end in
              match span_digits t1 with
              | ([], _) => ([], s3)
              | (ed, r) => (c :: sg ++ ed, r)
              end
            else ([], s3)
        | [] => ([], s3)
        end in
      Some (ip, frac, exp, s4)
  end.

(** [int(s)] on the integer part of a number match. *)
Definition int_of_literal (s : list ascii) : Z :=
  match s with
  | "-"%char :: ds => - digits_to_Z ds
  | _ => digits_to_Z s
  end.

(** The value of a number match: an [int] when there is neither fraction
    nor exponent, a [float] otherwise. *)
Definition number_value (ip frac exp : list ascii) : option pyval :=
  match frac, exp with
  | [], [] => Some (PInt (int_of_literal ip))
  | _, _ =>
      option_map PFloat (float_of_string (string_of_list_ascii (ip ++ frac ++ exp)))
  end.

Fixpoint strip_prefix (p s : list ascii) : option (list ascii) :=
  match p, s with
  | [], _ => Some s
  | a :: p', b :: s' => if Ascii.eqb a b then strip_prefix p' s' else None
  | _ :: _, [] => None
  end.

(** The constants and the numbers, tried in the order of [scan_once]. *)
Definition scan_atom (s : list ascii) : option (pyval * list ascii) :=
  match strip_prefix (list_ascii_of_string "null") s with
  | Some r => Some (PNone, r)
  | None =>
  match strip_prefix (list_ascii_of_string "true") s with
  | Some r => Some (PBool true, r)
  | None =>
  match strip_prefix (list_ascii_of_string "false") s with
  | Some r => Some (PBool false, r)
  | None =>
  match scan_number s with
  | Some (ip, frac, exp, r) =>
      match number_value ip frac exp with
      | Some v => Some (v, r)
      | None => None
      end
  | None =>
  match strip_prefix (list_ascii_of_string "NaN") s with
  | Some r => Some (PFloat S754_nan, r)
  | None =>
  match strip_prefix (list_ascii_of_string "Infinity") s with
  | Some r => Some (PFloat (S754_infinity false), r)
  | None =>
  match strip_prefix (list_ascii_of_string "-Infinity") s with
  | Some r => Some (PFloat (S754_infinity true), r)
  | None => None
  end end end end end end end.

(** [d[k] = v] on a dict: the value of a key already present is replaced
    where it stands, a new key goes to the end. *)
Fixpoint dict_set (d : list (string * pyval)) (k : string) (v : pyval)
  : list (string * pyval) :=
  match d with
  | [] => [(k, v)]
  | (k', v') :: d' =>
      if String.eqb k k' then (k, v) :: d' else (k', v') :: dict_set d' k v
  end.

(** [dict(pairs)] *)
Definition dict_of_pairs (pairs : list (string * pyval)) : list (string * pyval) :=
  fold_left (fun d kv => dict_set d (fst kv) (snd kv)) pairs [].

(** [scan_once] with [JSONArray] and [JSONObject].  [parse_items] reads the
    items of an array from the first one to the closing bracket,
    [parse_members] the members of an object from the quote of the first
    key to the closing brace.  Every call uses up one unit of [fuel], and
    the length of the text is fuel enough. *)
Fixpoint parse_value (fuel : nat) (s : list ascii) {struct fuel}
  : option (pyval * list ascii) :=
  match fuel with
  | O => None
  | S fuel' =>
      match s with
      | [] => None
      | c :: t =>
          if (code c =? 34)%nat then
            match scanstring t with
            | Some (str, r) => Some (PStr (string_of_list_ascii str), r)
            | None => None
            end
          else if (code c =? 123)%nat then
            match skip_ws t with
            | [] => None
            | c' :: t' =>
                if (code c' =? 125)%nat then Some (PDict [], t')
                else
                  match parse_members fuel' (c' :: t') with
                  | Some (ms, r) => Some (PDict (dict_of_pairs ms), r)
                  | None => None
                  end
            end
          else if (code c =? 91)%nat then
            match skip_ws t with
            | [] => None
            | c' :: t' =>
                if (code c' =? 93)%nat then Some (PList [], t')
                else
                  match parse_items fuel' (c' :: t') with
                  | Some (vs, r) => Some (PList vs, r)
                  | None => None
                  end
            end
          else scan_atom s
      end
  end
with parse_items (fuel : nat) (s : list ascii) {struct fuel}
  : option (list pyval * list ascii) :=
  match fuel with
  | O => None
  | S fuel' =>
      match parse_value fuel' s with
      | None => None
      | Some (v, r) =>
          match skip_ws r with
          | [] => None
          | c :: t =>
              if (code c =? 93)%nat then Some ([v], t)
              else if (code c =? 44)%nat then
                match parse_items fuel' (skip_ws t) with
                | Some (vs, r') => Some (v :: vs, r')
                | None => None
                end
              else None
          end
      end
  end
with parse_members (fuel : nat) (s : list ascii) {struct fuel}
  : option (list (string * pyval) * list ascii) :=
  match fuel with
  | O => None
  | S fuel' =>
      match s with
      | [] => None
      | c :: t =>
          if (code c =? 34)%nat then
            match scanstring t with
            | None => None
            | Some (key, r) =>
                match skip_ws r with
                | [] => None
                | c1 :: r1 =>
                    if (code c1 =? 58)%nat then
                      match parse_value fuel' (skip_ws r1) with
                      | None => None
                      | Some (v, r2) =>
                          let k := string_of_list_ascii key in
                          match skip_ws r2 with
                          | [] => None
                          | c2 :: r3 =>
                              if (code c2 =? 125)%nat then Some ([(k, v)], r3)
                              else if (code c2 =? 44)%nat then
                                match parse_members fuel' (skip_ws r3) with
                                | Some (ms, r') => Some ((k, v) :: ms, r')
                                | None => None
                                end
                              else None
                          end
                      end
                    else None
                end
            end
          else None
      end
  end.

(** [json.loads(text)]: one value, with white space around it and nothing
    else. *)
Definition json_loads (text : string) : result pyval :=
  let s := list_ascii_of_string text in
  match parse_value (S (List.length s)) (skip_ws s) with
  | Some (v, r) =>
      match skip_ws r with
      | [] => Ok v
      | _ :: _ => Raise JSONDecodeError
      end
  | None => Raise JSONDecodeError
  end.

(** ** The run-time environment *)

(** What [requests.get] returns: the status and what [r.json()] returns or
    raises. *)
Record response : Type := {
  status_code : Z;
  json_body : result pyval
}.

(** What a run meets outside the program: the reading of the clock, the
    answer of the network to [requests.get(url, params=..., timeout=...)],
    whether [open] fails, whether the write fails and after how many
    characters, and the text [str(e)] of an exception. *)
Record environment : Type := {
  clock : datetime;
  http_get : string -> pyval -> Z -> result response;
  open_error : option pyexc;
  write_error : option (nat * pyexc);
  exc_text : pyexc -> string
}.

(** The files by name, and the two output streams. *)
Record world : Type := {
  files : string -> option string;
  stdout : string;
  stderr : string
}.

Definition set_file (w : world) (name text : string) : world :=
  {| files := fun n => if String.eqb n name then Some text else files w n;
     stdout := stdout w;
     stderr := stderr w |}.

Definition line (text : string) : string :=
  (text ++ String newline EmptyString)%string.

(** [print(text)] *)
Definition print (w : world) (text : string) : world :=
  {| files := files w;
     stdout := (stdout w ++ line text)%string;
     stderr := stderr w |}.

(** [print(text, file=sys.stderr)] *)
Definition print_err (w : world) (text : string) : world :=
  {| files := files w;
     stdout := stdout w;
     stderr := (stderr w ++ line text)%string |}.

(** ** The fetcher *)

(** [r.raise_for_status()] *)
Definition raise_for_status (r : response) : result unit :=
  if (400 <=? status_code r) && (status_code r <? 600)
  then Raise HTTPError else Ok tt.

Definition request_params (lat lon tz : pyval) : pyval :=
  PDict
    [("latitude", lat); ("longitude", lon); ("timezone", tz);
     ("current",
      PStr (String.concat ","
              ["temperature_2m"; "apparent_temperature"; "relative_humidity_2m";
               "wind_speed_10m"; "wind_direction_10m"; "wind_gusts_10m";
               "weather_code"]));
     ("hourly",
      PStr (String.concat ","
              ["temperature_2m"; "apparent_temperature";
               "precipitation_probability"; "wind_speed_10m";
               "wind_direction_10m"; "wind_gusts_10m"; "weather_code"]));
     ("daily",
      PStr (String.concat ","
              ["temperature_2m_max"; "temperature_2m_min";
               "precipitation_probability_max"; "weather_code"]));
     ("forecast_days", PInt 7)].

Definition fetch_open_meteo (env : environment) (lat lon tz : pyval)
  : result pyval :=
  let url := "https://api.open-meteo.com/v1/forecast" in
  let params := request_params lat lon tz in
  r <- http_get env url params 25 ;;
  _ <- raise_for_status r ;;
  json_body r.

(** ** The driver *)

(** [with open(OUTFILE, "w", encoding="utf-8") as f: json.dump(out, f, ...)]:
    opening truncates the file; a write that fails leaves the characters
    written so far. *)
Definition write_outfile (env : environment) (w : world) (out : pyval)
  : world * result unit :=
  match open_error env with
  | Some e => (w, Raise e)
  | None =>
      let text := json_dumps out in
      match write_error env with
      | Some (n, e) => (set_file w OUTFILE (substring 0 n text), Raise e)
      | None => (set_file w OUTFILE text, Ok tt)
      end
  end.

(** The body of the [try] statement of [main]. *)
Definition main_try (env : environment) (w : world) : world * result unit :=
  match fetch_open_meteo env LAT LON TIMEZONE with
  | Raise e => (w, Raise e)
  | Ok raw =>
      match build_json (clock env) raw PLACE_NAME LAT LON TIMEZONE with
      | Raise e => (w, Raise e)
      | Ok out =>
          match write_outfile env w out with
          | (w1, Raise e) => (w1, Raise e)
          | (w1, Ok _) => (print w1 ("Wrote " ++ OUTFILE)%string, Ok tt)
          end
      end
  end.

(** [main()]: the handler prints the error and raises [SystemExit(1)]. *)
Definition main (env : environment) (w : world) : world * result unit :=
  match main_try env w with
  | (w1, Ok _) => (w1, Ok tt)
  | (w1, Raise e) =>
      if is_Exception e
      then (print_err w1 ("ERROR: " ++ exc_text env e)%string, Raise (SystemExit 1))
      else (w1, Raise e)
  end.

(** The exit status of the process that ran [main()] as its last call: 0
    after a normal return, the code of a [SystemExit]; an interrupt ends
    the process without one. *)
Definition exit_status (r : result unit) : option Z :=
  match r with
  | Ok _ => Some 0
  | Raise (SystemExit c) => Some c
  | Raise KeyboardInterrupt => None
  | Raise _ => Some 1
  end.
(** ** Specifications used by the statements *)

(** The output [v] is the float that [float] makes of [x], or null when [x]
    is [None] or [float(x)] raises. *)
Definition float_or_null (x v : pyval) : Prop :=
  (exists f, x <> PNone /\ py_float x = Ok f /\ v = PFloat f)
  \/ ((x = PNone \/ exists e, py_float x = Raise e) /\ v = PNone).

(** The output [v] is the integer that [round] makes of [float(x)], or null
    when [x] is [None] or one of the two calls raises. *)
Definition int_or_null (x v : pyval) : Prop :=
  (exists f n, x <> PNone /\ py_float x = Ok f /\ py_round f = Ok n /\ v = PInt n)
  \/ ((x = PNone \/ (exists e, py_float x = Raise e)
       \/ (exists f e, py_float x = Ok f /\ py_round f = Raise e))
      /\ v = PNone).

(** [n] is an integer nearest to the rational [num / d] ([0 < d]), and the
    even one when [num / d] lies halfway between two integers. *)
Definition nearest_ties_even (num d n : Z) : Prop :=
  2 * Z.abs (n * d - num) <= d
  /\ (2 * Z.abs (n * d - num) = d -> Z.even n = true).

(** The value of a finite float as a fraction: numerator and denominator. *)
Definition float_num (s : bool) (m : positive) (e : Z) : Z :=
  (if s then -1 else 1) * Zpos m * 2 ^ Z.max 0 e.
Definition float_den (e : Z) : Z := 2 ^ Z.max 0 (- e).

(** Rounding to the nearest integer with halfway cases away from zero, as
    the specification words it. *)
Definition round_half_away_from_zero (f : float64) : option Z :=
  match f with
  | S754_zero _ => Some 0
  | S754_finite s m e =>
      let r := c_round (Zpos m) e in Some (if s then - r else r)
  | _ => None
  end.

Definition is_number_or_null (v : pyval) : bool :=
  match v with
  | PNone | PInt _ | PFloat _ => true
  | _ => false
  end.

Definition is_finite (f : float64) : bool :=
  match f with
  | S754_zero _ | S754_finite _ _ _ => true
  | _ => false
  end.


(** ** The shape of a raw response *)

(** The value is a mapping once [or {}] has replaced a falsy one. *)
Definition is_mapping (v : pyval) : bool :=
  match py_or v (PDict []) with
  | PDict _ => true
  | _ => false
  end.

Definition array_like (v : pyval) : bool :=
  match v with
  | PList _ | PStr _ => true
  | _ => false
  end.

(** The value is a sequence once [or []] has replaced a falsy one. *)
Definition is_array (v : pyval) : bool := array_like (py_or v (PList [])).

Inductive conv_kind : Type := AsFloat | AsInt.

Definition convert (k : conv_kind) : pyval -> result pyval :=
  match k with
  | AsFloat => _safe_float
  | AsInt => _safe_int
  end.

(** Output field, raw field and coercion, per section, as [build_json]
    pairs them. *)
Definition current_fields : list (string * string * conv_kind) :=
  [("temperature_c", "temperature_2m", AsFloat);
   ("feels_like_c", "apparent_temperature", AsFloat);
   ("humidity_pct", "relative_humidity_2m", AsInt);
   ("wind_speed_kmh", "wind_speed_10m", AsFloat);
   ("wind_dir_deg", "wind_direction_10m", AsInt);
   ("wind_gust_kmh", "wind_gusts_10m", AsFloat);
   ("weather_code", "weather_code", AsInt)].

Definition hourly_fields : list (string * string * conv_kind) :=
  [("temperature_c", "temperature_2m", AsFloat);
   ("feels_like_c", "apparent_temperature", AsFloat);
   ("precip_prob_pct", "precipitation_probability", AsInt);
   ("wind_speed_kmh", "wind_speed_10m", AsFloat);
   ("wind_dir_deg", "wind_direction_10m", AsInt);
   ("wind_gust_kmh", "wind_gusts_10m", AsFloat);
   ("weather_code", "weather_code", AsInt)].

Definition daily_fields : list (string * string * conv_kind) :=
  [("tmax_c", "temperature_2m_max", AsFloat);
   ("tmin_c", "temperature_2m_min", AsFloat);
   ("weather_code", "weather_code", AsInt);
   ("precip_prob_pct", "precipitation_probability_max", AsInt)].

Definition raw_keys (fields : list (string * string * conv_kind)) : list string :=
  map (fun f => snd (fst f)) fields.

Definition out_keys (fields : list (string * string * conv_kind)) : list string :=
  map (fun f => fst (fst f)) fields.

(** The section [name] of the mapping [d] is a mapping, or falsy or absent,
    and in it [time] and each raw field of [fields] is a sequence, or falsy
    or absent. *)
Definition section_ok (d : list (string * pyval)) (name : string)
  (fields : list (string * string * conv_kind)) : bool :=
  match py_or (get_or d name (PDict [])) (PDict []) with
  | PDict s =>
      forallb (fun k => is_array (get_or s k (PList []))) ("time" :: raw_keys fields)
  | _ => false
  end.

(** The raw response of the data model: a mapping with a [current] mapping
    and with [hourly] and [daily] mappings from field names to sequences,
    where any of them may be absent or falsy. *)
Definition well_shaped (raw : pyval) : bool :=
  match raw with
  | PDict d =>
      is_mapping (get_or d "current" (PDict []))
      && section_ok d "hourly" hourly_fields
      && section_ok d "daily" daily_fields
  | _ => false
  end.

(** [(raw.get(sect, {}) or {}).get(key, []) or []] *)
Definition raw_array (raw : pyval) (sect key : string) : result pyval :=
  s <- get_section raw sect ;; get_array s key.

(** The key is absent from the mapping, or maps to a falsy value. *)
Definition absent_or_falsy (d : list (string * pyval)) (k : string) : bool :=
  match lookup k d with
  | None => true
  | Some v => negb (truthy v)
  end.

(** Every field named in [names] is present in the record [r], with a
    number or null as its value. *)
Definition numeric_fields_ok (names : list string) (r : pyval) : Prop :=
  exists fields,
    r = PDict fields
    /\ forall k, In k names ->
       exists v, lookup k fields = Some v /\ is_number_or_null v = true.

(** The record [r] built at index [i] follows the raw arrays of the section
    [sect]: its label is [time[i]], and each field is a number or null,
    null when [i] is at or beyond the length of the raw array of the field
    and the coercion of the item [i] of that array otherwise. *)
Definition record_follows (raw : pyval) (sect label : string)
  (fields : list (string * string * conv_kind)) (i : nat) (r : pyval) : Prop :=
  exists rec times t,
    r = PDict rec
    /\ raw_array raw sect "time" = Ok times
    /\ py_getitem times i = Ok t
    /\ lookup label rec = Some t
    /\ forall out src k, In (out, src, k) fields ->
       exists arr n v,
         raw_array raw sect src = Ok arr
         /\ py_len arr = Ok n
         /\ lookup out rec = Some v
         /\ is_number_or_null v = true
         /\ ((n <= i)%nat -> v = PNone)
         /\ ((i < n)%nat ->
             exists x, py_getitem arr i = Ok x /\ convert k x = Ok v).

(** The record [r] built at index [i] reads the section [h] of the raw
    response, whose [time] is the list [times]: its label is [times[i]];
    a field whose raw array is absent or falsy in [h] is null; and a field
    whose raw array is the list [arr] is null when [i] is at or beyond the
    length of [arr], and the coercion of [arr[i]] otherwise. *)
Definition record_reads (h : list (string * pyval)) (times : list pyval)
  (label : string) (fields : list (string * string * conv_kind)) (i : nat)
  (r : pyval) : Prop :=
  exists rec t,
    r = PDict rec
    /\ nth_error times i = Some t
    /\ lookup label rec = Some t
    /\ forall out src k, In (out, src, k) fields ->
       (absent_or_falsy h src = true -> lookup out rec = Some PNone)
       /\ (forall arr, lookup src h = Some (PList arr) ->
           ((List.length arr <= i)%nat -> lookup out rec = Some PNone)
           /\ ((i < List.length arr)%nat ->
               exists x v, nth_error arr i = Some x /\ convert k x = Ok v
                           /\ lookup out rec = Some v)).

(** The [current] record with every field null. *)
Definition null_current : pyval :=
  PDict [("temperature_c", PNone); ("feels_like_c", PNone);
         ("humidity_pct", PNone); ("wind_speed_kmh", PNone);
         ("wind_dir_deg", PNone); ("wind_gust_kmh", PNone);
         ("weather_code", PNone)].

(** ** Auxiliary notions of the proofs *)

(** [m] shifted left by [j] bits. *)
Definition shl (m : positive) (j : nat) : positive := Nat.iter j xO m.

(** ** Sample data *)

Definition sample_clock : datetime := Build_datetime 2026 1 28 17 0 0 0.

(** The float 21.3 *)
Definition f21_3 : float64 := S754_finite false 5995417003936973 (-48).

Definition sample_current : list (string * pyval) :=
  [("temperature_2m", PFloat f21_3); ("relative_humidity_2m", PInt 58);
   ("weather_code", PStr "sunny")].

Definition sample_current_only : list (string * pyval) :=
  [("current", PDict sample_current)].

(** A response whose measurement arrays are shorter than [time]. *)
Definition sample_raw : pyval :=
  PDict
    [("current", PDict sample_current);
     ("hourly",
      PDict [("time", PList [PStr "2026-01-28T17:00"; PStr "2026-01-28T18:00";
                             PStr "2026-01-28T19:00"]);
             ("temperature_2m", PList [PFloat f21_3; PStr "20.5"]);
             ("weather_code", PList [PInt 3])]);
     ("daily",
      PDict [("time", PList [PStr "2026-01-28"; PStr "2026-01-29"]);
             ("temperature_2m_max", PList [PInt 24]);
             ("precipitation_probability_max", PNone)])].

(** A response with empty [time] arrays. *)
Definition sample_empty_times : pyval :=
  PDict
    [("current", PDict sample_current);
     ("hourly", PDict [("time", PList []); ("temperature_2m", PInt 5)]);
     ("daily", PDict [("time", PList [])])].

Definition document_of (r : result pyval) : pyval :=
  match r with
  | Ok doc => doc
  | Raise _ => PNone
  end.

(** The document that [build_json] makes of [sample_raw]. *)
Definition sample_document : pyval :=
  Eval vm_compute in
    document_of (build_json sample_clock sample_raw PLACE_NAME LAT LON TIMEZONE).

(** One second after [sample_clock]. *)
Definition later_clock : datetime := Build_datetime 2026 1 28 17 0 1 0.

(** A response whose [current] is null and whose [hourly] is absent. *)
Definition sample_partial : list (string * pyval) :=
  [("current", PNone);
   ("daily", PDict [("time", PList [PStr "2026-01-28"])])].

Definition empty_world : world :=
  {| files := fun _ => None; stdout := ""; stderr := "" |}.

(** The network answers with status 500. *)
Definition env_http_500 : environment :=
  {| clock := sample_clock;
     http_get := fun _ _ _ => Ok {| status_code := 500; json_body := Raise JSONDecodeError |};
     open_error := None;
     write_error := None;
     exc_text := fun _ => "500 Server Error" |}.

(** The network answers with status 200 and [sample_raw]. *)
Definition env_ok : environment :=
  {| clock := sample_clock;
     http_get := fun _ _ _ => Ok {| status_code := 200; json_body := Ok sample_raw |};
     open_error := None;
     write_error := None;
     exc_text := fun _ => "" |}.

(** ** Notions of the further properties *)

(** The exceptions that an ill-shaped raw response can make [build_json]
    raise. *)
Definition is_shape_error (e : pyexc) : bool :=
  match e with
  | AttributeError | TypeError | KeyError => true
  | _ => false
  end.

(** The keys of a dict, in order. *)
Definition keys_of (v : pyval) : option (list string) :=
  match v with
  | PDict d => Some (map fst d)
  | _ => None
  end.

Definition is_dict (v : pyval) : bool :=
  match v with
  | PDict _ => true
  | _ => false
  end.

(** The float [f] has exactly the value of the integer [n]. *)
Definition float_is_integer (f : float64) (n : Z) : Prop :=
  match f with
  | S754_zero _ => n = 0
  | S754_finite s m e => float_num s m e = n * float_den e
  | _ => False
  end.

Definition FORECAST_URL : string := "https://api.open-meteo.com/v1/forecast".

(** The network answers with status 200 and [sample_raw]; the write fails
    after 10 characters. *)
Definition env_disk_full : environment :=
  {| clock := sample_clock;
     http_get := fun _ _ _ => Ok {| status_code := 200; json_body := Ok sample_raw |};
     open_error := None;
     write_error := Some (10%nat, OSError);
     exc_text := fun _ => "No space left on device" |}.

(** The output file cannot be opened. *)
Definition env_read_only : environment :=
  {| clock := sample_clock;
     http_get := fun _ _ _ => Ok {| status_code := 200; json_body := Ok sample_raw |};
     open_error := Some OSError;
     write_error := None;
     exc_text := fun _ => "Permission denied" |}.

(** The fields of a clock reading are within the widths that the format
    gives them.  Every [datetime] of Python is. *)
Definition clock_in_range (t : datetime) : bool :=
  (year t <? 10 ^ 4)%nat && (month t <? 100)%nat && (day t <? 100)%nat
  && (hour t <? 100)%nat && (minute t <? 100)%nat && (second t <? 100)%nat.

(** [(raw.get("current", {}) or {}).get(key)] *)
Definition raw_current (raw : pyval) (key : string) : result pyval :=
  s <- get_section raw "current" ;; py_get s key PNone.

(** Two values are lists with the same first [n] items, or they are the
    same value. *)
Definition same_leading (n : nat) (a a' : pyval) : Prop :=
  match a, a' with
  | PList l, PList l' => firstn n l = firstn n l'
  | _, _ => a = a'
  end.

(** Both computations raise the same exception, or both return, values
    that [R] relates. *)
Definition same_outcome (R : pyval -> pyval -> Prop) (r r' : result pyval)
  : Prop :=
  match r, r' with
  | Ok a, Ok a' => R a a'
  | Raise e, Raise e' => e = e'
  | _, _ => False
  end.

(** Two raw responses agree in what [build_json] reads of them: the seven
    fields of [current], the first 24 items of the eight arrays of
    [hourly] and the first 7 items of the five arrays of [daily]. *)
Definition same_reading (raw raw' : pyval) : Prop :=
  Forall (fun k => raw_current raw k = raw_current raw' k)
         (raw_keys current_fields)
  /\ Forall (fun k => same_outcome (same_leading 24)
                        (raw_array raw "hourly" k) (raw_array raw' "hourly" k))
            ("time" :: raw_keys hourly_fields)
  /\ Forall (fun k => same_outcome (same_leading 7)
                        (raw_array raw "daily" k) (raw_array raw' "daily" k))
            ("time" :: raw_keys daily_fields).

(** A response with 30 hours and 10 days, and one with the first 24 hours
    and the first 7 days of it and with further keys. *)
Definition sample_long : pyval :=
  PDict
    [("current", PDict sample_current);
     ("hourly",
      PDict [("time", PList (repeat (PStr "2026-01-28T17:00") 30));
             ("temperature_2m", PList (repeat (PFloat f21_3) 30))]);
     ("daily",
      PDict [("time", PList (repeat (PStr "2026-01-28") 10));
             ("weather_code", PList (repeat (PInt 3) 10))])].

Definition sample_cut : pyval :=
  PDict
    [("elevation", PInt 84);
     ("current", PDict (("is_day", PInt 1) :: sample_current));
     ("hourly",
      PDict [("time", PList (repeat (PStr "2026-01-28T17:00") 24));
             ("temperature_2m", PList (repeat (PFloat f21_3) 24));
             ("visibility", PList [PInt 24140])]);
     ("daily",
      PDict [("time", PList (repeat (PStr "2026-01-28") 7));
             ("weather_code", PList (repeat (PInt 3) 7));
             ("sunrise", PNone)])].

(** The decimal numeral of an integer, as [str] writes it. *)
Definition numeral (n : Z) : string := string_of_list_ascii (int_repr n).

(** ** Notions of the read-back of a written document *)

(** The text that [repr] gives a finite float reads back as that float. *)
Definition float_reads_back (f : float64) : bool :=
  match f with
  | S754_finite _ _ _ =>
      match float_of_string (string_of_list_ascii (float_repr f)) with
      | Some g => float_eqb g f
      | None => false
      end
  | _ => true
  end.

(** Every finite float of the value reads back. *)
Fixpoint floats_read_back (v : pyval) : bool :=
  match v with
  | PFloat f => float_reads_back f
  | PList l => forallb floats_read_back l
  | PDict d => forallb (fun kv => let '(_, x) := kv in floats_read_back x) d
  | _ => true
  end.

Fixpoint distinct (ks : list string) : bool :=
  match ks with
  | [] => true
  | k :: ks' => negb (existsb (String.eqb k) ks') && distinct ks'
  end.

(** No dict of the value has a key twice. *)
Fixpoint keys_distinct (v : pyval) : bool :=
  match v with
  | PList l => forallb keys_distinct l
  | PDict d =>
      distinct (map fst d)
      && forallb (fun kv => let '(_, x) := kv in keys_distinct x) d
  | _ => true
  end.

(** The items of a list after the first, and the members of a dict after
    the first, as [encode] writes them at the level [lvl]. *)
Fixpoint encode_items (lvl : nat) (l : list pyval) : list ascii :=
  match l with
  | [] => []
  | y :: l' => ","%char :: newline_indent lvl ++ encode lvl y ++ encode_items lvl l'
  end.

Fixpoint encode_members (lvl : nat) (l : list (string * pyval)) : list ascii :=
  match l with
  | [] => []
  | (k, y) :: l' =>
      ","%char :: newline_indent lvl ++ encode_string k
        ++ ":"%char :: " "%char :: encode lvl y ++ encode_members lvl l'
  end.

(** What may follow a value in a text: nothing, a comma or a line break. *)
Definition ends_value (r : list ascii) : bool :=
  match r with
  | [] => true
  | c :: _ => (code c =? 44)%nat || (code c =? 10)%nat
  end.

(** The parts of a number text: the fraction with digits [fd], none when
    there are no digits, and the exponent with its sign and digits. *)
Definition fraction_text (fd : list ascii) : list ascii :=
  match fd with
  | [] => []
  | _ :: _ => "."%char :: fd
  end.

Definition exponent_text (ex : option (bool * list ascii)) : list ascii :=
  match ex with
  | None => []
  | Some (eneg, ed) => "e"%char :: (if eneg then "-"%char else "+"%char) :: ed
  end.

(** The integer part of a number text: a single zero, or digits that start
    with another digit than zero. *)
Definition integer_text (ip : list ascii) : bool :=
  match ip with
  | [] => false
  | [c] => is_digit c
  | c :: ds => is_digit c && negb (is_zero_char c) && forallb is_digit ds
  end.

Definition exponent_ok (ex : option (bool * list ascii)) : bool :=
  match ex with
  | None => true
  | Some (_, []) => false
  | Some (_, ed) => forallb is_digit ed
  end.

(** The stages of [scan_number] by name: the sign, the integer part, the
    fraction and the exponent. *)
Definition number_sign (s : list ascii) : list ascii * list ascii :=
  match s with
  | "-"%char :: t => (["-"%char], t)
  | _ => ([], s)
  end.

Definition integer_part (sign s1 : list ascii)
  : option (list ascii * list ascii) :=
  match s1 with
  | c :: t =>
      if is_zero_char c then Some (sign ++ [c], t)
      else if is_digit c then
        let '(ds, r) := span_digits s1 in Some (sign ++ ds, r)
      else None
  | [] => None
  end.

Definition fraction_part (s2 : list ascii) : list ascii * list ascii :=
  match s2 with
  | "."%char :: t =>
      match span_digits t with
      | ([], _) => ([], s2)
      | (fd, r) => ("."%char :: fd, r)
      end
  | _ => ([], s2)
  end.

Definition exponent_sign (t : list ascii) : list ascii * list ascii :=
  match t with
  | "-"%char :: u => (["-"%char], u)
  | "+"%char :: u => (["+"%char], u)
  | _ => ([], t)
  end.

Definition exponent_part (s3 : list ascii) : list ascii * list ascii :=
  match s3 with
  | c :: t =>
      if is_e c then
        let '(sg, t1) := exponent_sign t in
        match span_digits t1 with
        | ([], _) => ([], s3)
        | (ed, r) => (c :: sg ++ ed, r)
        end
      else ([], s3)
  | [] => ([], s3)
  end.

(** The first character of the text of a value is no white space and
    closes neither a list nor a dict; that of a constant or a number opens
    no string, list or dict either. *)
Definition opens_value (c : ascii) : bool :=
  negb (is_json_space c) && negb (code c =? 93)%nat && negb (code c =? 125)%nat.

Definition opens_atom (c : ascii) : bool :=
  opens_value c && negb (code c =? 34)%nat && negb (code c =? 123)%nat
  && negb (code c =? 91)%nat.

(** The parser reads the value back from its text at any nesting level,
    whatever follows the text, given fuel for the length of the text. *)
Definition reads_back (v : pyval) : Prop :=
  forall (lvl : nat) (r : list ascii) (fuel : nat),
    ends_value r = true ->
    (List.length (encode lvl v) <= fuel)%nat ->
    parse_value fuel (encode lvl v ++ r) = Some (v, r).

(** ** The raw responses that [build_json] accepts *)

(** The section [name] of the mapping [d] is a mapping, or falsy or absent;
    its [time] is a sequence, or falsy or absent; and unless [time] has no
    item at all, so is each raw field of [fields]. *)
Definition section_usable (d : list (string * pyval)) (name : string)
  (fields : list (string * string * conv_kind)) : bool :=
  match py_or (get_or d name (PDict [])) (PDict []) with
  | PDict s =>
      match py_or (get_or s "time" (PList [])) (PList []) with
      | PList [] => true
      | times =>
          array_like times
          && forallb (fun k => is_array (get_or s k (PList []))) (raw_keys fields)
      end
  | _ => false
  end.

Definition usable (raw : pyval) : bool :=
  match raw with
  | PDict d =>
      is_mapping (get_or d "current" (PDict []))
      && section_usable d "hourly" hourly_fields
      && section_usable d "daily" daily_fields
  | _ => false
  end.

(** ** Rounding a fraction to a float *)

(** Where the fraction [r / b] ([0 <= r < b]) lies in the unit interval:
    at zero, below the middle, in the middle or above it. *)
Definition loc_frac (r b : Z) : location :=
  if r =? 0 then loc_Exact else loc_Inexact (2 * r ?= b).

(** The integer nearest to [a / b], the even one of two that are as
    near. *)
Definition rne_int (a b : Z) : Z :=
  round_nearest_even (a / b) (loc_frac (a mod b) b).

(** The end of [binary_round_aux]: the rounded mantissa [m1] at the exponent
    [e1] is brought back into the format when rounding has carried it out,
    and the result is a zero, a finite float or an infinity. *)
Definition finish_round (sx : bool) (m1 e1 : Z) : float64 :=
  let '(mrs, e2) := shr_fexp prec emax m1 e1 loc_Exact in
  match shr_m mrs with
  | Z0 => S754_zero sx
  | Zpos m =>
      if e2 <=? emax - prec then S754_finite sx m e2 else S754_infinity sx
  | Zneg _ => S754_nan
  end.

(** [t * 2 ^ j <= n] and [n < t * 2 ^ j] for an exponent [j] of any sign. *)
Definition pow2_le (t n j : Z) : Prop :=
  t * 2 ^ Z.max 0 j <= n * 2 ^ Z.max 0 (- j).
Definition pow2_gt (t n j : Z) : Prop :=
  n * 2 ^ Z.max 0 (- j) < t * 2 ^ Z.max 0 j.

(** [d] is the magnitude of the fraction [n / t]:
    [2 ^ (d - 1) <= n / t < 2 ^ d]. *)
Definition magnitude (n t d : Z) : Prop :=
  pow2_le t n (d - 1) /\ pow2_gt t n d.

(** The float nearest to the fraction [n / t] of magnitude [d], ties to
    even: [n / t] is rounded to an integer multiple of [2 ^ c], where [c]
    is the exponent that the format gives the magnitude [d]. *)
Definition round_fraction (sx : bool) (n t d : Z) : float64 :=
  let c := fexp prec emax d in
  finish_round sx (rne_int (n * 2 ^ Z.max 0 (- c)) (t * 2 ^ Z.max 0 c)) c.

(** The record [rec] holds the integer part of [a / b] and the location of
    its fraction. *)
Definition holds_fraction (a b : Z) (rec : shr_record) : Prop :=
  0 <= a /\ 0 < b /\ shr_m rec = a / b
  /\ loc_of_shr_record rec = loc_frac (a mod b) b.

(** The decimals [m * 10 ^ e] and [m' * 10 ^ e'] are the same number. *)
Definition same_decimal (m e m' e' : Z) : Prop :=
  m * 10 ^ Z.max 0 e * 10 ^ Z.max 0 (- e')
  = m' * 10 ^ Z.max 0 e' * 10 ^ Z.max 0 (- e).

(** The value of the exponent of a number text. *)
Definition exponent_value (ex : option (bool * list ascii)) : Z :=
  match ex with
  | None => 0
  | Some (eneg, ed) => if eneg then - digits_to_Z ed else digits_to_Z ed
  end.

(** Every integer of the value has at most 4300 decimal digits, the most
    that the conversions between [int] and [str] accept: beyond it
    [json.dump] and [json.loads] raise [ValueError]. *)
Fixpoint ints_bounded (v : pyval) : bool :=
  match v with
  | PInt n => (List.length (Z_digits (Z.abs n)) <=? 4300)%nat
  | PList l => forallb ints_bounded l
  | PDict d => forallb (fun kv => let '(_, x) := kv in ints_bounded x) d
  | _ => true
  end.

(** Every finite float of the value is a binary64 number. *)
Fixpoint floats_valid (v : pyval) : bool :=
  match v with
  | PFloat f => valid_binary prec emax f
  | PList l => forallb floats_valid l
  | PDict d => forallb (fun kv => let '(_, x) := kv in floats_valid x) d
  | _ => true
  end.

(** ** The conversion to Fahrenheit *)

(** The float literals [9.0], [5.0] and [32.0]. *)
Definition nine : float64 := Eval vm_compute in float_of_Z 9.
Definition five : float64 := Eval vm_compute in float_of_Z 5.
Definition thirty_two : float64 := Eval vm_compute in float_of_Z 32.

(** [x * y] for a float [y]: an integer or a boolean [x] is converted to a
    float first, which fails for an integer beyond the floats; a string or
    a list cannot be repeated a float number of times, and [None] and a
    dict have no product. *)
Definition py_mul_float (x : pyval) (y : float64) : result float64 :=
  match x with
  | PFloat f => Ok (SFmul prec emax f y)
  | PInt _ | PBool _ => f <- py_float x ;; Ok (SFmul prec emax f y)
  | PNone | PStr _ | PList _ | PDict _ => Raise TypeError
  end.

(** [_c_to_f(c)]: [(c * 9.0 / 5.0) + 32.0] *)
Definition _c_to_f (c : pyval) : result pyval :=
  p <- py_mul_float c nine ;;
  Ok (PFloat (SFadd prec emax (SFdiv prec emax p five) thirty_two)).

(** The float nearest to [(n / t) * 2 ^ k], ties to even, where [d0] is
    the magnitude of [n / t]. *)
Definition round_scaled (sx : bool) (n t k d0 : Z) : float64 :=
  let c := fexp prec emax (d0 + k) in
  finish_round sx (rne_int (n * 2 ^ Z.max 0 (k - c)) (t * 2 ^ Z.max 0 (c - k))) c.

(** [f] is the float nearest to the fraction [N / T], ties to even, with
    the sign [sx]. *)
Definition nearest_float (sx : bool) (N T : positive) (f : float64) : Prop :=
  exists d, magnitude (Zpos N) (Zpos T) d
            /\ f = round_fraction sx (Zpos N) (Zpos T) d.

(** ** The document read back and Python's [==] *)

(** [f == n] for a float and an integer: the two numbers are compared
    exactly; a [nan] and an infinity equal no integer. *)
Definition float_eq_int (f : float64) (n : Z) : bool :=
  match f with
  | S754_zero _ => n =? 0
  | S754_finite s m e => float_num s m e =? n * float_den e
  | _ => false
  end.

(** [a == b] for two values that share no object, as a document and the
    one parsed from its text are: numbers, booleans among them, are equal
    when their values are, and a [nan] equals no number, itself included;
    lists are equal when they have the same length and equal items; dicts
    when they have the same number of keys and every key of the one is a
    key of the other with an equal value. *)
Fixpoint py_eq (a b : pyval) {struct a} : bool :=
  match a, b with
  | PNone, PNone => true
  | PBool x, PBool y => Bool.eqb x y
  | PBool x, PInt n => (if x then 1 else 0) =? n
  | PInt n, PBool x => n =? (if x then 1 else 0)
  | PBool x, PFloat f => float_eq_int f (if x then 1 else 0)
  | PFloat f, PBool x => float_eq_int f (if x then 1 else 0)
  | PInt n, PInt m => n =? m
  | PInt n, PFloat f => float_eq_int f n
  | PFloat f, PInt n => float_eq_int f n
  | PFloat f, PFloat g => SFeqb f g
  | PStr s, PStr t => String.eqb s t
  | PList l, PList l' =>
      (fix items (l l' : list pyval) {struct l} : bool :=
         match l, l' with
         | [], [] => true
         | x :: r, y :: r' => py_eq x y && items r r'
         | _, _ => false
         end) l l'
  | PDict d, PDict d' =>
      (List.length d =? List.length d')%nat
      && forallb (fun kv =>
                    let '(k, x) := kv in
                    match lookup k d' with
                    | Some y => py_eq x y
                    | None => false
                    end) d
  | _, _ => false
  end.

(** No float of the value is a [nan]. *)
Fixpoint nan_free (v : pyval) : bool :=
  match v with
  | PFloat S754_nan => false
  | PList l => forallb nan_free l
  | PDict d => forallb (fun kv => let '(_, x) := kv in nan_free x) d
  | _ => true
  end.

(** A value as a JSON decoder makes it: its floats are binary64 numbers,
    no dict has a key twice and no integer has more than 4300 digits. *)
Definition json_value (v : pyval) : bool :=
  floats_valid v && keys_distinct v && ints_bounded v.

(** A response whose temperature is the string [nan], of which [float]
    makes a [nan] of its own. *)
Definition sample_nan_raw : pyval :=
  PDict [("current", PDict [("temperature_2m", PStr "nan")])].

(** The document that [build_json] makes of [sample_nan_raw]. *)
Definition nan_document : pyval :=
  Eval vm_compute in
    document_of
      (build_json sample_clock sample_nan_raw PLACE_NAME LAT LON TIMEZONE).

(** * Properties *)

(** ** The coercions *)

Lemma py_float_raises_Exception (x : pyval) (e : pyexc) :
  py_float x = Raise e -> is_Exception e = true.
Proof.
  destruct x as [ | b | n | f | s | l | d]; simpl;
    try (intros [= <-]; reflexivity); try discriminate.
  - destruct (float_of_Z n); intros [= <-]; reflexivity.
  - destruct (float_of_string s); intros [= <-]; reflexivity.
Qed.

Lemma py_round_raises_Exception (f : float64) (e : pyexc) :
  py_round f = Raise e -> is_Exception e = true.
Proof. destruct f; simpl; intros [= <-]; reflexivity. Qed.

(** What [_safe_float] returns, without the exception handler. *)
Lemma safe_float_eq (x : pyval) :
  _safe_float x =
  Ok (match x with
      | PNone => PNone
      | _ => match py_float x with Ok f => PFloat f | Raise _ => PNone end
      end).
Proof.
  unfold _safe_float.
  destruct x; try reflexivity;
    match goal with
    | |- context [py_float ?v] =>
        destruct (py_float v) eqn:E; simpl; try reflexivity;
        rewrite (py_float_raises_Exception _ _ E); reflexivity
    end.
Qed.

(** What [_safe_int] returns, without the exception handler. *)
Lemma safe_int_eq (x : pyval) :
  _safe_int x =
  Ok (match x with
      | PNone => PNone
      | _ =>
          match py_float x with
          | Ok f => match py_round f with Ok n => PInt n | Raise _ => PNone end
          | Raise _ => PNone
          end
      end).
Proof.
  unfold _safe_int.
  destruct x; try reflexivity;
    match goal with
    | |- context [py_float ?v] =>
        destruct (py_float v) as [fl | ex] eqn:E; simpl;
        [ destruct (py_round fl) as [rn | ex] eqn:R; simpl; try reflexivity;
          rewrite (py_round_raises_Exception _ _ R); reflexivity
        | rewrite (py_float_raises_Exception _ _ E); reflexivity ]
    end.
Qed.

Lemma safe_float_spec (x : pyval) :
  exists v, _safe_float x = Ok v /\ float_or_null x v.
Proof.
  rewrite safe_float_eq. eexists; split; [reflexivity | ].
  unfold float_or_null.
  destruct x; try (right; split; [left | ]; reflexivity);
    match goal with
    | |- context [py_float ?v] =>
        destruct (py_float v) as [fl | ex] eqn:E;
        [ left; exists fl; repeat split; congruence
        | right; split; [right; exists ex; reflexivity | reflexivity] ]
    end.
Qed.

Lemma safe_int_spec (x : pyval) :
  exists v, _safe_int x = Ok v /\ int_or_null x v.
Proof.
  rewrite safe_int_eq. eexists; split; [reflexivity | ].
  unfold int_or_null.
  destruct x; try (right; split; [left | ]; reflexivity);
    match goal with
    | |- context [py_float ?v] =>
        destruct (py_float v) as [fl | ex] eqn:E;
        [ destruct (py_round fl) as [rn | ex] eqn:R;
          [ left; exists fl, rn; repeat split; congruence
          | right; split; [right; right; exists fl, ex; split; congruence | reflexivity] ]
        | right; split; [right; left; exists ex; reflexivity | reflexivity] ]
    end.
Qed.

Lemma safe_float_number_or_null (x v : pyval) :
  _safe_float x = Ok v -> is_number_or_null v = true.
Proof.
  rewrite safe_float_eq. intros H; injection H as <-.
  destruct x; try reflexivity;
    match goal with |- context [py_float ?v] => destruct (py_float v); reflexivity end.
Qed.

Lemma safe_int_number_or_null (x v : pyval) :
  _safe_int x = Ok v -> is_number_or_null v = true.
Proof.
  rewrite safe_int_eq. intros H; injection H as <-.
  destruct x; try reflexivity;
    match goal with
    | |- context [py_float ?v] =>
        destruct (py_float v) as [fl | ]; [destruct (py_round fl) | ]; reflexivity
    end.
Qed.

(** ** Rounding to an integer *)

Lemma c_round_bounds (m d : Z) :
  0 < d -> let r := (2 * m + d) / (2 * d) in - d <= 2 * m - 2 * d * r < d.
Proof.
  intros Hd r.
  pose proof (Z.mul_div_le (2 * m + d) (2 * d) ltac:(lia)) as H1.
  pose proof (Z.mul_succ_div_gt (2 * m + d) (2 * d) ltac:(lia)) as H2.
  fold r in H1, H2. lia.
Qed.

Lemma round_magnitude_nearest (m e : Z) :
  0 < m ->
  nearest_ties_even (m * 2 ^ Z.max 0 e) (2 ^ Z.max 0 (- e)) (round_magnitude m e).
Proof.
  intros Hm. unfold nearest_ties_even, round_magnitude, half_apart, c_round.
  destruct (Z.leb_spec 0 e) as [He | He].
  - rewrite (Z.max_r 0 e) by lia. rewrite (Z.max_l 0 (- e)) by lia.
    simpl (2 ^ 0). rewrite Z.mul_1_r, Z.sub_diag. simpl. lia.
  - rewrite (Z.max_l 0 e) by lia. rewrite (Z.max_r 0 (- e)) by lia.
    destruct (Z.leb_spec 0 (e - 1)) as [He' | _]; [lia | ].
    replace (- (e - 1)) with (Z.succ (- e)) by lia.
    rewrite Z.pow_succ_r by lia.
    replace (- e) with (Z.succ (- e - 1)) by lia.
    rewrite Z.pow_succ_r by lia.
    assert (Hh : 0 < 2 ^ (- e - 1)) by (apply Z.pow_pos_nonneg; lia).
    set (h := 2 ^ (- e - 1)) in *. simpl (2 ^ 0). rewrite Z.mul_1_r.
    pose proof (c_round_bounds m (2 * h) ltac:(lia)) as B. cbv zeta in B.
    set (r := (2 * m + 2 * h) / (2 * (2 * h))) in *.
    destruct (Z.eqb_spec (2 * Z.abs (m - r * (2 * h))) (2 * h)) as [T | T].
    + pose proof (c_round_bounds m (2 * (2 * h)) ltac:(lia)) as B2. cbv zeta in B2.
      set (q := (2 * m + 2 * (2 * h)) / (2 * (2 * (2 * h)))) in *.
      assert (Hq : 2 * q = r \/ 2 * q = r - 1) by nia.
      split.
      * destruct Hq as [Hq | Hq]; rewrite Hq; nia.
      * intros _. rewrite Z.even_mul. reflexivity.
    + split; [lia | intros H; exfalso; apply T; lia].
Qed.
Lemma py_round_finite (s : bool) (m : positive) (e : Z) :
  exists n, py_round (S754_finite s m e) = Ok n
            /\ nearest_ties_even (float_num s m e) (float_den e) n.
Proof.
  eexists; split; [reflexivity | ].
  pose proof (round_magnitude_nearest (Zpos m) e ltac:(lia)) as [H1 H2].
  unfold nearest_ties_even, float_num, float_den in *.
  set (r := round_magnitude (Zpos m) e) in *.
  set (d := 2 ^ Z.max 0 (- e)) in *. set (p := 2 ^ Z.max 0 e) in *.
  destruct s.
  - replace (- r * d - -1 * Zpos m * p) with (- (r * d - Zpos m * p)) by ring.
    rewrite Z.abs_opp, Z.even_opp. split; assumption.
  - replace (r * d - 1 * Zpos m * p) with (r * d - Zpos m * p) by ring.
    split; assumption.
Qed.

(** C4 (as amended): [_safe_int] maps every finite float to a nearest
    integer and, when the float lies halfway between two integers, to the
    even one; a zero gives 0, 71.6 gives 72, and NaN and the infinities
    give null. *)
Theorem safe_int_rounds_half_to_even :
  (forall (s : bool) (m : positive) (e : Z),
      exists n, _safe_int (PFloat (S754_finite s m e)) = Ok (PInt n)
                /\ nearest_ties_even (float_num s m e) (float_den e) n)
  /\ (forall s : bool, _safe_int (PFloat (S754_zero s)) = Ok (PInt 0))
  /\ (exists f, float_of_string "71.6" = Some f
                /\ _safe_int (PFloat f) = Ok (PInt 72))
  /\ _safe_int (PFloat S754_nan) = Ok PNone
  /\ (forall s : bool, _safe_int (PFloat (S754_infinity s)) = Ok PNone).
Proof.
  repeat split.
  - intros s m e. destruct (py_round_finite s m e) as (n & Hn & Hnear).
    exists n. split; [ | exact Hnear].
    rewrite safe_int_eq. cbn [py_float]. rewrite Hn. reflexivity.
  - eexists. split; vm_compute; reflexivity.
Qed.

(** C4, refuted as stated: 2.5 lies halfway between 2 and 3; away from zero
    is 3, and [_safe_int] returns 2. *)
Lemma safe_int_half_is_not_away_from_zero :
  let x := S754_finite false 5629499534213120 (-51) in
  float_of_string "2.5" = Some x
  /\ round_half_away_from_zero x = Some 3
  /\ _safe_int (PFloat x) = Ok (PInt 2).
Proof. repeat split; vm_compute; reflexivity. Qed.

(** ** Strings that read as floats *)

Lemma py_round_not_finite (f : float64) :
  is_finite f = false -> exists e, py_round f = Raise e.
Proof. destruct f; simpl; try discriminate; eauto. Qed.

Lemma py_round_is_finite (f : float64) :
  is_finite f = true -> exists n, py_round f = Ok n.
Proof. destruct f; simpl; try discriminate; eauto. Qed.

(** C10 (as amended): a string that [float] reads becomes that float under
    [_safe_float]; under [_safe_int] it becomes the rounded integer when
    the float is finite and null when it is NaN or an infinity; a string
    that [float] refuses becomes null under both.  So numeric strings in
    the raw [current] mapping and in the raw arrays come out as numbers. *)
Theorem numeric_strings_are_converted (s : string) :
  (forall f, float_of_string s = Some f ->
     _safe_float (PStr s) = Ok (PFloat f)
     /\ (is_finite f = true ->
         exists n, py_round f = Ok n /\ _safe_int (PStr s) = Ok (PInt n))
     /\ (is_finite f = false -> _safe_int (PStr s) = Ok PNone)
     /\ (forall c k, lookup k c = Some (PStr s) ->
         current_item _safe_float (PDict c) k = Ok (PFloat f))
     /\ (forall l i, nth_error l i = Some (PStr s) ->
         bounded_item _safe_float (PList l) i = Ok (PFloat f)))
  /\ (float_of_string s = None ->
      _safe_float (PStr s) = Ok PNone /\ _safe_int (PStr s) = Ok PNone).
Proof.
  split.
  - intros f Hf.
    assert (HF : _safe_float (PStr s) = Ok (PFloat f))
      by (rewrite safe_float_eq; cbn [py_float]; rewrite Hf; reflexivity).
    split; [exact HF | ]. split; [ | split; [ | split]].
    + intros Hfin. destruct (py_round_is_finite f Hfin) as [n Hn].
      exists n. split; [exact Hn | ].
      rewrite safe_int_eq. cbn [py_float]. rewrite Hf, Hn. reflexivity.
    + intros Hfin. destruct (py_round_not_finite f Hfin) as [e He].
      rewrite safe_int_eq. cbn [py_float]. rewrite Hf, He. reflexivity.
    + intros c k Hk. unfold current_item, py_get, get_or. rewrite Hk.
      exact HF.
    + intros l i Hi. unfold bounded_item. cbn [py_len bind].
      assert (Hlt : (i < List.length l)%nat)
        by (apply nth_error_Some; congruence).
      apply Nat.ltb_lt in Hlt. rewrite Hlt.
      cbn [py_getitem]. rewrite Hi. exact HF.
  - intros Hf. rewrite safe_float_eq, safe_int_eq. cbn [py_float].
    rewrite Hf. split; reflexivity.
Qed.

Lemma numeric_strings_are_converted_witness :
  _safe_float (PStr "21.3") = Ok (PFloat (S754_finite false 5995417003936973 (-48)))
  /\ (exists n, py_round (S754_finite false 8162774324609024 (-47)) = Ok n
                /\ _safe_int (PStr "58") = Ok (PInt n))
  /\ _safe_float (PStr "21,3") = Ok PNone.
Proof.
  split; [ | split].
  - apply (proj1 (numeric_strings_are_converted "21.3")). vm_compute. reflexivity.
  - apply (proj1 (numeric_strings_are_converted "58")
             (S754_finite false 8162774324609024 (-47))).
    + vm_compute. reflexivity.
    + reflexivity.
  - apply (proj2 (numeric_strings_are_converted "21,3")). vm_compute. reflexivity.
Defined.

(** C10, refuted as stated: [float] reads the string inf, and [_safe_int]
    returns null for it. *)
Lemma safe_int_of_inf_string_is_null :
  float_of_string "inf" = Some (S754_infinity false)
  /\ _safe_float (PStr "inf") = Ok (PFloat (S754_infinity false))
  /\ _safe_int (PStr "inf") = Ok PNone.
Proof. repeat split; vm_compute; reflexivity. Qed.

(** ** The current section *)

Lemma py_or_dict (c : list (string * pyval)) :
  py_or (PDict c) (PDict []) = PDict c.
Proof. destruct c; reflexivity. Qed.

Lemma current_item_dict (conv : pyval -> result pyval)
  (c : list (string * pyval)) (k : string) :
  current_item conv (PDict c) k = conv (get_or c k PNone).
Proof. reflexivity. Qed.

(** The [current] record of a mapping [c], field by field. *)
Lemma current_record_dict (c : list (string * pyval)) :
  exists v1 v2 v3 v4 v5 v6 v7,
    float_or_null (get_or c "temperature_2m" PNone) v1
    /\ float_or_null (get_or c "apparent_temperature" PNone) v2
    /\ int_or_null (get_or c "relative_humidity_2m" PNone) v3
    /\ float_or_null (get_or c "wind_speed_10m" PNone) v4
    /\ int_or_null (get_or c "wind_direction_10m" PNone) v5
    /\ float_or_null (get_or c "wind_gusts_10m" PNone) v6
    /\ int_or_null (get_or c "weather_code" PNone) v7
    /\ current_record (PDict c) =
       Ok (PDict [("temperature_c", v1); ("feels_like_c", v2);
                  ("humidity_pct", v3); ("wind_speed_kmh", v4);
                  ("wind_dir_deg", v5); ("wind_gust_kmh", v6);
                  ("weather_code", v7)]).
Proof.
  destruct (safe_float_spec (get_or c "temperature_2m" PNone)) as (v1 & E1 & S1).
  destruct (safe_float_spec (get_or c "apparent_temperature" PNone)) as (v2 & E2 & S2).
  destruct (safe_int_spec (get_or c "relative_humidity_2m" PNone)) as (v3 & E3 & S3).
  destruct (safe_float_spec (get_or c "wind_speed_10m" PNone)) as (v4 & E4 & S4).
  destruct (safe_int_spec (get_or c "wind_direction_10m" PNone)) as (v5 & E5 & S5).
  destruct (safe_float_spec (get_or c "wind_gusts_10m" PNone)) as (v6 & E6 & S6).
  destruct (safe_int_spec (get_or c "weather_code" PNone)) as (v7 & E7 & S7).
  exists v1, v2, v3, v4, v5, v6, v7.
  repeat (split; [assumption | ]).
  unfold current_record. rewrite !current_item_dict.
  rewrite E1, E2, E3, E4, E5, E6, E7. reflexivity.
Qed.

(** C1: when the [current] section of the raw response is a mapping,
    [build_json] gives each of the seven fields of its [current] record the
    float (for the int fields: the rounded integer) that the conversion
    makes of the raw field, or null when the raw field is [None] or absent
    or the conversion fails; the current part raises nothing, so that
    [build_json] goes on to the hourly and daily parts with that record.
    [_safe_float] and [_safe_int] return for every input, null included. *)
Theorem current_fields_converted_or_null
  (utcnow : datetime) (raw place_name lat lon tz : pyval)
  (d c : list (string * pyval)) :
  raw = PDict d ->
  lookup "current" d = Some (PDict c) ->
  (forall x, exists v, _safe_float x = Ok v /\ float_or_null x v)
  /\ (forall x, exists v, _safe_int x = Ok v /\ int_or_null x v)
  /\ exists v1 v2 v3 v4 v5 v6 v7,
    float_or_null (get_or c "temperature_2m" PNone) v1
    /\ float_or_null (get_or c "apparent_temperature" PNone) v2
    /\ int_or_null (get_or c "relative_humidity_2m" PNone) v3
    /\ float_or_null (get_or c "wind_speed_10m" PNone) v4
    /\ int_or_null (get_or c "wind_direction_10m" PNone) v5
    /\ float_or_null (get_or c "wind_gusts_10m" PNone) v6
    /\ int_or_null (get_or c "weather_code" PNone) v7
    /\ build_json utcnow raw place_name lat lon tz =
       (hourly <- hourly_section raw ;;
        daily <- daily_section raw ;;
        Ok (PDict [("meta", meta_record utcnow place_name lat lon tz);
                   ("current",
                    PDict [("temperature_c", v1); ("feels_like_c", v2);
                           ("humidity_pct", v3); ("wind_speed_kmh", v4);
                           ("wind_dir_deg", v5); ("wind_gust_kmh", v6);
                           ("weather_code", v7)]);
                   ("hourly", PList hourly); ("daily", PList daily)])).
Proof.
  intros -> Hc.
  split; [exact safe_float_spec | ]. split; [exact safe_int_spec | ].
  destruct (current_record_dict c)
    as (v1 & v2 & v3 & v4 & v5 & v6 & v7 & S1 & S2 & S3 & S4 & S5 & S6 & S7 & E).
  exists v1, v2, v3, v4, v5, v6, v7.
  repeat (split; [assumption | ]).
  unfold build_json, current_section, get_section, py_get, get_or.
  rewrite Hc. cbn [bind]. rewrite py_or_dict, E. reflexivity.
Qed.

Lemma current_fields_converted_or_null_witness :
  exists v1 v2 v3 v4 v5 v6 v7,
    float_or_null (PFloat f21_3) v1
    /\ float_or_null PNone v2
    /\ int_or_null (PInt 58) v3
    /\ float_or_null PNone v4
    /\ int_or_null PNone v5
    /\ float_or_null PNone v6
    /\ int_or_null (PStr "sunny") v7
    /\ build_json sample_clock (PDict sample_current_only)
         PLACE_NAME LAT LON TIMEZONE =
       Ok (PDict [("meta", meta_record sample_clock PLACE_NAME LAT LON TIMEZONE);
                  ("current",
                   PDict [("temperature_c", v1); ("feels_like_c", v2);
                          ("humidity_pct", v3); ("wind_speed_kmh", v4);
                          ("wind_dir_deg", v5); ("wind_gust_kmh", v6);
                          ("weather_code", v7)]);
                  ("hourly", PList []); ("daily", PList [])]).
Proof.
  exact (proj2 (proj2
    (current_fields_converted_or_null sample_clock
       (PDict sample_current_only) PLACE_NAME LAT LON TIMEZONE
       sample_current_only sample_current eq_refl eq_refl))).
Defined.

(** ** The error monad and the loops *)

Lemma bind_Ok {A B : Type} (c : result A) (k : A -> result B) (b : B) :
  bind c k = Ok b -> exists a, c = Ok a /\ k a = Ok b.
Proof. destruct c as [a | e]; simpl; [eauto | discriminate]. Qed.

Ltac inv_bind H :=
  repeat
    match type of H with
    | bind ?c ?k = Ok ?b =>
        let a := fresh "a" in
        let E := fresh "E" in
        let H' := fresh "H" in
        destruct (bind_Ok c k b H) as (a & E & H'); clear H; rename H' into H;
        cbv beta in H
    end.

Section MapM.
Context {A B : Type}.
Variable f : A -> result B.

Lemma mapM_length (l : list A) (bs : list B) :
  mapM f l = Ok bs -> List.length bs = List.length l.
Proof.
  revert bs. induction l as [ | a l IH]; simpl; intros bs H.
  - injection H as <-. reflexivity.
  - inv_bind H. injection H as <-. simpl. f_equal. apply IH. assumption.
Qed.

Lemma mapM_nth (l : list A) (bs : list B) (i : nat) (a : A) :
  mapM f l = Ok bs -> nth_error l i = Some a ->
  exists b, nth_error bs i = Some b /\ f a = Ok b.
Proof.
  revert bs i. induction l as [ | a0 l IH]; simpl; intros bs i H Hi.
  - destruct i; discriminate.
  - inv_bind H. injection H as <-. destruct i as [ | i]; simpl in *.
    + injection Hi as ->. eauto.
    + eapply IH; eassumption.
Qed.

Lemma mapM_total (l : list A) :
  (forall a, In a l -> exists b, f a = Ok b) -> exists bs, mapM f l = Ok bs.
Proof.
  induction l as [ | a l IH]; simpl; intros H.
  - eauto.
  - destruct (H a (or_introl eq_refl)) as [b Hb].
    destruct IH as [bs Hbs]; [intros; apply H; right; assumption | ].
    exists (b :: bs). rewrite Hb, Hbs. reflexivity.
Qed.

Lemma mapM_Forall (P : B -> Prop) (l : list A) (bs : list B) :
  (forall a b, In a l -> f a = Ok b -> P b) ->
  mapM f l = Ok bs -> Forall P bs.
Proof.
  revert bs. induction l as [ | a l IH]; simpl; intros bs HP H.
  - injection H as <-. constructor.
  - inv_bind H. injection H as <-. constructor.
    + eapply HP; [left; reflexivity | eassumption].
    + apply IH; [ | assumption]. intros; eapply HP; [right | ]; eassumption.
Qed.
End MapM.

(** ** Reading the raw arrays *)

Lemma convert_total (k : conv_kind) (x : pyval) :
  exists v, convert k x = Ok v /\ is_number_or_null v = true.
Proof.
  destruct k; simpl.
  - rewrite safe_float_eq. eexists; split; [reflexivity | ].
    eapply safe_float_number_or_null, safe_float_eq.
  - rewrite safe_int_eq. eexists; split; [reflexivity | ].
    eapply safe_int_number_or_null, safe_int_eq.
Qed.

(** What [conv(arr[i]) if i < len(arr) else None] returns when it returns. *)
Lemma bounded_item_Ok (k : conv_kind) (arr : pyval) (i : nat) (v : pyval) :
  bounded_item (convert k) arr i = Ok v ->
  exists n, py_len arr = Ok n
    /\ ((n <= i)%nat -> v = PNone)
    /\ ((i < n)%nat -> exists x, py_getitem arr i = Ok x /\ convert k x = Ok v)
    /\ is_number_or_null v = true.
Proof.
  unfold bounded_item. intros H. inv_bind H. rename a into n. exists n.
  split; [assumption | ].
  destruct (Nat.ltb_spec i n) as [Hlt | Hge].
  - inv_bind H. rename a into x.
    split; [intros; lia | ]. split; [intros _; eauto | ].
    destruct (convert_total k x) as (v' & Hv & Hnum). congruence.
  - injection H as <-. split; [reflexivity | ]. split; [intros; lia | reflexivity].
Qed.

Lemma array_like_len (arr : pyval) :
  array_like arr = true -> exists n, py_len arr = Ok n.
Proof. destruct arr; simpl; try discriminate; eauto. Qed.

Lemma string_get_lt (s : string) (i : nat) :
  (i < String.length s)%nat -> exists c, String.get i s = Some c.
Proof.
  revert i. induction s as [ | c s IH]; simpl; intros i Hi; [lia | ].
  destruct i as [ | i]; [eauto | apply IH; lia].
Qed.

Lemma array_like_getitem (arr : pyval) (n i : nat) :
  array_like arr = true -> py_len arr = Ok n -> (i < n)%nat ->
  exists x, py_getitem arr i = Ok x.
Proof.
  destruct arr; simpl; try discriminate; intros _ [= <-] Hi.
  - destruct (string_get_lt s i Hi) as [c ->]. eauto.
  - destruct (nth_error l i) eqn:E; [eauto | ].
    apply nth_error_None in E. lia.
Qed.

Lemma bounded_item_total (k : conv_kind) (arr : pyval) (i : nat) :
  array_like arr = true -> exists v, bounded_item (convert k) arr i = Ok v.
Proof.
  intros Harr. destruct (array_like_len arr Harr) as [n Hn].
  unfold bounded_item. rewrite Hn. cbn [bind].
  destruct (Nat.ltb_spec i n) as [Hlt | Hge]; [ | eauto].
  destruct (array_like_getitem arr n i Harr Hn Hlt) as [x ->]. cbn [bind].
  destruct (convert_total k x) as (v & Hv & _). eauto.
Qed.

(** The records of the two loops, field by field. *)
Lemma hourly_record_Ok (times temp feels pop wind wdir gust wcode : pyval)
  (i : nat) (r : pyval) :
  hourly_record times temp feels pop wind wdir gust wcode i = Ok r ->
  exists t v1 v2 v3 v4 v5 v6 v7,
    r = PDict [("time", t); ("temperature_c", v1); ("feels_like_c", v2);
               ("precip_prob_pct", v3); ("wind_speed_kmh", v4);
               ("wind_dir_deg", v5); ("wind_gust_kmh", v6);
               ("weather_code", v7)]
    /\ py_getitem times i = Ok t
    /\ bounded_item (convert AsFloat) temp i = Ok v1
    /\ bounded_item (convert AsFloat) feels i = Ok v2
    /\ bounded_item (convert AsInt) pop i = Ok v3
    /\ bounded_item (convert AsFloat) wind i = Ok v4
    /\ bounded_item (convert AsInt) wdir i = Ok v5
    /\ bounded_item (convert AsFloat) gust i = Ok v6
    /\ bounded_item (convert AsInt) wcode i = Ok v7.
Proof.
  unfold hourly_record. intros H. inv_bind H. injection H as <-.
  repeat eexists; eassumption.
Qed.

Lemma daily_record_Ok (d_dates tmax tmin dpop dcode : pyval) (i : nat)
  (r : pyval) :
  daily_record d_dates tmax tmin dpop dcode i = Ok r ->
  exists t v1 v2 v3 v4,
    r = PDict [("date", t); ("tmax_c", v1); ("tmin_c", v2);
               ("weather_code", v3); ("precip_prob_pct", v4)]
    /\ py_getitem d_dates i = Ok t
    /\ bounded_item (convert AsFloat) tmax i = Ok v1
    /\ bounded_item (convert AsFloat) tmin i = Ok v2
    /\ bounded_item (convert AsInt) dcode i = Ok v3
    /\ bounded_item (convert AsInt) dpop i = Ok v4.
Proof.
  unfold daily_record. intros H. inv_bind H. injection H as <-.
  repeat eexists; eassumption.
Qed.

(** ** The hourly and daily sections *)

Lemma raw_array_eq (raw s : pyval) (sect key : string) (arr : pyval) :
  get_section raw sect = Ok s -> get_array s key = Ok arr ->
  raw_array raw sect key = Ok arr.
Proof. intros Hs Ha. unfold raw_array. rewrite Hs. exact Ha. Qed.

Lemma field_follows (raw s : pyval) (sect src : string) (k : conv_kind)
  (arr : pyval) (i : nat) (v : pyval) (rec : list (string * pyval))
  (out : string) :
  get_section raw sect = Ok s -> get_array s src = Ok arr ->
  bounded_item (convert k) arr i = Ok v ->
  lookup out rec = Some v ->
  exists arr n v,
    raw_array raw sect src = Ok arr
    /\ py_len arr = Ok n
    /\ lookup out rec = Some v
    /\ is_number_or_null v = true
    /\ ((n <= i)%nat -> v = PNone)
    /\ ((i < n)%nat -> exists x, py_getitem arr i = Ok x /\ convert k x = Ok v).
Proof.
  intros Hs Ha Hb Hl.
  destruct (bounded_item_Ok k arr i v Hb) as (n & Hn & Hnull & Hin & Hnum).
  exists arr, n, v. repeat split; try assumption.
  eapply raw_array_eq; eassumption.
Qed.

Ltac next_bind H x E :=
  match type of H with
  | bind ?c _ = Ok _ =>
      destruct c as [x | ] eqn:E; [cbn [bind] in H | discriminate H]
  end.

Lemma hourly_section_Ok (raw : pyval) (hs : list pyval) :
  hourly_section raw = Ok hs ->
  exists times n,
    raw_array raw "hourly" "time" = Ok times
    /\ py_len times = Ok n
    /\ List.length hs = Nat.min 24 n
    /\ forall i, (i < Nat.min 24 n)%nat ->
       exists r, nth_error hs i = Some r
                 /\ record_follows raw "hourly" "time" hourly_fields i r.
Proof.
  unfold hourly_section. intros H.
  next_bind H h Eh. next_bind H times Et. next_bind H temp E1.
  next_bind H feels E2. next_bind H pop E3. next_bind H wind E4.
  next_bind H wdir E5. next_bind H gust E6. next_bind H wcode E7.
  next_bind H n En.
  exists times, n. split; [eapply raw_array_eq; eassumption | ].
  split; [exact En | ].
  split; [rewrite (mapM_length _ _ _ H); apply length_seq | ].
  intros i Hi.
  destruct (mapM_nth _ _ _ i i H) as (r & Hr & Hrec).
  { rewrite nth_error_seq. apply Nat.ltb_lt in Hi. rewrite Hi. reflexivity. }
  exists r. split; [exact Hr | ].
  destruct (hourly_record_Ok _ _ _ _ _ _ _ _ _ _ Hrec)
    as (t & v1 & v2 & v3 & v4 & v5 & v6 & v7 & -> & Ht
        & B1 & B2 & B3 & B4 & B5 & B6 & B7).
  eexists _, times, t. split; [reflexivity | ].
  split; [eapply raw_array_eq; eassumption | ].
  split; [assumption | ]. split; [reflexivity | ].
  intros out src k Hin. simpl in Hin.
  repeat (destruct Hin as [[= <- <- <-] | Hin];
          [eapply field_follows; try eassumption; reflexivity | ]).
  contradiction.
Qed.

Lemma daily_section_Ok (raw : pyval) (ds : list pyval) :
  daily_section raw = Ok ds ->
  exists times n,
    raw_array raw "daily" "time" = Ok times
    /\ py_len times = Ok n
    /\ List.length ds = Nat.min 7 n
    /\ forall i, (i < Nat.min 7 n)%nat ->
       exists r, nth_error ds i = Some r
                 /\ record_follows raw "daily" "date" daily_fields i r.
Proof.
  unfold daily_section. intros H.
  next_bind H d Ed. next_bind H times Et. next_bind H tmax E1.
  next_bind H tmin E2. next_bind H dpop E3. next_bind H dcode E4.
  next_bind H n En.
  exists times, n. split; [eapply raw_array_eq; eassumption | ].
  split; [exact En | ].
  split; [rewrite (mapM_length _ _ _ H); apply length_seq | ].
  intros i Hi.
  destruct (mapM_nth _ _ _ i i H) as (r & Hr & Hrec).
  { rewrite nth_error_seq. apply Nat.ltb_lt in Hi. rewrite Hi. reflexivity. }
  exists r. split; [exact Hr | ].
  destruct (daily_record_Ok _ _ _ _ _ _ _ Hrec)
    as (t & v1 & v2 & v3 & v4 & -> & Ht & B1 & B2 & B3 & B4).
  eexists _, times, t. split; [reflexivity | ].
  split; [eapply raw_array_eq; eassumption | ].
  split; [assumption | ]. split; [reflexivity | ].
  intros out src k Hin. simpl in Hin.
  repeat (destruct Hin as [[= <- <- <-] | Hin];
          [eapply field_follows; try eassumption; reflexivity | ]).
  contradiction.
Qed.

(** ** A well-shaped raw response is normalised without an exception *)

Lemma hourly_record_total (times temp feels pop wind wdir gust wcode : pyval)
  (n i : nat) :
  array_like times = true -> py_len times = Ok n -> (i < n)%nat ->
  array_like temp = true -> array_like feels = true -> array_like pop = true ->
  array_like wind = true -> array_like wdir = true -> array_like gust = true ->
  array_like wcode = true ->
  exists r, hourly_record times temp feels pop wind wdir gust wcode i = Ok r.
Proof.
  intros Ht Hn Hi H1 H2 H3 H4 H5 H6 H7. unfold hourly_record.
  destruct (array_like_getitem times n i Ht Hn Hi) as [t ->].
  destruct (bounded_item_total AsFloat temp i H1) as [v1 E1].
  destruct (bounded_item_total AsFloat feels i H2) as [v2 E2].
  destruct (bounded_item_total AsInt pop i H3) as [v3 E3].
  destruct (bounded_item_total AsFloat wind i H4) as [v4 E4].
  destruct (bounded_item_total AsInt wdir i H5) as [v5 E5].
  destruct (bounded_item_total AsFloat gust i H6) as [v6 E6].
  destruct (bounded_item_total AsInt wcode i H7) as [v7 E7].
  simpl convert in *. rewrite E1, E2, E3, E4, E5, E6, E7.
  cbn [bind]. eauto.
Qed.

Lemma daily_record_total (d_dates tmax tmin dpop dcode : pyval) (n i : nat) :
  array_like d_dates = true -> py_len d_dates = Ok n -> (i < n)%nat ->
  array_like tmax = true -> array_like tmin = true ->
  array_like dpop = true -> array_like dcode = true ->
  exists r, daily_record d_dates tmax tmin dpop dcode i = Ok r.
Proof.
  intros Ht Hn Hi H1 H2 H3 H4. unfold daily_record.
  destruct (array_like_getitem d_dates n i Ht Hn Hi) as [t ->].
  destruct (bounded_item_total AsFloat tmax i H1) as [v1 E1].
  destruct (bounded_item_total AsFloat tmin i H2) as [v2 E2].
  destruct (bounded_item_total AsInt dcode i H4) as [v3 E3].
  destruct (bounded_item_total AsInt dpop i H3) as [v4 E4].
  simpl convert in *. rewrite E1, E2, E3, E4.
  cbn [bind]. eauto.
Qed.

Lemma hourly_section_total (d : list (string * pyval)) :
  section_ok d "hourly" hourly_fields = true ->
  exists hs, hourly_section (PDict d) = Ok hs.
Proof.
  unfold section_ok, hourly_section, get_section. cbn [py_get bind].
  destruct (py_or (get_or d "hourly" (PDict [])) (PDict [])) as [ | | | | | | s];
    try discriminate.
  cbn [raw_keys hourly_fields map forallb fst snd]. unfold is_array.
  rewrite !andb_true_iff. intros (Ht & H1 & H2 & H3 & H4 & H5 & H6 & H7 & _).
  unfold get_array. cbn [py_get bind].
  destruct (array_like_len _ Ht) as [n Hn]. rewrite Hn. cbn [bind].
  apply mapM_total. intros i Hi. apply in_seq in Hi.
  eapply hourly_record_total; try eassumption. lia.
Qed.

Lemma daily_section_total (d : list (string * pyval)) :
  section_ok d "daily" daily_fields = true ->
  exists ds, daily_section (PDict d) = Ok ds.
Proof.
  unfold section_ok, daily_section, get_section. cbn [py_get bind].
  destruct (py_or (get_or d "daily" (PDict [])) (PDict [])) as [ | | | | | | s];
    try discriminate.
  cbn [raw_keys daily_fields map forallb fst snd]. unfold is_array.
  rewrite !andb_true_iff. intros (Ht & H1 & H2 & H4 & H3 & _).
  unfold get_array. cbn [py_get bind].
  destruct (array_like_len _ Ht) as [n Hn]. rewrite Hn. cbn [bind].
  apply mapM_total. intros i Hi. apply in_seq in Hi.
  eapply daily_record_total; try eassumption. lia.
Qed.

Lemma current_section_total (d : list (string * pyval)) :
  is_mapping (get_or d "current" (PDict [])) = true ->
  exists cur, current_section (PDict d) = Ok cur.
Proof.
  unfold is_mapping, current_section, get_section. cbn [py_get bind].
  destruct (py_or (get_or d "current" (PDict [])) (PDict [])) as [ | | | | | | c];
    try discriminate.
  intros _.
  destruct (current_record_dict c)
    as (v1 & v2 & v3 & v4 & v5 & v6 & v7 & _ & _ & _ & _ & _ & _ & _ & E).
  rewrite E. eauto.
Qed.

Lemma build_json_total (utcnow : datetime) (raw place_name lat lon tz : pyval) :
  well_shaped raw = true ->
  exists doc, build_json utcnow raw place_name lat lon tz = Ok doc.
Proof.
  destruct raw as [ | | | | | | d]; try discriminate. cbn [well_shaped].
  rewrite !andb_true_iff. intros [[Hc Hh] Hd].
  destruct (current_section_total d Hc) as [cur Ec].
  destruct (hourly_section_total d Hh) as [hs Eh].
  destruct (daily_section_total d Hd) as [ds Ed].
  unfold build_json. rewrite Ec, Eh, Ed. cbn [bind]. eauto.
Qed.

(** The document that [build_json] returns, section by section. *)
Lemma build_json_Ok (utcnow : datetime) (raw place_name lat lon tz doc : pyval) :
  build_json utcnow raw place_name lat lon tz = Ok doc ->
  exists cur hs ds,
    doc = PDict [("meta", meta_record utcnow place_name lat lon tz);
                 ("current", cur); ("hourly", PList hs); ("daily", PList ds)]
    /\ current_section raw = Ok cur
    /\ hourly_section raw = Ok hs
    /\ daily_section raw = Ok ds.
Proof.
  unfold build_json. intros H.
  next_bind H cur Ec. next_bind H hs Eh. next_bind H ds Ed.
  injection H as <-. exists cur, hs, ds. repeat split; reflexivity.
Qed.

(** ** The sections of the document *)

Lemma record_follows_numeric (raw : pyval) (sect label : string)
  (fields : list (string * string * conv_kind)) (i : nat) (r : pyval) :
  record_follows raw sect label fields i r ->
  numeric_fields_ok (out_keys fields) r.
Proof.
  intros (rec & times & t & -> & _ & _ & _ & Hf).
  exists rec. split; [reflexivity | ].
  intros k Hk. unfold out_keys in Hk. apply in_map_iff in Hk.
  destruct Hk as ([[out src] kind] & <- & Hin). simpl.
  destruct (Hf out src kind Hin) as (arr & n & v & _ & _ & Hl & Hnum & _).
  eauto.
Qed.

Lemma Forall_of_nth {A : Type} (P : A -> Prop) (l : list A) :
  (forall i, (i < List.length l)%nat -> exists a, nth_error l i = Some a /\ P a) ->
  Forall P l.
Proof.
  intros H. apply Forall_forall. intros a Ha.
  destruct (In_nth_error l a Ha) as [i Hi].
  destruct (H i) as (a' & Ha' & HP).
  - apply nth_error_Some. congruence.
  - congruence.
Qed.

Lemma float_or_null_numeric (x v : pyval) :
  float_or_null x v -> is_number_or_null v = true.
Proof. intros [(f & _ & _ & ->) | [_ ->]]; reflexivity. Qed.

Lemma int_or_null_numeric (x v : pyval) :
  int_or_null x v -> is_number_or_null v = true.
Proof. intros [(f & n & _ & _ & _ & ->) | [_ ->]]; reflexivity. Qed.

Lemma current_record_mapping (s cur : pyval) :
  current_record s = Ok cur -> exists c, s = PDict c.
Proof.
  destruct s as [ | | | | | | c]; try discriminate. eauto.
Qed.

Lemma current_section_numeric (raw cur : pyval) :
  current_section raw = Ok cur ->
  numeric_fields_ok (out_keys current_fields) cur.
Proof.
  unfold current_section. intros H. next_bind H s Es.
  destruct (current_record_mapping s cur H) as [c ->].
  destruct (current_record_dict c)
    as (v1 & v2 & v3 & v4 & v5 & v6 & v7 & S1 & S2 & S3 & S4 & S5 & S6 & S7 & E).
  rewrite E in H. injection H as <-.
  eexists. split; [reflexivity | ].
  intros k Hk. simpl in Hk.
  repeat (destruct Hk as [<- | Hk];
          [eexists; split; [reflexivity | ];
           first [eapply float_or_null_numeric; eassumption
                 | eapply int_or_null_numeric; eassumption] | ]).
  contradiction.
Qed.

(** C5: in a document that [build_json] returns, every numeric field of
    the [current] record, of every [hourly] record and of every [daily]
    record is present and holds a float, an integer or null; and for every
    well-shaped raw response [build_json] does return a document. *)
Theorem numeric_fields_are_numbers_or_null
  (utcnow : datetime) (raw place_name lat lon tz : pyval) :
  (well_shaped raw = true ->
   exists doc, build_json utcnow raw place_name lat lon tz = Ok doc)
  /\ (forall doc,
        build_json utcnow raw place_name lat lon tz = Ok doc ->
        exists cur hs ds,
          doc = PDict [("meta", meta_record utcnow place_name lat lon tz);
                       ("current", cur); ("hourly", PList hs);
                       ("daily", PList ds)]
          /\ numeric_fields_ok (out_keys current_fields) cur
          /\ Forall (numeric_fields_ok (out_keys hourly_fields)) hs
          /\ Forall (numeric_fields_ok (out_keys daily_fields)) ds).
Proof.
  split; [apply build_json_total | ].
  intros doc H.
  destruct (build_json_Ok _ _ _ _ _ _ _ H) as (cur & hs & ds & -> & Ec & Eh & Ed).
  exists cur, hs, ds. split; [reflexivity | ].
  split; [eapply current_section_numeric; eassumption | ].
  destruct (hourly_section_Ok raw hs Eh) as (th & nh & _ & _ & Lh & Fh).
  destruct (daily_section_Ok raw ds Ed) as (td & nd & _ & _ & Ld & Fd).
  split; apply Forall_of_nth; intros i Hi.
  - destruct (Fh i ltac:(lia)) as (r & Hr & Hfol).
    exists r. split; [assumption | eapply record_follows_numeric; eassumption].
  - destruct (Fd i ltac:(lia)) as (r & Hr & Hfol).
    exists r. split; [assumption | eapply record_follows_numeric; eassumption].
Qed.

Lemma numeric_fields_are_numbers_or_null_witness :
  (exists doc,
      build_json sample_clock sample_raw PLACE_NAME LAT LON TIMEZONE = Ok doc)
  /\ exists cur hs ds,
       sample_document =
       PDict [("meta", meta_record sample_clock PLACE_NAME LAT LON TIMEZONE);
              ("current", cur); ("hourly", PList hs); ("daily", PList ds)]
       /\ numeric_fields_ok (out_keys current_fields) cur
       /\ Forall (numeric_fields_ok (out_keys hourly_fields)) hs
       /\ Forall (numeric_fields_ok (out_keys daily_fields)) ds.
Proof.
  split.
  - apply (proj1 (numeric_fields_are_numbers_or_null sample_clock sample_raw
                    PLACE_NAME LAT LON TIMEZONE)).
    reflexivity.
  - apply (proj2 (numeric_fields_are_numbers_or_null sample_clock sample_raw
                    PLACE_NAME LAT LON TIMEZONE) sample_document).
    reflexivity.
Defined.

(** ** Lengths of the hourly and daily lists *)

Lemma get_array_mapping (s arr : pyval) (k : string) :
  get_array s k = Ok arr -> exists sd, s = PDict sd.
Proof. destruct s; try discriminate. eauto. Qed.

Lemma hourly_section_empty (raw : pyval) :
  raw_array raw "hourly" "time" = Ok (PList []) -> hourly_section raw = Ok [].
Proof.
  unfold raw_array, hourly_section. intros H. next_bind H h Eh.
  destruct (get_array_mapping _ _ _ H) as [sd ->]. cbn [bind]. rewrite H.
  reflexivity.
Qed.

Lemma daily_section_empty (raw : pyval) :
  raw_array raw "daily" "time" = Ok (PList []) -> daily_section raw = Ok [].
Proof.
  unfold raw_array, daily_section. intros H. next_bind H h Eh.
  destruct (get_array_mapping _ _ _ H) as [sd ->]. cbn [bind]. rewrite H.
  reflexivity.
Qed.

(** A mapping with a key is not empty, so [or {}] keeps it. *)
Lemma lookup_truthy (k : string) (h : list (string * pyval)) (v : pyval) :
  lookup k h = Some v -> truthy (PDict h) = true.
Proof. destruct h; [discriminate | reflexivity]. Qed.

(** What the code reads under [key] in a section that the raw mapping
    holds as a mapping with some key. *)
Lemma raw_array_section (d h : list (string * pyval)) (sect key : string) :
  lookup sect d = Some (PDict h) -> truthy (PDict h) = true ->
  raw_array (PDict d) sect key
  = Ok (py_or (get_or h key (PList [])) (PList [])).
Proof.
  intros Hs Ht. unfold raw_array, get_section, get_array, py_get, get_or.
  rewrite Hs. cbn [bind]. unfold py_or at 1. rewrite Ht. reflexivity.
Qed.

Lemma raw_array_list (d h : list (string * pyval)) (sect key : string)
    (l : list pyval) :
  lookup sect d = Some (PDict h) -> lookup key h = Some (PList l) ->
  raw_array (PDict d) sect key = Ok (PList l).
Proof.
  intros Hs Hk.
  rewrite (raw_array_section d h sect key Hs (lookup_truthy key h _ Hk)).
  unfold get_or. rewrite Hk. destruct l; reflexivity.
Qed.

Lemma raw_array_absent (d h : list (string * pyval)) (sect key : string) :
  lookup sect d = Some (PDict h) -> truthy (PDict h) = true ->
  absent_or_falsy h key = true ->
  raw_array (PDict d) sect key = Ok (PList []).
Proof.
  intros Hs Ht Ha. rewrite (raw_array_section d h sect key Hs Ht).
  unfold absent_or_falsy in Ha. unfold get_or, py_or.
  destruct (lookup key h) as [v | ]; [ | reflexivity].
  apply negb_true_iff in Ha. rewrite Ha. reflexivity.
Qed.

(** C2: for a raw mapping that holds under [hourly] a mapping whose [time]
    is a list, the [hourly] list of the document has [min(24, len(time))]
    records, and likewise the [daily] list has [min(7, len(time))] for the
    list under [daily]; [build_json] returns a document for every
    well-shaped raw response; and when both [time] lists are empty (and
    [current] is a mapping, or absent or falsy) it returns one with
    [hourly == []] and [daily == []], whatever the other raw fields hold. *)
Theorem section_lengths
  (utcnow : datetime) (raw place_name lat lon tz : pyval)
  (d : list (string * pyval)) :
  raw = PDict d ->
  (well_shaped raw = true ->
   exists doc, build_json utcnow raw place_name lat lon tz = Ok doc)
  /\ (forall doc,
        build_json utcnow raw place_name lat lon tz = Ok doc ->
        exists hs ds,
          py_get doc "hourly" PNone = Ok (PList hs)
          /\ py_get doc "daily" PNone = Ok (PList ds)
          /\ (forall h times,
                lookup "hourly" d = Some (PDict h) ->
                lookup "time" h = Some (PList times) ->
                List.length hs = Nat.min 24 (List.length times))
          /\ (forall h times,
                lookup "daily" d = Some (PDict h) ->
                lookup "time" h = Some (PList times) ->
                List.length ds = Nat.min 7 (List.length times)))
  /\ (forall h h',
        is_mapping (get_or d "current" (PDict [])) = true ->
        lookup "hourly" d = Some (PDict h) ->
        lookup "time" h = Some (PList []) ->
        lookup "daily" d = Some (PDict h') ->
        lookup "time" h' = Some (PList []) ->
        exists doc,
          build_json utcnow raw place_name lat lon tz = Ok doc
          /\ py_get doc "hourly" PNone = Ok (PList [])
          /\ py_get doc "daily" PNone = Ok (PList [])).
Proof.
  intros ->. split; [apply build_json_total | ]. split.
  - intros doc H.
    destruct (build_json_Ok _ _ _ _ _ _ _ H) as (cur & hs & ds & -> & Ec & Eh & Ed).
    destruct (hourly_section_Ok _ hs Eh) as (th & nh & Hth & Hnh & Lh & _).
    destruct (daily_section_Ok _ ds Ed) as (td & nd & Htd & Hnd & Ld & _).
    exists hs, ds. split; [reflexivity | ]. split; [reflexivity | ]. split.
    + intros h times Hs Ht.
      rewrite (raw_array_list d h "hourly" "time" times Hs Ht) in Hth.
      injection Hth as <-. cbn [py_len] in Hnh. injection Hnh as <-.
      exact Lh.
    + intros h times Hs Ht.
      rewrite (raw_array_list d h "daily" "time" times Hs Ht) in Htd.
      injection Htd as <-. cbn [py_len] in Hnd. injection Hnd as <-.
      exact Ld.
  - intros h h' Hc Hh Hth Hd Htd.
    destruct (current_section_total d Hc) as [cur Ec].
    unfold build_json.
    rewrite Ec,
      (hourly_section_empty _ (raw_array_list d h "hourly" "time" [] Hh Hth)),
      (daily_section_empty _ (raw_array_list d h' "daily" "time" [] Hd Htd)).
    cbn [bind]. eexists. repeat split.
Qed.

Lemma section_lengths_witness :
  (exists doc,
      build_json sample_clock sample_raw PLACE_NAME LAT LON TIMEZONE = Ok doc)
  /\ (exists hs ds,
         py_get sample_document "hourly" PNone = Ok (PList hs)
         /\ py_get sample_document "daily" PNone = Ok (PList ds)
         /\ List.length hs = 3%nat
         /\ List.length ds = 2%nat)
  /\ (exists doc,
         build_json sample_clock sample_empty_times PLACE_NAME LAT LON TIMEZONE
         = Ok doc
         /\ py_get doc "hourly" PNone = Ok (PList [])
         /\ py_get doc "daily" PNone = Ok (PList [])).
Proof.
  split; [ | split].
  - apply (proj1 (section_lengths sample_clock sample_raw
                    PLACE_NAME LAT LON TIMEZONE _ eq_refl)).
    reflexivity.
  - destruct (proj1 (proj2 (section_lengths sample_clock sample_raw
                              PLACE_NAME LAT LON TIMEZONE _ eq_refl))
                sample_document eq_refl)
      as (hs & ds & Hh & Hd & Lh & Ld).
    exists hs, ds. split; [exact Hh | ]. split; [exact Hd | ]. split.
    + apply (Lh _ _ eq_refl eq_refl).
    + apply (Ld _ _ eq_refl eq_refl).
  - eapply (proj2 (proj2 (section_lengths sample_clock sample_empty_times
                            PLACE_NAME LAT LON TIMEZONE _ eq_refl)));
      reflexivity.
Defined.

(** ** Measurement arrays shorter than the time array *)

(** A record that follows what the code reads of a section follows the
    lists that the raw mapping holds there. *)
Lemma record_follows_reads (d h : list (string * pyval)) (times : list pyval)
    (sect label : string) (fields : list (string * string * conv_kind))
    (i : nat) (r : pyval) :
  lookup sect d = Some (PDict h) -> lookup "time" h = Some (PList times) ->
  record_follows (PDict d) sect label fields i r ->
  record_reads h times label fields i r.
Proof.
  intros Hs Ht (rec & tv & t & -> & Htv & Hi & Hl & Hf).
  rewrite (raw_array_list d h sect "time" times Hs Ht) in Htv.
  injection Htv as <-. cbn [py_getitem] in Hi.
  exists rec, t. split; [reflexivity | ]. split.
  { destruct (nth_error times i); [congruence | discriminate Hi]. }
  split; [exact Hl | ].
  intros out src k Hin.
  destruct (Hf out src k Hin) as (arr & n & v & Ha & Hn & Hv & _ & Hnull & Hitem).
  pose proof (lookup_truthy "time" h _ Ht) as Tr.
  split.
  - intros Habs. rewrite (raw_array_absent d h sect src Hs Tr Habs) in Ha.
    injection Ha as <-. cbn [py_len] in Hn. injection Hn as <-.
    rewrite Hv, (Hnull ltac:(cbn; lia)). reflexivity.
  - intros l Hl'. rewrite (raw_array_list d h sect src l Hs Hl') in Ha.
    injection Ha as <-. cbn [py_len] in Hn. injection Hn as <-. split.
    + intros Hle. rewrite Hv, (Hnull Hle). reflexivity.
    + intros Hlt. destruct (Hitem Hlt) as (x & Hx & Hc).
      cbn [py_getitem] in Hx.
      destruct (nth_error l i) as [y | ] eqn:Ey; [ | discriminate Hx].
      injection Hx as ->. exists x, v. repeat split; assumption.
Qed.

(** C3: for a raw mapping that holds under [hourly] (or [daily]) a mapping
    [h] whose [time] is a list, the document has at every index [i] below
    [min(24, len(time))] (or [min(7, len(time))]) a record that reads [h]:
    its label is [time[i]]; a field whose raw array is a list of length at
    most [i] is null, as is one whose raw array is absent or falsy; a field
    whose raw array is a longer list is the coercion of the item [i] of
    that list.  The lists need not be as long as [time].  For every
    well-shaped raw response [build_json] returns a document: nothing is
    read out of bounds and nothing is raised. *)
Theorem short_arrays_yield_null
  (utcnow : datetime) (raw place_name lat lon tz : pyval)
  (d : list (string * pyval)) :
  raw = PDict d ->
  (well_shaped raw = true ->
   exists doc, build_json utcnow raw place_name lat lon tz = Ok doc)
  /\ (forall doc,
        build_json utcnow raw place_name lat lon tz = Ok doc ->
        exists hs ds,
          py_get doc "hourly" PNone = Ok (PList hs)
          /\ py_get doc "daily" PNone = Ok (PList ds)
          /\ (forall h times i,
                lookup "hourly" d = Some (PDict h) ->
                lookup "time" h = Some (PList times) ->
                (i < Nat.min 24 (List.length times))%nat ->
                exists r, nth_error hs i = Some r
                  /\ record_reads h times "time" hourly_fields i r)
          /\ (forall h times i,
                lookup "daily" d = Some (PDict h) ->
                lookup "time" h = Some (PList times) ->
                (i < Nat.min 7 (List.length times))%nat ->
                exists r, nth_error ds i = Some r
                  /\ record_reads h times "date" daily_fields i r)).
Proof.
  intros ->. split; [apply build_json_total | ].
  intros doc H.
  destruct (build_json_Ok _ _ _ _ _ _ _ H) as (cur & hs & ds & -> & Ec & Eh & Ed).
  destruct (hourly_section_Ok _ hs Eh) as (th & nh & Hth & Hnh & _ & Fh).
  destruct (daily_section_Ok _ ds Ed) as (td & nd & Htd & Hnd & _ & Fd).
  exists hs, ds. split; [reflexivity | ]. split; [reflexivity | ]. split.
  - intros h times i Hs Ht Hi.
    rewrite (raw_array_list d h "hourly" "time" times Hs Ht) in Hth.
    injection Hth as <-. cbn [py_len] in Hnh. injection Hnh as <-.
    destruct (Fh i Hi) as (r & Hr & Hfol).
    exists r. split; [exact Hr | ].
    apply (record_follows_reads d h times "hourly" _ _ i r Hs Ht Hfol).
  - intros h times i Hs Ht Hi.
    rewrite (raw_array_list d h "daily" "time" times Hs Ht) in Htd.
    injection Htd as <-. cbn [py_len] in Hnd. injection Hnd as <-.
    destruct (Fd i Hi) as (r & Hr & Hfol).
    exists r. split; [exact Hr | ].
    apply (record_follows_reads d h times "daily" _ _ i r Hs Ht Hfol).
Qed.

(** In the sample response [time] has three hours, [temperature_2m] two
    items and [weather_code] one: the third record has both fields null,
    and the second has the second temperature. *)
Lemma short_arrays_yield_null_witness :
  (exists doc,
      build_json sample_clock sample_raw PLACE_NAME LAT LON TIMEZONE = Ok doc)
  /\ (exists hs r2 r1,
         py_get sample_document "hourly" PNone = Ok (PList hs)
         /\ nth_error hs 2 = Some (PDict r2)
         /\ lookup "time" r2 = Some (PStr "2026-01-28T19:00")
         /\ lookup "temperature_c" r2 = Some PNone
         /\ lookup "weather_code" r2 = Some PNone
         /\ lookup "feels_like_c" r2 = Some PNone
         /\ nth_error hs 1 = Some (PDict r1)
         /\ lookup "weather_code" r1 = Some PNone
         /\ exists v, _safe_float (PStr "20.5") = Ok v
                      /\ lookup "temperature_c" r1 = Some v).
Proof.
  split.
  - apply (proj1 (short_arrays_yield_null sample_clock sample_raw
                    PLACE_NAME LAT LON TIMEZONE _ eq_refl)).
    reflexivity.
  - destruct (proj2 (short_arrays_yield_null sample_clock sample_raw
                       PLACE_NAME LAT LON TIMEZONE _ eq_refl)
                sample_document eq_refl)
      as (hs & ds & Hh & _ & Fh & _).
    destruct (Fh _ _ 2%nat eq_refl eq_refl ltac:(cbn; lia))
      as (x2 & N2 & rec2 & t2 & -> & T2 & L2 & F2).
    destruct (Fh _ _ 1%nat eq_refl eq_refl ltac:(cbn; lia))
      as (x1 & N1 & rec1 & t1 & -> & T1 & L1 & F1).
    exists hs, rec2, rec1.
    split; [exact Hh | ]. split; [exact N2 | ].
    split; [rewrite L2, <- T2; reflexivity | ].
    split.
    { apply (proj1 (proj2 (F2 "temperature_c" "temperature_2m" AsFloat
                             ltac:(cbn; tauto)) _ eq_refl)).
      cbn. lia. }
    split.
    { apply (proj1 (proj2 (F2 "weather_code" "weather_code" AsInt
                             ltac:(cbn; tauto)) _ eq_refl)).
      cbn. lia. }
    split.
    { apply (proj1 (F2 "feels_like_c" "apparent_temperature" AsFloat
                      ltac:(cbn; tauto))).
      reflexivity. }
    split; [exact N1 | ].
    split.
    { apply (proj1 (proj2 (F1 "weather_code" "weather_code" AsInt
                             ltac:(cbn; tauto)) _ eq_refl)).
      cbn. lia. }
    destruct (proj2 (proj2 (F1 "temperature_c" "temperature_2m" AsFloat
                              ltac:(cbn; tauto)) _ eq_refl) ltac:(cbn; lia))
      as (x & v & Hx & Hc & Hv).
    exists v. split; [ | exact Hv].
    injection Hx as <-. exact Hc.
Defined.

(** ** Absent and null sections *)

Lemma absent_section (d : list (string * pyval)) (k : string) :
  absent_or_falsy d k = true ->
  py_or (get_or d k (PDict [])) (PDict []) = PDict [].
Proof.
  unfold absent_or_falsy, get_or, py_or.
  destruct (lookup k d) as [v | ]; [ | reflexivity].
  intros H. apply negb_true_iff in H. rewrite H. reflexivity.
Qed.

Lemma absent_current (d : list (string * pyval)) :
  absent_or_falsy d "current" = true ->
  current_section (PDict d) = Ok null_current.
Proof.
  intros H. unfold current_section, get_section. cbn [py_get bind].
  rewrite (absent_section d _ H). reflexivity.
Qed.

Lemma absent_hourly (d : list (string * pyval)) :
  absent_or_falsy d "hourly" = true -> hourly_section (PDict d) = Ok [].
Proof.
  intros H. unfold hourly_section, get_section. cbn [py_get bind].
  rewrite (absent_section d _ H). reflexivity.
Qed.

Lemma absent_daily (d : list (string * pyval)) :
  absent_or_falsy d "daily" = true -> daily_section (PDict d) = Ok [].
Proof.
  intros H. unfold daily_section, get_section. cbn [py_get bind].
  rewrite (absent_section d _ H). reflexivity.
Qed.

(** C9: for a raw mapping, a [current] key that is absent or maps to null
    or another falsy value gives the [current] record with its seven fields
    null, and an absent or falsy [hourly] or [daily] key gives the empty
    list for that section, without an exception from that part;
    [build_json] returns a document whenever the raw response is
    well-shaped, which absent and falsy sections are, and with all three
    sections absent or falsy it returns the null record and two empty
    lists. *)
Theorem absent_sections_are_defaulted
  (utcnow : datetime) (raw place_name lat lon tz : pyval)
  (d : list (string * pyval)) :
  raw = PDict d ->
  (absent_or_falsy d "current" = true -> current_section raw = Ok null_current)
  /\ (absent_or_falsy d "hourly" = true -> hourly_section raw = Ok [])
  /\ (absent_or_falsy d "daily" = true -> daily_section raw = Ok [])
  /\ (well_shaped raw = true ->
      exists doc, build_json utcnow raw place_name lat lon tz = Ok doc)
  /\ (forall doc,
        build_json utcnow raw place_name lat lon tz = Ok doc ->
        (absent_or_falsy d "current" = true ->
         py_get doc "current" PNone = Ok null_current)
        /\ (absent_or_falsy d "hourly" = true ->
            py_get doc "hourly" PNone = Ok (PList []))
        /\ (absent_or_falsy d "daily" = true ->
            py_get doc "daily" PNone = Ok (PList [])))
  /\ (absent_or_falsy d "current" = true ->
      absent_or_falsy d "hourly" = true ->
      absent_or_falsy d "daily" = true ->
      build_json utcnow raw place_name lat lon tz =
      Ok (PDict [("meta", meta_record utcnow place_name lat lon tz);
                 ("current", null_current);
                 ("hourly", PList []); ("daily", PList [])])).
Proof.
  intros ->.
  split; [apply absent_current | ]. split; [apply absent_hourly | ].
  split; [apply absent_daily | ]. split; [apply build_json_total | ].
  split.
  - intros doc H.
    destruct (build_json_Ok _ _ _ _ _ _ _ H) as (cur & hs & ds & -> & Ec & Eh & Ed).
    repeat split; intros Ha.
    + rewrite (absent_current d Ha) in Ec. injection Ec as <-. reflexivity.
    + rewrite (absent_hourly d Ha) in Eh. injection Eh as <-. reflexivity.
    + rewrite (absent_daily d Ha) in Ed. injection Ed as <-. reflexivity.
  - intros Hc Hh Hd. unfold build_json.
    rewrite (absent_current d Hc), (absent_hourly d Hh), (absent_daily d Hd).
    reflexivity.
Qed.

Lemma absent_sections_are_defaulted_witness :
  current_section (PDict sample_partial) = Ok null_current
  /\ hourly_section (PDict sample_partial) = Ok []
  /\ (exists doc,
         build_json sample_clock (PDict sample_partial)
           PLACE_NAME LAT LON TIMEZONE = Ok doc)
  /\ build_json sample_clock (PDict [("hourly", PDict [])])
       PLACE_NAME LAT LON TIMEZONE =
     Ok (PDict [("meta", meta_record sample_clock PLACE_NAME LAT LON TIMEZONE);
                ("current", null_current);
                ("hourly", PList []); ("daily", PList [])]).
Proof.
  pose proof (absent_sections_are_defaulted sample_clock (PDict sample_partial)
                PLACE_NAME LAT LON TIMEZONE sample_partial eq_refl)
    as (Hc & Hh & _ & Htot & _).
  split; [apply Hc; reflexivity | ].
  split; [apply Hh; reflexivity | ].
  split; [apply Htot; reflexivity | ].
  apply (absent_sections_are_defaulted sample_clock
           (PDict [("hourly", PDict [])]) PLACE_NAME LAT LON TIMEZONE
           [("hourly", PDict [])] eq_refl); reflexivity.
Defined.

(** ** The clock *)

(** C6 (as amended): [build_json] is a function of the raw response, the
    metadata and the reading of the UTC clock: with the same arguments, two
    invocations at clock readings that agree to the second return the same
    result; at any two clock readings they raise the same exception or
    return documents with the same [current], [hourly] and [daily] sections
    and the same [meta] apart from [generated_utc]. *)
Theorem build_json_determined_up_to_timestamp
  (t1 t2 : datetime) (raw place_name lat lon tz : pyval) :
  (_now_utc_iso t1 = _now_utc_iso t2 ->
   build_json t1 raw place_name lat lon tz
   = build_json t2 raw place_name lat lon tz)
  /\ (forall e,
        build_json t1 raw place_name lat lon tz = Raise e ->
        build_json t2 raw place_name lat lon tz = Raise e)
  /\ (forall doc1,
        build_json t1 raw place_name lat lon tz = Ok doc1 ->
        exists doc2 m1 m2,
          build_json t2 raw place_name lat lon tz = Ok doc2
          /\ py_get doc1 "current" PNone = py_get doc2 "current" PNone
          /\ py_get doc1 "hourly" PNone = py_get doc2 "hourly" PNone
          /\ py_get doc1 "daily" PNone = py_get doc2 "daily" PNone
          /\ py_get doc1 "meta" PNone = Ok (PDict m1)
          /\ py_get doc2 "meta" PNone = Ok (PDict m2)
          /\ lookup "generated_utc" m1 = Some (PStr (_now_utc_iso t1))
          /\ lookup "generated_utc" m2 = Some (PStr (_now_utc_iso t2))
          /\ forall k, k <> "generated_utc" -> lookup k m1 = lookup k m2).
Proof.
  unfold build_json, meta_record.
  destruct (current_section raw) as [cur | e1]; cbn [bind].
  2: { split; [reflexivity | ]. split; [tauto | discriminate]. }
  destruct (hourly_section raw) as [hs | e2]; cbn [bind].
  2: { split; [reflexivity | ]. split; [tauto | discriminate]. }
  destruct (daily_section raw) as [ds | e3]; cbn [bind].
  2: { split; [reflexivity | ]. split; [tauto | discriminate]. }
  split; [intros ->; reflexivity | ]. split; [discriminate | ].
  intros doc1 [= <-]. eexists _, _, _.
  split; [reflexivity | ]. repeat (split; [reflexivity | ]).
  intros k Hk. cbn [lookup].
  repeat (destruct (String.eqb k _); [reflexivity | ]).
  destruct (String.eqb_spec k "generated_utc"); [contradiction | reflexivity].
Qed.

Lemma build_json_determined_up_to_timestamp_witness :
  build_json sample_clock sample_raw PLACE_NAME LAT LON TIMEZONE
  = build_json (Build_datetime 2026 1 28 17 0 0 999)
      sample_raw PLACE_NAME LAT LON TIMEZONE
  /\ exists doc2 m1 m2,
       build_json later_clock sample_raw PLACE_NAME LAT LON TIMEZONE = Ok doc2
       /\ py_get sample_document "current" PNone = py_get doc2 "current" PNone
       /\ py_get sample_document "hourly" PNone = py_get doc2 "hourly" PNone
       /\ py_get sample_document "daily" PNone = py_get doc2 "daily" PNone
       /\ py_get sample_document "meta" PNone = Ok (PDict m1)
       /\ py_get doc2 "meta" PNone = Ok (PDict m2)
       /\ lookup "generated_utc" m1 = Some (PStr (_now_utc_iso sample_clock))
       /\ lookup "generated_utc" m2 = Some (PStr (_now_utc_iso later_clock))
       /\ forall k, k <> "generated_utc" -> lookup k m1 = lookup k m2.
Proof.
  split.
  - apply (proj1 (build_json_determined_up_to_timestamp sample_clock
                    (Build_datetime 2026 1 28 17 0 0 999)
                    sample_raw PLACE_NAME LAT LON TIMEZONE)).
    reflexivity.
  - apply (proj2 (proj2 (build_json_determined_up_to_timestamp sample_clock
                           later_clock sample_raw PLACE_NAME LAT LON TIMEZONE))
             sample_document).
    reflexivity.
Defined.

(** C6, refuted as stated: the same arguments at two clock readings one
    second apart give two different documents. *)
Lemma build_json_depends_on_the_clock :
  build_json sample_clock sample_raw PLACE_NAME LAT LON TIMEZONE
  <> build_json later_clock sample_raw PLACE_NAME LAT LON TIMEZONE.
Proof. vm_compute. discriminate. Qed.

(** ** The driver *)

Lemma main_try_fetch_fails (env : environment) (w : world) (e : pyexc) :
  fetch_open_meteo env LAT LON TIMEZONE = Raise e ->
  main_try env w = (w, Raise e).
Proof. intros H. unfold main_try. rewrite H. reflexivity. Qed.

Lemma main_try_build_fails (env : environment) (w : world) (raw : pyval)
  (e : pyexc) :
  fetch_open_meteo env LAT LON TIMEZONE = Ok raw ->
  build_json (clock env) raw PLACE_NAME LAT LON TIMEZONE = Raise e ->
  main_try env w = (w, Raise e).
Proof. intros H1 H2. unfold main_try. rewrite H1, H2. reflexivity. Qed.

(** The files change only in a run whose fetch and normalisation both
    succeeded, and only [OUTFILE] does. *)
Lemma main_try_files (env : environment) (w : world) (name : string) :
  files (fst (main_try env w)) name <> files w name ->
  name = OUTFILE
  /\ exists raw out,
       fetch_open_meteo env LAT LON TIMEZONE = Ok raw
       /\ build_json (clock env) raw PLACE_NAME LAT LON TIMEZONE = Ok out.
Proof.
  unfold main_try.
  destruct (fetch_open_meteo env LAT LON TIMEZONE) as [raw | e] eqn:Hf;
    [ | intros H; contradiction H; reflexivity].
  destruct (build_json (clock env) raw PLACE_NAME LAT LON TIMEZONE)
    as [out | e] eqn:Hb;
    [ | intros H; contradiction H; reflexivity].
  intros H. split; [ | exists raw, out; split; [reflexivity | exact Hb]].
  unfold write_outfile in H.
  destruct (open_error env); [contradiction H; reflexivity | ].
  destruct (write_error env) as [[n e] | ]; cbn in H;
    destruct (String.eqb_spec name OUTFILE); try assumption;
    contradiction H; reflexivity.
Qed.

Lemma main_files (env : environment) (w : world) (name : string) :
  files (fst (main env w)) name = files (fst (main_try env w)) name.
Proof.
  unfold main. destruct (main_try env w) as [w1 [u | e]]; [reflexivity | ].
  destruct (is_Exception e); reflexivity.
Qed.

(** C8: [main] exits with status 0 when the fetch, the normalisation and
    the write all succeed, with the document in the output file; whenever
    the [try] body raises an exception that [except Exception] catches, it
    prints [ERROR: ] and the message on the diagnostic stream and exits with
    status 1; when the fetch fails, as on a response with status 500, or
    the normalisation fails, no file is touched: a file changes only in a
    run whose fetch and normalisation succeeded. *)
Theorem main_exit_codes (env : environment) (w : world) :
  (forall raw out,
      fetch_open_meteo env LAT LON TIMEZONE = Ok raw ->
      build_json (clock env) raw PLACE_NAME LAT LON TIMEZONE = Ok out ->
      open_error env = None -> write_error env = None ->
      exit_status (snd (main env w)) = Some 0
      /\ files (fst (main env w)) OUTFILE = Some (json_dumps out)
      /\ stdout (fst (main env w)) = (stdout w ++ line "Wrote weather.json")%string
      /\ stderr (fst (main env w)) = stderr w)
  /\ (forall e,
        snd (main_try env w) = Raise e -> is_Exception e = true ->
        exit_status (snd (main env w)) = Some 1
        /\ stderr (fst (main env w))
           = (stderr w ++ line ("ERROR: " ++ exc_text env e))%string)
  /\ (forall e,
        fetch_open_meteo env LAT LON TIMEZONE = Raise e ->
        forall name, files (fst (main env w)) name = files w name)
  /\ (forall r,
        http_get env "https://api.open-meteo.com/v1/forecast"
          (request_params LAT LON TIMEZONE) 25 = Ok r ->
        status_code r = 500 ->
        exit_status (snd (main env w)) = Some 1
        /\ (forall name, files (fst (main env w)) name = files w name)
        /\ stderr (fst (main env w))
           = (stderr w ++ line ("ERROR: " ++ exc_text env HTTPError))%string)
  /\ (forall raw e,
        fetch_open_meteo env LAT LON TIMEZONE = Ok raw ->
        build_json (clock env) raw PLACE_NAME LAT LON TIMEZONE = Raise e ->
        forall name, files (fst (main env w)) name = files w name)
  /\ (forall name,
        files (fst (main env w)) name <> files w name ->
        name = OUTFILE
        /\ exists raw out,
             fetch_open_meteo env LAT LON TIMEZONE = Ok raw
             /\ build_json (clock env) raw PLACE_NAME LAT LON TIMEZONE = Ok out).
Proof.
  split; [ | split; [ | split; [ | split; [ | split]]]].
  - intros raw out Hf Hb Ho Hw. unfold main, main_try, write_outfile.
    rewrite Hf, Hb, Ho, Hw. cbn. repeat split; reflexivity.
  - intros e He Hexc. unfold main.
    destruct (main_try env w) as [w1 r] eqn:Hm. cbn [snd] in He. subst r.
    rewrite Hexc. cbn. split; [reflexivity | ]. f_equal.
    (* the streams are left alone by the [try] body when it raises *)
    unfold main_try in Hm.
    destruct (fetch_open_meteo env LAT LON TIMEZONE) as [raw | e1];
      [ | injection Hm as <- _; reflexivity].
    destruct (build_json (clock env) raw PLACE_NAME LAT LON TIMEZONE) as [out | e2];
      [ | injection Hm as <- _; reflexivity].
    unfold write_outfile in Hm.
    destruct (open_error env); [injection Hm as <- _; reflexivity | ].
    destruct (write_error env) as [[n e3] | ]; [ | discriminate Hm].
    injection Hm as <- _. reflexivity.
  - intros e Hf name. rewrite main_files, (main_try_fetch_fails env w e Hf).
    reflexivity.
  - intros r Hr H500.
    assert (Hf : fetch_open_meteo env LAT LON TIMEZONE = Raise HTTPError).
    { unfold fetch_open_meteo. rewrite Hr. cbn [bind].
      unfold raise_for_status. rewrite H500. reflexivity. }
    split; [ | split].
    + unfold main. rewrite (main_try_fetch_fails env w _ Hf). reflexivity.
    + intros name. rewrite main_files, (main_try_fetch_fails env w _ Hf).
      reflexivity.
    + unfold main. rewrite (main_try_fetch_fails env w _ Hf). reflexivity.
  - intros raw e Hf Hb name.
    rewrite main_files, (main_try_build_fails env w raw e Hf Hb). reflexivity.
  - intros name H. rewrite main_files in H. exact (main_try_files env w name H).
Qed.

Lemma main_exit_codes_witness :
  (exit_status (snd (main env_ok empty_world)) = Some 0
   /\ files (fst (main env_ok empty_world)) OUTFILE
      = Some (json_dumps sample_document)
   /\ stdout (fst (main env_ok empty_world))
      = (stdout empty_world ++ line "Wrote weather.json")%string
   /\ stderr (fst (main env_ok empty_world)) = stderr empty_world)
  /\ (exit_status (snd (main env_http_500 empty_world)) = Some 1
      /\ (forall name,
             files (fst (main env_http_500 empty_world)) name
             = files empty_world name)
      /\ stderr (fst (main env_http_500 empty_world))
         = (stderr empty_world
            ++ line ("ERROR: " ++ exc_text env_http_500 HTTPError))%string).
Proof.
  split.
  - apply (proj1 (main_exit_codes env_ok empty_world) sample_raw sample_document);
      reflexivity.
  - apply (proj1 (proj2 (proj2 (proj2 (main_exit_codes env_http_500 empty_world))))
             {| status_code := 500; json_body := Raise JSONDecodeError |});
      reflexivity.
Defined.

(** ** Binary64 rounding of exact values *)

Lemma digits2_pos_size (p : positive) : digits2_pos p = Pos.size p.
Proof. induction p; simpl; congruence. Qed.

Lemma iter_pos_nat {A : Type} (f : A -> A) (p : positive) (x : A) :
  iter_pos f p x = Nat.iter (Pos.to_nat p) f x.
Proof.
  revert x. induction p as [p IH | p IH | ]; intros x; cbn [iter_pos].
  - rewrite !IH. rewrite Pos2Nat.inj_xI.
    replace (S (2 * Pos.to_nat p)) with (Pos.to_nat p + (Pos.to_nat p + 1))%nat by lia.
    rewrite !Nat.iter_add. reflexivity.
  - rewrite !IH. rewrite Pos2Nat.inj_xO.
    replace (2 * Pos.to_nat p)%nat with (Pos.to_nat p + Pos.to_nat p)%nat by lia.
    rewrite Nat.iter_add. reflexivity.
  - reflexivity.
Qed.

Lemma shl_digits (m : positive) (j : nat) :
  Zpos (digits2_pos (shl m j)) = Zpos (digits2_pos m) + Z.of_nat j.
Proof.
  induction j as [ | j IH]; [simpl; lia | ].
  change (shl m (S j)) with (xO (shl m j)). cbn [digits2_pos].
  rewrite Pos2Z.inj_succ, IH. lia.
Qed.

Lemma shl_value (m : positive) (j : nat) :
  Zpos (shl m j) = Zpos m * 2 ^ Z.of_nat j.
Proof.
  induction j as [ | j IH]; [simpl; lia | ].
  change (shl m (S j)) with (xO (shl m j)).
  rewrite Pos2Z.inj_xO, IH, Nat2Z.inj_succ, Z.pow_succ_r by lia. ring.
Qed.

Lemma shr_exact (m : positive) (j : nat) :
  Nat.iter j shr_1 {| shr_m := Zpos (shl m j); shr_r := false; shr_s := false |}
  = {| shr_m := Zpos m; shr_r := false; shr_s := false |}.
Proof.
  induction j as [ | j IH]; [reflexivity | ].
  rewrite Nat.iter_succ_r. exact IH.
Qed.

Lemma bounded_canonical (m : positive) (e : Z) :
  bounded prec emax m e = true ->
  fexp prec emax (Zpos (digits2_pos m) + e) = e /\ e <= emax - prec.
Proof.
  unfold bounded, canonical_mantissa. intros H.
  apply andb_true_iff in H. destruct H as [H1 H2].
  apply Z.eqb_eq in H1. apply Z.leb_le in H2. split; assumption.
Qed.

Lemma shr_fexp_exact (m : positive) (e : Z) (j : nat) :
  fexp prec emax (Zpos (digits2_pos m) + e) = e ->
  shr_fexp prec emax (Zpos (shl m j)) (e - Z.of_nat j) loc_Exact
  = ({| shr_m := Zpos m; shr_r := false; shr_s := false |}, e).
Proof.
  intros Hc. unfold shr_fexp. cbn [Zdigits2]. rewrite shl_digits.
  replace (Zpos (digits2_pos m) + Z.of_nat j + (e - Z.of_nat j))
    with (Zpos (digits2_pos m) + e) by ring.
  rewrite Hc. replace (e - (e - Z.of_nat j)) with (Z.of_nat j) by ring.
  cbn [shr_record_of_loc]. unfold shr.
  destruct j as [ | j].
  - simpl Z.of_nat. cbn. f_equal. ring.
  - assert (E : Z.of_nat (S j) = Zpos (Pos.of_nat (S j))) by lia.
    rewrite E at 1. rewrite iter_pos_nat.
    rewrite Nat2Pos.id by discriminate.
    rewrite shr_exact. f_equal. lia.
Qed.

(** Rounding an exact multiple: [m * 2 ^ j] at the exponent [e - j] rounds
    to the float [(m, e)] when that float is a binary64 number. *)
Lemma binary_round_aux_exact (neg : bool) (m : positive) (e : Z) (j : nat) :
  bounded prec emax m e = true ->
  binary_round_aux prec emax neg (Zpos (shl m j)) (e - Z.of_nat j) loc_Exact
  = S754_finite neg m e.
Proof.
  intros Hb. destruct (bounded_canonical m e Hb) as [Hc He].
  unfold binary_round_aux. rewrite (shr_fexp_exact m e j Hc).
  cbn [shr_m loc_of_shr_record shr_r shr_s round_nearest_even].
  pose proof (shr_fexp_exact m e 0 Hc) as H0.
  change (shl m 0) with m in H0. rewrite Z.sub_0_r in H0. rewrite H0.
  cbn [shr_m]. apply Z.leb_le in He. rewrite He. reflexivity.
Qed.

Lemma size_bounds (p : positive) :
  2 ^ (Zpos (Pos.size p) - 1) <= Zpos p < 2 ^ Zpos (Pos.size p).
Proof.
  induction p as [p IH | p IH | ].
  - cbn [Pos.size]. rewrite Pos2Z.inj_succ.
    replace (Z.succ (Zpos (Pos.size p)) - 1) with (Zpos (Pos.size p)) by lia.
    rewrite Z.pow_succ_r by lia.
    replace (Zpos (Pos.size p)) with (Z.succ (Zpos (Pos.size p) - 1)) at 1 by lia.
    rewrite Z.pow_succ_r by lia. lia.
  - cbn [Pos.size]. rewrite Pos2Z.inj_succ.
    replace (Z.succ (Zpos (Pos.size p)) - 1) with (Zpos (Pos.size p)) by lia.
    rewrite Z.pow_succ_r by lia.
    replace (Zpos (Pos.size p)) with (Z.succ (Zpos (Pos.size p) - 1)) at 1 by lia.
    rewrite Z.pow_succ_r by lia. lia.
  - simpl. lia.
Qed.

Lemma digits_bounds (p : positive) :
  2 ^ (Zpos (digits2_pos p) - 1) <= Zpos p < 2 ^ Zpos (digits2_pos p).
Proof. rewrite digits2_pos_size. apply size_bounds. Qed.

(** The number of binary digits is determined by the two bounds. *)
Lemma digits_unique (p : positive) (d : Z) :
  2 ^ (d - 1) <= Zpos p < 2 ^ d -> Zpos (digits2_pos p) = d.
Proof.
  intros [H1 H2]. pose proof (digits_bounds p) as [H3 H4].
  set (s := Zpos (digits2_pos p)) in *.
  assert (0 < s) by (subst s; lia).
  destruct (Z.lt_trichotomy s d) as [Hlt | [Heq | Hgt]]; [ | assumption | ].
  - exfalso. assert (2 ^ s <= 2 ^ (d - 1)) by (apply Z.pow_le_mono_r; lia). lia.
  - exfalso. destruct (Z.le_gt_cases 0 d) as [Hd | Hd].
    + assert (2 ^ d <= 2 ^ (s - 1)) by (apply Z.pow_le_mono_r; lia). lia.
    + rewrite (Z.pow_neg_r 2 d) in H2 by lia. lia.
Qed.

Lemma fexp_monotone (a b : Z) : a <= b -> fexp prec emax a <= fexp prec emax b.
Proof. unfold fexp. lia. Qed.

Lemma exact_digits (N m : positive) (e : Z) :
  Zpos N * 2 ^ Z.max 0 (- e) = Zpos m * 2 ^ Z.max 0 e ->
  Zpos (digits2_pos N) = Zpos (digits2_pos m) + e.
Proof.
  intros H. apply digits_unique.
  pose proof (digits_bounds m) as [B1 B2].
  set (dm := Zpos (digits2_pos m)) in *.
  assert (Hdm : 0 < dm) by (subst dm; lia).
  destruct (Z.le_gt_cases 0 e) as [He | He].
  - rewrite (Z.max_l 0 (- e)), (Z.max_r 0 e) in H by lia.
    simpl (2 ^ 0) in H. rewrite Z.mul_1_r in H. rewrite H.
    replace (dm + e - 1) with (dm - 1 + e) by ring.
    rewrite !Z.pow_add_r by lia.
    assert (0 < 2 ^ e) by (apply Z.pow_pos_nonneg; lia). nia.
  - rewrite (Z.max_r 0 (- e)), (Z.max_l 0 e) in H by lia.
    simpl (2 ^ 0) in H. rewrite Z.mul_1_r in H.
    assert (Hp : 0 < 2 ^ (- e)) by (apply Z.pow_pos_nonneg; lia).
    assert (Hge : 1 <= dm + e).
    { destruct (Z.le_gt_cases 1 (dm + e)) as [ | Hlt]; [assumption | exfalso].
      assert (2 ^ dm <= 2 ^ (- e)) by (apply Z.pow_le_mono_r; lia). nia. }
    replace (dm - 1) with (dm + e - 1 + - e) in B1 by ring.
    replace dm with (dm + e + - e) in B2 at 1 by ring.
    rewrite Z.pow_add_r in B1, B2 by lia. nia.
Qed.

Lemma shl_pos_iter (n d : positive) : Pos.iter xO n d = shl n (Pos.to_nat d).
Proof. rewrite Pos2Nat.inj_iter. reflexivity. Qed.

(** The integer [N], equal to [m * 2 ^ e], rounds to the float [(m, e)]. *)
Lemma binary_round_exact (neg : bool) (N m : positive) (e : Z) :
  bounded prec emax m e = true ->
  Zpos N * 2 ^ Z.max 0 (- e) = Zpos m * 2 ^ Z.max 0 e ->
  binary_round prec emax neg N 0 = S754_finite neg m e.
Proof.
  intros Hb H. destruct (bounded_canonical m e Hb) as [Hc _].
  unfold binary_round. rewrite Z.add_0_r, (exact_digits N m e H), Hc.
  unfold shl_align. rewrite Z.sub_0_r.
  destruct e as [ | p | p].
  - simpl in H. assert (N = m) by lia. subst N.
    exact (binary_round_aux_exact neg m 0 0 Hb).
  - rewrite (Z.max_l 0 (- Zpos p)), (Z.max_r 0 (Zpos p)) in H by lia.
    simpl (2 ^ 0) in H. rewrite Z.mul_1_r in H.
    assert (E : N = shl m (Pos.to_nat p)).
    { apply Pos2Z.inj. rewrite shl_value, positive_nat_Z. exact H. }
    rewrite E.
    pose proof (binary_round_aux_exact neg m (Zpos p) (Pos.to_nat p) Hb) as A.
    rewrite positive_nat_Z, Z.sub_diag in A. exact A.
  - rewrite (Z.max_r 0 (- Zneg p)), (Z.max_l 0 (Zneg p)) in H by lia.
    simpl (2 ^ 0) in H. rewrite Z.mul_1_r in H.
    rewrite shl_pos_iter.
    assert (E : shl N (Pos.to_nat p) = m).
    { apply Pos2Z.inj. rewrite shl_value, positive_nat_Z. exact H. }
    rewrite E.
    exact (binary_round_aux_exact neg m (Zneg p) 0 Hb).
Qed.

Lemma div_eucl_exact (q t : Z) : 0 < t -> Z.div_eucl (q * t) t = (q, 0).
Proof.
  intros Ht.
  assert (E : Z.div_eucl (q * t) t = ((q * t) / t, (q * t) mod t)).
  { unfold Z.div, Z.modulo. destruct (Z.div_eucl (q * t) t). reflexivity. }
  rewrite E, Z.div_mul, Z.mod_mul by lia. reflexivity.
Qed.

Lemma new_location_exact (t : Z) : new_location t 0 = loc_Exact.
Proof. unfold new_location. destruct (Z.even t); reflexivity. Qed.

Lemma quotient_digits (N T m : positive) (e : Z) :
  Zpos N * 2 ^ Z.max 0 (- e) = Zpos m * 2 ^ Z.max 0 e * Zpos T ->
  Zpos (digits2_pos N) - Zpos (digits2_pos T) <= Zpos (digits2_pos m) + e.
Proof.
  intros H.
  pose proof (digits_bounds N) as [N1 _].
  pose proof (digits_bounds T) as [_ T2].
  pose proof (digits_bounds m) as [_ M2].
  set (dn := Zpos (digits2_pos N)) in *.
  set (dt := Zpos (digits2_pos T)) in *.
  set (dm := Zpos (digits2_pos m)) in *.
  assert (0 < dn /\ 0 < dt /\ 0 < dm) as (Hn & Ht & Hm) by (subst dn dt dm; lia).
  destruct (Z.le_gt_cases (dn - dt) (dm + e)) as [ | Hgt]; [assumption | exfalso].
  destruct (Z.le_gt_cases 0 e) as [He | He].
  - rewrite (Z.max_l 0 (- e)), (Z.max_r 0 e) in H by lia.
    simpl (2 ^ 0) in H. rewrite Z.mul_1_r in H.
    assert (P : 2 ^ (dm + e + dt) <= 2 ^ (dn - 1)) by (apply Z.pow_le_mono_r; lia).
    rewrite !Z.pow_add_r in P by lia.
    assert (0 < 2 ^ e) by (apply Z.pow_pos_nonneg; lia).
    assert (Zpos m * 2 ^ e * Zpos T < 2 ^ dm * 2 ^ e * 2 ^ dt).
    { apply Z.mul_lt_mono_nonneg; try lia. nia. }
    lia.
  - rewrite (Z.max_r 0 (- e)), (Z.max_l 0 e) in H by lia.
    simpl (2 ^ 0) in H. rewrite Z.mul_1_r in H.
    assert (P : 2 ^ (dm + dt) <= 2 ^ (dn - 1 + - e)) by (apply Z.pow_le_mono_r; lia).
    rewrite !Z.pow_add_r in P by lia.
    assert (0 < 2 ^ (- e)) by (apply Z.pow_pos_nonneg; lia).
    assert (Zpos m * Zpos T < 2 ^ dm * 2 ^ dt).
    { apply Z.mul_lt_mono_nonneg; lia. }
    nia.
Qed.

(** The quotient [N / T], equal to [m * 2 ^ e], rounds to the float
    [(m, e)]. *)
Lemma div_round_exact (neg : bool) (N T m : positive) (e : Z) :
  bounded prec emax m e = true ->
  Zpos N * 2 ^ Z.max 0 (- e) = Zpos m * 2 ^ Z.max 0 e * Zpos T ->
  (let '(q, e', l) := SFdiv_core_binary prec emax (Zpos N) 0 (Zpos T) 0 in
   binary_round_aux prec emax neg q e' l) = S754_finite neg m e.
Proof.
  intros Hb H. destruct (bounded_canonical m e Hb) as [Hc _].
  unfold SFdiv_core_binary. cbn [Zdigits2]. rewrite !Z.add_0_r.
  change (0 - 0) with 0.
  set (e' := Z.min (fexp prec emax (Zpos (digits2_pos N) - Zpos (digits2_pos T))) 0).
  assert (He' : e' <= e /\ e' <= 0).
  { split; [ | subst e'; lia].
    pose proof (fexp_monotone _ _ (quotient_digits N T m e H)) as F.
    rewrite Hc in F. subst e'. lia. }
  destruct He' as [He1 He2].
  set (j := Z.to_nat (e - e')).
  assert (Hm' : match 0 - e' with
                | 0 => Zpos N
                | Zpos _ => Z.shiftl (Zpos N) (0 - e')
                | Zneg _ => 0
                end = Zpos (shl m j) * Zpos T).
  { assert (S : match 0 - e' with
                | 0 => Zpos N
                | Zpos _ => Z.shiftl (Zpos N) (0 - e')
                | Zneg _ => 0
                end = Zpos N * 2 ^ (- e')).
    { destruct (0 - e') eqn:E; try lia.
      - replace (- e') with 0 by lia. simpl. lia.
      - rewrite <- E. rewrite Z.shiftl_mul_pow2 by lia.
        replace (0 - e') with (- e') by ring. reflexivity. }
    rewrite S, shl_value. subst j. rewrite Z2Nat.id by lia.
    destruct (Z.le_gt_cases 0 e) as [He | He].
    - rewrite (Z.max_l 0 (- e)), (Z.max_r 0 e) in H by lia.
      simpl (2 ^ 0) in H. rewrite Z.mul_1_r in H. rewrite H.
      replace (e - e') with (e + - e') by ring.
      rewrite Z.pow_add_r by lia. ring.
    - rewrite (Z.max_r 0 (- e)), (Z.max_l 0 e) in H by lia.
      simpl (2 ^ 0) in H. rewrite Z.mul_1_r in H.
      replace (- e') with (- e + (e - e')) by ring.
      rewrite Z.pow_add_r by lia.
      rewrite Z.mul_assoc, H. ring. }
  rewrite Hm', div_eucl_exact by lia.
  rewrite new_location_exact.
  pose proof (binary_round_aux_exact neg m e j Hb) as A.
  subst j. rewrite Z2Nat.id in A by lia.
  replace (e - (e - e')) with e' in A by ring. exact A.
Qed.

(** The decimal [M * 10 ^ E], equal to [m * 2 ^ e], reads as the float
    [(m, e)]. *)
Lemma float_of_decimal_exact (neg : bool) (M E : Z) (m : positive) (e : Z) :
  bounded prec emax m e = true ->
  0 < M ->
  M * 10 ^ Z.max 0 E * 2 ^ Z.max 0 (- e)
  = Zpos m * 2 ^ Z.max 0 e * 10 ^ Z.max 0 (- E) ->
  float_of_decimal neg M E = S754_finite neg m e.
Proof.
  intros Hb HM H. unfold float_of_decimal.
  destruct (Z.eqb_spec M 0) as [ | _]; [lia | ].
  destruct (Z.leb_spec 0 E) as [HE | HE].
  - rewrite (Z.max_r 0 E), (Z.max_l 0 (- E)) in H by lia.
    simpl (10 ^ 0) in H. rewrite Z.mul_1_r in H.
    assert (HP : 0 < M * 10 ^ E).
    { apply Z.mul_pos_pos; [lia | apply Z.pow_pos_nonneg; lia]. }
    destruct (M * 10 ^ E) as [ | P | P] eqn:EP; try lia.
    destruct neg; cbn [Z.opp id binary_normalize];
      apply binary_round_exact; assumption.
  - rewrite (Z.max_l 0 E), (Z.max_r 0 (- E)) in H by lia.
    simpl (10 ^ 0) in H. rewrite Z.mul_1_r in H.
    assert (HT : 0 < 10 ^ (- E)) by (apply Z.pow_pos_nonneg; lia).
    destruct M as [ | N | N]; try lia.
    destruct (10 ^ (- E)) as [ | T | T] eqn:ET; try lia.
    apply (div_round_exact neg N T m e Hb). exact H.
Qed.

(** ** Decimal digits *)

Lemma digits_to_Z_app (a b : list ascii) :
  digits_to_Z (a ++ b)
  = digits_to_Z a * 10 ^ Z.of_nat (List.length b) + digits_to_Z b.
Proof.
  unfold digits_to_Z. rewrite fold_left_app.
  generalize (fold_left (fun acc c => 10 * acc + digit_val c) a 0). intros x.
  revert x. induction b as [ | c b IH]; intros x.
  - simpl. lia.
  - cbn [fold_left List.length]. rewrite IH, (IH (10 * 0 + digit_val c)).
    rewrite Nat2Z.inj_succ, Z.pow_succ_r by lia. ring.
Qed.

Lemma digit_char_code (d : Z) : 0 <= d <= 9 -> code (digit_char d) = (48 + Z.to_nat d)%nat.
Proof.
  intros H. unfold code, digit_char. apply nat_ascii_embedding. lia.
Qed.

Lemma digit_char_val (d : Z) : 0 <= d <= 9 -> digit_val (digit_char d) = d.
Proof. intros H. unfold digit_val. rewrite digit_char_code by lia. lia. Qed.

Lemma digit_char_is_digit (d : Z) : 0 <= d <= 9 -> is_digit (digit_char d) = true.
Proof.
  intros H. unfold is_digit. rewrite digit_char_code by lia.
  apply andb_true_iff. split; apply Nat.leb_le; lia.
Qed.

Lemma digit_char_zero (d : Z) :
  0 <= d <= 9 -> is_zero_char (digit_char d) = (d =? 0).
Proof.
  intros H. unfold is_zero_char. rewrite digit_char_code by lia.
  destruct (Z.eqb_spec d 0) as [-> | Hd]; [reflexivity | ].
  apply Nat.eqb_neq. lia.
Qed.

Lemma digits_to_Z_one (c : ascii) : digits_to_Z [c] = digit_val c.
Proof. unfold digits_to_Z. cbn [fold_left]. lia. Qed.

(** The digits that [Z_digits_aux] puts in front of [acc]. *)
Lemma Z_digits_aux_spec (fuel : nat) (n : Z) (acc : list ascii) :
  0 < n < 2 ^ Z.of_nat fuel ->
  exists c ds,
    Z_digits_aux fuel n acc = c :: ds ++ acc
    /\ digits_to_Z (c :: ds) = n
    /\ forallb is_digit (c :: ds) = true
    /\ is_zero_char c = false.
Proof.
  revert n acc. induction fuel as [ | fuel IH]; intros n acc H.
  - change (2 ^ Z.of_nat 0) with 1 in H. lia.
  - cbn [Z_digits_aux].
    assert (Hmod : 0 <= n mod 10 <= 9) by (pose proof (Z.mod_pos_bound n 10); lia).
    destruct (Z.ltb_spec n 10) as [Hlt | Hge].
    + rewrite Z.mod_small by lia.
      exists (digit_char n), []. split; [reflexivity | ].
      split; [rewrite digits_to_Z_one, digit_char_val by lia; reflexivity | ].
      split; [cbn [forallb]; rewrite digit_char_is_digit by lia; reflexivity | ].
      rewrite digit_char_zero by lia. apply Z.eqb_neq. lia.
    + destruct (IH (n / 10) (digit_char (n mod 10) :: acc)) as (c & ds & E & V & D & Z0).
      { split; [apply Z.div_str_pos; lia | ].
        rewrite Nat2Z.inj_succ, Z.pow_succ_r in H by lia.
        apply Z.div_lt_upper_bound; lia. }
      exists c, (ds ++ [digit_char (n mod 10)]).
      split; [rewrite E, <- app_assoc; reflexivity | ].
      split.
      * change (c :: ds ++ [digit_char (n mod 10)])
          with ((c :: ds) ++ [digit_char (n mod 10)]).
        rewrite digits_to_Z_app, V, digits_to_Z_one, digit_char_val by lia.
        change (Z.of_nat (List.length [digit_char (n mod 10)])) with 1.
        pose proof (Z.div_mod n 10). lia.
      * split; [ | exact Z0].
        change (c :: ds ++ [digit_char (n mod 10)])
          with ((c :: ds) ++ [digit_char (n mod 10)]).
        rewrite forallb_app, D. cbn [forallb].
        rewrite digit_char_is_digit by lia. reflexivity.
Qed.

Lemma Z_digits_pos (n : Z) :
  0 < n ->
  exists c ds,
    Z_digits n = c :: ds
    /\ digits_to_Z (c :: ds) = n
    /\ forallb is_digit (c :: ds) = true
    /\ is_zero_char c = false.
Proof.
  intros H. unfold Z_digits.
  destruct (Z_digits_aux_spec (S (Z.to_nat (Z.log2 n))) n []) as (c & ds & E & R).
  - split; [assumption | ].
    rewrite Nat2Z.inj_succ, Z2Nat.id by apply Z.log2_nonneg.
    apply Z.log2_spec. assumption.
  - exists c, ds. rewrite E, app_nil_r. split; [reflexivity | exact R].
Qed.

Lemma Z_digits_zero : Z_digits 0 = ["0"%char].
Proof. reflexivity. Qed.

Lemma Z_digits_value (n : Z) : 0 <= n -> digits_to_Z (Z_digits n) = n.
Proof.
  intros H. destruct (Z.eq_dec n 0) as [-> | Hn]; [reflexivity | ].
  destruct (Z_digits_pos n ltac:(lia)) as (c & ds & -> & V & _). exact V.
Qed.

Lemma Z_digits_all_digits (n : Z) :
  0 <= n -> forallb is_digit (Z_digits n) = true.
Proof.
  intros H. destruct (Z.eq_dec n 0) as [-> | Hn]; [reflexivity | ].
  destruct (Z_digits_pos n ltac:(lia)) as (c & ds & -> & _ & D & _). exact D.
Qed.

(** * Further properties of the code *)

(** ** The exceptions of [build_json] *)

Lemma mapM_Raise {A B : Type} (f : A -> result B) (l : list A) (e : pyexc) :
  mapM f l = Raise e -> exists a, In a l /\ f a = Raise e.
Proof.
  induction l as [ | a l IH]; simpl; [discriminate | ].
  destruct (f a) as [b | e'] eqn:Ea; cbn [bind].
  - destruct (mapM f l) as [bs | e''] eqn:El; cbn [bind]; [discriminate | ].
    intros [= ->]. destruct (IH eq_refl) as (a' & Hin & Ha'). eauto.
  - intros [= ->]. eauto.
Qed.

Lemma py_get_Raise (x : pyval) (k : string) (d : pyval) (e : pyexc) :
  py_get x k d = Raise e -> e = AttributeError /\ is_dict x = false.
Proof. destruct x; simpl; intros [= <-] || discriminate; split; reflexivity. Qed.

Lemma get_section_Raise (x : pyval) (k : string) (e : pyexc) :
  get_section x k = Raise e -> e = AttributeError /\ is_dict x = false.
Proof.
  unfold get_section. destruct (py_get x k (PDict [])) eqn:E; cbn [bind];
    [discriminate | ].
  intros [= <-]. eapply py_get_Raise. eassumption.
Qed.

Lemma get_array_Raise (x : pyval) (k : string) (e : pyexc) :
  get_array x k = Raise e -> e = AttributeError /\ is_dict x = false.
Proof.
  unfold get_array. destruct (py_get x k (PList [])) eqn:E; cbn [bind];
    [discriminate | ].
  intros [= <-]. eapply py_get_Raise. eassumption.
Qed.

Lemma py_len_Raise (x : pyval) (e : pyexc) : py_len x = Raise e -> e = TypeError.
Proof. destruct x; simpl; intros [= <-] || discriminate; reflexivity. Qed.

(** Indexing below the length does not leave the bounds: it fails on a
    dict only, with [KeyError]. *)
Lemma py_getitem_in_bounds (x : pyval) (n i : nat) (e : pyexc) :
  py_len x = Ok n -> (i < n)%nat -> py_getitem x i = Raise e ->
  e = KeyError /\ is_dict x = true.
Proof.
  destruct x; simpl; try discriminate; intros [= <-] Hi.
  - destruct (string_get_lt s i Hi) as [c ->]. discriminate.
  - destruct (nth_error l i) eqn:E; [discriminate | ].
    apply nth_error_None in E. lia.
  - intros [= <-]. split; reflexivity.
Qed.

Lemma convert_never_raises (k : conv_kind) (x : pyval) (e : pyexc) :
  convert k x <> Raise e.
Proof. destruct (convert_total k x) as (v & -> & _). discriminate. Qed.

Lemma bounded_item_Raise (k : conv_kind) (arr : pyval) (i : nat) (e : pyexc) :
  bounded_item (convert k) arr i = Raise e -> e = TypeError \/ e = KeyError.
Proof.
  unfold bounded_item.
  destruct (py_len arr) as [n | e'] eqn:En; cbn [bind].
  - destruct (Nat.ltb_spec i n) as [Hi | Hi]; [ | discriminate].
    destruct (py_getitem arr i) as [x | e'] eqn:Eg; cbn [bind].
    + intros H. exfalso. exact (convert_never_raises k x e H).
    + intros [= <-]. right. eapply py_getitem_in_bounds; eassumption.
  - intros [= <-]. left. eapply py_len_Raise; eassumption.
Qed.

Ltac raise_step H x :=
  match type of H with
  | bind ?c _ = Raise _ =>
      let E := fresh "E" in
      destruct c as [x | ?] eqn:E; cbn [bind] in H;
      [ | injection H as <-;
          first [ apply get_section_Raise in E
                | apply get_array_Raise in E
                | apply py_get_Raise in E
                | apply py_len_Raise in E
                | apply (bounded_item_Raise AsFloat) in E
                | apply (bounded_item_Raise AsInt) in E ] ]
  end.

Lemma hourly_record_Raise (times temp feels pop wind wdir gust wcode : pyval)
  (n i : nat) (e : pyexc) :
  py_len times = Ok n -> (i < n)%nat ->
  hourly_record times temp feels pop wind wdir gust wcode i = Raise e ->
  e = TypeError \/ e = KeyError.
Proof.
  intros Hn Hi H. unfold hourly_record in H.
  destruct (py_getitem times i) as [t | e'] eqn:Et; cbn [bind] in H.
  2: { injection H as <-. right. eapply py_getitem_in_bounds; eassumption. }
  change _safe_float with (convert AsFloat) in H.
  change _safe_int with (convert AsInt) in H.
  raise_step H v1; [ | assumption]. raise_step H v2; [ | assumption].
  raise_step H v3; [ | assumption]. raise_step H v4; [ | assumption].
  raise_step H v5; [ | assumption]. raise_step H v6; [ | assumption].
  raise_step H v7; [ | assumption]. discriminate.
Qed.

Lemma daily_record_Raise (d_dates tmax tmin dpop dcode : pyval)
  (n i : nat) (e : pyexc) :
  py_len d_dates = Ok n -> (i < n)%nat ->
  daily_record d_dates tmax tmin dpop dcode i = Raise e ->
  e = TypeError \/ e = KeyError.
Proof.
  intros Hn Hi H. unfold daily_record in H.
  destruct (py_getitem d_dates i) as [t | e'] eqn:Et; cbn [bind] in H.
  2: { injection H as <-. right. eapply py_getitem_in_bounds; eassumption. }
  change _safe_float with (convert AsFloat) in H.
  change _safe_int with (convert AsInt) in H.
  raise_step H v1; [ | assumption]. raise_step H v2; [ | assumption].
  raise_step H v3; [ | assumption]. raise_step H v4; [ | assumption].
  discriminate.
Qed.

Lemma hourly_section_Raise (raw : pyval) (e : pyexc) :
  hourly_section raw = Raise e -> is_shape_error e = true.
Proof.
  unfold hourly_section. intros H.
  raise_step H h; [ | destruct E as [-> _]; reflexivity].
  raise_step H times; [ | destruct E0 as [-> _]; reflexivity].
  raise_step H temp; [ | destruct E1 as [-> _]; reflexivity].
  raise_step H feels; [ | destruct E2 as [-> _]; reflexivity].
  raise_step H pop; [ | destruct E3 as [-> _]; reflexivity].
  raise_step H wind; [ | destruct E4 as [-> _]; reflexivity].
  raise_step H wdir; [ | destruct E5 as [-> _]; reflexivity].
  raise_step H gust; [ | destruct E6 as [-> _]; reflexivity].
  raise_step H wcode; [ | destruct E7 as [-> _]; reflexivity].
  raise_step H n; [ | subst; reflexivity].
  destruct (mapM_Raise _ _ _ H) as (i & Hin & Hi). apply in_seq in Hin.
  destruct (hourly_record_Raise _ _ _ _ _ _ _ _ n i e E8 ltac:(lia) Hi)
    as [-> | ->]; reflexivity.
Qed.

Lemma daily_section_Raise (raw : pyval) (e : pyexc) :
  daily_section raw = Raise e -> is_shape_error e = true.
Proof.
  unfold daily_section. intros H.
  raise_step H d; [ | destruct E as [-> _]; reflexivity].
  raise_step H times; [ | destruct E0 as [-> _]; reflexivity].
  raise_step H tmax; [ | destruct E1 as [-> _]; reflexivity].
  raise_step H tmin; [ | destruct E2 as [-> _]; reflexivity].
  raise_step H dpop; [ | destruct E3 as [-> _]; reflexivity].
  raise_step H dcode; [ | destruct E4 as [-> _]; reflexivity].
  raise_step H n; [ | subst; reflexivity].
  destruct (mapM_Raise _ _ _ H) as (i & Hin & Hi). apply in_seq in Hin.
  destruct (daily_record_Raise _ _ _ _ _ n i e E5 ltac:(lia) Hi)
    as [-> | ->]; reflexivity.
Qed.

Lemma current_item_Raise (k : conv_kind) (cur : pyval) (key : string)
  (e : pyexc) :
  current_item (convert k) cur key = Raise e -> e = AttributeError.
Proof.
  unfold current_item. destruct (py_get cur key PNone) as [x | e'] eqn:E;
    cbn [bind].
  - intros H. exfalso. exact (convert_never_raises k x e H).
  - intros [= <-]. eapply py_get_Raise. eassumption.
Qed.

Lemma current_section_Raise (raw : pyval) (e : pyexc) :
  current_section raw = Raise e -> e = AttributeError.
Proof.
  unfold current_section. intros H.
  destruct (get_section raw "current") as [cur | e'] eqn:E; cbn [bind] in H.
  2: { injection H as <-. eapply get_section_Raise. eassumption. }
  destruct cur; try (simpl in H; injection H as <-; reflexivity).
  destruct (current_record_dict d)
    as (v1 & v2 & v3 & v4 & v5 & v6 & v7 & _ & _ & _ & _ & _ & _ & _ & Ed).
  rewrite Ed in H. discriminate.
Qed.

(** Whatever the raw response is, [build_json] raises nothing but
    [AttributeError], [TypeError] and [KeyError]: the guarded indexing never
    runs out of bounds ([IndexError]) and no error of a numeric conversion
    ([ValueError], [OverflowError]) gets out.  A raw response that is not a
    mapping gives [AttributeError]. *)
Theorem build_json_raises_shape_errors_only
  (utcnow : datetime) (raw place_name lat lon tz : pyval) :
  (forall e,
      build_json utcnow raw place_name lat lon tz = Raise e ->
      is_shape_error e = true)
  /\ (is_dict raw = false ->
      build_json utcnow raw place_name lat lon tz = Raise AttributeError).
Proof.
  split.
  - unfold build_json. intros e H.
    destruct (current_section raw) as [cur | e1] eqn:Ec; cbn [bind] in H.
    2: { injection H as <-. rewrite (current_section_Raise _ _ Ec). reflexivity. }
    destruct (hourly_section raw) as [hs | e2] eqn:Eh; cbn [bind] in H.
    2: { injection H as <-. eapply hourly_section_Raise; eassumption. }
    destruct (daily_section raw) as [ds | e3] eqn:Ed; cbn [bind] in H.
    2: { injection H as <-. eapply daily_section_Raise; eassumption. }
    discriminate.
  - intros H. destruct raw; try discriminate; reflexivity.
Qed.

Lemma build_json_raises_shape_errors_only_witness :
  build_json sample_clock (PList [PInt 1]) PLACE_NAME LAT LON TIMEZONE
  = Raise AttributeError
  /\ is_shape_error TypeError = true.
Proof.
  split.
  - apply (proj2 (build_json_raises_shape_errors_only sample_clock
                    (PList [PInt 1]) PLACE_NAME LAT LON TIMEZONE)).
    reflexivity.
  - apply (proj1 (build_json_raises_shape_errors_only sample_clock
                    (PDict [("hourly", PDict [("time", PInt 5)])])
                    PLACE_NAME LAT LON TIMEZONE) TypeError).
    reflexivity.
Defined.

(** ** The shape of the document *)

Lemma current_section_keys (raw cur : pyval) :
  current_section raw = Ok cur -> keys_of cur = Some (out_keys current_fields).
Proof.
  unfold current_section. intros H. next_bind H s Es.
  destruct (current_record_mapping s cur H) as [c ->].
  destruct (current_record_dict c)
    as (v1 & v2 & v3 & v4 & v5 & v6 & v7 & _ & _ & _ & _ & _ & _ & _ & E).
  rewrite E in H. injection H as <-. reflexivity.
Qed.

(** Every document that [build_json] returns has the same layout: the four
    sections in the same order, the [meta] record with the arguments
    copied into it and the source tag, the seven fields of [current], at
    most 24 hourly records with a [time] label and seven fields each, and
    at most 7 daily records with a [date] label and four fields each, the
    keys always in the same order. *)
Theorem build_json_layout
  (utcnow : datetime) (raw place_name lat lon tz doc : pyval) :
  build_json utcnow raw place_name lat lon tz = Ok doc ->
  keys_of doc = Some ["meta"; "current"; "hourly"; "daily"]
  /\ py_get doc "meta" PNone
     = Ok (PDict [("place_name", place_name); ("lat", lat); ("lon", lon);
                  ("timezone", tz); ("source", PStr "open-meteo");
                  ("generated_utc", PStr (_now_utc_iso utcnow))])
  /\ exists cur hs ds,
       py_get doc "current" PNone = Ok cur
       /\ keys_of cur = Some (out_keys current_fields)
       /\ py_get doc "hourly" PNone = Ok (PList hs)
       /\ (List.length hs <= 24)%nat
       /\ Forall (fun r => keys_of r = Some ("time" :: out_keys hourly_fields)) hs
       /\ py_get doc "daily" PNone = Ok (PList ds)
       /\ (List.length ds <= 7)%nat
       /\ Forall (fun r => keys_of r = Some ("date" :: out_keys daily_fields)) ds.
Proof.
  intros H.
  destruct (build_json_Ok _ _ _ _ _ _ _ H) as (cur & hs & ds & -> & Ec & Eh & Ed).
  split; [reflexivity | ]. split; [reflexivity | ].
  exists cur, hs, ds.
  split; [reflexivity | ]. split; [eapply current_section_keys; eassumption | ].
  split; [reflexivity | ].
  destruct (hourly_section_Ok raw hs Eh) as (th & nh & _ & _ & Lh & Fh).
  destruct (daily_section_Ok raw ds Ed) as (td & nd & _ & _ & Ld & Fd).
  split; [lia | ]. split.
  { unfold hourly_section in Eh.
    next_bind Eh h E0. next_bind Eh times E1. next_bind Eh temp E2.
    next_bind Eh feels E3. next_bind Eh pop E4. next_bind Eh wind E5.
    next_bind Eh wdir E6. next_bind Eh gust E7. next_bind Eh wcode E8.
    next_bind Eh n E9.
    eapply mapM_Forall; [ | exact Eh]. intros i r _ Hr.
    destruct (hourly_record_Ok _ _ _ _ _ _ _ _ _ _ Hr)
      as (t & v1 & v2 & v3 & v4 & v5 & v6 & v7 & -> & _). reflexivity. }
  split; [reflexivity | ]. split; [lia | ].
  unfold daily_section in Ed.
  next_bind Ed d E0. next_bind Ed times E1. next_bind Ed tmax E2.
  next_bind Ed tmin E3. next_bind Ed dpop E4. next_bind Ed dcode E5.
  next_bind Ed n E6.
  eapply mapM_Forall; [ | exact Ed]. intros i r _ Hr.
  destruct (daily_record_Ok _ _ _ _ _ _ _ Hr)
    as (t & v1 & v2 & v3 & v4 & -> & _). reflexivity.
Qed.

Lemma build_json_layout_witness :
  keys_of sample_document = Some ["meta"; "current"; "hourly"; "daily"]
  /\ py_get sample_document "meta" PNone
     = Ok (PDict [("place_name", PLACE_NAME); ("lat", LAT); ("lon", LON);
                  ("timezone", TIMEZONE); ("source", PStr "open-meteo");
                  ("generated_utc", PStr (_now_utc_iso sample_clock))])
  /\ exists cur hs ds,
       py_get sample_document "current" PNone = Ok cur
       /\ keys_of cur = Some (out_keys current_fields)
       /\ py_get sample_document "hourly" PNone = Ok (PList hs)
       /\ (List.length hs <= 24)%nat
       /\ Forall (fun r => keys_of r = Some ("time" :: out_keys hourly_fields)) hs
       /\ py_get sample_document "daily" PNone = Ok (PList ds)
       /\ (List.length ds <= 7)%nat
       /\ Forall (fun r => keys_of r = Some ("date" :: out_keys daily_fields)) ds.
Proof.
  apply (build_json_layout sample_clock sample_raw PLACE_NAME LAT LON TIMEZONE).
  reflexivity.
Defined.

(** The labels of the records are the items of the raw [time] arrays,
    copied as they are and in their order, whatever their type: the record
    [i] of [hourly] carries [time[i]] under [time], the record [i] of
    [daily] carries [time[i]] under [date]. *)
Theorem labels_are_copied
  (utcnow : datetime) (raw place_name lat lon tz doc : pyval) :
  build_json utcnow raw place_name lat lon tz = Ok doc ->
  exists hs ds th td,
    py_get doc "hourly" PNone = Ok (PList hs)
    /\ py_get doc "daily" PNone = Ok (PList ds)
    /\ raw_array raw "hourly" "time" = Ok th
    /\ raw_array raw "daily" "time" = Ok td
    /\ (forall i r, nth_error hs i = Some r ->
        exists t, py_getitem th i = Ok t /\ py_get r "time" PNone = Ok t)
    /\ (forall i r, nth_error ds i = Some r ->
        exists t, py_getitem td i = Ok t /\ py_get r "date" PNone = Ok t).
Proof.
  intros H.
  destruct (build_json_Ok _ _ _ _ _ _ _ H) as (cur & hs & ds & -> & Ec & Eh & Ed).
  destruct (hourly_section_Ok raw hs Eh) as (th & nh & Hth & _ & Lh & Fh).
  destruct (daily_section_Ok raw ds Ed) as (td & nd & Htd & _ & Ld & Fd).
  exists hs, ds, th, td. repeat (split; [reflexivity || assumption | ]).
  split.
  - intros i r Hi.
    assert (Hlt : (i < List.length hs)%nat) by (apply nth_error_Some; congruence).
    destruct (Fh i ltac:(lia)) as (r' & Hr' & rec & times & t & -> & Ht & Hg & Hl & _).
    assert (r = PDict rec) by congruence. subst r.
    assert (times = th) by congruence. subst times.
    exists t. split; [assumption | ]. unfold py_get, get_or. rewrite Hl. reflexivity.
  - intros i r Hi.
    assert (Hlt : (i < List.length ds)%nat) by (apply nth_error_Some; congruence).
    destruct (Fd i ltac:(lia)) as (r' & Hr' & rec & times & t & -> & Ht & Hg & Hl & _).
    assert (r = PDict rec) by congruence. subst r.
    assert (times = td) by congruence. subst times.
    exists t. split; [assumption | ]. unfold py_get, get_or. rewrite Hl. reflexivity.
Qed.

Lemma labels_are_copied_witness :
  exists hs ds th td,
    py_get sample_document "hourly" PNone = Ok (PList hs)
    /\ py_get sample_document "daily" PNone = Ok (PList ds)
    /\ raw_array sample_raw "hourly" "time" = Ok th
    /\ raw_array sample_raw "daily" "time" = Ok td
    /\ (forall i r, nth_error hs i = Some r ->
        exists t, py_getitem th i = Ok t /\ py_get r "time" PNone = Ok t)
    /\ (forall i r, nth_error ds i = Some r ->
        exists t, py_getitem td i = Ok t /\ py_get r "date" PNone = Ok t).
Proof.
  apply (labels_are_copied sample_clock sample_raw PLACE_NAME LAT LON TIMEZONE).
  reflexivity.
Defined.

(** ** Integers in numeric fields *)

(** An integer of fewer than 54 binary digits is a binary64 number. *)
Lemma small_integer_float (neg : bool) (p : positive) :
  Zpos p < 2 ^ 53 ->
  exists m e,
    binary_round prec emax neg p 0 = S754_finite neg m e
    /\ e <= 0 /\ Zpos m = Zpos p * 2 ^ (- e).
Proof.
  intros Hp.
  pose proof (digits_bounds p) as [B1 B2].
  set (d := Zpos (digits2_pos p)) in *.
  assert (Hd : 0 < d <= 53).
  { split; [subst d; lia | ].
    destruct (Z.le_gt_cases d 53) as [ | Hgt]; [assumption | exfalso].
    assert (2 ^ 53 <= 2 ^ (d - 1)) by (apply Z.pow_le_mono_r; lia). lia. }
  set (j := Z.to_nat (53 - d)).
  exists (shl p j), (d - 53).
  assert (Hj : Z.of_nat j = 53 - d) by (subst j; rewrite Z2Nat.id; lia).
  assert (Hb : bounded prec emax (shl p j) (d - 53) = true).
  { unfold bounded, canonical_mantissa. rewrite shl_digits. fold d. rewrite Hj.
    apply andb_true_iff. split.
    - apply Z.eqb_eq. unfold fexp, SpecFloat.emin, prec, emax. lia.
    - apply Z.leb_le. unfold prec, emax. lia. }
  split; [ | split; [lia | rewrite shl_value, Hj; f_equal; f_equal; lia]].
  apply binary_round_exact; [exact Hb | ].
  rewrite (Z.max_r 0 (- (d - 53))), (Z.max_l 0 (d - 53)) by lia.
  rewrite shl_value, Hj. simpl (2 ^ 0). rewrite Z.mul_1_r.
  f_equal. f_equal. lia.
Qed.

(** [round] gives back the integer that a float holds. *)
Lemma round_magnitude_integer (n e : Z) :
  0 < n -> e <= 0 -> round_magnitude (n * 2 ^ (- e)) e = n.
Proof.
  intros Hn He. unfold round_magnitude, half_apart, c_round.
  destruct (Z.leb_spec 0 e) as [H0 | H0].
  - assert (e = 0) by lia. subst e. simpl. lia.
  - assert (HP : 0 < 2 ^ (- e)) by (apply Z.pow_pos_nonneg; lia).
    set (P := 2 ^ (- e)) in *.
    assert (Hq : (2 * (n * P) + P) / (2 * P) = n).
    { symmetry. apply (Z.div_unique_pos _ _ n P); lia. }
    rewrite Hq.
    destruct (Z.eqb_spec (2 * Z.abs (n * P - n * P)) P) as [E | _]; [ | reflexivity].
    rewrite Z.sub_diag in E. simpl in E. lia.
Qed.

Lemma small_integer_coerced (n : Z) :
  Z.abs n < 2 ^ 53 ->
  exists f,
    py_float (PInt n) = Ok f /\ float_is_integer f n /\ py_round f = Ok n.
Proof.
  intros Hn. unfold py_float, float_of_Z, binary_normalize.
  destruct n as [ | p | p].
  - exists (S754_zero false). repeat split.
  - destruct (small_integer_float false p ltac:(lia)) as (m & e & -> & He & Hm).
    exists (S754_finite false m e). split; [reflexivity | ]. split.
    + unfold float_is_integer, float_num, float_den.
      rewrite (Z.max_l 0 e), (Z.max_r 0 (- e)) by lia. simpl (2 ^ 0). lia.
    + cbn [py_round]. rewrite Hm, round_magnitude_integer by lia. reflexivity.
  - destruct (small_integer_float true p ltac:(lia)) as (m & e & -> & He & Hm).
    exists (S754_finite true m e). split; [reflexivity | ]. split.
    + unfold float_is_integer, float_num, float_den.
      rewrite (Z.max_l 0 e), (Z.max_r 0 (- e)) by lia. simpl (2 ^ 0). lia.
    + cbn [py_round]. rewrite Hm, round_magnitude_integer by lia. reflexivity.
Qed.

(** An integer of magnitude below [2 ^ 53] (a weather code, a percentage,
    a whole temperature) goes through the coercions unchanged:
    [_safe_int] returns it and [_safe_float] returns the float of exactly
    that value.  A boolean counts as the integer 1 or 0.  The bound is
    sharp: [2 ^ 53 + 1] comes back as [2 ^ 53]. *)
Theorem small_integers_pass_unchanged (n : Z) :
  Z.abs n < 2 ^ 53 ->
  _safe_int (PInt n) = Ok (PInt n)
  /\ (exists f, _safe_float (PInt n) = Ok (PFloat f) /\ float_is_integer f n)
  /\ (forall b : bool, _safe_int (PBool b) = Ok (PInt (if b then 1 else 0)))
  /\ _safe_int (PInt (2 ^ 53 + 1)) = Ok (PInt (2 ^ 53)).
Proof.
  intros Hn. destruct (small_integer_coerced n Hn) as (f & Hf & Hv & Hr).
  split; [ | split; [ | split]].
  - rewrite safe_int_eq, Hf, Hr. reflexivity.
  - exists f. split; [ | exact Hv]. rewrite safe_float_eq, Hf. reflexivity.
  - intros [ | ]; vm_compute; reflexivity.
  - vm_compute. reflexivity.
Qed.

Lemma small_integers_pass_unchanged_witness :
  _safe_int (PInt 95) = Ok (PInt 95)
  /\ exists f, _safe_float (PInt (-12)) = Ok (PFloat f) /\ float_is_integer f (-12).
Proof.
  split.
  - apply (small_integers_pass_unchanged 95). reflexivity.
  - apply (small_integers_pass_unchanged (-12)). reflexivity.
Defined.

(** ** The fetcher *)

(** [fetch_open_meteo] makes one request, to the forecast URL with the
    timeout 25: an exception of the request is passed on; an answer with a
    status from 400 to 599 raises [HTTPError] whatever its body holds; any
    other answer gives what decoding its body gives.  So a raw response is
    returned only for an answer outside the error statuses whose body
    decodes. *)
Theorem fetch_open_meteo_outcomes (env : environment) (lat lon tz : pyval) :
  (forall e,
      http_get env FORECAST_URL (request_params lat lon tz) 25 = Raise e ->
      fetch_open_meteo env lat lon tz = Raise e)
  /\ (forall r,
        http_get env FORECAST_URL (request_params lat lon tz) 25 = Ok r ->
        400 <= status_code r < 600 ->
        fetch_open_meteo env lat lon tz = Raise HTTPError)
  /\ (forall r,
        http_get env FORECAST_URL (request_params lat lon tz) 25 = Ok r ->
        status_code r < 400 \/ 600 <= status_code r ->
        fetch_open_meteo env lat lon tz = json_body r)
  /\ (forall raw,
        fetch_open_meteo env lat lon tz = Ok raw ->
        exists r,
          http_get env FORECAST_URL (request_params lat lon tz) 25 = Ok r
          /\ (status_code r < 400 \/ 600 <= status_code r)
          /\ json_body r = Ok raw).
Proof.
  unfold fetch_open_meteo, raise_for_status, FORECAST_URL.
  split; [ | split; [ | split]].
  - intros e ->. reflexivity.
  - intros r -> [H1 H2]. cbn [bind].
    apply Z.leb_le in H1. apply Z.ltb_lt in H2. rewrite H1, H2. reflexivity.
  - intros r -> H. cbn [bind].
    destruct (Z.leb_spec 400 (status_code r)); destruct (Z.ltb_spec (status_code r) 600);
      try lia; reflexivity.
  - intros raw H.
    destruct (http_get env _ _ 25) as [r | e]; [ | discriminate].
    exists r. split; [reflexivity | ]. cbn [bind] in H.
    destruct (Z.leb_spec 400 (status_code r)); destruct (Z.ltb_spec (status_code r) 600);
      cbn in H; try discriminate; (split; [lia | exact H]).
Qed.

Lemma fetch_open_meteo_outcomes_witness :
  fetch_open_meteo env_http_500 LAT LON TIMEZONE = Raise HTTPError
  /\ fetch_open_meteo env_ok LAT LON TIMEZONE = Ok sample_raw.
Proof.
  split.
  - apply (proj1 (proj2 (fetch_open_meteo_outcomes env_http_500 LAT LON TIMEZONE))
             {| status_code := 500; json_body := Raise JSONDecodeError |}).
    + reflexivity.
    + split; [intros H | ]; [discriminate H | reflexivity].
  - apply (proj1 (proj2 (proj2 (fetch_open_meteo_outcomes env_ok LAT LON TIMEZONE)))
             {| status_code := 200; json_body := Ok sample_raw |}).
    + reflexivity.
    + left. reflexivity.
Defined.

(** The fields that the request asks for are the ones that [build_json]
    reads: for [current] and [hourly] the same lists in the same order, for
    [daily] the same four fields. *)
Theorem requested_fields_are_the_fields_read (lat lon tz : pyval) :
  py_get (request_params lat lon tz) "current" PNone
  = Ok (PStr (String.concat "," (raw_keys current_fields)))
  /\ py_get (request_params lat lon tz) "hourly" PNone
     = Ok (PStr (String.concat "," (raw_keys hourly_fields)))
  /\ (exists requested,
         py_get (request_params lat lon tz) "daily" PNone
         = Ok (PStr (String.concat "," requested))
         /\ forall k, In k requested <-> In k (raw_keys daily_fields))
  /\ py_get (request_params lat lon tz) "latitude" PNone = Ok lat
  /\ py_get (request_params lat lon tz) "longitude" PNone = Ok lon
  /\ py_get (request_params lat lon tz) "timezone" PNone = Ok tz
  /\ py_get (request_params lat lon tz) "forecast_days" PNone = Ok (PInt 7).
Proof.
  split; [reflexivity | ]. split; [reflexivity | ]. split.
  - eexists. split; [reflexivity | ]. intros k. simpl. tauto.
  - repeat split.
Qed.

(** ** The driver *)

(** Every run of [main] ends in one of three ways.  It returns, having
    written the JSON text of a document to the output file and one line,
    [Wrote weather.json], to the standard output.  Or it raises
    [SystemExit(1)], having printed one line, [ERROR: ] and the message of
    an exception, on the diagnostic stream and nothing on the standard
    output.  Or an exception that is no [Exception] (an interrupt) passes
    through it, and nothing is printed.  No [Exception] ever leaves
    [main]. *)
Theorem main_outcomes (env : environment) (w : world) :
  (snd (main env w) = Ok tt
   /\ stdout (fst (main env w)) = (stdout w ++ line "Wrote weather.json")%string
   /\ stderr (fst (main env w)) = stderr w
   /\ exists raw out,
        fetch_open_meteo env LAT LON TIMEZONE = Ok raw
        /\ build_json (clock env) raw PLACE_NAME LAT LON TIMEZONE = Ok out
        /\ files (fst (main env w)) OUTFILE = Some (json_dumps out))
  \/ (snd (main env w) = Raise (SystemExit 1)
      /\ stdout (fst (main env w)) = stdout w
      /\ exists e,
           is_Exception e = true
           /\ stderr (fst (main env w))
              = (stderr w ++ line ("ERROR: " ++ exc_text env e))%string)
  \/ (exists e,
        is_Exception e = false
        /\ snd (main env w) = Raise e
        /\ stdout (fst (main env w)) = stdout w
        /\ stderr (fst (main env w)) = stderr w).
Proof.
  assert (Fail : forall (w1 : world) (e : pyexc),
             main_try env w = (w1, Raise e) ->
             stdout w1 = stdout w -> stderr w1 = stderr w ->
             (snd (main env w) = Raise (SystemExit 1)
              /\ stdout (fst (main env w)) = stdout w
              /\ exists e0,
                   is_Exception e0 = true
                   /\ stderr (fst (main env w))
                      = (stderr w ++ line ("ERROR: " ++ exc_text env e0))%string)
             \/ (exists e0,
                   is_Exception e0 = false
                   /\ snd (main env w) = Raise e0
                   /\ stdout (fst (main env w)) = stdout w
                   /\ stderr (fst (main env w)) = stderr w)).
  { intros w1 e Hm Ho He. unfold main. rewrite Hm.
    destruct (is_Exception e) eqn:Hexc.
    - left. cbn. split; [reflexivity | ]. split; [assumption | ].
      exists e. split; [assumption | ]. rewrite He. reflexivity.
    - right. exists e. cbn. repeat split; assumption. }
  destruct (fetch_open_meteo env LAT LON TIMEZONE) as [raw | e] eqn:Hf.
  2: { right. apply (Fail w e); [ | reflexivity | reflexivity].
       unfold main_try. rewrite Hf. reflexivity. }
  destruct (build_json (clock env) raw PLACE_NAME LAT LON TIMEZONE)
    as [out | e] eqn:Hb.
  2: { right. apply (Fail w e); [ | reflexivity | reflexivity].
       unfold main_try. rewrite Hf, Hb. reflexivity. }
  destruct (open_error env) as [e | ] eqn:Ho.
  { right. apply (Fail w e); [ | reflexivity | reflexivity].
    unfold main_try, write_outfile. rewrite Hf, Hb, Ho. reflexivity. }
  destruct (write_error env) as [[n e] | ] eqn:Hw.
  { right.
    apply (Fail (set_file w OUTFILE (substring 0 n (json_dumps out))) e);
      [ | reflexivity | reflexivity].
    unfold main_try, write_outfile. rewrite Hf, Hb, Ho, Hw. reflexivity. }
  left. unfold main, main_try, write_outfile. rewrite Hf, Hb, Ho, Hw. cbn.
  split; [reflexivity | ]. split; [reflexivity | ]. split; [reflexivity | ].
  exists raw, out. split; [assumption || reflexivity | ].
  split; [assumption || reflexivity | ]. reflexivity.
Qed.

(** The output file is written in place.  When it cannot be opened,
    [main] exits with status 1 and no file is touched.  When the write fails
    after some characters, [main] exits with status 1 and the file holds
    those characters of the new text, not its former content; nothing is
    printed on the standard output. *)
Theorem main_write_failures (env : environment) (w : world) (raw out : pyval) :
  fetch_open_meteo env LAT LON TIMEZONE = Ok raw ->
  build_json (clock env) raw PLACE_NAME LAT LON TIMEZONE = Ok out ->
  (forall e,
      open_error env = Some e -> is_Exception e = true ->
      exit_status (snd (main env w)) = Some 1
      /\ (forall name, files (fst (main env w)) name = files w name)
      /\ stderr (fst (main env w))
         = (stderr w ++ line ("ERROR: " ++ exc_text env e))%string)
  /\ (forall n e,
        open_error env = None -> write_error env = Some (n, e) ->
        is_Exception e = true ->
        exit_status (snd (main env w)) = Some 1
        /\ files (fst (main env w)) OUTFILE
           = Some (substring 0 n (json_dumps out))
        /\ (forall name, name <> OUTFILE ->
            files (fst (main env w)) name = files w name)
        /\ stdout (fst (main env w)) = stdout w
        /\ stderr (fst (main env w))
           = (stderr w ++ line ("ERROR: " ++ exc_text env e))%string).
Proof.
  intros Hf Hb. split.
  - intros e Ho He. unfold main, main_try, write_outfile.
    rewrite Hf, Hb, Ho, He. cbn. repeat split.
  - intros n e Ho Hw He. unfold main, main_try, write_outfile.
    rewrite Hf, Hb, Ho, Hw, He. cbn.
    split; [reflexivity | ]. split; [reflexivity | ].
    split; [ | split; reflexivity].
    intros name Hn. apply String.eqb_neq in Hn. rewrite Hn. reflexivity.
Qed.

Lemma main_write_failures_witness :
  (exit_status (snd (main env_read_only empty_world)) = Some 1
   /\ (forall name,
          files (fst (main env_read_only empty_world)) name
          = files empty_world name)
   /\ stderr (fst (main env_read_only empty_world))
      = (stderr empty_world
         ++ line ("ERROR: " ++ exc_text env_read_only OSError))%string)
  /\ (exit_status (snd (main env_disk_full empty_world)) = Some 1
      /\ files (fst (main env_disk_full empty_world)) OUTFILE
         = Some (substring 0 10 (json_dumps sample_document))
      /\ (forall name, name <> OUTFILE ->
          files (fst (main env_disk_full empty_world)) name
          = files empty_world name)
      /\ stdout (fst (main env_disk_full empty_world)) = stdout empty_world
      /\ stderr (fst (main env_disk_full empty_world))
         = (stderr empty_world
            ++ line ("ERROR: " ++ exc_text env_disk_full OSError))%string).
Proof.
  split.
  - apply (proj1 (main_write_failures env_read_only empty_world
                    sample_raw sample_document eq_refl eq_refl) OSError);
      reflexivity.
  - apply (proj2 (main_write_failures env_disk_full empty_world
                    sample_raw sample_document eq_refl eq_refl) 10%nat OSError);
      reflexivity.
Defined.

(** ** The timestamp *)

Lemma string_length_append (a b : string) :
  String.length (a ++ b) = (String.length a + String.length b)%nat.
Proof. induction a as [ | c a IH]; simpl; [reflexivity | rewrite IH; reflexivity]. Qed.

Lemma string_append_inj (a a' b b' : string) :
  String.length a = String.length a' ->
  (a ++ b)%string = (a' ++ b')%string -> a = a' /\ b = b'.
Proof.
  revert a'. induction a as [ | c a IH]; intros [ | c' a']; simpl;
    try discriminate.
  - intros _ H. split; [reflexivity | exact H].
  - intros [= Hl] [= -> H]. destruct (IH a' Hl H) as [-> ->].
    split; reflexivity.
Qed.

Lemma string_of_list_length (l : list ascii) :
  String.length (string_of_list_ascii l) = List.length l.
Proof. induction l as [ | c l IH]; simpl; [reflexivity | rewrite IH; reflexivity]. Qed.

(** The digits that [nat_digits] puts in front of [acc]: they spell [n],
    and they are at most [w] when [n < 10 ^ w]. *)
Lemma nat_digits_spec (fuel n : nat) (acc : list ascii) :
  (n < fuel)%nat ->
  exists ds,
    nat_digits fuel n acc = ds ++ acc
    /\ digits_to_Z ds = Z.of_nat n
    /\ forall w, (1 <= w)%nat -> (n < 10 ^ w)%nat -> (List.length ds <= w)%nat.
Proof.
  revert n acc. induction fuel as [ | fuel IH]; intros n acc H; [lia | ].
  cbn [nat_digits].
  assert (Hmod : (n mod 10 < 10)%nat) by (apply Nat.mod_upper_bound; lia).
  assert (Hval : digit_val (ascii_of_nat (48 + n mod 10)) = Z.of_nat (n mod 10)).
  { unfold digit_val, code. rewrite nat_ascii_embedding by lia. lia. }
  destruct (Nat.ltb_spec n 10) as [Hlt | Hge].
  - exists [ascii_of_nat (48 + n mod 10)]. split; [reflexivity | ].
    split; [rewrite digits_to_Z_one, Hval, Nat.mod_small by lia; reflexivity | ].
    intros w Hw _. simpl. lia.
  - assert (Hdiv : (n / 10 < n)%nat) by (apply Nat.div_lt; lia).
    destruct (IH (n / 10)%nat (ascii_of_nat (48 + n mod 10) :: acc))
      as (ds & E & V & L); [lia | ].
    exists (ds ++ [ascii_of_nat (48 + n mod 10)]).
    split; [rewrite E, <- app_assoc; reflexivity | ]. split.
    + rewrite digits_to_Z_app, V, digits_to_Z_one, Hval.
      change (Z.of_nat (List.length [ascii_of_nat (48 + n mod 10)])) with 1%Z.
      pose proof (Nat.div_mod_eq n 10). lia.
    + intros w Hw Hn. rewrite length_app. simpl.
      destruct w as [ | [ | w]]; [lia | simpl in Hn; lia | ].
      assert ((n / 10 < 10 ^ S w)%nat).
      { apply Nat.Div0.div_lt_upper_bound. rewrite <- Nat.pow_succ_r'. exact Hn. }
      pose proof (L (S w) ltac:(lia) H0). lia.
Qed.

Lemma digits_to_Z_zeros (k : nat) : digits_to_Z (repeat "0"%char k) = 0.
Proof.
  induction k as [ | k IH]; [reflexivity | ].
  change (repeat "0"%char (S k)) with (["0"%char] ++ repeat "0"%char k).
  rewrite digits_to_Z_app, IH. reflexivity.
Qed.

(** [zero_padded] fills its width and spells the number. *)
Lemma zero_padded_spec (w n : nat) :
  (1 <= w)%nat -> (n < 10 ^ w)%nat ->
  String.length (zero_padded w n) = w
  /\ digits_to_Z (list_ascii_of_string (zero_padded w n)) = Z.of_nat n.
Proof.
  intros Hw Hn. unfold zero_padded.
  destruct (nat_digits_spec (S n) n [] ltac:(lia)) as (ds & E & V & L).
  rewrite E, app_nil_r. pose proof (L w Hw Hn) as Hl. split.
  - rewrite string_of_list_length, length_app, repeat_length. lia.
  - rewrite list_ascii_of_string_of_list_ascii, digits_to_Z_app,
      digits_to_Z_zeros, V. lia.
Qed.

Lemma zero_padded_inj (w n n' : nat) :
  (1 <= w)%nat -> (n < 10 ^ w)%nat -> (n' < 10 ^ w)%nat ->
  zero_padded w n = zero_padded w n' -> n = n'.
Proof.
  intros Hw Hn Hn' H.
  destruct (zero_padded_spec w n Hw Hn) as [_ V].
  destruct (zero_padded_spec w n' Hw Hn') as [_ V'].
  rewrite H in V. lia.
Qed.

Lemma clock_in_range_spec (t : datetime) :
  clock_in_range t = true ->
  (year t < 10 ^ 4 /\ month t < 10 ^ 2 /\ day t < 10 ^ 2
   /\ hour t < 10 ^ 2 /\ minute t < 10 ^ 2 /\ second t < 10 ^ 2)%nat.
Proof.
  unfold clock_in_range. rewrite !andb_true_iff, !Nat.ltb_lt.
  change (10 ^ 2)%nat with 100%nat. tauto.
Qed.

(** The timestamp of a clock reading has 25 characters, the date and the
    time to the second in fixed-width fields and the offset [+00:00]; two
    readings have the same timestamp exactly when they agree in year,
    month, day, hour, minute and second, the microsecond being dropped. *)
Theorem timestamp_to_the_second (t t' : datetime) :
  clock_in_range t = true -> clock_in_range t' = true ->
  String.length (_now_utc_iso t) = 25%nat
  /\ (_now_utc_iso t = _now_utc_iso t' <->
      year t = year t' /\ month t = month t' /\ day t = day t'
      /\ hour t = hour t' /\ minute t = minute t' /\ second t = second t').
Proof.
  intros Ht Ht'.
  destruct (clock_in_range_spec t Ht) as (Y & Mo & D & H & Mi & S).
  destruct (clock_in_range_spec t' Ht') as (Y' & Mo' & D' & H' & Mi' & S').
  pose proof (fun n b => proj1 (zero_padded_spec 4 n ltac:(lia) b)) as L4.
  pose proof (fun n b => proj1 (zero_padded_spec 2 n ltac:(lia) b)) as L2.
  split.
  - unfold _now_utc_iso, isoformat_seconds.
    rewrite !string_length_append, L4, !L2 by assumption. reflexivity.
  - split.
    + unfold _now_utc_iso, isoformat_seconds. intros E.
      apply string_append_inj in E.
      2: { rewrite !string_length_append, !L4, !L2 by assumption. reflexivity. }
      destruct E as [E _].
      apply string_append_inj in E; [ | rewrite !L4 by assumption; reflexivity].
      destruct E as [EY E]. injection E as E.
      apply string_append_inj in E; [ | rewrite !L2 by assumption; reflexivity].
      destruct E as [EMo E]. injection E as E.
      apply string_append_inj in E; [ | rewrite !L2 by assumption; reflexivity].
      destruct E as [ED E]. injection E as E.
      apply string_append_inj in E; [ | rewrite !L2 by assumption; reflexivity].
      destruct E as [EH E]. injection E as E.
      apply string_append_inj in E; [ | rewrite !L2 by assumption; reflexivity].
      destruct E as [EMi E]. injection E as ES.
      repeat split;
        first [ eapply (zero_padded_inj 4); [lia | | | eassumption]; assumption
              | eapply (zero_padded_inj 2); [lia | | | eassumption]; assumption ].
    + unfold _now_utc_iso, isoformat_seconds.
      intros (-> & -> & -> & -> & -> & ->). reflexivity.
Qed.

Lemma timestamp_to_the_second_witness :
  String.length (_now_utc_iso sample_clock) = 25%nat
  /\ (_now_utc_iso sample_clock = _now_utc_iso later_clock <->
      year sample_clock = year later_clock
      /\ month sample_clock = month later_clock
      /\ day sample_clock = day later_clock
      /\ hour sample_clock = hour later_clock
      /\ minute sample_clock = minute later_clock
      /\ second sample_clock = second later_clock).
Proof.
  apply (timestamp_to_the_second sample_clock later_clock); reflexivity.
Defined.

(** ** What [build_json] reads *)

Lemma mapM_ext {A B : Type} (f g : A -> result B) (l : list A) :
  (forall a, In a l -> f a = g a) -> mapM f l = mapM g l.
Proof.
  induction l as [ | a l IH]; intros H; [reflexivity | ].
  cbn [mapM]. rewrite (H a (or_introl eq_refl)), IH; [reflexivity | ].
  intros b Hb. apply H. right. exact Hb.
Qed.

Lemma same_leading_refl (n : nat) (a : pyval) : same_leading n a a.
Proof. destruct a; reflexivity. Qed.

Lemma same_leading_len (n : nat) (a a' : pyval) :
  same_leading n a a' ->
  match py_len a, py_len a' with
  | Ok k, Ok k' => Nat.min n k = Nat.min n k'
  | Raise e, Raise e' => e = e'
  | _, _ => False
  end.
Proof.
  destruct a, a'; cbn; intros H; try discriminate H; try reflexivity;
    try (injection H as ->; reflexivity).
  rewrite <- !length_firstn, H. reflexivity.
Qed.

Lemma same_leading_getitem (n : nat) (a a' : pyval) (i : nat) :
  same_leading n a a' -> (i < n)%nat -> py_getitem a i = py_getitem a' i.
Proof.
  destruct a, a'; cbn; intros H Hi; try discriminate H; try reflexivity;
    try (injection H as ->; reflexivity).
  pose proof (nth_error_firstn n l i) as E.
  pose proof (nth_error_firstn n l0 i) as E'.
  destruct (Nat.ltb_spec i n); [ | lia].
  rewrite <- E, <- E', H. reflexivity.
Qed.

Lemma same_leading_bounded_item (conv : pyval -> result pyval) (n : nat)
  (a a' : pyval) (i : nat) :
  same_leading n a a' -> (i < n)%nat ->
  bounded_item conv a i = bounded_item conv a' i.
Proof.
  intros H Hi. unfold bounded_item.
  rewrite (same_leading_getitem n a a' i H Hi).
  pose proof (same_leading_len n a a' H) as L.
  destruct (py_len a) as [k | e], (py_len a') as [k' | e'];
    try contradiction; [ | rewrite L; reflexivity].
  cbn [bind].
  replace (i <? k')%nat with (i <? k)%nat; [reflexivity | ].
  destruct (Nat.ltb_spec i k), (Nat.ltb_spec i k'); try reflexivity; lia.
Qed.

(** The sections of [build_json] in terms of the arrays they read. *)
Lemma hourly_section_arrays (raw : pyval) :
  hourly_section raw =
  (times <- raw_array raw "hourly" "time" ;;
   temp <- raw_array raw "hourly" "temperature_2m" ;;
   feels <- raw_array raw "hourly" "apparent_temperature" ;;
   pop <- raw_array raw "hourly" "precipitation_probability" ;;
   wind <- raw_array raw "hourly" "wind_speed_10m" ;;
   wdir <- raw_array raw "hourly" "wind_direction_10m" ;;
   gust <- raw_array raw "hourly" "wind_gusts_10m" ;;
   wcode <- raw_array raw "hourly" "weather_code" ;;
   n <- py_len times ;;
   mapM (hourly_record times temp feels pop wind wdir gust wcode)
        (seq 0 (Nat.min 24 n))).
Proof.
  unfold hourly_section, raw_array.
  destruct (get_section raw "hourly") as [h | e]; reflexivity.
Qed.

Lemma daily_section_arrays (raw : pyval) :
  daily_section raw =
  (d_dates <- raw_array raw "daily" "time" ;;
   tmax <- raw_array raw "daily" "temperature_2m_max" ;;
   tmin <- raw_array raw "daily" "temperature_2m_min" ;;
   dpop <- raw_array raw "daily" "precipitation_probability_max" ;;
   dcode <- raw_array raw "daily" "weather_code" ;;
   n <- py_len d_dates ;;
   mapM (daily_record d_dates tmax tmin dpop dcode) (seq 0 (Nat.min 7 n))).
Proof.
  unfold daily_section, raw_array.
  destruct (get_section raw "daily") as [h | e]; reflexivity.
Qed.

Lemma current_section_fields (raw : pyval) :
  current_section raw =
  (x1 <- raw_current raw "temperature_2m" ;; v1 <- _safe_float x1 ;;
   x2 <- raw_current raw "apparent_temperature" ;; v2 <- _safe_float x2 ;;
   x3 <- raw_current raw "relative_humidity_2m" ;; v3 <- _safe_int x3 ;;
   x4 <- raw_current raw "wind_speed_10m" ;; v4 <- _safe_float x4 ;;
   x5 <- raw_current raw "wind_direction_10m" ;; v5 <- _safe_int x5 ;;
   x6 <- raw_current raw "wind_gusts_10m" ;; v6 <- _safe_float x6 ;;
   x7 <- raw_current raw "weather_code" ;; v7 <- _safe_int x7 ;;
   Ok (PDict [("temperature_c", v1); ("feels_like_c", v2); ("humidity_pct", v3);
              ("wind_speed_kmh", v4); ("wind_dir_deg", v5);
              ("wind_gust_kmh", v6); ("weather_code", v7)])).
Proof.
  unfold current_section, raw_current, current_record, current_item.
  destruct (get_section raw "current") as [c | e]; [ | reflexivity].
  cbn [bind].
  repeat (match goal with
          | |- context [py_get c ?k PNone] =>
              destruct (py_get c k PNone); cbn [bind]; [ | reflexivity]
          | |- context [bind (?f ?x)] =>
              destruct (f x); cbn [bind]; [ | reflexivity]
          end).
  reflexivity.
Qed.

Ltac same_array H a a' R :=
  match type of H with
  | same_outcome _ ?r ?r' =>
      destruct r as [a | ?], r' as [a' | ?]; cbn [same_outcome] in H;
      try contradiction; [rename H into R | rewrite H; reflexivity]
  end.

Lemma hourly_section_agrees (raw raw' : pyval) :
  Forall (fun k => same_outcome (same_leading 24)
                     (raw_array raw "hourly" k) (raw_array raw' "hourly" k))
         ("time" :: raw_keys hourly_fields) ->
  hourly_section raw = hourly_section raw'.
Proof.
  intros H. rewrite !hourly_section_arrays.
  cbn [raw_keys hourly_fields map fst snd] in H.
  repeat match type of H with
         | Forall _ (_ :: _) =>
             let H1 := fresh "A" in
             apply Forall_cons_iff in H; destruct H as [H1 H]
         end.
  clear H.
  same_array A a0 b0 R0. cbn [bind].
  same_array A0 a1 b1 R1. cbn [bind].
  same_array A1 a2 b2 R2. cbn [bind].
  same_array A2 a3 b3 R3. cbn [bind].
  same_array A3 a4 b4 R4. cbn [bind].
  same_array A4 a5 b5 R5. cbn [bind].
  same_array A5 a6 b6 R6. cbn [bind].
  same_array A6 a7 b7 R7. cbn [bind].
  pose proof (same_leading_len 24 a0 b0 R0) as L.
  destruct (py_len a0) as [k | e], (py_len b0) as [k' | e'];
    try contradiction; [ | rewrite L; reflexivity].
  cbn [bind]. rewrite <- L. apply mapM_ext. intros i Hi.
  apply in_seq in Hi.
  assert (Hi24 : (i < 24)%nat) by lia.
  unfold hourly_record.
  rewrite (same_leading_getitem 24 a0 b0 i R0 Hi24),
    (same_leading_bounded_item _safe_float 24 a1 b1 i R1 Hi24),
    (same_leading_bounded_item _safe_float 24 a2 b2 i R2 Hi24),
    (same_leading_bounded_item _safe_int 24 a3 b3 i R3 Hi24),
    (same_leading_bounded_item _safe_float 24 a4 b4 i R4 Hi24),
    (same_leading_bounded_item _safe_int 24 a5 b5 i R5 Hi24),
    (same_leading_bounded_item _safe_float 24 a6 b6 i R6 Hi24),
    (same_leading_bounded_item _safe_int 24 a7 b7 i R7 Hi24).
  reflexivity.
Qed.

Lemma daily_section_agrees (raw raw' : pyval) :
  Forall (fun k => same_outcome (same_leading 7)
                     (raw_array raw "daily" k) (raw_array raw' "daily" k))
         ("time" :: raw_keys daily_fields) ->
  daily_section raw = daily_section raw'.
Proof.
  intros H. rewrite !daily_section_arrays.
  cbn [raw_keys daily_fields map fst snd] in H.
  repeat match type of H with
         | Forall _ (_ :: _) =>
             let H1 := fresh "A" in
             apply Forall_cons_iff in H; destruct H as [H1 H]
         end.
  clear H.
  (* the keys come in the order of [daily_fields]: tmax, tmin, code, pop *)
  same_array A a0 b0 R0. cbn [bind].
  same_array A0 a1 b1 R1. cbn [bind].
  same_array A1 a2 b2 R2. cbn [bind].
  same_array A3 a4 b4 R4. cbn [bind].
  same_array A2 a3 b3 R3. cbn [bind].
  pose proof (same_leading_len 7 a0 b0 R0) as L.
  destruct (py_len a0) as [k | e], (py_len b0) as [k' | e'];
    try contradiction; [ | rewrite L; reflexivity].
  cbn [bind]. rewrite <- L. apply mapM_ext. intros i Hi.
  apply in_seq in Hi.
  assert (Hi7 : (i < 7)%nat) by lia.
  unfold daily_record.
  rewrite (same_leading_getitem 7 a0 b0 i R0 Hi7),
    (same_leading_bounded_item _safe_float 7 a1 b1 i R1 Hi7),
    (same_leading_bounded_item _safe_float 7 a2 b2 i R2 Hi7),
    (same_leading_bounded_item _safe_int 7 a3 b3 i R3 Hi7),
    (same_leading_bounded_item _safe_int 7 a4 b4 i R4 Hi7).
  reflexivity.
Qed.

Lemma current_section_agrees (raw raw' : pyval) :
  Forall (fun k => raw_current raw k = raw_current raw' k)
         (raw_keys current_fields) ->
  current_section raw = current_section raw'.
Proof.
  intros H. rewrite !current_section_fields.
  cbn [raw_keys current_fields map fst snd] in H.
  repeat match type of H with
         | Forall _ (_ :: _) =>
             let H1 := fresh "A" in
             apply Forall_cons_iff in H; destruct H as [H1 H]
         end.
  rewrite A, A0, A1, A2, A3, A4, A5. reflexivity.
Qed.

Lemma lookup_other (k k' : string) (v : pyval) (d : list (string * pyval)) :
  k' <> k -> lookup k' ((k, v) :: d) = lookup k' d.
Proof.
  intros Hk. cbn [lookup]. destruct (String.eqb_spec k' k); congruence.
Qed.

Lemma same_outcome_refl (n : nat) (r : result pyval) :
  same_outcome (same_leading n) r r.
Proof. destruct r; cbn; [apply same_leading_refl | reflexivity]. Qed.

(** [build_json] reads of the raw response the seven fields of [current],
    the first 24 items of the eight arrays of [hourly] and the first 7
    items of the five arrays of [daily], and nothing else: two responses
    that agree in these give the same outcome, the same document or the
    same exception.  So a key that [build_json] does not name, at the top
    or in a section, changes nothing. *)
Theorem build_json_reads_leading_entries_only
  (utcnow : datetime) (raw raw' place_name lat lon tz : pyval) :
  (same_reading raw raw' ->
   build_json utcnow raw place_name lat lon tz
   = build_json utcnow raw' place_name lat lon tz)
  /\ (forall d k v,
        raw = PDict d ->
        ~ In k ["current"; "hourly"; "daily"] ->
        build_json utcnow (PDict ((k, v) :: d)) place_name lat lon tz
        = build_json utcnow raw place_name lat lon tz).
Proof.
  assert (Agree : forall r r', same_reading r r' ->
            build_json utcnow r place_name lat lon tz
            = build_json utcnow r' place_name lat lon tz).
  { intros r r' (Hc & Hh & Hd). unfold build_json.
    rewrite (current_section_agrees r r' Hc), (hourly_section_agrees r r' Hh),
      (daily_section_agrees r r' Hd).
    reflexivity. }
  split; [apply Agree | ].
  intros d k v -> Hk. apply Agree.
  assert (Sect : forall s, In s ["current"; "hourly"; "daily"] ->
            get_section (PDict ((k, v) :: d)) s = get_section (PDict d) s).
  { intros s Hs. unfold get_section, py_get, get_or.
    rewrite lookup_other; [reflexivity | ]. intros ->. exact (Hk Hs). }
  unfold same_reading, raw_current, raw_array.
  rewrite !Sect by (cbn; tauto).
  split; [ | split]; apply Forall_forall; intros key _;
    first [reflexivity | apply same_outcome_refl].
Qed.

Lemma build_json_reads_leading_entries_only_witness :
  build_json sample_clock sample_long PLACE_NAME LAT LON TIMEZONE
  = build_json sample_clock sample_cut PLACE_NAME LAT LON TIMEZONE.
Proof.
  apply (proj1 (build_json_reads_leading_entries_only
                  sample_clock sample_long sample_cut PLACE_NAME LAT LON TIMEZONE)).
  split; [ | split]; repeat constructor.
Defined.

(** ** Integers written as strings *)

Lemma digit_is_plain (c : ascii) :
  is_digit c = true ->
  is_ascii c = true /\ is_underscore c = false /\ is_space c = false.
Proof.
  unfold is_digit, is_ascii, is_underscore, is_space.
  rewrite andb_true_iff, !Nat.leb_le. intros [H1 H2].
  split; [apply Nat.ltb_lt; lia | ].
  split; [apply Nat.eqb_neq; lia | ].
  apply orb_false_iff. split; [ | apply Nat.eqb_neq; lia].
  apply andb_false_iff. right. apply Nat.leb_gt. lia.
Qed.

Lemma read_sign_digit (c : ascii) (s : list ascii) :
  is_digit c = true -> read_sign (c :: s) = (false, c :: s).
Proof.
  intros H.
  destruct c as [[] [] [] [] [] [] [] []]; try discriminate H; reflexivity.
Qed.

Lemma span_digits_all (ds : list ascii) :
  forallb is_digit ds = true -> span_digits ds = (ds, []).
Proof.
  induction ds as [ | c ds IH]; [reflexivity | ].
  cbn [forallb span_digits]. intros H. apply andb_true_iff in H.
  destruct H as [Hc Hds]. rewrite Hc, (IH Hds). reflexivity.
Qed.

Lemma drop_spaces_head (c : ascii) (s : list ascii) :
  is_space c = false -> drop_spaces (c :: s) = c :: s.
Proof. intros H. cbn [drop_spaces]. rewrite H. reflexivity. Qed.

(** A string that neither starts nor ends with white space is stripped
    to itself. *)
Lemma strip_spaces_plain (c : ascii) (s : list ascii) (z : ascii) :
  is_space c = false -> is_space z = false ->
  strip_spaces (c :: s ++ [z]) = c :: s ++ [z].
Proof.
  intros Hc Hz. unfold strip_spaces.
  rewrite (drop_spaces_head c _ Hc).
  change (c :: s ++ [z]) with ((c :: s) ++ [z]).
  rewrite rev_app_distr. cbn [rev app].
  rewrite (drop_spaces_head z _ Hz).
  change (z :: rev s ++ [c]) with ([z] ++ rev (c :: s)).
  rewrite rev_app_distr, rev_involutive. reflexivity.
Qed.

Lemma strip_spaces_single (c : ascii) :
  is_space c = false -> strip_spaces [c] = [c].
Proof.
  intros Hc. unfold strip_spaces. rewrite (drop_spaces_head c _ Hc).
  cbn [rev app]. rewrite (drop_spaces_head c _ Hc). reflexivity.
Qed.

Lemma strip_spaces_all (s : list ascii) :
  forallb (fun c => negb (is_space c)) s = true -> strip_spaces s = s.
Proof.
  intros H. destruct s as [ | c s]; [reflexivity | ].
  assert (Hall : forall x, In x (c :: s) -> is_space x = false).
  { intros x Hx. rewrite forallb_forall in H. specialize (H x Hx).
    destruct (is_space x); [discriminate | reflexivity]. }
  destruct s as [ | a s].
  - apply strip_spaces_single. apply Hall. left. reflexivity.
  - destruct (@exists_last _ (a :: s) ltac:(discriminate)) as (s' & z & E).
    rewrite E in *. apply strip_spaces_plain.
    + apply Hall. left. reflexivity.
    + apply Hall. right. apply in_or_app. right. left. reflexivity.
Qed.

Lemma parse_decimal_digits (neg : bool) (c : ascii) (ds : list ascii) :
  forallb is_digit (c :: ds) = true ->
  parse_decimal ((if neg then ["-"%char] else []) ++ c :: ds)
  = Some (neg, digits_to_Z (c :: ds), 0).
Proof.
  intros H. unfold parse_decimal.
  assert (Hc : is_digit c = true).
  { cbn [forallb] in H. apply andb_true_iff in H. apply H. }
  assert (S : read_sign ((if neg then ["-"%char] else []) ++ c :: ds)
              = (neg, c :: ds)).
  { destruct neg; [reflexivity | apply read_sign_digit; exact Hc]. }
  rewrite S, (span_digits_all _ H), app_nil_r. reflexivity.
Qed.

(** The characters of the numeral of an integer: an optional minus sign and
    digits. *)
Lemma int_repr_shape (n : Z) :
  exists c ds,
    int_repr n = (if n <? 0 then ["-"%char] else []) ++ c :: ds
    /\ forallb is_digit (c :: ds) = true
    /\ digits_to_Z (c :: ds) = Z.abs n.
Proof.
  unfold int_repr. destruct (Z.ltb_spec n 0) as [Hn | Hn].
  - destruct (Z_digits_pos (- n) ltac:(lia)) as (c & ds & E & V & D & _).
    exists c, ds. rewrite E. split; [reflexivity | ]. split; [exact D | lia].
  - destruct (Z.eq_dec n 0) as [-> | Hz].
    + exists "0"%char, []. repeat split.
    + destruct (Z_digits_pos n ltac:(lia)) as (c & ds & E & V & D & _).
      exists c, ds. rewrite E. split; [reflexivity | ]. split; [exact D | lia].
Qed.

Lemma float_of_string_numeral (n : Z) :
  float_of_string (numeral n) = Some (float_of_Z n).
Proof.
  unfold float_of_string, numeral.
  rewrite list_ascii_of_string_of_list_ascii.
  destruct (int_repr_shape n) as (c & ds & E & D & V). rewrite E.
  set (s := (if n <? 0 then ["-"%char] else []) ++ c :: ds).
  assert (Plain : forall x, In x s ->
            is_ascii x = true /\ is_underscore x = false /\ is_space x = false).
  { intros x Hx. unfold s in Hx. apply in_app_or in Hx.
    destruct Hx as [Hx | Hx].
    - destruct (n <? 0); [ | contradiction].
      destruct Hx as [<- | []]. repeat split.
    - apply digit_is_plain. rewrite forallb_forall in D. apply D. exact Hx. }
  assert (T : transform_decimal_and_space s = s).
  { unfold transform_decimal_and_space.
    replace (forallb is_ascii s) with true; [reflexivity | ].
    symmetry. apply forallb_forall. intros x Hx. apply (Plain x Hx). }
  assert (U : existsb is_underscore s = false).
  { destruct (existsb is_underscore s) eqn:Ex; [ | reflexivity].
    apply existsb_exists in Ex. destruct Ex as (x & Hx & Ux).
    destruct (Plain x Hx) as (_ & Nu & _). congruence. }
  rewrite T, U. unfold float_from_string_inner.
  rewrite strip_spaces_all.
  2: { apply forallb_forall. intros x Hx.
       destruct (Plain x Hx) as (_ & _ & ->). reflexivity. }
  unfold s. rewrite (parse_decimal_digits (n <? 0) c ds D), V.
  f_equal. unfold float_of_decimal, float_of_Z.
  change (10 ^ 0) with 1. rewrite Z.mul_1_r.
  destruct n as [ | p | p]; reflexivity.
Qed.

(** An integer written as a decimal string is read as the integer itself:
    [float] of the numeral of [n] is [float(n)], so below [2 ^ 53] in
    magnitude, where every integer is a float, [_safe_int] gives [n] back
    and [_safe_float] gives what it gives for [n] itself. *)
Theorem integer_strings_are_read_exactly (n : Z) :
  Z.abs n < 2 ^ 53 ->
  _safe_int (PStr (numeral n)) = Ok (PInt n)
  /\ _safe_float (PStr (numeral n)) = _safe_float (PInt n)
  /\ exists f, _safe_float (PStr (numeral n)) = Ok (PFloat f)
               /\ float_is_integer f n.
Proof.
  intros H. destruct (small_integer_coerced n H) as (f & Hf & Hi & Hr).
  assert (E : py_float (PStr (numeral n)) = Ok f).
  { cbn [py_float]. rewrite float_of_string_numeral.
    cbn [py_float] in Hf.
    destruct (float_of_Z n); try discriminate Hf; exact Hf. }
  split; [ | split].
  - rewrite safe_int_eq, E, Hr. reflexivity.
  - rewrite !safe_float_eq, E, Hf. reflexivity.
  - exists f. split; [rewrite safe_float_eq, E; reflexivity | exact Hi].
Qed.

Lemma integer_strings_are_read_exactly_witness :
  _safe_int (PStr (numeral (-317))) = Ok (PInt (-317))
  /\ _safe_float (PStr (numeral (-317))) = _safe_float (PInt (-317))
  /\ exists f, _safe_float (PStr (numeral (-317))) = Ok (PFloat f)
               /\ float_is_integer f (-317).
Proof.
  apply (integer_strings_are_read_exactly (-317)). reflexivity.
Defined.

(** ** Integers beyond the floats *)

Lemma shr_1_m (r : shr_record) :
  0 <= shr_m r -> shr_m (shr_1 r) = shr_m r / 2.
Proof.
  destruct r as [m b s]. cbn [shr_m]. intros H.
  destruct m as [ | [p | p | ] | p]; cbn [shr_1 shr_m]; try reflexivity;
    try lia.
  - apply (Z.div_unique _ _ _ 1); lia.
  - apply (Z.div_unique _ _ _ 0); lia.
Qed.

Lemma shr_iter_m (j : nat) (r : shr_record) :
  0 <= shr_m r ->
  shr_m (Nat.iter j shr_1 r) = shr_m r / 2 ^ Z.of_nat j.
Proof.
  intros H. induction j as [ | j IH].
  - change (Nat.iter 0 shr_1 r) with r. rewrite Z.div_1_r. reflexivity.
  - change (Nat.iter (S j) shr_1 r) with (shr_1 (Nat.iter j shr_1 r)).
    rewrite shr_1_m.
    + rewrite IH, Z.div_div by lia.
      rewrite Nat2Z.inj_succ, Z.pow_succ_r by lia.
      f_equal. ring.
    + rewrite IH. apply Z.div_pos; lia.
Qed.

(** What [shr_fexp] does to a positive mantissa: it drops the [k] low
    bits that the format has no room for. *)
Lemma shr_fexp_m (m : positive) (e : Z) (l : location) :
  let k := Z.max 0 (fexp prec emax (Zpos (digits2_pos m) + e) - e) in
  snd (shr_fexp prec emax (Zpos m) e l) = e + k
  /\ shr_m (fst (shr_fexp prec emax (Zpos m) e l)) = Zpos m / 2 ^ k.
Proof.
  intros k. unfold shr_fexp, shr. subst k.
  change (Zdigits2 (Zpos m)) with (Zpos (digits2_pos m)).
  assert (M : forall l0, shr_m (shr_record_of_loc (Zpos m) l0) = Zpos m).
  { intros [ | []]; reflexivity. }
  destruct (fexp prec emax (Zpos (digits2_pos m) + e) - e) as [ | p | p] eqn:E.
  - cbn [fst snd]. rewrite M. change (Z.max 0 0) with 0.
    rewrite Z.div_1_r. lia.
  - cbn [fst snd]. rewrite iter_pos_nat, shr_iter_m by (rewrite M; lia).
    rewrite M, positive_nat_Z. rewrite Z.max_r by lia. split; reflexivity.
  - cbn [fst snd]. rewrite M. rewrite Z.max_l by lia.
    rewrite Z.div_1_r. lia.
Qed.

Lemma round_nearest_even_bounds (q : Z) (l : location) :
  q <= round_nearest_even q l <= q + 1.
Proof.
  unfold round_nearest_even. destruct l as [ | []]; try lia.
  destruct (Z.even q); lia.
Qed.

(** An integer of magnitude [2 ^ 1024] or more rounds beyond the largest
    float. *)
Lemma binary_round_overflow (neg : bool) (p : positive) :
  2 ^ 1024 <= Zpos p -> binary_round prec emax neg p 0 = S754_infinity neg.
Proof.
  intros H. unfold binary_round.
  pose proof (digits_bounds p) as [D1 D2].
  set (d := Zpos (digits2_pos p)) in *.
  assert (Hd : 1025 <= d).
  { destruct (Z.le_gt_cases 1025 d) as [ | Hlt]; [assumption | exfalso].
    assert (2 ^ d <= 2 ^ 1024) by (apply Z.pow_le_mono_r; lia). lia. }
  assert (F : fexp prec emax (d + 0) = d - 53).
  { unfold fexp, emin, prec, emax. lia. }
  rewrite F. unfold shl_align.
  destruct (d - 53 - 0) as [ | k | k] eqn:Ek; try lia.
  unfold binary_round_aux.
  destruct (shr_fexp_m p 0 loc_Exact) as [E1 M1].
  fold d in E1, M1. rewrite F in E1, M1.
  rewrite Z.max_r in E1, M1 by lia.
  destruct (shr_fexp prec emax (Zpos p) 0 loc_Exact) as [r1 e1].
  cbn [fst snd] in E1, M1.
  assert (Q : 2 ^ 52 <= shr_m r1).
  { rewrite M1. replace (d - 53 - 0) with (d - 53) by lia.
    apply Z.div_le_lower_bound; [apply Z.pow_pos_nonneg; lia | ].
    rewrite <- Z.pow_add_r by lia.
    replace (d - 53 + 52) with (d - 1) by lia. exact D1. }
  pose proof (round_nearest_even_bounds (shr_m r1) (loc_of_shr_record r1)) as R.
  assert (P52 : 0 < 2 ^ 52) by (apply Z.pow_pos_nonneg; lia).
  destruct (round_nearest_even (shr_m r1) (loc_of_shr_record r1))
    as [ | m' | m'] eqn:Em; try lia.
  destruct (shr_fexp_m m' e1 loc_Exact) as [E2 M2].
  pose proof (digits_bounds m') as [D1' D2'].
  set (d' := Zpos (digits2_pos m')) in *.
  assert (Hd' : 53 <= d').
  { destruct (Z.le_gt_cases 53 d') as [ | Hlt]; [assumption | exfalso].
    assert (2 ^ d' <= 2 ^ 52) by (apply Z.pow_le_mono_r; lia). lia. }
  assert (F' : fexp prec emax (d' + e1) - e1 = d' - 53).
  { unfold fexp, emin, prec, emax. lia. }
  rewrite F' in E2, M2. rewrite Z.max_r in E2, M2 by lia.
  destruct (shr_fexp prec emax (Zpos m') e1 loc_Exact) as [r2 e2].
  cbn [fst snd] in E2, M2.
  assert (Q2 : 2 ^ 52 <= shr_m r2).
  { rewrite M2. apply Z.div_le_lower_bound; [apply Z.pow_pos_nonneg; lia | ].
    rewrite <- Z.pow_add_r by lia.
    replace (d' - 53 + 52) with (d' - 1) by lia. exact D1'. }
  destruct (shr_m r2) as [ | m2 | m2]; try lia.
  replace (e2 <=? emax - prec) with false; [reflexivity | ].
  symmetry. apply Z.leb_gt. unfold emax, prec. lia.
Qed.

(** An integer of magnitude [2 ^ 1024] or more has no float: [float]
    raises [OverflowError], which both coercions turn into null. *)
Theorem huge_integers_become_null (n : Z) :
  2 ^ 1024 <= Z.abs n ->
  py_float (PInt n) = Raise OverflowError
  /\ _safe_float (PInt n) = Ok PNone
  /\ _safe_int (PInt n) = Ok PNone.
Proof.
  intros H.
  assert (E : py_float (PInt n) = Raise OverflowError).
  { cbn [py_float]. unfold float_of_Z, binary_normalize.
    assert (P : 0 < 2 ^ 1024) by (apply Z.pow_pos_nonneg; lia).
    destruct n as [ | p | p]; [cbn [Z.abs] in H; lia | | ];
      rewrite binary_round_overflow by (cbn [Z.abs] in H; exact H);
      reflexivity. }
  split; [exact E | ].
  split; [rewrite safe_float_eq, E | rewrite safe_int_eq, E]; reflexivity.
Qed.

Lemma huge_integers_become_null_witness :
  py_float (PInt (- 2 ^ 1024)) = Raise OverflowError
  /\ _safe_float (PInt (- 2 ^ 1024)) = Ok PNone
  /\ _safe_int (PInt (- 2 ^ 1024)) = Ok PNone.
Proof.
  apply (huge_integers_become_null (- 2 ^ 1024)).
  rewrite Z.abs_opp, Z.abs_eq by (apply Z.pow_nonneg; lia). lia.
Defined.

(** ** The coercions composed *)

(** A value that [_safe_float] has made is left as it is by [_safe_float],
    and [_safe_int] makes of it what it makes of the original: coercing to
    a float first never changes the integer.  Such a value is null or a
    float. *)
Theorem coercions_compose (x v : pyval) :
  _safe_float x = Ok v ->
  _safe_float v = Ok v
  /\ _safe_int v = _safe_int x
  /\ (v = PNone \/ exists f, v = PFloat f).
Proof.
  rewrite safe_float_eq. intros [= <-].
  destruct x as [ | b | n | f | s | l | d]; cbn [py_float].
  - repeat split. left. reflexivity.
  - repeat split. right. eexists. reflexivity.
  - rewrite !safe_int_eq, !safe_float_eq. cbn [py_float].
    destruct (float_of_Z n) as [s | s | | s m e]; cbn [py_float];
      repeat split; first [right; eexists; reflexivity | left; reflexivity].
  - repeat split. right. eexists. reflexivity.
  - rewrite !safe_int_eq, !safe_float_eq. cbn [py_float].
    destruct (float_of_string s) as [f | ]; cbn [py_float];
      repeat split; first [right; eexists; reflexivity | left; reflexivity].
  - repeat split. left. reflexivity.
  - repeat split. left. reflexivity.
Qed.

Lemma coercions_compose_witness :
  _safe_float (PFloat f21_3) = Ok (PFloat f21_3)
  /\ _safe_int (PFloat f21_3) = _safe_int (PStr "21.3")
  /\ (PFloat f21_3 = PNone \/ exists f, PFloat f21_3 = PFloat f).
Proof.
  apply (coercions_compose (PStr "21.3") (PFloat f21_3)). reflexivity.
Defined.

(** ** Reading back what [json.dump] wrote *)

(** Induction on a value with the items of a list and the values of a
    dict as sub-terms. *)
Lemma pyval_induction (P : pyval -> Prop) :
  P PNone ->
  (forall b, P (PBool b)) ->
  (forall n, P (PInt n)) ->
  (forall f, P (PFloat f)) ->
  (forall s, P (PStr s)) ->
  (forall l, Forall P l -> P (PList l)) ->
  (forall d, Forall (fun kv => P (snd kv)) d -> P (PDict d)) ->
  forall v, P v.
Proof.
  intros HN HB HI HF HS HL HD.
  fix IH 1. intros [ | b | n | f | s | l | d].
  - exact HN.
  - apply HB.
  - apply HI.
  - apply HF.
  - apply HS.
  - apply HL. induction l as [ | x l IHl]; constructor; [apply IH | exact IHl].
  - apply HD. induction d as [ | [k x] d IHd]; constructor;
      [apply IH | exact IHd].
Qed.

(** *** Strings *)

Lemma scanstring_escape (c : ascii) (t : list ascii) :
  scanstring (escape_char c ++ t)
  = match scanstring t with
    | Some (str, r) => Some (c :: str, r)
    | None => None
    end.
Proof.
  destruct c as [[] [] [] [] [] [] [] []]; reflexivity.
Qed.

Lemma scanstring_encode (s r : list ascii) :
  scanstring (flat_map escape_char s ++ dquote :: r) = Some (s, r).
Proof.
  induction s as [ | c s IH]; [reflexivity | ].
  cbn [flat_map]. rewrite <- app_assoc, scanstring_escape, IH. reflexivity.
Qed.

(** *** Numbers *)

Lemma ends_value_head (r : list ascii) :
  ends_value r = true ->
  match r with
  | [] => True
  | c :: _ => is_digit c = false /\ is_e c = false /\ (code c =? 46)%nat = false
  end.
Proof.
  destruct r as [ | c r]; [trivial | ]. cbn [ends_value].
  unfold is_digit, is_e. intros H. apply orb_true_iff in H.
  rewrite !Nat.eqb_eq in H.
  repeat split.
  - apply andb_false_iff. destruct H as [-> | ->]; [left | left]; reflexivity.
  - destruct H as [-> | ->]; reflexivity.
  - destruct H as [-> | ->]; reflexivity.
Qed.

Lemma span_digits_app (ds rest : list ascii) :
  forallb is_digit ds = true ->
  match rest with [] => True | c :: _ => is_digit c = false end ->
  span_digits (ds ++ rest) = (ds, rest).
Proof.
  intros H R. induction ds as [ | c ds IH].
  - destruct rest as [ | c rest]; [reflexivity | ].
    cbn [app span_digits]. rewrite R. reflexivity.
  - cbn [forallb] in H. apply andb_true_iff in H. destruct H as [Hc Hds].
    cbn [app span_digits]. rewrite Hc, (IH Hds). reflexivity.
Qed.

Lemma scan_number_stages (s : list ascii) :
  scan_number s =
  let '(sign, s1) := number_sign s in
  match integer_part sign s1 with
  | None => None
  | Some (ip, s2) =>
      let '(frac, s3) := fraction_part s2 in
      let '(exp, s4) := exponent_part s3 in
      Some (ip, frac, exp, s4)
  end.
Proof. reflexivity. Qed.

Lemma number_sign_digit (c : ascii) (t : list ascii) :
  is_digit c = true -> number_sign (c :: t) = ([], c :: t).
Proof.
  intros H.
  destruct c as [[] [] [] [] [] [] [] []]; try discriminate H; reflexivity.
Qed.

Lemma integer_text_head (ip : list ascii) :
  integer_text ip = true ->
  exists c ds, ip = c :: ds /\ is_digit c = true
               /\ forallb is_digit ip = true
               /\ (is_zero_char c = true -> ds = []).
Proof.
  destruct ip as [ | c [ | d ds]]; [discriminate | | ]; cbn [integer_text].
  - intros H. exists c, []. cbn [forallb]. rewrite H. repeat split.
  - intros H. apply andb_true_iff in H. destruct H as [H Hds].
    apply andb_true_iff in H. destruct H as [Hc Hz].
    exists c, (d :: ds). split; [reflexivity | ]. split; [exact Hc | ].
    split.
    + change (forallb is_digit (c :: d :: ds))
        with (is_digit c && forallb is_digit (d :: ds)).
      rewrite Hc, Hds. reflexivity.
    + intros Z. rewrite Z in Hz. discriminate.
Qed.

Lemma integer_part_text (sign ip tail : list ascii) :
  integer_text ip = true ->
  match tail with [] => True | c :: _ => is_digit c = false end ->
  integer_part sign (ip ++ tail) = Some (sign ++ ip, tail).
Proof.
  intros H T. destruct (integer_text_head ip H) as (c & ds & -> & Hc & Hall & Hz).
  unfold integer_part. cbn [app].
  destruct (is_zero_char c) eqn:Z.
  - rewrite (Hz eq_refl). reflexivity.
  - rewrite Hc. change (c :: ds ++ tail) with ((c :: ds) ++ tail).
    rewrite (span_digits_app _ _ Hall T). reflexivity.
Qed.

Lemma fraction_part_text (fd rest : list ascii) :
  forallb is_digit fd = true ->
  match rest with
  | [] => True
  | c :: _ => is_digit c = false /\ (code c =? 46)%nat = false
  end ->
  fraction_part (fraction_text fd ++ rest) = (fraction_text fd, rest).
Proof.
  intros H R. destruct fd as [ | d fd].
  - cbn [fraction_text app]. destruct rest as [ | c rest]; [reflexivity | ].
    destruct R as [_ R].
    destruct c as [[] [] [] [] [] [] [] []]; try discriminate R; reflexivity.
  - cbn [fraction_text app]. unfold fraction_part.
    change (d :: fd ++ rest) with ((d :: fd) ++ rest).
    rewrite (span_digits_app (d :: fd) rest H).
    + reflexivity.
    + destruct rest; [trivial | apply R].
Qed.

Lemma exponent_part_text (ex : option (bool * list ascii)) (r : list ascii) :
  exponent_ok ex = true -> ends_value r = true ->
  exponent_part (exponent_text ex ++ r) = (exponent_text ex, r).
Proof.
  intros H R. pose proof (ends_value_head r R) as Hr.
  destruct ex as [[eneg ed] | ].
  - cbn [exponent_text app]. unfold exponent_part.
    change (is_e "e"%char) with true. cbv iota.
    assert (Hd : forallb is_digit ed = true /\ ed <> []).
    { destruct ed; [discriminate H | ]. split; [exact H | discriminate]. }
    destruct Hd as [Hd Hne].
    assert (S : exponent_sign ((if eneg then "-"%char else "+"%char) :: ed ++ r)
                = ([if eneg then "-"%char else "+"%char], ed ++ r)).
    { destruct eneg; reflexivity. }
    rewrite S, (span_digits_app ed r Hd).
    + destruct ed as [ | d ed]; [contradiction Hne; reflexivity | reflexivity].
    + destruct r; [trivial | apply Hr].
  - cbn [exponent_text app]. destruct r as [ | c r]; [reflexivity | ].
    unfold exponent_part. destruct Hr as (_ & -> & _). reflexivity.
Qed.

(** A number text is matched whole, and split into its parts. *)
Lemma scan_number_text (neg : bool) (ip fd : list ascii)
  (ex : option (bool * list ascii)) (r : list ascii) :
  integer_text ip = true -> forallb is_digit fd = true ->
  exponent_ok ex = true -> ends_value r = true ->
  scan_number (sign_repr neg ++ ip ++ fraction_text fd ++ exponent_text ex ++ r)
  = Some (sign_repr neg ++ ip, fraction_text fd, exponent_text ex, r).
Proof.
  intros Hip Hfd Hex Hr. rewrite scan_number_stages.
  pose proof (ends_value_head r Hr) as Hr'.
  destruct (integer_text_head ip Hip) as (c & ds & E & Hc & _ & _).
  assert (S : number_sign (sign_repr neg ++ ip ++ fraction_text fd
                             ++ exponent_text ex ++ r)
              = (sign_repr neg, ip ++ fraction_text fd ++ exponent_text ex ++ r)).
  { destruct neg; [reflexivity | ]. rewrite E. cbn [sign_repr app].
    apply number_sign_digit. exact Hc. }
  rewrite S.
  assert (Hex' : match exponent_text ex ++ r with
                 | [] => True
                 | x :: _ => is_digit x = false /\ (code x =? 46)%nat = false
                 end).
  { destruct ex as [[eneg ed] | ].
    - cbn [exponent_text app]. split; reflexivity.
    - cbn [exponent_text app]. destruct r; [trivial | ]. tauto. }
  rewrite integer_part_text; [ | exact Hip | ].
  2: { destruct fd as [ | d fd].
       - cbn [fraction_text app].
         destruct (exponent_text ex ++ r); [trivial | apply Hex'].
       - reflexivity. }
  rewrite (fraction_part_text fd _ Hfd Hex'),
    (exponent_part_text ex r Hex Hr).
  reflexivity.
Qed.

Lemma scan_atom_number (c : ascii) (t ip frac exp r : list ascii) (v : pyval) :
  c = "-"%char \/ is_digit c = true ->
  scan_number (c :: t) = Some (ip, frac, exp, r) ->
  number_value ip frac exp = Some v ->
  scan_atom (c :: t) = Some (v, r).
Proof.
  intros Hc Hs Hv.
  assert (N : strip_prefix (list_ascii_of_string "null") (c :: t) = None
              /\ strip_prefix (list_ascii_of_string "true") (c :: t) = None
              /\ strip_prefix (list_ascii_of_string "false") (c :: t) = None).
  { destruct Hc as [-> | Hc]; [repeat split | ].
    destruct c as [[] [] [] [] [] [] [] []]; try discriminate Hc;
      repeat split. }
  destruct N as (N1 & N2 & N3).
  unfold scan_atom. rewrite N1, N2, N3, Hs, Hv. reflexivity.
Qed.

Lemma int_of_literal_digits (neg : bool) (ip : list ascii) :
  integer_text ip = true ->
  int_of_literal (sign_repr neg ++ ip)
  = if neg then - digits_to_Z ip else digits_to_Z ip.
Proof.
  intros H. destruct neg; [reflexivity | ].
  destruct (integer_text_head ip H) as (c & ds & -> & Hc & _ & _).
  cbn [sign_repr app].
  destruct c as [[] [] [] [] [] [] [] []]; try discriminate Hc; reflexivity.
Qed.

(** The numeral of an integer is a number text with no fraction and no
    exponent. *)
Lemma int_repr_text (n : Z) :
  exists ip,
    int_repr n = sign_repr (n <? 0) ++ ip
    /\ integer_text ip = true
    /\ digits_to_Z ip = Z.abs n.
Proof.
  unfold int_repr.
  assert (Pos : forall k, 0 < k ->
            exists ip, Z_digits k = ip /\ integer_text ip = true
                       /\ digits_to_Z ip = k).
  { intros k Hk. destruct (Z_digits_pos k Hk) as (c & ds & E & V & D & NZ).
    exists (c :: ds). split; [exact E | ]. split; [ | exact V].
    cbn [forallb] in D. apply andb_true_iff in D. destruct D as [Dc Dds].
    destruct ds as [ | d ds]; cbn [integer_text]; [exact Dc | ].
    rewrite Dc, NZ, Dds. reflexivity. }
  destruct (Z.ltb_spec n 0) as [Hn | Hn].
  - destruct (Pos (- n) ltac:(lia)) as (ip & E & T & V).
    exists ip. rewrite E. split; [reflexivity | ]. split; [exact T | lia].
  - destruct (Z.eq_dec n 0) as [-> | Hz].
    + exists ["0"%char]. repeat split.
    + destruct (Pos n ltac:(lia)) as (ip & E & T & V).
      exists ip. rewrite E. split; [reflexivity | ]. split; [exact T | lia].
Qed.

Lemma number_head (neg : bool) (ip rest : list ascii) :
  integer_text ip = true ->
  exists c t, sign_repr neg ++ ip ++ rest = c :: t
              /\ (c = "-"%char \/ is_digit c = true).
Proof.
  intros H. destruct (integer_text_head ip H) as (c & ds & -> & Hc & _ & _).
  destruct neg.
  - exists "-"%char. eexists. split; [reflexivity | left; reflexivity].
  - exists c. eexists. split; [reflexivity | right; exact Hc].
Qed.

Lemma scan_atom_int (n : Z) (r : list ascii) :
  ends_value r = true -> scan_atom (int_repr n ++ r) = Some (PInt n, r).
Proof.
  intros Hr. destruct (int_repr_text n) as (ip & E & T & V).
  pose proof (scan_number_text (n <? 0) ip [] None r T eq_refl eq_refl Hr) as S.
  cbn [fraction_text exponent_text app] in S.
  rewrite E, <- app_assoc.
  destruct (number_head (n <? 0) ip r T) as (c & t & Ec & Hc).
  rewrite Ec in *.
  apply (scan_atom_number c t _ _ _ _ _ Hc S).
  cbn [number_value]. rewrite (int_of_literal_digits _ _ T), V.
  f_equal. f_equal. destruct (Z.ltb_spec n 0); lia.
Qed.

Lemma float_eqb_eq (g f : float64) : float_eqb g f = true -> g = f.
Proof.
  destruct g as [s | s | | s m e], f as [s' | s' | | s' m' e']; cbn [float_eqb];
    try discriminate; try reflexivity.
  - intros H. apply Bool.eqb_prop in H. congruence.
  - intros H. apply Bool.eqb_prop in H. congruence.
  - intros H. apply andb_true_iff in H. destruct H as [H He].
    apply andb_true_iff in H. destruct H as [Hs Hm].
    apply Bool.eqb_prop in Hs. apply Pos.eqb_eq in Hm. apply Z.eqb_eq in He.
    congruence.
Qed.

(** The search of [repr] ends on a positive number of digits. *)
Lemma shortest_search_pos (fuel : nat) (s0 : bool) (m : positive) (e : Z)
  (s : bool) (i k len n : Z) :
  0 < i -> 0 < fst (shortest_search fuel (S754_finite s0 m e) s i k len n).
Proof.
  intros Hi. revert n. induction fuel as [ | fuel IH]; intros n; [exact Hi | ].
  cbn [shortest_search]. cbv zeta.
  set (p := 10 ^ (len - n)). set (lo := i / p).
  assert (Hlo : 0 <= lo).
  { unfold lo. destruct (Z.eq_dec p 0) as [-> | Hp].
    - rewrite Z.div_0_r. lia.
    - assert (0 <= p) by (unfold p; apply Z.pow_nonneg; lia).
      apply Z.div_pos; lia. }
  destruct (float_eqb (float_of_decimal s lo (len - n - k)) (S754_finite s0 m e))
    eqn:Elo.
  - assert (lo <> 0).
    { intros Z. rewrite Z in Elo. discriminate Elo. }
    destruct (_ && _); cbn [fst]; lia.
  - destruct (float_eqb (float_of_decimal s (lo + 1) (len - n - k))
                (S754_finite s0 m e));
      [cbn [fst]; lia | apply IH].
Qed.

Lemma shortest_decimal_pos (s : bool) (m : positive) (e : Z) :
  0 < fst (shortest_decimal s m e).
Proof.
  unfold shortest_decimal, exact_decimal.
  destruct (0 <=? e) eqn:He.
  - apply shortest_search_pos.
    apply Z.mul_pos_pos; [lia | apply Z.pow_pos_nonneg; lia].
  - apply shortest_search_pos.
    apply Z.mul_pos_pos; [lia | ]. apply Z.pow_pos_nonneg; lia.
Qed.

Lemma drop_zeros_last (l : list ascii) (c : ascii) :
  is_zero_char c = false ->
  exists l', drop_zeros (l ++ [c]) = l' ++ [c] /\ forall x, In x l' -> In x l.
Proof.
  intros Hc. induction l as [ | a l IH].
  - exists []. cbn [app drop_zeros]. rewrite Hc. split; [reflexivity | ].
    intros x [].
  - cbn [app drop_zeros]. destruct (is_zero_char a).
    + destruct IH as (l' & E & I). exists l'. split; [exact E | ].
      intros x Hx. right. apply I. exact Hx.
    + exists (a :: l). split; [reflexivity | ]. intros x Hx. exact Hx.
Qed.

(** Digits that start with another digit than zero keep their start when
    the zeros at their end are dropped. *)
Lemma strip_trailing_zeros_head (c : ascii) (ds : list ascii) :
  is_zero_char c = false -> forallb is_digit ds = true ->
  exists ds', strip_trailing_zeros (c :: ds) = c :: ds'
              /\ forallb is_digit ds' = true.
Proof.
  intros Hc Hds. unfold strip_trailing_zeros. cbn [rev].
  destruct (drop_zeros_last (rev ds) c Hc) as (l' & E & I).
  rewrite E, rev_app_distr. cbn [rev app].
  exists (rev l'). split; [reflexivity | ].
  apply forallb_forall. intros x Hx.
  rewrite forallb_forall in Hds. apply Hds.
  apply in_rev. apply I. apply in_rev. exact Hx.
Qed.

Lemma Z_digits_nonempty (k : Z) : 0 <= k -> Z_digits k <> [].
Proof.
  intros H. destruct (Z.eq_dec k 0) as [-> | Hk]; [discriminate | ].
  destruct (Z_digits_pos k ltac:(lia)) as (c & ds & -> & _). discriminate.
Qed.

Lemma exponent_repr_text (x : Z) :
  exists eneg ed,
    "e"%char :: exponent_repr x = exponent_text (Some (eneg, ed))
    /\ exponent_ok (Some (eneg, ed)) = true.
Proof.
  unfold exponent_repr.
  exists (x <? 0), ((if Z.abs x <? 10 then ["0"%char] else []) ++ Z_digits (Z.abs x)).
  split.
  - cbn [exponent_text]. destruct (x <? 0); reflexivity.
  - assert (D : forallb is_digit
                  ((if Z.abs x <? 10 then ["0"%char] else [])
                     ++ Z_digits (Z.abs x)) = true).
    { rewrite forallb_app, Z_digits_all_digits by lia.
      destruct (Z.abs x <? 10); reflexivity. }
    pose proof (Z_digits_nonempty (Z.abs x) ltac:(lia)) as NE.
    cbn [exponent_ok].
    destruct ((if Z.abs x <? 10 then ["0"%char] else []) ++ Z_digits (Z.abs x))
      as [ | d ed] eqn:E.
    + apply app_eq_nil in E. destruct E as [_ E]. contradiction.
    + exact D.
Qed.

Lemma zeros_digits (n : Z) : forallb is_digit (zeros n) = true.
Proof.
  unfold zeros. induction (Z.to_nat n) as [ | k IH]; [reflexivity | ].
  cbn [repeat forallb]. rewrite IH. reflexivity.
Qed.

Lemma forallb_firstn_skipn {A : Type} (f : A -> bool) (n : nat) (l : list A) :
  forallb f l = true ->
  forallb f (firstn n l) = true /\ forallb f (skipn n l) = true.
Proof.
  intros H. rewrite <- (firstn_skipn n l), forallb_app in H.
  apply andb_true_iff in H. exact H.
Qed.

Lemma integer_text_digits (c : ascii) (ds : list ascii) :
  is_digit c = true -> is_zero_char c = false -> forallb is_digit ds = true ->
  integer_text (c :: ds) = true.
Proof.
  intros Hc Hz Hds. destruct ds as [ | d ds]; cbn [integer_text]; [exact Hc | ].
  rewrite Hc, Hz, Hds. reflexivity.
Qed.

(** Every layout of [repr] is a number text with a fraction or an
    exponent. *)
Lemma format_repr_text (c : ascii) (ds : list ascii) (decpt : Z) :
  is_digit c = true -> is_zero_char c = false -> forallb is_digit ds = true ->
  exists ip fd ex,
    format_repr (c :: ds) decpt = ip ++ fraction_text fd ++ exponent_text ex
    /\ integer_text ip = true /\ forallb is_digit fd = true
    /\ exponent_ok ex = true
    /\ fraction_text fd ++ exponent_text ex <> [].
Proof.
  intros Hc Hz Hds.
  assert (Hall : forallb is_digit (c :: ds) = true).
  { cbn [forallb]. rewrite Hc, Hds. reflexivity. }
  unfold format_repr.
  destruct ((decpt <=? -4) || (16 <? decpt)) eqn:Hexp.
  { destruct (exponent_repr_text (decpt - 1)) as (eneg & ed & E & Ok).
    destruct ds as [ | d ds].
    - exists [c], [], (Some (eneg, ed)).
      split; [cbn [fraction_text app]; rewrite <- E; reflexivity | ].
      split; [exact Hc | ]. split; [reflexivity | ]. split; [exact Ok | ].
      discriminate.
    - exists [c], (d :: ds), (Some (eneg, ed)).
      split.
      { cbn [fraction_text app]. rewrite <- E. reflexivity. }
      split; [exact Hc | ]. split; [exact Hds | ]. split; [exact Ok | ].
      discriminate. }
  destruct (decpt <=? 0) eqn:Hle.
  { exists ["0"%char], (zeros (- decpt) ++ c :: ds), None.
    assert (NE : zeros (- decpt) ++ c :: ds <> []).
    { intros E. apply app_eq_nil in E. destruct E as [_ E]. discriminate E. }
    split.
    { cbn [exponent_text]. rewrite app_nil_r.
      destruct (zeros (- decpt) ++ c :: ds) eqn:E; [contradiction | ].
      reflexivity. }
    split; [reflexivity | ].
    split; [rewrite forallb_app, zeros_digits, Hall; reflexivity | ].
    split; [reflexivity | ].
    destruct (zeros (- decpt) ++ c :: ds); [contradiction | discriminate]. }
  apply Z.leb_gt in Hle.
  destruct (decpt <? Z.of_nat (List.length (c :: ds))) eqn:Hlt.
  { apply Z.ltb_lt in Hlt.
    assert (K : exists k, Z.to_nat decpt = S k /\ (k < List.length ds)%nat).
    { exists (Z.to_nat decpt - 1)%nat. cbn [List.length] in Hlt. lia. }
    destruct K as (k & -> & Hk). cbn [firstn skipn].
    exists (c :: firstn k ds), (skipn k ds), None.
    assert (NE : skipn k ds <> []).
    { intros E. apply (f_equal (@List.length ascii)) in E.
      rewrite length_skipn in E. cbn [List.length] in E. lia. }
    split.
    { cbn [exponent_text]. rewrite app_nil_r.
      destruct (skipn k ds) eqn:E; [contradiction | reflexivity]. }
    destruct (forallb_firstn_skipn is_digit k ds Hds) as [Hf Hs].
    split; [apply integer_text_digits; assumption | ].
    split; [exact Hs | ].
    split; [reflexivity | ].
    destruct (skipn k ds); [contradiction | discriminate]. }
  exists (c :: ds ++ zeros (decpt - Z.of_nat (List.length (c :: ds)))),
    ["0"%char], None.
  split.
  { cbn [fraction_text exponent_text app]. rewrite <- app_assoc. reflexivity. }
  split.
  { apply integer_text_digits; auto.
    rewrite forallb_app, Hds, zeros_digits. reflexivity. }
  split; [reflexivity | ]. split; [reflexivity | discriminate].
Qed.

(** The text of a finite float, in its parts. *)
Lemma float_repr_text (s : bool) (m : positive) (e : Z) :
  exists ip fd ex,
    float_repr (S754_finite s m e)
    = sign_repr s ++ ip ++ fraction_text fd ++ exponent_text ex
    /\ integer_text ip = true /\ forallb is_digit fd = true
    /\ exponent_ok ex = true
    /\ fraction_text fd ++ exponent_text ex <> [].
Proof.
  cbn [float_repr].
  pose proof (shortest_decimal_pos s m e) as Hd.
  destruct (shortest_decimal s m e) as [d q]. cbn [fst] in Hd.
  destruct (Z_digits_pos d Hd) as (c & ds & E & _ & D & NZ).
  rewrite E. cbn [forallb] in D. apply andb_true_iff in D.
  destruct D as [Dc Dds].
  destruct (strip_trailing_zeros_head c ds NZ Dds) as (ds' & -> & Dds').
  destruct (format_repr_text c ds' (Z.of_nat (List.length (c :: ds)) + q)
              Dc NZ Dds') as (ip & fd & ex & -> & H).
  exists ip, fd, ex. split; [reflexivity | exact H].
Qed.

Lemma number_value_float (ip frac exp : list ascii) :
  frac ++ exp <> [] ->
  number_value ip frac exp
  = option_map PFloat (float_of_string (string_of_list_ascii (ip ++ frac ++ exp))).
Proof.
  intros H. unfold number_value.
  destruct frac; [ | reflexivity].
  destruct exp; [contradiction H; reflexivity | reflexivity].
Qed.

Lemma scan_atom_number_text (neg : bool) (ip fd : list ascii)
  (ex : option (bool * list ascii)) (r : list ascii) (f : float64) :
  integer_text ip = true -> forallb is_digit fd = true ->
  exponent_ok ex = true -> ends_value r = true ->
  fraction_text fd ++ exponent_text ex <> [] ->
  float_of_string
    (string_of_list_ascii
       (sign_repr neg ++ ip ++ fraction_text fd ++ exponent_text ex)) = Some f ->
  scan_atom ((sign_repr neg ++ ip ++ fraction_text fd ++ exponent_text ex) ++ r)
  = Some (PFloat f, r).
Proof.
  intros Hip Hfd Hex Hr NE Hf.
  pose proof (scan_number_text neg ip fd ex r Hip Hfd Hex Hr) as S.
  replace ((sign_repr neg ++ ip ++ fraction_text fd ++ exponent_text ex) ++ r)
    with (sign_repr neg ++ ip ++ fraction_text fd ++ exponent_text ex ++ r)
    by (rewrite <- !app_assoc; reflexivity).
  destruct (number_head neg ip (fraction_text fd ++ exponent_text ex ++ r) Hip)
    as (c & t & Ec & Hc).
  rewrite Ec in *.
  apply (scan_atom_number c t _ _ _ _ _ Hc S).
  rewrite (number_value_float _ _ _ NE), <- app_assoc, Hf. reflexivity.
Qed.

(** A float is read back from its text when [float] reads its [repr]
    back. *)
Lemma scan_atom_float (f : float64) (r : list ascii) :
  float_reads_back f = true -> ends_value r = true ->
  scan_atom (encode_float f ++ r) = Some (PFloat f, r).
Proof.
  intros Hf Hr. destruct f as [s | s | | s m e].
  - apply (scan_atom_number_text s ["0"%char] ["0"%char] None r (S754_zero s));
      try reflexivity; [exact Hr | discriminate | ].
    destruct s; reflexivity.
  - destruct s; reflexivity.
  - reflexivity.
  - cbn [float_reads_back] in Hf. cbn [encode_float].
    destruct (float_repr_text s m e) as (ip & fd & ex & E & Hip & Hfd & Hex & NE).
    rewrite E in *.
    apply scan_atom_number_text; try assumption.
    destruct (float_of_string _) as [g | ]; [ | discriminate Hf].
    apply float_eqb_eq in Hf. rewrite Hf. reflexivity.
Qed.

(** *** Lists and dicts *)

Lemma encode_list (lvl : nat) (x : pyval) (xs : list pyval) :
  encode lvl (PList (x :: xs))
  = "["%char :: newline_indent (S lvl) ++ encode (S lvl) x
      ++ encode_items (S lvl) xs ++ newline_indent lvl ++ ["]"%char].
Proof.
  cbn [encode]. f_equal. f_equal. f_equal. f_equal.
  induction xs as [ | y ys IH]; [reflexivity | ].
  cbn [encode_items]. rewrite <- IH. reflexivity.
Qed.

Lemma encode_dict (lvl : nat) (k : string) (x : pyval)
  (xs : list (string * pyval)) :
  encode lvl (PDict ((k, x) :: xs))
  = "{"%char :: newline_indent (S lvl) ++ encode_string k
      ++ ":"%char :: " "%char :: encode (S lvl) x
      ++ encode_members (S lvl) xs ++ newline_indent lvl ++ ["}"%char].
Proof.
  cbn [encode]. f_equal. f_equal. f_equal. f_equal. f_equal. f_equal. f_equal.
  induction xs as [ | [k' y] ys IH]; [reflexivity | ].
  cbn [encode_members]. rewrite <- IH. reflexivity.
Qed.

(** The steps of the parser. *)
Lemma parse_value_step (fuel : nat) (c : ascii) (t : list ascii) :
  parse_value (S fuel) (c :: t) =
  if (code c =? 34)%nat then
    match scanstring t with
    | Some (str, r) => Some (PStr (string_of_list_ascii str), r)
    | None => None
    end
  else if (code c =? 123)%nat then
    match skip_ws t with
    | [] => None
    | c' :: t' =>
        if (code c' =? 125)%nat then Some (PDict [], t')
        else
          match parse_members fuel (c' :: t') with
          | Some (ms, r) => Some (PDict (dict_of_pairs ms), r)
          | None => None
          end
    end
  else if (code c =? 91)%nat then
    match skip_ws t with
    | [] => None
    | c' :: t' =>
        if (code c' =? 93)%nat then Some (PList [], t')
        else
          match parse_items fuel (c' :: t') with
          | Some (vs, r) => Some (PList vs, r)
          | None => None
          end
    end
  else scan_atom (c :: t).
Proof. reflexivity. Qed.

Lemma parse_items_step (fuel : nat) (s : list ascii) :
  parse_items (S fuel) s =
  match parse_value fuel s with
  | None => None
  | Some (v, r) =>
      match skip_ws r with
      | [] => None
      | c :: t =>
          if (code c =? 93)%nat then Some ([v], t)
          else if (code c =? 44)%nat then
            match parse_items fuel (skip_ws t) with
            | Some (vs, r') => Some (v :: vs, r')
            | None => None
            end
          else None
      end
  end.
Proof. reflexivity. Qed.

Lemma parse_members_step (fuel : nat) (c : ascii) (t : list ascii) :
  parse_members (S fuel) (c :: t) =
  if (code c =? 34)%nat then
    match scanstring t with
    | None => None
    | Some (key, r) =>
        match skip_ws r with
        | [] => None
        | c1 :: r1 =>
            if (code c1 =? 58)%nat then
              match parse_value fuel (skip_ws r1) with
              | None => None
              | Some (v, r2) =>
                  let k := string_of_list_ascii key in
                  match skip_ws r2 with
                  | [] => None
                  | c2 :: r3 =>
                      if (code c2 =? 125)%nat then Some ([(k, v)], r3)
                      else if (code c2 =? 44)%nat then
                        match parse_members fuel (skip_ws r3) with
                        | Some (ms, r') => Some ((k, v) :: ms, r')
                        | None => None
                        end
                      else None
                  end
              end
            else None
        end
    end
  else None.
Proof. reflexivity. Qed.

Lemma skip_ws_indent (lvl : nat) (t : list ascii) :
  skip_ws (newline_indent lvl ++ t) = skip_ws t.
Proof.
  unfold newline_indent. cbn [app skip_ws].
  change (is_json_space newline) with true. cbv iota.
  induction (2 * lvl)%nat as [ | k IH]; [reflexivity | ].
  cbn [repeat app skip_ws]. change (is_json_space " "%char) with true.
  cbv iota. exact IH.
Qed.

Lemma number_opens_atom (c : ascii) :
  c = "-"%char \/ is_digit c = true -> opens_atom c = true.
Proof.
  intros [-> | H]; [reflexivity | ].
  destruct c as [[] [] [] [] [] [] [] []]; try discriminate H; reflexivity.
Qed.

Lemma parse_value_atom (fuel : nat) (c : ascii) (t : list ascii) :
  opens_atom c = true -> parse_value (S fuel) (c :: t) = scan_atom (c :: t).
Proof.
  unfold opens_atom. rewrite !andb_true_iff, !negb_true_iff.
  intros [[[_ H1] H2] H3]. rewrite parse_value_step, H1, H2, H3. reflexivity.
Qed.

Lemma float_text_head (f : float64) :
  exists c t, encode_float f = c :: t /\ opens_atom c = true.
Proof.
  destruct f as [s | s | | s m e].
  - destruct s; eexists; eexists; split; reflexivity.
  - destruct s; eexists; eexists; split; reflexivity.
  - eexists; eexists; split; reflexivity.
  - cbn [encode_float].
    destruct (float_repr_text s m e) as (ip & fd & ex & E & Hip & _).
    destruct (number_head s ip (fraction_text fd ++ exponent_text ex) Hip)
      as (c & t & Ec & Hc).
    exists c, t. rewrite E. split; [exact Ec | apply number_opens_atom, Hc].
Qed.

Lemma int_text_head (n : Z) :
  exists c t, int_repr n = c :: t /\ opens_atom c = true.
Proof.
  destruct (int_repr_text n) as (ip & E & Hip & _).
  destruct (number_head (n <? 0) ip [] Hip) as (c & t & Ec & Hc).
  rewrite app_nil_r in Ec.
  exists c, t. rewrite E. split; [exact Ec | apply number_opens_atom, Hc].
Qed.

Lemma opens_atom_value (c : ascii) : opens_atom c = true -> opens_value c = true.
Proof.
  unfold opens_atom. rewrite !andb_true_iff. tauto.
Qed.

(** The text of a value starts with a character that is no white space
    and closes nothing. *)
Lemma encode_head (lvl : nat) (v : pyval) :
  exists c t, encode lvl v = c :: t /\ opens_value c = true.
Proof.
  destruct v as [ | b | n | f | s | l | d].
  - eexists; eexists; split; reflexivity.
  - destruct b; eexists; eexists; split; reflexivity.
  - destruct (int_text_head n) as (c & t & E & H).
    exists c, t. split; [exact E | apply opens_atom_value, H].
  - destruct (float_text_head f) as (c & t & E & H).
    exists c, t. split; [exact E | apply opens_atom_value, H].
  - eexists; eexists; split; reflexivity.
  - destruct l as [ | x xs]; [eexists; eexists; split; reflexivity | ].
    rewrite encode_list. eexists; eexists; split; reflexivity.
  - destruct d as [ | [k x] xs]; [eexists; eexists; split; reflexivity | ].
    rewrite encode_dict. eexists; eexists; split; reflexivity.
Qed.

Lemma skip_ws_value (c : ascii) (t : list ascii) :
  opens_value c = true -> skip_ws (c :: t) = c :: t.
Proof.
  unfold opens_value. rewrite !andb_true_iff, !negb_true_iff.
  intros [[H _] _]. cbn [skip_ws]. rewrite H. reflexivity.
Qed.

Lemma skip_ws_encode (lvl : nat) (v : pyval) (t : list ascii) :
  skip_ws (encode lvl v ++ t) = encode lvl v ++ t.
Proof.
  destruct (encode_head lvl v) as (c & u & -> & H).
  apply (skip_ws_value c (u ++ t) H).
Qed.

Lemma encode_length (lvl : nat) (v : pyval) :
  (1 <= List.length (encode lvl v))%nat.
Proof.
  destruct (encode_head lvl v) as (c & u & -> & _). cbn [List.length]. lia.
Qed.

(** *** Keys *)

Lemma distinct_middle (l1 l2 : list string) (k : string) :
  distinct (l1 ++ k :: l2) = true -> existsb (String.eqb k) l1 = false.
Proof.
  induction l1 as [ | a l1 IH]; [reflexivity | ].
  cbn [app distinct existsb]. intros H. apply andb_true_iff in H.
  destruct H as [Ha Hd]. rewrite (IH Hd), orb_false_r.
  apply negb_true_iff in Ha.
  destruct (String.eqb_spec k a) as [-> | ]; [ | reflexivity].
  rewrite existsb_app in Ha. cbn [existsb] in Ha.
  rewrite String.eqb_refl, orb_true_l, orb_true_r in Ha. discriminate.
Qed.

Lemma dict_set_fresh (d : list (string * pyval)) (k : string) (v : pyval) :
  existsb (String.eqb k) (map fst d) = false -> dict_set d k v = d ++ [(k, v)].
Proof.
  induction d as [ | [k' v'] d IH]; [reflexivity | ].
  cbn [map fst existsb dict_set app]. intros H. apply orb_false_iff in H.
  destruct H as [Hk Hd]. rewrite Hk, (IH Hd). reflexivity.
Qed.

Lemma dict_of_pairs_from (acc l : list (string * pyval)) :
  distinct (map fst (acc ++ l)) = true ->
  fold_left (fun d kv => dict_set d (fst kv) (snd kv)) l acc = acc ++ l.
Proof.
  revert acc. induction l as [ | [k v] l IH]; intros acc H.
  - rewrite app_nil_r. reflexivity.
  - cbn [fold_left fst snd]. rewrite dict_set_fresh.
    + rewrite IH; rewrite <- app_assoc; [reflexivity | exact H].
    + rewrite map_app in H. cbn [map fst] in H.
      apply (distinct_middle _ _ _ H).
Qed.

(** A dict with distinct keys is rebuilt from its pairs as it was. *)
Lemma dict_of_pairs_distinct (d : list (string * pyval)) :
  distinct (map fst d) = true -> dict_of_pairs d = d.
Proof. intros H. apply (dict_of_pairs_from [] d H). Qed.

(** *** Values *)

Lemma ends_value_indent (lvl : nat) (t : list ascii) :
  ends_value (newline_indent lvl ++ t) = true.
Proof. reflexivity. Qed.

Lemma skip_ws_close (lvl : nat) (c : ascii) (r : list ascii) :
  is_json_space c = false -> skip_ws (newline_indent lvl ++ c :: r) = c :: r.
Proof.
  intros H. rewrite skip_ws_indent. cbn [skip_ws]. rewrite H. reflexivity.
Qed.

Lemma parse_items_ok (xs : list pyval) :
  Forall reads_back xs ->
  forall (x : pyval) (lvl' lvl : nat) (r : list ascii) (fuel : nat),
    reads_back x ->
    (List.length (encode lvl' x ++ encode_items lvl' xs
                    ++ newline_indent lvl ++ ["]"%char]) <= fuel)%nat ->
    parse_items fuel (encode lvl' x ++ encode_items lvl' xs
                        ++ newline_indent lvl ++ "]"%char :: r)
    = Some (x :: xs, r).
Proof.
  induction 1 as [ | y ys Hy Hys IH]; intros x lvl' lvl r fuel Hx Hlen.
  - cbn [encode_items app] in *. rewrite length_app in Hlen.
    pose proof (encode_length lvl' x) as L1.
    destruct fuel as [ | fuel].
    { unfold newline_indent in Hlen. cbn [List.length app] in Hlen. lia. }
    rewrite parse_items_step, Hx.
    + rewrite skip_ws_close by reflexivity. reflexivity.
    + reflexivity.
    + unfold newline_indent in Hlen. cbn [List.length app] in Hlen. lia.
  - cbn [encode_items] in *. cbn [app] in *.
    rewrite <- !app_assoc.
    rewrite !length_app in Hlen. cbn [List.length] in Hlen.
    rewrite !length_app in Hlen.
    pose proof (encode_length lvl' x) as L1.
    destruct fuel as [ | fuel]; [lia | ].
    rewrite parse_items_step, Hx; [ | reflexivity | lia].
    cbn [skip_ws]. change (is_json_space ","%char) with false. cbv iota.
    change (code ","%char =? 93)%nat with false.
    change (code ","%char =? 44)%nat with true. cbv iota.
    rewrite skip_ws_indent, skip_ws_encode, IH; [reflexivity | exact Hy | ].
    rewrite !length_app. lia.
Qed.

Lemma encode_string_scan (k : string) (t : list ascii) :
  exists u, encode_string k ++ t = dquote :: u
            /\ scanstring u = Some (list_ascii_of_string k, t).
Proof.
  unfold encode_string. eexists. split.
  - cbn [app]. reflexivity.
  - rewrite <- app_assoc. cbn [app]. apply scanstring_encode.
Qed.

Lemma parse_members_ok (xs : list (string * pyval)) :
  Forall (fun kv => reads_back (snd kv)) xs ->
  forall (k : string) (x : pyval) (lvl' lvl : nat) (r : list ascii) (fuel : nat),
    reads_back x ->
    (List.length (encode_string k ++ ":"%char :: " "%char :: encode lvl' x
                    ++ encode_members lvl' xs
                    ++ newline_indent lvl ++ ["}"%char]) <= fuel)%nat ->
    parse_members fuel (encode_string k ++ ":"%char :: " "%char :: encode lvl' x
                          ++ encode_members lvl' xs
                          ++ newline_indent lvl ++ "}"%char :: r)
    = Some ((k, x) :: xs, r).
Proof.
  induction 1 as [ | [k' y] ys Hy Hys IH]; intros k x lvl' lvl r fuel Hx Hlen.
  - cbn [encode_members app] in *.
    pose proof (encode_length lvl' x) as L1.
    rewrite length_app in Hlen. cbn [List.length] in Hlen.
    rewrite length_app in Hlen.
    destruct (encode_string_scan k
                (":"%char :: " "%char :: encode lvl' x
                   ++ newline_indent lvl ++ "}"%char :: r)) as (u & -> & Hu).
    destruct fuel as [ | fuel]; [lia | ].
    rewrite parse_members_step. change (code dquote =? 34)%nat with true.
    cbv iota. rewrite Hu. cbn [skip_ws].
    change (is_json_space ":"%char) with false. cbv iota.
    change (code ":"%char =? 58)%nat with true. cbv iota.
    cbn [skip_ws]. change (is_json_space " "%char) with true. cbv iota.
    rewrite skip_ws_encode, Hx; [ | reflexivity | lia].
    cbv zeta. rewrite skip_ws_close by reflexivity.
    change (code "}"%char =? 125)%nat with true. cbv iota.
    rewrite string_of_list_ascii_of_string. reflexivity.
  - cbn [encode_members] in *. cbn [app] in *.
    repeat (rewrite <- !app_assoc; cbn [app]).
    pose proof (encode_length lvl' x) as L1.
    repeat first [rewrite length_app in Hlen
                 | progress cbn [List.length] in Hlen].
    match goal with
    | |- context [encode_string k ++ ?t] =>
        destruct (encode_string_scan k t) as (u & -> & Hu)
    end.
    destruct fuel as [ | fuel]; [lia | ].
    rewrite parse_members_step. change (code dquote =? 34)%nat with true.
    cbv iota. rewrite Hu. cbn [skip_ws].
    change (is_json_space ":"%char) with false. cbv iota.
    change (code ":"%char =? 58)%nat with true. cbv iota.
    cbn [skip_ws]. change (is_json_space " "%char) with true. cbv iota.
    rewrite skip_ws_encode, Hx; [ | reflexivity | lia].
    cbv zeta. cbn [skip_ws].
    change (is_json_space ","%char) with false. cbv iota.
    change (code ","%char =? 125)%nat with false.
    change (code ","%char =? 44)%nat with true. cbv iota.
    rewrite skip_ws_indent.
    assert (Sk : forall t, skip_ws (encode_string k' ++ t) = encode_string k' ++ t).
    { intros t. reflexivity. }
    rewrite Sk, IH; [ | exact Hy | ].
    + rewrite string_of_list_ascii_of_string. reflexivity.
    + repeat first [rewrite length_app | progress cbn [List.length]]. lia.
Qed.

Lemma forallb_Forall_reads_back (l : list pyval) :
  Forall (fun v => floats_read_back v = true -> keys_distinct v = true ->
                   reads_back v) l ->
  forallb floats_read_back l = true -> forallb keys_distinct l = true ->
  Forall reads_back l.
Proof.
  induction 1 as [ | x xs Hx Hxs IH]; intros Hf Hk; constructor.
  - cbn [forallb] in Hf, Hk. apply andb_true_iff in Hf, Hk.
    apply Hx; [apply Hf | apply Hk].
  - cbn [forallb] in Hf, Hk. apply andb_true_iff in Hf, Hk.
    apply IH; [apply Hf | apply Hk].
Qed.

Lemma forallb_Forall_members (d : list (string * pyval)) :
  Forall (fun kv => floats_read_back (snd kv) = true ->
                    keys_distinct (snd kv) = true -> reads_back (snd kv)) d ->
  forallb (fun kv => let '(_, x) := kv in floats_read_back x) d = true ->
  forallb (fun kv => let '(_, x) := kv in keys_distinct x) d = true ->
  Forall (fun kv => reads_back (snd kv)) d.
Proof.
  induction 1 as [ | [k x] xs Hx Hxs IH]; intros Hf Hk; constructor.
  - cbn [forallb] in Hf, Hk. apply andb_true_iff in Hf, Hk.
    apply Hx; [apply Hf | apply Hk].
  - cbn [forallb] in Hf, Hk. apply andb_true_iff in Hf, Hk.
    apply IH; [apply Hf | apply Hk].
Qed.

(** Every value whose floats read back and whose dicts have distinct keys
    is read back from its text. *)
Lemma value_reads_back (v : pyval) :
  floats_read_back v = true -> keys_distinct v = true -> reads_back v.
Proof.
  induction v as [ | b | n | f | s | l IH | d IH] using pyval_induction;
    intros Hf Hk lvl r fuel Hr Hlen.
  - destruct fuel as [ | fuel]; [cbn in Hlen; lia | ]. reflexivity.
  - destruct fuel as [ | fuel]; [destruct b; cbn in Hlen; lia | ].
    destruct b; reflexivity.
  - pose proof (scan_atom_int n r Hr) as S.
    cbn [encode] in *.
    destruct (int_text_head n) as (c & t & E & Hc). rewrite E in *.
    destruct fuel as [ | fuel]; [cbn in Hlen; lia | ].
    cbn [app] in *. rewrite (parse_value_atom fuel c _ Hc). exact S.
  - cbn [floats_read_back] in Hf.
    pose proof (scan_atom_float f r Hf Hr) as S.
    cbn [encode] in *.
    destruct (float_text_head f) as (c & t & E & Hc). rewrite E in *.
    destruct fuel as [ | fuel]; [cbn in Hlen; lia | ].
    cbn [app] in *. rewrite (parse_value_atom fuel c _ Hc). exact S.
  - cbn [encode] in *.
    destruct (encode_string_scan s r) as (u & E & Hu).
    destruct fuel as [ | fuel]; [cbn in Hlen; lia | ].
    rewrite E, parse_value_step. change (code dquote =? 34)%nat with true.
    cbv iota. rewrite Hu, string_of_list_ascii_of_string. reflexivity.
  - cbn [floats_read_back keys_distinct] in Hf, Hk.
    pose proof (forallb_Forall_reads_back l IH Hf Hk) as HF.
    destruct l as [ | x xs].
    { destruct fuel as [ | fuel]; [cbn in Hlen; lia | ]. reflexivity. }
    apply Forall_cons_iff in HF. destruct HF as [Hx Hxs].
    rewrite encode_list in *. cbn [app] in *.
    destruct fuel as [ | fuel]; [cbn in Hlen; lia | ].
    cbn [List.length] in Hlen. rewrite length_app in Hlen.
    rewrite parse_value_step.
    change (code "["%char =? 34)%nat with false.
    change (code "["%char =? 123)%nat with false.
    change (code "["%char =? 91)%nat with true. cbv iota.
    repeat (rewrite <- !app_assoc; cbn [app]).
    rewrite skip_ws_indent, skip_ws_encode.
    pose proof (parse_items_ok xs Hxs x (S lvl) lvl r fuel Hx ltac:(lia)) as PI.
    destruct (encode_head (S lvl) x) as (c & t & E & Hc).
    rewrite E in *. cbn [app] in *.
    unfold opens_value in Hc. rewrite !andb_true_iff, !negb_true_iff in Hc.
    destruct Hc as [[_ Hc] _]. rewrite Hc, PI. reflexivity.
  - cbn [floats_read_back keys_distinct] in Hf, Hk.
    apply andb_true_iff in Hk. destruct Hk as [Hd Hk].
    pose proof (forallb_Forall_members d IH Hf Hk) as HF.
    destruct d as [ | [k x] xs].
    { destruct fuel as [ | fuel]; [cbn in Hlen; lia | ]. reflexivity. }
    apply Forall_cons_iff in HF. destruct HF as [Hx Hxs]. cbn [snd] in Hx.
    rewrite encode_dict in *. cbn [app] in *.
    destruct fuel as [ | fuel]; [cbn in Hlen; lia | ].
    cbn [List.length] in Hlen. rewrite length_app in Hlen.
    rewrite parse_value_step.
    change (code "{"%char =? 34)%nat with false.
    change (code "{"%char =? 123)%nat with true. cbv iota.
    repeat (rewrite <- !app_assoc; cbn [app]).
    rewrite skip_ws_indent.
    pose proof (parse_members_ok xs Hxs k x (S lvl) lvl r fuel Hx ltac:(lia))
      as PM.
    destruct (encode_string_scan k
                (":"%char :: " "%char :: encode (S lvl) x
                   ++ encode_members (S lvl) xs
                   ++ newline_indent lvl ++ "}"%char :: r)) as (u & E & _).
    rewrite E in *. cbn [skip_ws].
    change (is_json_space dquote) with false. cbv iota.
    change (code dquote =? 125)%nat with false. cbv iota.
    rewrite PM, (dict_of_pairs_distinct _ Hd). reflexivity.
Qed.

(** ** Keys of the document *)

Lemma keys_distinct_lookup (d : list (string * pyval)) (k : string) (v : pyval) :
  keys_distinct (PDict d) = true -> lookup k d = Some v ->
  keys_distinct v = true.
Proof.
  cbn [keys_distinct]. intros H. apply andb_true_iff in H.
  destruct H as [_ H]. induction d as [ | [k' x] d IH]; [discriminate | ].
  cbn [forallb] in H. apply andb_true_iff in H. destruct H as [Hx Hd].
  cbn [lookup]. destruct (String.eqb k k').
  - intros [= <-]. exact Hx.
  - apply IH. exact Hd.
Qed.

Lemma keys_distinct_get (x : pyval) (k : string) (dflt v : pyval) :
  keys_distinct x = true -> keys_distinct dflt = true ->
  py_get x k dflt = Ok v -> keys_distinct v = true.
Proof.
  intros Hx Hd. destruct x as [ | | | | | | d]; try discriminate.
  cbn [py_get]. unfold get_or. intros [= <-].
  destruct (lookup k d) as [v | ] eqn:E; [ | exact Hd].
  apply (keys_distinct_lookup d k v Hx E).
Qed.

Lemma keys_distinct_or (a b : pyval) :
  keys_distinct a = true -> keys_distinct b = true ->
  keys_distinct (py_or a b) = true.
Proof. intros Ha Hb. unfold py_or. destruct (truthy a); assumption. Qed.

Lemma keys_distinct_section (x : pyval) (k : string) (v : pyval) :
  keys_distinct x = true -> get_section x k = Ok v -> keys_distinct v = true.
Proof.
  intros Hx H. unfold get_section in H. inv_bind H. injection H as <-.
  apply keys_distinct_or; [ | reflexivity].
  apply (keys_distinct_get x k (PDict []) a Hx eq_refl E).
Qed.

Lemma keys_distinct_array (x : pyval) (k : string) (v : pyval) :
  keys_distinct x = true -> get_array x k = Ok v -> keys_distinct v = true.
Proof.
  intros Hx H. unfold get_array in H. inv_bind H. injection H as <-.
  apply keys_distinct_or; [ | reflexivity].
  apply (keys_distinct_get x k (PList []) a Hx eq_refl E).
Qed.

Lemma keys_distinct_item (x : pyval) (i : nat) (v : pyval) :
  keys_distinct x = true -> py_getitem x i = Ok v -> keys_distinct v = true.
Proof.
  intros Hx. destruct x as [ | | | | s | l | d]; try discriminate.
  - cbn [py_getitem]. destruct (String.get i s); [ | discriminate].
    intros [= <-]. reflexivity.
  - cbn [py_getitem]. destruct (nth_error l i) as [y | ] eqn:E; [ | discriminate].
    intros [= <-]. cbn [keys_distinct] in Hx. rewrite forallb_forall in Hx.
    apply Hx. apply (nth_error_In _ _ E).
Qed.

Lemma keys_distinct_number (v : pyval) :
  is_number_or_null v = true -> keys_distinct v = true.
Proof. destruct v; try discriminate; reflexivity. Qed.

Lemma keys_distinct_bounded (k : conv_kind) (arr : pyval) (i : nat) (v : pyval) :
  bounded_item (convert k) arr i = Ok v -> keys_distinct v = true.
Proof.
  intros H. destruct (bounded_item_Ok k arr i v H) as (n & _ & _ & _ & N).
  apply keys_distinct_number, N.
Qed.

Lemma keys_distinct_converted (k : conv_kind) (x v : pyval) :
  convert k x = Ok v -> keys_distinct v = true.
Proof.
  intros H. destruct (convert_total k x) as (v' & E & N).
  rewrite E in H. injection H as <-. apply keys_distinct_number, N.
Qed.

Lemma keys_distinct_current (raw cur : pyval) :
  current_section raw = Ok cur -> keys_distinct cur = true.
Proof.
  unfold current_section, current_record, current_item. intros H.
  inv_bind H. injection H as <-.
  repeat match goal with
         | Hc : bind _ _ = Ok _ |- _ => inv_bind Hc
         end.
  cbn [keys_distinct map fst distinct forallb].
  repeat match goal with
         | Hc : _safe_float ?x = Ok ?v |- _ =>
             rewrite (keys_distinct_converted AsFloat x v Hc); clear Hc
         | Hc : _safe_int ?x = Ok ?v |- _ =>
             rewrite (keys_distinct_converted AsInt x v Hc); clear Hc
         end.
  reflexivity.
Qed.

Lemma keys_distinct_hourly (raw : pyval) (hs : list pyval) :
  keys_distinct raw = true -> hourly_section raw = Ok hs ->
  forallb keys_distinct hs = true.
Proof.
  intros Hraw H. unfold hourly_section in H. inv_bind H.
  apply forallb_forall. apply Forall_forall.
  apply (mapM_Forall _ (fun r => keys_distinct r = true) _ _) in H;
    [exact H | ].
  intros i r _ Hr.
  destruct (hourly_record_Ok _ _ _ _ _ _ _ _ _ _ Hr)
    as (t & v1 & v2 & v3 & v4 & v5 & v6 & v7 & -> & Ht
        & H1 & H2 & H3 & H4 & H5 & H6 & H7).
  cbn [keys_distinct map fst distinct forallb].
  rewrite (keys_distinct_bounded _ _ _ _ H1),
    (keys_distinct_bounded _ _ _ _ H2), (keys_distinct_bounded _ _ _ _ H3),
    (keys_distinct_bounded _ _ _ _ H4), (keys_distinct_bounded _ _ _ _ H5),
    (keys_distinct_bounded _ _ _ _ H6), (keys_distinct_bounded _ _ _ _ H7).
  rewrite (keys_distinct_item _ _ _
             (keys_distinct_array _ _ _
                (keys_distinct_section _ _ _ Hraw E) E0) Ht).
  reflexivity.
Qed.

Lemma keys_distinct_daily (raw : pyval) (ds : list pyval) :
  keys_distinct raw = true -> daily_section raw = Ok ds ->
  forallb keys_distinct ds = true.
Proof.
  intros Hraw H. unfold daily_section in H. inv_bind H.
  apply forallb_forall. apply Forall_forall.
  apply (mapM_Forall _ (fun r => keys_distinct r = true) _ _) in H;
    [exact H | ].
  intros i r _ Hr.
  destruct (daily_record_Ok _ _ _ _ _ _ _ Hr)
    as (t & v1 & v2 & v3 & v4 & -> & Ht & H1 & H2 & H3 & H4).
  cbn [keys_distinct map fst distinct forallb].
  rewrite (keys_distinct_bounded _ _ _ _ H1),
    (keys_distinct_bounded _ _ _ _ H2), (keys_distinct_bounded _ _ _ _ H3),
    (keys_distinct_bounded _ _ _ _ H4).
  rewrite (keys_distinct_item _ _ _
             (keys_distinct_array _ _ _
                (keys_distinct_section _ _ _ Hraw E) E0) Ht).
  reflexivity.
Qed.

(** No dict of the document has a key twice, when none of the raw response
    and of the arguments has: the dicts that [build_json] makes itself have
    distinct keys, and the labels it copies are values of the raw
    response. *)
Theorem build_json_keeps_keys_distinct
  (utcnow : datetime) (raw place_name lat lon tz doc : pyval) :
  keys_distinct raw = true ->
  keys_distinct place_name = true -> keys_distinct lat = true ->
  keys_distinct lon = true -> keys_distinct tz = true ->
  build_json utcnow raw place_name lat lon tz = Ok doc ->
  keys_distinct doc = true.
Proof.
  intros Hraw Hp Hla Hlo Htz H.
  destruct (build_json_Ok _ _ _ _ _ _ _ H) as (cur & hs & ds & -> & Hc & Hh & Hd).
  unfold meta_record. cbn [keys_distinct map fst distinct forallb].
  rewrite Hp, Hla, Hlo, Htz, (keys_distinct_current raw cur Hc),
    (keys_distinct_hourly raw hs Hraw Hh), (keys_distinct_daily raw ds Hraw Hd).
  reflexivity.
Qed.

Lemma build_json_keeps_keys_distinct_witness :
  keys_distinct sample_document = true.
Proof.
  apply (build_json_keeps_keys_distinct
           sample_clock sample_raw PLACE_NAME LAT LON TIMEZONE sample_document);
    reflexivity.
Defined.

(** ** The raw responses that [build_json] accepts *)

Lemma section_usable_cases (d : list (string * pyval)) (name : string)
  (fields : list (string * string * conv_kind)) :
  section_usable d name fields = true ->
  section_ok d name fields = true
  \/ exists s, py_or (get_or d name (PDict [])) (PDict []) = PDict s
               /\ py_or (get_or s "time" (PList [])) (PList []) = PList [].
Proof.
  unfold section_usable, section_ok.
  destruct (py_or (get_or d name (PDict [])) (PDict [])) as [ | | | | | | s];
    try discriminate.
  cbn [forallb]. unfold is_array.
  destruct (py_or (get_or s "time" (PList [])) (PList []))
    as [ | | | | | [ | x l] | ] eqn:E; intros H;
    first [ left; exact H | right; exists s; split; [reflexivity | exact E] ].
Qed.

Lemma section_ok_usable (d : list (string * pyval)) (name : string)
  (fields : list (string * string * conv_kind)) :
  section_ok d name fields = true -> section_usable d name fields = true.
Proof.
  unfold section_usable, section_ok.
  destruct (py_or (get_or d name (PDict [])) (PDict [])) as [ | | | | | | s];
    try discriminate.
  cbn [forallb]. unfold is_array.
  destruct (py_or (get_or s "time" (PList [])) (PList []))
    as [ | | | | | [ | x l] | ]; intros H; first [reflexivity | exact H].
Qed.

Lemma hourly_section_no_times (d s : list (string * pyval)) :
  py_or (get_or d "hourly" (PDict [])) (PDict []) = PDict s ->
  py_or (get_or s "time" (PList [])) (PList []) = PList [] ->
  hourly_section (PDict d) = Ok [].
Proof.
  intros Hs Ht. unfold hourly_section, get_section, get_array.
  cbn [py_get bind]. rewrite Hs. cbn [py_get bind]. rewrite Ht. reflexivity.
Qed.

Lemma daily_section_no_times (d s : list (string * pyval)) :
  py_or (get_or d "daily" (PDict [])) (PDict []) = PDict s ->
  py_or (get_or s "time" (PList [])) (PList []) = PList [] ->
  daily_section (PDict d) = Ok [].
Proof.
  intros Hs Ht. unfold daily_section, get_section, get_array.
  cbn [py_get bind]. rewrite Hs. cbn [py_get bind]. rewrite Ht. reflexivity.
Qed.

(** A value that [or []] has let through has an item, when it has a
    length. *)
Lemma py_or_len (x : pyval) (n : nat) :
  py_len (py_or x (PList [])) = Ok n ->
  py_or x (PList []) = PList [] \/ (1 <= n)%nat.
Proof.
  unfold py_or.
  destruct x as [ | b | z | f | s | l | d]; cbn [truthy];
    try (intros _; left; reflexivity).
  - destruct b; [discriminate | intros _; left; reflexivity].
  - destruct (negb (z =? 0)); [discriminate | intros _; left; reflexivity].
  - destruct f; try discriminate; intros _; left; reflexivity.
  - destruct s as [ | c s]; [intros _; left; reflexivity | ].
    cbn [py_len String.length]. intros [= <-]. right. lia.
  - destruct l as [ | y l]; [intros _; left; reflexivity | ].
    cbn [py_len List.length]. intros [= <-]. right. lia.
  - destruct d as [ | y d]; [intros _; left; reflexivity | ].
    cbn [py_len List.length]. intros [= <-]. right. lia.
Qed.

(** An item that is read and converted comes from a sequence. *)
Lemma bounded_item_array (k : conv_kind) (x v : pyval) :
  bounded_item (convert k) (py_or x (PList [])) 0 = Ok v -> is_array x = true.
Proof.
  unfold is_array, bounded_item. intros H.
  destruct (py_len (py_or x (PList []))) as [n | e] eqn:En; [ | discriminate H].
  cbn [bind] in H. pose proof (py_or_len x n En) as L.
  destruct (py_or x (PList [])) as [ | | | | s | l | d]; try discriminate En;
    try reflexivity.
  destruct L as [L | L]; [discriminate L | ].
  destruct (Nat.ltb_spec 0 n); [discriminate H | lia].
Qed.

Lemma label_array (x t : pyval) (n : nat) :
  py_len (py_or x (PList [])) = Ok n ->
  py_getitem (py_or x (PList [])) 0 = Ok t ->
  array_like (py_or x (PList [])) = true.
Proof.
  intros Hn Ht.
  destruct (py_or x (PList [])) as [ | | | | s | l | d]; try discriminate Hn;
    try reflexivity.
  discriminate Ht.
Qed.

Lemma mapM_first {A B : Type} (f : A -> result B) (a : A) (l : list A)
  (bs : list B) :
  mapM f (a :: l) = Ok bs -> exists b, f a = Ok b.
Proof.
  cbn [mapM]. intros H. destruct (f a) as [b | e]; [eauto | discriminate H].
Qed.

Lemma hourly_section_usable (d : list (string * pyval)) (hs : list pyval) :
  hourly_section (PDict d) = Ok hs ->
  section_usable d "hourly" hourly_fields = true.
Proof.
  unfold hourly_section, get_section, section_usable. cbn [py_get bind].
  destruct (py_or (get_or d "hourly" (PDict [])) (PDict [])) as [ | | | | | | s];
    try discriminate.
  unfold get_array. cbn [py_get bind]. intros H.
  destruct (py_len (py_or (get_or s "time" (PList [])) (PList [])))
    as [n | e] eqn:En; [ | discriminate H].
  cbn [bind] in H.
  destruct (py_or_len _ _ En) as [E | Hn]; [rewrite E; reflexivity | ].
  assert (K : Nat.min 24 n = S (Nat.min 23 (n - 1))) by lia.
  rewrite K in H. cbn [seq] in H.
  destruct (mapM_first _ _ _ _ H) as [r Hr].
  destruct (hourly_record_Ok _ _ _ _ _ _ _ _ _ _ Hr)
    as (t & v1 & v2 & v3 & v4 & v5 & v6 & v7 & _ & Ht
        & H1 & H2 & H3 & H4 & H5 & H6 & H7).
  pose proof (label_array _ _ _ En Ht) as A0.
  apply bounded_item_array in H1, H2, H3, H4, H5, H6, H7.
  cbn [raw_keys hourly_fields map fst snd forallb].
  rewrite H1, H2, H3, H4, H5, H6, H7.
  destruct (py_or (get_or s "time" (PList [])) (PList [])) as [ | | | | | [ | ] | ];
    try discriminate A0; reflexivity.
Qed.

Lemma daily_section_usable (d : list (string * pyval)) (ds : list pyval) :
  daily_section (PDict d) = Ok ds ->
  section_usable d "daily" daily_fields = true.
Proof.
  unfold daily_section, get_section, section_usable. cbn [py_get bind].
  destruct (py_or (get_or d "daily" (PDict [])) (PDict [])) as [ | | | | | | s];
    try discriminate.
  unfold get_array. cbn [py_get bind]. intros H.
  destruct (py_len (py_or (get_or s "time" (PList [])) (PList [])))
    as [n | e] eqn:En; [ | discriminate H].
  cbn [bind] in H.
  destruct (py_or_len _ _ En) as [E | Hn]; [rewrite E; reflexivity | ].
  assert (K : Nat.min 7 n = S (Nat.min 6 (n - 1))) by lia.
  rewrite K in H. cbn [seq] in H.
  destruct (mapM_first _ _ _ _ H) as [r Hr].
  destruct (daily_record_Ok _ _ _ _ _ _ _ Hr)
    as (t & v1 & v2 & v3 & v4 & _ & Ht & H1 & H2 & H3 & H4).
  pose proof (label_array _ _ _ En Ht) as A0.
  apply bounded_item_array in H1, H2, H3, H4.
  cbn [raw_keys daily_fields map fst snd forallb].
  rewrite H1, H2, H3, H4.
  destruct (py_or (get_or s "time" (PList [])) (PList [])) as [ | | | | | [ | ] | ];
    try discriminate A0; reflexivity.
Qed.

Lemma current_section_usable (d : list (string * pyval)) (cur : pyval) :
  current_section (PDict d) = Ok cur ->
  is_mapping (get_or d "current" (PDict [])) = true.
Proof.
  unfold current_section, get_section, is_mapping. cbn [py_get bind].
  intros H. destruct (current_record_mapping _ _ H) as [c ->]. reflexivity.
Qed.

(** [build_json] returns a document exactly for the raw responses that
    are mappings whose [current], [hourly] and [daily] are mappings (or
    falsy or absent), with a [time] that is a list or a string (or falsy or
    absent) and, unless [time] has no item, with such a value under every
    field name as well.  For every other raw response it raises.  The
    well-shaped responses are among those it accepts, and they are not
    all: a field that is no sequence does no harm where there is no
    time label. *)
Theorem build_json_accepts_exactly_the_usable
  (utcnow : datetime) (raw place_name lat lon tz : pyval) :
  ((exists doc, build_json utcnow raw place_name lat lon tz = Ok doc)
   <-> usable raw = true)
  /\ (usable raw = false ->
      exists e, build_json utcnow raw place_name lat lon tz = Raise e)
  /\ (well_shaped raw = true -> usable raw = true)
  /\ usable sample_empty_times = true
  /\ well_shaped sample_empty_times = false.
Proof.
  assert (Iff : (exists doc, build_json utcnow raw place_name lat lon tz = Ok doc)
                <-> usable raw = true).
  { split.
    - intros [doc H].
      destruct (build_json_Ok _ _ _ _ _ _ _ H)
        as (cur & hs & ds & _ & Hc & Hh & Hd).
      destruct raw as [ | | | | | | d]; try discriminate Hc.
      cbn [usable].
      rewrite (current_section_usable d cur Hc),
        (hourly_section_usable d hs Hh), (daily_section_usable d ds Hd).
      reflexivity.
    - destruct raw as [ | | | | | | d]; try discriminate. cbn [usable].
      rewrite !andb_true_iff. intros [[Hc Hh] Hd].
      destruct (current_section_total d Hc) as [cur Ec].
      assert (Eh : exists hs, hourly_section (PDict d) = Ok hs).
      { destruct (section_usable_cases _ _ _ Hh) as [Ok | (s & Es & Et)].
        - apply hourly_section_total, Ok.
        - exists []. apply (hourly_section_no_times d s Es Et). }
      assert (Ed : exists ds, daily_section (PDict d) = Ok ds).
      { destruct (section_usable_cases _ _ _ Hd) as [Ok | (s & Es & Et)].
        - apply daily_section_total, Ok.
        - exists []. apply (daily_section_no_times d s Es Et). }
      destruct Eh as [hs Eh]. destruct Ed as [ds Ed].
      unfold build_json. rewrite Ec, Eh, Ed. cbn [bind]. eauto. }
  split; [exact Iff | ].
  split.
  { intros Hu.
    destruct (build_json utcnow raw place_name lat lon tz) as [doc | e] eqn:E.
    - assert (usable raw = true) by (apply Iff; exists doc; reflexivity).
      congruence.
    - exists e. reflexivity. }
  split.
  { destruct raw as [ | | | | | | d]; try discriminate.
    cbn [well_shaped usable]. rewrite !andb_true_iff. intros [[Hc Hh] Hd].
    repeat split; [exact Hc | | ]; apply section_ok_usable; assumption. }
  split; reflexivity.
Qed.

Lemma build_json_accepts_exactly_the_usable_witness :
  exists doc,
    build_json sample_clock sample_empty_times PLACE_NAME LAT LON TIMEZONE
    = Ok doc.
Proof.
  apply (proj1 (build_json_accepts_exactly_the_usable
                  sample_clock sample_empty_times PLACE_NAME LAT LON TIMEZONE)).
  reflexivity.
Defined.

(** ** Rounding is a function of the number *)

Lemma loc_of_record_of_loc (m : Z) (l : location) :
  loc_of_shr_record (shr_record_of_loc m l) = l
  /\ shr_m (shr_record_of_loc m l) = m.
Proof. destruct l as [ | []]; split; reflexivity. Qed.

Lemma loc_frac_exact (r b : Z) : loc_frac r b = loc_Exact <-> r = 0.
Proof.
  unfold loc_frac. destruct (Z.eqb_spec r 0); split; congruence.
Qed.

(** One step to the right keeps the integer part and the location. *)
Lemma shr_1_holds (a b : Z) (rec : shr_record) :
  holds_fraction a b rec -> holds_fraction a (2 * b) (shr_1 rec).
Proof.
  intros (Ha & Hb & Hm & Hl).
  pose proof (Z.div_mod a b ltac:(lia)) as Ed.
  pose proof (Z.mod_pos_bound a b Hb) as Hr.
  pose proof (Z.div_pos a b Ha Hb) as Hq.
  set (q := a / b) in *. set (r := a mod b) in *.
  pose proof (Z.div_mod q 2 ltac:(lia)) as Eq2.
  pose proof (Z.mod_pos_bound q 2 ltac:(lia)) as Hq2.
  assert (Q : a / (2 * b) = q / 2).
  { symmetry. apply (Z.div_unique a (2 * b) (q / 2) (b * (q mod 2) + r)); nia. }
  assert (R : a mod (2 * b) = b * (q mod 2) + r).
  { symmetry. apply (Z.mod_unique a (2 * b) (q / 2) (b * (q mod 2) + r)); nia. }
  split; [exact Ha | ]. split; [lia | ].
  rewrite Q, R. destruct rec as [m rb sb]. cbn [shr_m] in Hm.
  assert (S : orb rb sb = false <-> r = 0).
  { rewrite <- (loc_frac_exact r b), <- Hl.
    destruct rb, sb; cbn; split; congruence. }
  subst m. unfold shr_1.
  destruct q as [ | [p | p | ] | p] eqn:Eq; try lia; cbn [shr_m].
  - (* zero *)
    split; [reflexivity | ].
    change (0 mod 2) with 0. rewrite Z.mul_0_r, Z.add_0_l.
    unfold loc_frac. destruct (orb rb sb) eqn:O.
    + destruct (Z.eqb_spec r 0) as [E0 | N0]; [apply S in E0; congruence | ].
      cbn [loc_of_shr_record]. f_equal. symmetry. apply Z.compare_lt_iff. lia.
    + destruct (Z.eqb_spec r 0) as [E0 | N0]; [reflexivity | ].
      exfalso. apply N0. apply S. reflexivity.
  - (* odd, more than one *)
    assert (E1 : Z.pos p~1 mod 2 = 1).
    { symmetry. apply (Z.mod_unique _ _ (Z.pos p)); lia. }
    assert (E2 : Z.pos p~1 / 2 = Z.pos p).
    { symmetry. apply (Z.div_unique _ _ _ 1); lia. }
    rewrite E1, E2. split; [reflexivity | ].
    unfold loc_frac.
    destruct (Z.eqb_spec (b * 1 + r) 0); [lia | ].
    destruct (orb rb sb) eqn:O; cbn [loc_of_shr_record]; f_equal; symmetry.
    + apply Z.compare_gt_iff.
      assert (r <> 0) by (intros E0; apply S in E0; congruence). lia.
    + apply Z.compare_eq_iff.
      assert (r = 0) by (apply S; reflexivity). lia.
  - (* even *)
    assert (E1 : Z.pos p~0 mod 2 = 0).
    { symmetry. apply (Z.mod_unique _ _ (Z.pos p)); lia. }
    assert (E2 : Z.pos p~0 / 2 = Z.pos p).
    { symmetry. apply (Z.div_unique _ _ _ 0); lia. }
    rewrite E1, E2, Z.mul_0_r, Z.add_0_l. split; [reflexivity | ].
    unfold loc_frac. destruct (orb rb sb) eqn:O.
    + destruct (Z.eqb_spec r 0) as [E0 | N0]; [apply S in E0; congruence | ].
      cbn [loc_of_shr_record]. f_equal. symmetry. apply Z.compare_lt_iff. lia.
    + destruct (Z.eqb_spec r 0) as [E0 | N0]; [reflexivity | ].
      exfalso. apply N0. apply S. reflexivity.
  - (* one *)
    change (1 mod 2) with 1. change (1 / 2) with 0.
    split; [reflexivity | ].
    unfold loc_frac.
    destruct (Z.eqb_spec (b * 1 + r) 0); [lia | ].
    destruct (orb rb sb) eqn:O; cbn [loc_of_shr_record]; f_equal; symmetry.
    + apply Z.compare_gt_iff.
      assert (r <> 0) by (intros E0; apply S in E0; congruence). lia.
    + apply Z.compare_eq_iff.
      assert (r = 0) by (apply S; reflexivity). lia.
Qed.

Lemma shr_iter_holds (j : nat) (a b : Z) (rec : shr_record) :
  holds_fraction a b rec ->
  holds_fraction a (b * 2 ^ Z.of_nat j) (Nat.iter j shr_1 rec).
Proof.
  intros H. induction j as [ | j IH].
  - change (Nat.iter 0 shr_1 rec) with rec. rewrite Z.mul_1_r. exact H.
  - change (Nat.iter (S j) shr_1 rec) with (shr_1 (Nat.iter j shr_1 rec)).
    rewrite Nat2Z.inj_succ, Z.pow_succ_r by lia.
    replace (b * (2 * 2 ^ Z.of_nat j)) with (2 * (b * 2 ^ Z.of_nat j)) by ring.
    apply shr_1_holds, IH.
Qed.

(** [shr_fexp] on a record that holds [a / b] gives one that holds the
    same number at the exponent it moves to. *)
Lemma shr_fexp_holds (a b m e : Z) (l : location) :
  holds_fraction a b (shr_record_of_loc m l) ->
  let n := Z.max 0 (fexp prec emax (Zdigits2 m + e) - e) in
  holds_fraction a (b * 2 ^ n) (fst (shr_fexp prec emax m e l))
  /\ snd (shr_fexp prec emax m e l) = e + n.
Proof.
  intros H n. subst n. unfold shr_fexp, shr.
  destruct (fexp prec emax (Zdigits2 m + e) - e) as [ | p | p] eqn:E.
  - cbn [fst snd]. change (Z.max 0 0) with 0. rewrite Z.mul_1_r.
    split; [exact H | lia].
  - cbn [fst snd]. rewrite Z.max_r by lia. split; [ | reflexivity].
    rewrite iter_pos_nat, <- (positive_nat_Z p). apply shr_iter_holds, H.
  - cbn [fst snd]. rewrite Z.max_l by lia. rewrite Z.mul_1_r.
    split; [exact H | lia].
Qed.

Lemma binary_round_aux_finish (sx : bool) (mx ex : Z) (lx : location) :
  binary_round_aux prec emax sx mx ex lx
  = finish_round sx
      (round_nearest_even
         (shr_m (fst (shr_fexp prec emax mx ex lx)))
         (loc_of_shr_record (fst (shr_fexp prec emax mx ex lx))))
      (snd (shr_fexp prec emax mx ex lx)).
Proof.
  unfold binary_round_aux, finish_round.
  destruct (shr_fexp prec emax mx ex lx) as [mrs e']. reflexivity.
Qed.

(** [binary_round_aux] on the integer part and the location of [a / b]
    rounds [a / b] at the exponent that [shr_fexp] moves to. *)
Lemma binary_round_aux_fraction (sx : bool) (a b mx ex : Z) (lx : location) :
  holds_fraction a b (shr_record_of_loc mx lx) ->
  let n := Z.max 0 (fexp prec emax (Zdigits2 mx + ex) - ex) in
  binary_round_aux prec emax sx mx ex lx
  = finish_round sx (rne_int a (b * 2 ^ n)) (ex + n).
Proof.
  intros H n. rewrite binary_round_aux_finish.
  destruct (shr_fexp_holds a b mx ex lx H) as [(_ & _ & Hm & Hl) He].
  fold n in Hm, Hl, He. rewrite Hm, Hl, He. reflexivity.
Qed.

(** The nearest integer depends on the fraction only, not on the numbers
    that stand for it. *)
Lemma rne_int_same_fraction (a b a' b' : Z) :
  0 < b -> 0 < b' -> a * b' = a' * b -> rne_int a b = rne_int a' b'.
Proof.
  intros Hb Hb' E. unfold rne_int.
  pose proof (Z.div_mod a b ltac:(lia)) as Ed.
  pose proof (Z.mod_pos_bound a b Hb) as Hr.
  set (q := a / b) in *. set (r := a mod b) in *.
  assert (R : (a' - b' * q) * b = r * b') by nia.
  assert (Hr' : 0 <= a' - b' * q < b') by nia.
  assert (Q' : a' / b' = q).
  { symmetry. apply (Z.div_unique a' b' q (a' - b' * q)); lia. }
  assert (R' : a' mod b' = a' - b' * q).
  { symmetry. apply (Z.mod_unique a' b' q (a' - b' * q)); lia. }
  rewrite Q', R'. f_equal. unfold loc_frac.
  destruct (Z.eqb_spec r 0) as [E0 | N0];
    destruct (Z.eqb_spec (a' - b' * q) 0) as [E0' | N0']; try reflexivity;
    try nia.
  f_equal.
  rewrite (Zmult_compare_compat_r (2 * r) b b' ltac:(lia)).
  rewrite (Zmult_compare_compat_r (2 * (a' - b' * q)) b' b ltac:(lia)).
  f_equal; nia.
Qed.

Lemma new_location_frac (b r : Z) :
  0 < b -> 0 <= r < b -> new_location b r = loc_frac r b.
Proof.
  intros Hb Hr. unfold new_location, new_location_even, new_location_odd,
    loc_frac.
  destruct (Z.even b) eqn:Ev; [reflexivity | ].
  destruct (Z.eqb_spec r 0); [reflexivity | ]. f_equal.
  assert (Od : Z.odd b = true) by (rewrite <- Z.negb_even, Ev; reflexivity).
  apply Z.odd_spec in Od. destruct Od as [k Ek].
  destruct (Z.compare_spec (2 * r + 1) b) as [E | L | G];
    symmetry; [apply Z.compare_lt_iff | apply Z.compare_lt_iff
               | apply Z.compare_gt_iff]; lia.
Qed.

(** *** Powers of two with exponents of any sign *)

Lemma pow2_pos (j : Z) : 0 < 2 ^ Z.max 0 j.
Proof. apply Z.pow_pos_nonneg; lia. Qed.

Lemma pow2_le_iff (t n u v : Z) :
  0 <= u -> 0 <= v -> (pow2_le t n (u - v) <-> t * 2 ^ u <= n * 2 ^ v).
Proof.
  intros Hu Hv. unfold pow2_le.
  replace (- (u - v)) with (v - u) by ring.
  destruct (Z.le_ge_cases u v) as [L | L].
  - rewrite (Z.max_l 0 (u - v)), (Z.max_r 0 (v - u)) by lia.
    replace (2 ^ v) with (2 ^ (v - u) * 2 ^ u)
      by (rewrite <- Z.pow_add_r by lia; f_equal; lia).
    rewrite Z.pow_0_r, Z.mul_1_r, Z.mul_assoc.
    assert (0 < 2 ^ u) by (apply Z.pow_pos_nonneg; lia).
    split; intros H0.
    + apply Z.mul_le_mono_pos_r; assumption.
    + apply Z.mul_le_mono_pos_r in H0; assumption.
  - rewrite (Z.max_r 0 (u - v)), (Z.max_l 0 (v - u)) by lia.
    replace (2 ^ u) with (2 ^ (u - v) * 2 ^ v)
      by (rewrite <- Z.pow_add_r by lia; f_equal; lia).
    rewrite Z.pow_0_r, Z.mul_1_r, Z.mul_assoc.
    assert (0 < 2 ^ v) by (apply Z.pow_pos_nonneg; lia).
    split; intros H0.
    + apply Z.mul_le_mono_pos_r; assumption.
    + apply Z.mul_le_mono_pos_r in H0; assumption.
Qed.

Lemma pow2_gt_iff (t n u v : Z) :
  0 <= u -> 0 <= v -> (pow2_gt t n (u - v) <-> n * 2 ^ v < t * 2 ^ u).
Proof.
  intros Hu Hv. unfold pow2_gt.
  replace (- (u - v)) with (v - u) by ring.
  destruct (Z.le_ge_cases u v) as [L | L].
  - rewrite (Z.max_l 0 (u - v)), (Z.max_r 0 (v - u)) by lia.
    replace (2 ^ v) with (2 ^ (v - u) * 2 ^ u)
      by (rewrite <- Z.pow_add_r by lia; f_equal; lia).
    rewrite Z.pow_0_r, Z.mul_1_r, Z.mul_assoc.
    assert (0 < 2 ^ u) by (apply Z.pow_pos_nonneg; lia).
    split; intros H0.
    + apply Z.mul_lt_mono_pos_r; assumption.
    + apply Z.mul_lt_mono_pos_r in H0; assumption.
  - rewrite (Z.max_r 0 (u - v)), (Z.max_l 0 (v - u)) by lia.
    replace (2 ^ u) with (2 ^ (u - v) * 2 ^ v)
      by (rewrite <- Z.pow_add_r by lia; f_equal; lia).
    rewrite Z.pow_0_r, Z.mul_1_r, Z.mul_assoc.
    assert (0 < 2 ^ v) by (apply Z.pow_pos_nonneg; lia).
    split; intros H0.
    + apply Z.mul_lt_mono_pos_r; assumption.
    + apply Z.mul_lt_mono_pos_r in H0; assumption.
Qed.

(** [2 ^ j <= n / t] and [n / t < 2 ^ j'] put [j] below [j']. *)
Lemma pow2_le_gt (t n j j' : Z) :
  0 < t -> pow2_le t n j -> pow2_gt t n j' -> j < j'.
Proof.
  intros Ht L G.
  set (K := Z.abs j + Z.abs j' + 1).
  replace j with ((j + K) - K) in L by ring.
  replace j' with ((j' + K) - K) in G by ring.
  apply (proj1 (pow2_le_iff t n (j + K) K ltac:(lia) ltac:(lia))) in L.
  apply (proj1 (pow2_gt_iff t n (j' + K) K ltac:(lia) ltac:(lia))) in G.
  assert (H : t * 2 ^ (j + K) < t * 2 ^ (j' + K)) by lia.
  apply Z.mul_lt_mono_pos_l in H; [ | exact Ht].
  apply Z.pow_lt_mono_r_iff in H; lia.
Qed.

Lemma magnitude_unique (n t d d' : Z) :
  0 < t -> magnitude n t d -> magnitude n t d' -> d = d'.
Proof.
  intros Ht [L G] [L' G'].
  pose proof (pow2_le_gt t n _ _ Ht L G').
  pose proof (pow2_le_gt t n _ _ Ht L' G). lia.
Qed.

Lemma magnitude_same_fraction (n t n' t' d : Z) :
  0 < t -> 0 < t' -> n * t' = n' * t ->
  magnitude n t d -> magnitude n' t' d.
Proof.
  intros Ht Ht' E [L G]. unfold magnitude, pow2_le, pow2_gt in *.
  pose proof (pow2_pos (d - 1)). pose proof (pow2_pos (- (d - 1))).
  pose proof (pow2_pos d). pose proof (pow2_pos (- d)).
  split.
  - apply (Z.mul_le_mono_pos_l _ _ t Ht).
    replace (t * (t' * 2 ^ Z.max 0 (d - 1)))
      with (t' * (t * 2 ^ Z.max 0 (d - 1))) by ring.
    replace (t * (n' * 2 ^ Z.max 0 (- (d - 1))))
      with (t' * (n * 2 ^ Z.max 0 (- (d - 1)))) by nia.
    apply Z.mul_le_mono_nonneg_l; lia.
  - apply (Z.mul_lt_mono_pos_l t _ _ Ht).
    replace (t * (t' * 2 ^ Z.max 0 d))
      with (t' * (t * 2 ^ Z.max 0 d)) by ring.
    replace (t * (n' * 2 ^ Z.max 0 (- d)))
      with (t' * (n * 2 ^ Z.max 0 (- d))) by nia.
    apply Z.mul_lt_mono_pos_l; lia.
Qed.

Lemma magnitude_integer (p : positive) :
  magnitude (Zpos p) 1 (Zpos (digits2_pos p)).
Proof.
  pose proof (digits_bounds p) as [B1 B2].
  split.
  - replace (Zpos (digits2_pos p) - 1) with ((Zpos (digits2_pos p) - 1) - 0)
      by ring.
    apply pow2_le_iff; lia.
  - replace (Zpos (digits2_pos p)) with (Zpos (digits2_pos p) - 0) at 1
      by ring.
    apply pow2_gt_iff; lia.
Qed.

(** *** The two ways of [float_of_decimal] *)

Lemma holds_integer (a : Z) :
  0 <= a -> holds_fraction a 1 (shr_record_of_loc a loc_Exact).
Proof.
  intros Ha. split; [exact Ha | ]. split; [lia | ].
  cbn [shr_record_of_loc shr_m loc_of_shr_record].
  rewrite Z.div_1_r, Z.mod_1_r. split; reflexivity.
Qed.

Lemma finish_round_eq (sx : bool) (a b e a' b' e' : Z) :
  a = a' -> b = b' -> e = e' ->
  finish_round sx (rne_int a b) e = finish_round sx (rne_int a' b') e'.
Proof. intros -> -> ->. reflexivity. Qed.

(** Rounding an integer. *)
Lemma binary_round_fraction (sx : bool) (p : positive) :
  binary_round prec emax sx p 0
  = round_fraction sx (Zpos p) 1 (Zpos (digits2_pos p)).
Proof.
  unfold binary_round, round_fraction.
  set (d := Zpos (digits2_pos p)). rewrite Z.add_0_r.
  set (c := fexp prec emax d). unfold shl_align.
  destruct (c - 0) as [ | k | k] eqn:E.
  - rewrite (binary_round_aux_fraction sx (Zpos p) 1 (Zpos p) 0 loc_Exact)
      by (apply holds_integer; lia).
    cbn [Zdigits2]. fold d. rewrite Z.add_0_r. fold c.
    apply finish_round_eq.
    + replace (Z.max 0 (- c)) with 0 by lia. rewrite Z.pow_0_r. lia.
    + do 2 f_equal. lia.
    + lia.
  - rewrite (binary_round_aux_fraction sx (Zpos p) 1 (Zpos p) 0 loc_Exact)
      by (apply holds_integer; lia).
    cbn [Zdigits2]. fold d. rewrite Z.add_0_r. fold c.
    apply finish_round_eq.
    + replace (Z.max 0 (- c)) with 0 by lia. rewrite Z.pow_0_r. lia.
    + do 2 f_equal. lia.
    + lia.
  - rewrite shl_pos_iter.
    rewrite (binary_round_aux_fraction sx
               (Zpos (shl p (Pos.to_nat k))) 1
               (Zpos (shl p (Pos.to_nat k))) c loc_Exact)
      by (apply holds_integer; lia).
    cbn [Zdigits2]. rewrite shl_digits, shl_value, positive_nat_Z. fold d.
    replace (d + Zpos k + c) with d by lia. fold c.
    apply finish_round_eq.
    + do 2 f_equal. lia.
    + do 2 f_equal. lia.
    + lia.
Qed.

Lemma div_eucl_div_mod (a b : Z) : Z.div_eucl a b = (a / b, a mod b).
Proof. unfold Z.div, Z.modulo. destruct (Z.div_eucl a b). reflexivity. Qed.

(** Rounding a quotient of integers. *)
Lemma div_round_fraction (sx : bool) (N T : positive) (d : Z) :
  magnitude (Zpos N) (Zpos T) d ->
  (let '(q, e', l) := SFdiv_core_binary prec emax (Zpos N) 0 (Zpos T) 0 in
   binary_round_aux prec emax sx q e' l)
  = round_fraction sx (Zpos N) (Zpos T) d.
Proof.
  intros [ML MG]. unfold SFdiv_core_binary. cbn [Zdigits2].
  pose proof (digits_bounds N) as [N1 N2].
  pose proof (digits_bounds T) as [T1 T2].
  set (d1 := Zpos (digits2_pos N)) in *. set (d2 := Zpos (digits2_pos T)) in *.
  rewrite !Z.add_0_r. change (0 - 0) with 0.
  set (e' := Z.min (fexp prec emax (d1 - d2)) 0).
  set (c := fexp prec emax d).
  assert (Hemin : emin prec emax <= e').
  { unfold e', fexp, emin, prec, emax. lia. }
  (* the quotient is not above the magnitude *)
  assert (Hd : d1 - d2 <= d).
  { set (K := Z.abs d + d1 + d2 + 1).
    replace d with ((d + K) - K) in MG by ring.
    apply (proj1 (pow2_gt_iff _ _ (d + K) K ltac:(lia) ltac:(lia))) in MG.
    assert (P : 2 ^ (d1 - 1) * 2 ^ K < 2 ^ d2 * 2 ^ (d + K)).
    { assert (0 < 2 ^ K) by (apply Z.pow_pos_nonneg; lia).
      assert (0 < 2 ^ (d + K)) by (apply Z.pow_pos_nonneg; lia). nia. }
    rewrite <- !Z.pow_add_r in P by lia.
    apply Z.pow_lt_mono_r_iff in P; lia. }
  assert (Hec : e' <= c).
  { unfold e', c. pose proof (fexp_monotone _ _ Hd). lia. }
  set (s := 0 - e').
  assert (Hs : 0 <= s) by (unfold s, e'; lia).
  assert (Em : match s with
               | Zpos _ => Z.shiftl (Zpos N) s
               | Z0 => Zpos N
               | Zneg _ => 0
               end = Zpos N * 2 ^ s).
  { destruct s as [ | k | k] eqn:Es; [lia | | lia].
    rewrite Z.shiftl_mul_pow2 by lia. reflexivity. }
  rewrite Em, div_eucl_div_mod.
  assert (Ps : 0 < 2 ^ s) by (apply Z.pow_pos_nonneg; lia).
  set (a := Zpos N * 2 ^ s) in *.
  pose proof (Z.div_mod a (Zpos T) ltac:(lia)) as Ed.
  pose proof (Z.mod_pos_bound a (Zpos T) ltac:(lia)) as Hr.
  assert (Hq : 0 <= a / Zpos T) by (apply Z.div_pos; lia).
  rewrite (binary_round_aux_fraction sx a (Zpos T)).
  2: { split; [lia | ]. split; [lia | ].
       destruct (loc_of_record_of_loc (a / Zpos T)
                   (new_location (Zpos T) (a mod Zpos T))) as [-> ->].
       split; [reflexivity | apply new_location_frac; lia]. }
  unfold round_fraction. fold c.
  set (n := Z.max 0 (fexp prec emax (Zdigits2 (a / Zpos T) + e') - e')).
  assert (Key : e' + n = c).
  { destruct (a / Zpos T) as [ | qp | qp] eqn:Eq; [ | | lia].
    - (* the quotient is zero: the number is below [2 ^ e'] *)
      assert (Hde : d <= e').
      { set (K := Z.abs d + s + 1).
        replace (d - 1) with ((d - 1 + K) - K) in ML by ring.
        apply (proj1 (pow2_le_iff _ _ (d - 1 + K) K ltac:(lia) ltac:(lia)))
          in ML.
        assert (P : Zpos T * 2 ^ (d - 1 + K) < Zpos T * 2 ^ (K - s)).
        { replace (2 ^ K) with (2 ^ s * 2 ^ (K - s)) in ML
            by (rewrite <- Z.pow_add_r by lia; f_equal; lia).
          assert (0 < 2 ^ (K - s)) by (apply Z.pow_pos_nonneg; lia).
          nia. }
        apply Z.mul_lt_mono_pos_l in P; [ | lia].
        apply Z.pow_lt_mono_r_iff in P; lia. }
      unfold n, c. cbn [Zdigits2]. unfold fexp, emin, prec, emax in *. lia.
    - (* the digits of the quotient give the magnitude *)
      pose proof (digits_bounds qp) as [Q1 Q2].
      set (dq := Zpos (digits2_pos qp)) in *.
      assert (M : magnitude (Zpos N) (Zpos T) (dq + e')).
      { split.
        - replace (dq + e' - 1) with ((dq - 1) - s) by (unfold s; ring).
          apply pow2_le_iff; [lia | lia | ]. fold a. nia.
        - replace (dq + e') with (dq - s) by (unfold s; ring).
          apply pow2_gt_iff; [lia | lia | ]. fold a. nia. }
      assert (dq + e' = d).
      { apply (magnitude_unique (Zpos N) (Zpos T)); [lia | exact M | ].
        split; assumption. }
      unfold n. cbn [Zdigits2]. fold dq. replace (dq + e') with d by lia.
      fold c. lia. }
  rewrite Key. f_equal.
  apply rne_int_same_fraction.
  - apply Z.mul_pos_pos; [lia | apply Z.pow_pos_nonneg; unfold n; lia].
  - apply Z.mul_pos_pos; [lia | apply pow2_pos].
  - unfold a.
    assert (P : 2 ^ s * 2 ^ Z.max 0 c = 2 ^ Z.max 0 (- c) * 2 ^ n).
    { rewrite <- !Z.pow_add_r by (unfold n; lia). f_equal. unfold s. lia. }
    nia.
Qed.

Lemma magnitude_exists (N T : positive) :
  exists d, magnitude (Zpos N) (Zpos T) d.
Proof.
  pose proof (digits_bounds N) as [N1 N2].
  pose proof (digits_bounds T) as [T1 T2].
  set (d1 := Zpos (digits2_pos N)) in *. set (d2 := Zpos (digits2_pos T)) in *.
  assert (P1 : 0 < 2 ^ (d1 - 1)) by (apply Z.pow_pos_nonneg; lia).
  assert (P2 : 0 < 2 ^ (d2 - 1)) by (apply Z.pow_pos_nonneg; lia).
  destruct (Z.lt_ge_cases
              (Zpos N * 2 ^ Z.max 0 (- (d1 - d2)))
              (Zpos T * 2 ^ Z.max 0 (d1 - d2))) as [G | L].
  - exists (d1 - d2). split; [ | exact G].
    replace (d1 - d2 - 1) with ((d1 - 1) - d2) by ring.
    apply pow2_le_iff; [lia | lia | nia].
  - exists (d1 - d2 + 1). split.
    + replace (d1 - d2 + 1 - 1) with (d1 - d2) by ring. exact L.
    + replace (d1 - d2 + 1) with (d1 - (d2 - 1)) by ring.
      apply pow2_gt_iff; [lia | lia | nia].
Qed.

Lemma round_fraction_same (sx : bool) (n t n' t' d : Z) :
  0 < t -> 0 < t' -> n * t' = n' * t ->
  round_fraction sx n t d = round_fraction sx n' t' d.
Proof.
  intros Ht Ht' E. unfold round_fraction. f_equal.
  pose proof (pow2_pos (fexp prec emax d)).
  pose proof (pow2_pos (- fexp prec emax d)).
  apply rne_int_same_fraction.
  - apply Z.mul_pos_pos; assumption.
  - apply Z.mul_pos_pos; assumption.
  - set (X := 2 ^ Z.max 0 (fexp prec emax d)).
    set (Y := 2 ^ Z.max 0 (- fexp prec emax d)).
    replace (n * Y * (t' * X)) with ((n * t') * (Y * X)) by ring.
    rewrite E. ring.
Qed.

Lemma pow10_pos (j : Z) : 0 < 10 ^ Z.max 0 j.
Proof. apply Z.pow_pos_nonneg; lia. Qed.

(** [float_of_decimal] rounds the number [M * 10 ^ E]. *)
Lemma float_of_decimal_fraction (s : bool) (M E d : Z) :
  0 < M ->
  magnitude (M * 10 ^ Z.max 0 E) (10 ^ Z.max 0 (- E)) d ->
  float_of_decimal s M E
  = round_fraction s (M * 10 ^ Z.max 0 E) (10 ^ Z.max 0 (- E)) d.
Proof.
  intros HM Hd. unfold float_of_decimal.
  destruct (Z.eqb_spec M 0) as [ | _]; [lia | ].
  destruct (Z.leb_spec 0 E) as [HE | HE].
  - rewrite (Z.max_r 0 E), (Z.max_l 0 (- E)) in * by lia.
    rewrite Z.pow_0_r in *.
    assert (P : 0 < M * 10 ^ E).
    { apply Z.mul_pos_pos; [lia | apply Z.pow_pos_nonneg; lia]. }
    destruct (M * 10 ^ E) as [ | p | p] eqn:Ep; try lia.
    assert (B : binary_normalize prec emax
                  ((if s then Z.opp else id) (Zpos p)) 0 s
                = binary_round prec emax s p 0).
    { destruct s; reflexivity. }
    rewrite B, binary_round_fraction.
    rewrite (magnitude_unique (Zpos p) 1 _ _ ltac:(lia)
               (magnitude_integer p) Hd).
    reflexivity.
  - rewrite (Z.max_l 0 E), (Z.max_r 0 (- E)) in * by lia.
    rewrite Z.pow_0_r, Z.mul_1_r in *.
    assert (P : 0 < 10 ^ (- E)) by (apply Z.pow_pos_nonneg; lia).
    destruct M as [ | N | N]; try lia.
    destruct (10 ^ (- E)) as [ | T | T] eqn:ET; try lia.
    apply (div_round_fraction s N T d Hd).
Qed.

(** The float that [float_of_decimal] gives depends on the number only,
    not on the digits and the exponent that stand for it. *)
Lemma float_of_decimal_same (s : bool) (M E M' E' : Z) :
  0 < M -> 0 < M' -> same_decimal M E M' E' ->
  float_of_decimal s M E = float_of_decimal s M' E'.
Proof.
  intros HM HM' Hs. unfold same_decimal in Hs.
  pose proof (pow10_pos E). pose proof (pow10_pos (- E)).
  pose proof (pow10_pos E'). pose proof (pow10_pos (- E')).
  assert (PN : 0 < M * 10 ^ Z.max 0 E) by (apply Z.mul_pos_pos; lia).
  destruct (M * 10 ^ Z.max 0 E) as [ | N | N] eqn:EN; try lia.
  destruct (10 ^ Z.max 0 (- E)) as [ | T | T] eqn:ET; try lia.
  destruct (magnitude_exists N T) as [d Hd].
  assert (Hd' : magnitude (M' * 10 ^ Z.max 0 E') (10 ^ Z.max 0 (- E')) d).
  { apply (magnitude_same_fraction (Zpos N) (Zpos T)); [lia | lia | | exact Hd].
    lia. }
  rewrite (float_of_decimal_fraction s M E d HM)
    by (rewrite EN, ET; exact Hd).
  rewrite (float_of_decimal_fraction s M' E' d HM' Hd').
  rewrite EN, ET. apply round_fraction_same; lia.
Qed.

(** ** The [repr] of a float reads back *)

(** The search of [repr] ends on a decimal that reads back, when the
    exact expansion does. *)
Lemma shortest_search_reads_back (fuel : nat) (f : float64) (s : bool)
  (i k len n : Z) :
  float_of_decimal s i (- k) = f ->
  float_of_decimal s (fst (shortest_search fuel f s i k len n))
    (snd (shortest_search fuel f s i k len n)) = f.
Proof.
  intros Hex. revert n. induction fuel as [ | fuel IH]; intros n; [exact Hex | ].
  cbn [shortest_search]. cbv zeta.
  set (p := 10 ^ (len - n)). set (lo := i / p). set (q := len - n - k).
  destruct (float_eqb (float_of_decimal s lo q) f) eqn:Elo.
  - destruct (float_eqb (float_of_decimal s (lo + 1) q) f) eqn:Ehi.
    + destruct (_ || _); cbn [andb fst snd]; apply float_eqb_eq; assumption.
    + cbn [andb fst snd]. apply float_eqb_eq; assumption.
  - destruct (float_eqb (float_of_decimal s (lo + 1) q) f) eqn:Ehi.
    + cbn [fst snd]. apply float_eqb_eq; assumption.
    + apply IH.
Qed.

Lemma exact_decimal_reads_back (s : bool) (m : positive) (e : Z) :
  bounded prec emax m e = true ->
  float_of_decimal s (fst (exact_decimal m e)) (- snd (exact_decimal m e))
  = S754_finite s m e.
Proof.
  intros Hb. unfold exact_decimal.
  destruct (Z.leb_spec 0 e) as [He | He]; cbn [fst snd].
  - apply (float_of_decimal_exact s _ _ m e Hb).
    + apply Z.mul_pos_pos; [lia | apply Z.pow_pos_nonneg; lia].
    + change (- 0) with 0. change (Z.max 0 0) with 0.
      rewrite (Z.max_l 0 (- e)), (Z.max_r 0 e) by lia.
      rewrite !Z.pow_0_r. ring.
  - apply (float_of_decimal_exact s _ _ m e Hb).
    + apply Z.mul_pos_pos; [lia | apply Z.pow_pos_nonneg; lia].
    + rewrite Z.opp_involutive.
      rewrite (Z.max_r 0 (- e)), (Z.max_l 0 e) by lia.
      rewrite !Z.pow_0_r.
      replace (10 ^ (- e)) with (2 ^ (- e) * 5 ^ (- e))
        by (rewrite <- Z.pow_mul_l; reflexivity).
      ring.
Qed.

Lemma shortest_decimal_reads_back (s : bool) (m : positive) (e : Z) :
  bounded prec emax m e = true ->
  float_of_decimal s (fst (shortest_decimal s m e))
    (snd (shortest_decimal s m e)) = S754_finite s m e.
Proof.
  intros Hb. pose proof (exact_decimal_reads_back s m e Hb) as Hex.
  unfold shortest_decimal. destruct (exact_decimal m e) as [i k].
  cbn [fst snd] in Hex. apply shortest_search_reads_back. exact Hex.
Qed.

Lemma float_of_string_plain (l : list ascii) :
  (forall x, In x l ->
     is_ascii x = true /\ is_underscore x = false /\ is_space x = false) ->
  float_of_string (string_of_list_ascii l)
  = match parse_decimal l with
    | Some (neg, m, e) => Some (float_of_decimal neg m e)
    | None => parse_inf_or_nan l
    end.
Proof.
  intros Plain. unfold float_of_string.
  rewrite list_ascii_of_string_of_list_ascii.
  assert (T : transform_decimal_and_space l = l).
  { unfold transform_decimal_and_space.
    replace (forallb is_ascii l) with true; [reflexivity | ].
    symmetry. apply forallb_forall. intros x Hx. apply (Plain x Hx). }
  assert (U : existsb is_underscore l = false).
  { destruct (existsb is_underscore l) eqn:Ex; [ | reflexivity].
    apply existsb_exists in Ex. destruct Ex as (x & Hx & Ux).
    destruct (Plain x Hx) as (_ & Nu & _). congruence. }
  rewrite T, U. unfold float_from_string_inner.
  rewrite strip_spaces_all; [reflexivity | ].
  apply forallb_forall. intros x Hx.
  destruct (Plain x Hx) as (_ & _ & ->). reflexivity.
Qed.

Lemma number_text_plain (neg : bool) (ip fd : list ascii)
  (ex : option (bool * list ascii)) (x : ascii) :
  integer_text ip = true -> forallb is_digit fd = true ->
  exponent_ok ex = true ->
  In x (sign_repr neg ++ ip ++ fraction_text fd ++ exponent_text ex) ->
  is_ascii x = true /\ is_underscore x = false /\ is_space x = false.
Proof.
  intros Hip Hfd Hex Hx.
  destruct (integer_text_head ip Hip) as (c & ds & _ & _ & Dip & _).
  assert (Dex : forall eneg ed, ex = Some (eneg, ed) ->
            forallb is_digit ed = true).
  { intros eneg ed ->. cbn [exponent_ok] in Hex.
    destruct ed; [discriminate | exact Hex]. }
  assert (Dig : forall l, forallb is_digit l = true -> In x l ->
            is_ascii x = true /\ is_underscore x = false /\ is_space x = false).
  { intros l Hl Hin. apply digit_is_plain.
    rewrite forallb_forall in Hl. apply Hl, Hin. }
  apply in_app_or in Hx. destruct Hx as [Hx | Hx].
  { destruct neg; [ | contradiction]. destruct Hx as [<- | []]. repeat split. }
  apply in_app_or in Hx. destruct Hx as [Hx | Hx]; [apply (Dig ip Dip Hx) | ].
  apply in_app_or in Hx. destruct Hx as [Hx | Hx].
  { destruct fd as [ | d fd]; [contradiction | ].
    cbn [fraction_text] in Hx. destruct Hx as [<- | Hx]; [repeat split | ].
    apply (Dig (d :: fd) Hfd Hx). }
  destruct ex as [[eneg ed] | ]; [ | contradiction].
  cbn [exponent_text] in Hx. destruct Hx as [<- | [<- | Hx]].
  - repeat split.
  - destruct eneg; repeat split.
  - apply (Dig ed (Dex eneg ed eq_refl) Hx).
Qed.

Lemma read_sign_text (neg : bool) (c : ascii) (t : list ascii) :
  is_digit c = true -> read_sign (sign_repr neg ++ c :: t) = (neg, c :: t).
Proof.
  intros Hc. destruct neg; [reflexivity | ]. apply read_sign_digit, Hc.
Qed.

(** [strtod] on a number text: the digits of the integer part and of the
    fraction as one integer, and the exponent less the number of fraction
    digits. *)
Lemma parse_decimal_text (neg : bool) (ip fd : list ascii)
  (ex : option (bool * list ascii)) :
  integer_text ip = true -> forallb is_digit fd = true ->
  exponent_ok ex = true ->
  parse_decimal (sign_repr neg ++ ip ++ fraction_text fd ++ exponent_text ex)
  = Some (neg, digits_to_Z (ip ++ fd),
          exponent_value ex - Z.of_nat (List.length fd)).
Proof.
  intros Hip Hfd Hex.
  destruct (integer_text_head ip Hip) as (c & ds & E & Hc & Dip & _).
  set (V := digits_to_Z (ip ++ fd)).
  assert (EV : V = digits_to_Z (ip ++ fd)) by reflexivity. clearbody V.
  unfold parse_decimal. rewrite E. cbn [app].
  rewrite (read_sign_text neg c _ Hc).
  change (c :: ds ++ fraction_text fd ++ exponent_text ex)
    with ((c :: ds) ++ fraction_text fd ++ exponent_text ex).
  rewrite <- E.
  assert (Hex1 : match exponent_text ex with
                 | [] => True
                 | x :: _ => is_digit x = false
                 end).
  { destruct ex as [[eneg ed] | ]; [reflexivity | exact I]. }
  rewrite (span_digits_app ip _ Dip).
  2: { destruct fd as [ | d fd]; [exact Hex1 | reflexivity]. }
  assert (NE : ip ++ fd <> []).
  { rewrite E. discriminate. }
  assert (Tail : forall m shift : Z,
            match exponent_text ex return option (bool * Z * Z) with
            | [] => Some (neg, m, shift)
            | c0 :: t =>
                if is_e c0 then
                  let '(eneg, t1) := read_sign t in
                  match span_digits t1 return option (bool * Z * Z) with
                  | ([], _) => None
                  | (ed, []) =>
                      let x := digits_to_Z ed in
                      Some (neg, m, (if eneg then - x else x) + shift)
                  | (_, _ :: _) => None
                  end
                else None
            end = Some (neg, m, exponent_value ex + shift)).
  { intros m shift. destruct ex as [[eneg ed] | ]; [ | reflexivity].
    cbn [exponent_text exponent_value]. change (is_e "e"%char) with true.
    cbv iota.
    assert (R : read_sign ((if eneg then "-"%char else "+"%char) :: ed)
                = (eneg, ed)) by (destruct eneg; reflexivity).
    rewrite R.
    cbn [exponent_ok] in Hex. destruct ed as [ | d ed]; [discriminate | ].
    rewrite (span_digits_all _ Hex). reflexivity. }
  destruct fd as [ | d fd].
  - cbn [fraction_text app List.length].
    assert (S2 : match exponent_text ex with
                 | "."%char :: t => span_digits t
                 | _ => ([], exponent_text ex)
                 end = ([], exponent_text ex)).
    { destruct ex as [[eneg ed] | ]; reflexivity. }
    rewrite S2. rewrite app_nil_r in *.
    destruct ip as [ | c0 ip0]; [contradiction NE; reflexivity | ].
    rewrite Tail, EV. cbn [List.length]. do 2 f_equal; lia.
  - cbn [fraction_text app].
    change (d :: fd ++ exponent_text ex) with ((d :: fd) ++ exponent_text ex).
    rewrite (span_digits_app (d :: fd) _ Hfd Hex1).
    destruct (ip ++ d :: fd) as [ | c0 l0] eqn:El; [contradiction NE; reflexivity | ].
    rewrite Tail, EV. do 2 f_equal; lia.
Qed.

Lemma float_of_string_text (neg : bool) (ip fd : list ascii)
  (ex : option (bool * list ascii)) :
  integer_text ip = true -> forallb is_digit fd = true ->
  exponent_ok ex = true ->
  float_of_string
    (string_of_list_ascii
       (sign_repr neg ++ ip ++ fraction_text fd ++ exponent_text ex))
  = Some (float_of_decimal neg (digits_to_Z (ip ++ fd))
            (exponent_value ex - Z.of_nat (List.length fd))).
Proof.
  intros Hip Hfd Hex. rewrite float_of_string_plain.
  - rewrite (parse_decimal_text neg ip fd ex Hip Hfd Hex). reflexivity.
  - intros x Hx. apply (number_text_plain neg ip fd ex x Hip Hfd Hex Hx).
Qed.

(** *** The value of the digits of a text *)

Lemma digit_val_bounds (c : ascii) : is_digit c = true -> 0 <= digit_val c <= 9.
Proof.
  unfold is_digit, digit_val. rewrite andb_true_iff, !Nat.leb_le. lia.
Qed.

Lemma digits_to_Z_nonneg (ds : list ascii) :
  forallb is_digit ds = true -> 0 <= digits_to_Z ds.
Proof.
  induction ds as [ | c ds IH] using rev_ind; [intros _; cbn; lia | ].
  rewrite forallb_app, andb_true_iff. intros [Hd Hc].
  cbn [forallb] in Hc. rewrite andb_true_r in Hc.
  rewrite digits_to_Z_app, digits_to_Z_one.
  change (Z.of_nat (List.length [c])) with 1.
  pose proof (IH Hd). pose proof (digit_val_bounds c Hc). lia.
Qed.

Lemma digits_to_Z_positive (c : ascii) (ds : list ascii) :
  is_digit c = true -> is_zero_char c = false ->
  forallb is_digit ds = true -> 0 < digits_to_Z (c :: ds).
Proof.
  intros Hc Hz Hds. change (c :: ds) with ([c] ++ ds).
  rewrite digits_to_Z_app, digits_to_Z_one.
  pose proof (digits_to_Z_nonneg ds Hds).
  assert (1 <= digit_val c).
  { unfold is_digit, is_zero_char, digit_val in *.
    rewrite andb_true_iff, !Nat.leb_le in Hc. apply Nat.eqb_neq in Hz. lia. }
  assert (0 < 10 ^ Z.of_nat (List.length ds)) by (apply Z.pow_pos_nonneg; lia).
  nia.
Qed.

Lemma digits_to_Z_leading_zeros (k : nat) (l : list ascii) :
  digits_to_Z (repeat "0"%char k ++ l) = digits_to_Z l.
Proof. rewrite digits_to_Z_app, digits_to_Z_zeros. lia. Qed.

Lemma digits_to_Z_trailing_zeros (l : list ascii) (k : nat) :
  digits_to_Z (l ++ repeat "0"%char k) = digits_to_Z l * 10 ^ Z.of_nat k.
Proof. rewrite digits_to_Z_app, digits_to_Z_zeros, repeat_length. lia. Qed.

Lemma same_decimal_eq (m e m' e' : Z) :
  m = m' -> e = e' -> same_decimal m e m' e'.
Proof. intros -> ->. reflexivity. Qed.

Lemma exponent_repr_value (x : Z) :
  exists eneg ed,
    "e"%char :: exponent_repr x = exponent_text (Some (eneg, ed))
    /\ exponent_ok (Some (eneg, ed)) = true
    /\ exponent_value (Some (eneg, ed)) = x.
Proof.
  unfold exponent_repr.
  exists (x <? 0), ((if Z.abs x <? 10 then ["0"%char] else []) ++ Z_digits (Z.abs x)).
  split; [ | split].
  - cbn [exponent_text]. destruct (x <? 0); reflexivity.
  - assert (D : forallb is_digit
                  ((if Z.abs x <? 10 then ["0"%char] else [])
                     ++ Z_digits (Z.abs x)) = true).
    { rewrite forallb_app, Z_digits_all_digits by lia.
      destruct (Z.abs x <? 10); reflexivity. }
    pose proof (Z_digits_nonempty (Z.abs x) ltac:(lia)) as NE.
    cbn [exponent_ok].
    destruct ((if Z.abs x <? 10 then ["0"%char] else []) ++ Z_digits (Z.abs x))
      as [ | d ed] eqn:E.
    + apply app_eq_nil in E. destruct E as [_ E]. contradiction.
    + exact D.
  - cbn [exponent_value].
    assert (V : digits_to_Z ((if Z.abs x <? 10 then ["0"%char] else [])
                               ++ Z_digits (Z.abs x)) = Z.abs x).
    { destruct (Z.abs x <? 10).
      - apply (eq_trans (digits_to_Z_leading_zeros 1 _)).
        apply Z_digits_value. lia.
      - apply Z_digits_value. lia. }
    rewrite V. destruct (Z.ltb_spec x 0); lia.
Qed.

(** Every layout of [repr] denotes the digits with the decimal point
    after the first [decpt] of them. *)
Lemma format_repr_decimal (c : ascii) (ds : list ascii) (decpt : Z) :
  is_digit c = true -> is_zero_char c = false -> forallb is_digit ds = true ->
  exists ip fd ex,
    format_repr (c :: ds) decpt = ip ++ fraction_text fd ++ exponent_text ex
    /\ integer_text ip = true /\ forallb is_digit fd = true
    /\ exponent_ok ex = true
    /\ 0 < digits_to_Z (ip ++ fd)
    /\ same_decimal (digits_to_Z (ip ++ fd))
         (exponent_value ex - Z.of_nat (List.length fd))
         (digits_to_Z (c :: ds))
         (decpt - Z.of_nat (List.length (c :: ds))).
Proof.
  intros Hc Hz Hds.
  assert (Hall : forallb is_digit (c :: ds) = true).
  { cbn [forallb]. rewrite Hc, Hds. reflexivity. }
  pose proof (digits_to_Z_positive c ds Hc Hz Hds) as HD.
  unfold format_repr.
  destruct ((decpt <=? -4) || (16 <? decpt)) eqn:Hexp.
  { destruct (exponent_repr_value (decpt - 1)) as (eneg & ed & E & Ok & V).
    destruct ds as [ | d ds].
    - exists [c], [], (Some (eneg, ed)).
      split; [cbn [fraction_text app]; rewrite <- E; reflexivity | ].
      split; [exact Hc | ]. split; [reflexivity | ]. split; [exact Ok | ].
      split; [exact HD | ].
      apply same_decimal_eq; [reflexivity | ].
      rewrite V. cbn [List.length]. lia.
    - exists [c], (d :: ds), (Some (eneg, ed)).
      split.
      { cbn [fraction_text app]. rewrite <- E. reflexivity. }
      split; [exact Hc | ]. split; [exact Hds | ]. split; [exact Ok | ].
      split; [exact HD | ].
      apply same_decimal_eq; [reflexivity | ].
      rewrite V. cbn [List.length]. lia. }
  destruct (decpt <=? 0) eqn:Hle.
  { apply Z.leb_le in Hle.
    exists ["0"%char], (zeros (- decpt) ++ c :: ds), None.
    assert (NE : zeros (- decpt) ++ c :: ds <> []).
    { intros E. apply app_eq_nil in E. destruct E as [_ E]. discriminate E. }
    assert (V : digits_to_Z (["0"%char] ++ zeros (- decpt) ++ c :: ds)
                = digits_to_Z (c :: ds)).
    { rewrite (digits_to_Z_leading_zeros 1). unfold zeros.
      apply digits_to_Z_leading_zeros. }
    split.
    { cbn [exponent_text]. rewrite app_nil_r.
      destruct (zeros (- decpt) ++ c :: ds) eqn:E; [contradiction | ].
      reflexivity. }
    split; [reflexivity | ].
    split; [rewrite forallb_app, zeros_digits, Hall; reflexivity | ].
    split; [reflexivity | ].
    split; [rewrite V; exact HD | ].
    apply same_decimal_eq; [exact V | ].
    cbn [exponent_value]. rewrite length_app. unfold zeros.
    rewrite repeat_length. lia. }
  apply Z.leb_gt in Hle.
  destruct (decpt <? Z.of_nat (List.length (c :: ds))) eqn:Hlt.
  { apply Z.ltb_lt in Hlt.
    assert (K : exists k, Z.to_nat decpt = S k /\ (k < List.length ds)%nat).
    { exists (Z.to_nat decpt - 1)%nat. cbn [List.length] in Hlt. lia. }
    destruct K as (k & Ek & Hk). rewrite Ek. cbn [firstn skipn].
    exists (c :: firstn k ds), (skipn k ds), None.
    assert (NE : skipn k ds <> []).
    { intros E. apply (f_equal (@List.length ascii)) in E.
      rewrite length_skipn in E. cbn [List.length] in E. lia. }
    assert (V : (c :: firstn k ds) ++ skipn k ds = c :: ds).
    { cbn [app]. rewrite firstn_skipn. reflexivity. }
    split.
    { cbn [exponent_text]. rewrite app_nil_r.
      destruct (skipn k ds) eqn:E; [contradiction | reflexivity]. }
    destruct (forallb_firstn_skipn is_digit k ds Hds) as [Hf Hs].
    split; [apply integer_text_digits; assumption | ].
    split; [exact Hs | ].
    split; [reflexivity | ].
    split; [rewrite V; exact HD | ].
    apply same_decimal_eq; [rewrite V; reflexivity | ].
    cbn [exponent_value List.length]. rewrite length_skipn. lia. }
  apply Z.ltb_ge in Hlt.
  set (z := decpt - Z.of_nat (List.length (c :: ds))) in *.
  exists (c :: ds ++ zeros z), ["0"%char], None.
  assert (V : digits_to_Z ((c :: ds ++ zeros z) ++ ["0"%char])
              = digits_to_Z (c :: ds) * 10 ^ (z + 1)).
  { change (c :: ds ++ zeros z) with ((c :: ds) ++ zeros z).
    rewrite <- app_assoc. unfold zeros.
    change (repeat "0"%char (Z.to_nat z) ++ ["0"%char])
      with (repeat "0"%char (Z.to_nat z) ++ repeat "0"%char 1).
    rewrite <- repeat_app, digits_to_Z_trailing_zeros.
    f_equal. f_equal. lia. }
  split.
  { cbn [fraction_text exponent_text app]. rewrite <- app_assoc. reflexivity. }
  split.
  { apply integer_text_digits; auto.
    rewrite forallb_app, Hds, zeros_digits. reflexivity. }
  split; [reflexivity | ]. split; [reflexivity | ].
  assert (P : 0 < 10 ^ (z + 1)) by (apply Z.pow_pos_nonneg; lia).
  split; [rewrite V; nia | ].
  rewrite V. unfold same_decimal. cbn [exponent_value List.length].
  change (0 - Z.of_nat 1) with (-1).
  change (Z.max 0 (-1)) with 0. change (Z.max 0 (- -1)) with 1.
  rewrite (Z.max_l 0 (- z)), (Z.max_r 0 z) by lia.
  rewrite Z.pow_add_r by lia. rewrite !Z.pow_0_r, Z.pow_1_r. ring.
Qed.

Lemma is_zero_char_eq (c : ascii) : is_zero_char c = true -> c = "0"%char.
Proof.
  unfold is_zero_char, code. intros H. apply Nat.eqb_eq in H.
  rewrite <- (ascii_nat_embedding c), H. reflexivity.
Qed.

Lemma drop_zeros_split (l : list ascii) :
  exists k, l = repeat "0"%char k ++ drop_zeros l.
Proof.
  induction l as [ | a l IH]; [exists 0%nat; reflexivity | ].
  cbn [drop_zeros]. destruct (is_zero_char a) eqn:Z.
  - destruct IH as [k IH]. exists (S k). cbn [repeat app].
    rewrite (is_zero_char_eq a Z), <- IH. reflexivity.
  - exists 0%nat. reflexivity.
Qed.

(** Digits that start with another digit than zero, with the zeros at
    their end dropped: the start is kept, and the value is the same up to
    a power of ten. *)
Lemma strip_trailing_zeros_value (c : ascii) (ds : list ascii) :
  is_zero_char c = false -> forallb is_digit ds = true ->
  exists ds' z,
    strip_trailing_zeros (c :: ds) = c :: ds'
    /\ forallb is_digit ds' = true
    /\ List.length ds = (List.length ds' + z)%nat
    /\ digits_to_Z (c :: ds) = digits_to_Z (c :: ds') * 10 ^ Z.of_nat z.
Proof.
  intros Hc Hds.
  destruct (strip_trailing_zeros_head c ds Hc Hds) as (ds' & E & D).
  unfold strip_trailing_zeros in E.
  destruct (drop_zeros_split (rev (c :: ds))) as [z Ez].
  apply (f_equal (@rev ascii)) in Ez.
  rewrite rev_involutive, rev_app_distr, E in Ez.
  assert (R : rev (repeat "0"%char z) = repeat "0"%char z).
  { clear. induction z as [ | z IH]; [reflexivity | ].
    cbn [repeat rev]. rewrite IH.
    change ("0"%char :: repeat "0"%char z) with (repeat "0"%char (S z)).
    rewrite <- repeat_cons. reflexivity. }
  rewrite R in Ez.
  exists ds', z. split; [exact E | ]. split; [exact D | ].
  split.
  - apply (f_equal (@List.length ascii)) in Ez.
    cbn [app List.length] in Ez. rewrite length_app, repeat_length in Ez. lia.
  - rewrite Ez. apply digits_to_Z_trailing_zeros.
Qed.

Lemma float_eqb_refl (f : float64) : float_eqb f f = true.
Proof.
  destruct f as [s | s | | s m e]; cbn [float_eqb];
    rewrite ?Bool.eqb_reflx, ?Pos.eqb_refl, ?Z.eqb_refl; reflexivity.
Qed.

(** The [repr] of a binary64 number reads back as that number. *)
Lemma finite_float_reads_back (s : bool) (m : positive) (e : Z) :
  bounded prec emax m e = true ->
  float_reads_back (S754_finite s m e) = true.
Proof.
  intros Hb. cbn [float_reads_back float_repr].
  pose proof (shortest_decimal_pos s m e) as Hd.
  pose proof (shortest_decimal_reads_back s m e Hb) as Hrb.
  destruct (shortest_decimal s m e) as [d q]. cbn [fst snd] in Hd, Hrb.
  destruct (Z_digits_pos d Hd) as (c & ds & E & V & D & NZ).
  rewrite E. cbn [forallb] in D. apply andb_true_iff in D.
  destruct D as [Dc Dds].
  destruct (strip_trailing_zeros_value c ds NZ Dds)
    as (ds' & z & -> & Dds' & Hlen & Vz).
  destruct (format_repr_decimal c ds' (Z.of_nat (List.length (c :: ds)) + q)
              Dc NZ Dds')
    as (ip & fd & ex & -> & Hip & Hfd & Hex & Hpos & Hsame).
  rewrite (float_of_string_text s ip fd ex Hip Hfd Hex).
  pose proof (digits_to_Z_positive c ds' Dc NZ Dds') as HD.
  rewrite (float_of_decimal_same s _ _ _ _ Hpos HD Hsame).
  rewrite (float_of_decimal_same s _ _ d q HD Hd).
  - rewrite Hrb. apply float_eqb_refl.
  - unfold same_decimal. rewrite <- V, Vz.
    cbn [List.length]. rewrite Hlen.
    set (D := digits_to_Z (c :: ds')).
    set (a := Z.of_nat (S (List.length ds' + z)) + q
              - Z.of_nat (S (List.length ds'))).
    assert (Ea : a = q + Z.of_nat z) by (unfold a; lia).
    rewrite <- !Z.mul_assoc. f_equal.
    rewrite <- !Z.pow_add_r by lia. f_equal. lia.
Qed.

Lemma valid_floats_read_back (v : pyval) :
  floats_valid v = true -> floats_read_back v = true.
Proof.
  induction v as [ | b | n | f | s | l IH | d IH] using pyval_induction;
    try reflexivity.
  - cbn [floats_valid floats_read_back].
    destruct f as [s | s | | s m e]; try reflexivity.
    cbn [valid_binary]. apply finite_float_reads_back.
  - cbn [floats_valid floats_read_back]. intros H.
    apply forallb_forall. intros x Hx. rewrite forallb_forall in H.
    rewrite Forall_forall in IH. apply (IH x Hx), (H x Hx).
  - cbn [floats_valid floats_read_back]. intros H.
    apply forallb_forall. intros [k x] Hx. rewrite forallb_forall in H.
    rewrite Forall_forall in IH. apply (IH (k, x) Hx), (H (k, x) Hx).
Qed.

(** ** The floats that the conversions make are binary64 numbers *)

Lemma rne_int_bounds (a b : Z) : a / b <= rne_int a b <= a / b + 1.
Proof. unfold rne_int. apply round_nearest_even_bounds. Qed.

Lemma pow2_gt_mono (t n j j' : Z) :
  0 < t -> 0 <= n -> j <= j' -> pow2_gt t n j -> pow2_gt t n j'.
Proof.
  intros Ht Hn Hj G.
  set (K := Z.abs j + Z.abs j' + 1).
  replace j with ((j + K) - K) in G by ring.
  apply (proj1 (pow2_gt_iff t n (j + K) K ltac:(lia) ltac:(lia))) in G.
  replace j' with ((j' + K) - K) by ring.
  apply pow2_gt_iff; [lia | lia | ].
  assert (2 ^ (j + K) <= 2 ^ (j' + K)) by (apply Z.pow_le_mono_r; lia).
  nia.
Qed.

(** A rounded mantissa within the precision ends as a binary64 number. *)
Lemma finish_round_valid (sx : bool) (m1 c : Z) :
  emin prec emax <= c -> 0 <= m1 <= 2 ^ 53 ->
  (emin prec emax < c -> 2 ^ 52 <= m1) ->
  valid_binary prec emax (finish_round sx m1 c) = true.
Proof.
  intros Hc Hm Hn. unfold finish_round.
  destruct m1 as [ | p | p]; [ | | lia].
  - unfold shr_fexp, shr. cbn [Zdigits2 shr_record_of_loc].
    assert (fexp prec emax (0 + c) - c <= 0)
      by (unfold fexp, emin, prec, emax in *; lia).
    destruct (fexp prec emax (0 + c) - c); try lia; reflexivity.
  - destruct (shr_fexp_m p c loc_Exact) as [E2 M2].
    pose proof (digits_bounds p) as [D1 D2].
    set (dp := Zpos (digits2_pos p)) in *.
    destruct (shr_fexp prec emax (Zpos p) c loc_Exact) as [r2 e2].
    cbn [fst snd] in E2, M2.
    assert (P53 : 2 ^ 53 = 2 * 2 ^ 52) by reflexivity.
    assert (P52 : 0 < 2 ^ 52) by reflexivity.
    assert (Hdp : dp <= 54).
    { destruct (Z.le_gt_cases dp 54) as [ | G]; [assumption | exfalso].
      assert (2 ^ 54 <= 2 ^ (dp - 1)) by (apply Z.pow_le_mono_r; lia).
      assert (2 ^ 54 = 4 * 2 ^ 52) by reflexivity. lia. }
    destruct (Z.eq_dec (Zpos p) (2 ^ 53)) as [Ep | Np].
    + (* rounding has carried: one more step to the right *)
      assert (dp = 54).
      { apply digits_unique. change (54 - 1) with 53.
        assert (2 ^ 54 = 4 * 2 ^ 52) by reflexivity. lia. }
      assert (K : Z.max 0 (fexp prec emax (dp + c) - c) = 1)
        by (unfold fexp, emin, prec, emax in *; lia).
      rewrite K in E2, M2. rewrite Ep in M2.
      change (2 ^ 53 / 2 ^ 1) with (2 ^ 52) in M2. rewrite M2.
      change (2 ^ 52) with (Zpos (2 ^ 52)).
      destruct (e2 <=? emax - prec) eqn:Le; [ | reflexivity].
      cbn [valid_binary]. unfold bounded, canonical_mantissa.
      rewrite Le, andb_true_r. apply Z.eqb_eq.
      change (Zpos (digits2_pos (2 ^ 52))) with 53.
      unfold fexp, emin, prec, emax in *. lia.
    + assert (dp <= 53).
      { destruct (Z.le_gt_cases dp 53) as [ | G]; [assumption | exfalso].
        assert (2 ^ 53 <= 2 ^ (dp - 1)) by (apply Z.pow_le_mono_r; lia).
        lia. }
      assert (Hdn : emin prec emax < c -> dp = 53).
      { intros Hlt. specialize (Hn Hlt).
        destruct (Z.le_gt_cases 53 dp) as [ | G]; [lia | exfalso].
        assert (2 ^ dp <= 2 ^ 52) by (apply Z.pow_le_mono_r; lia). lia. }
      assert (K : Z.max 0 (fexp prec emax (dp + c) - c) = 0)
        by (unfold fexp, emin, prec, emax in *; lia).
      rewrite K in E2, M2. rewrite Z.pow_0_r, Z.div_1_r in M2.
      rewrite M2. rewrite Z.add_0_r in E2. subst e2.
      destruct (c <=? emax - prec) eqn:Le; [ | reflexivity].
      cbn [valid_binary]. unfold bounded, canonical_mantissa.
      rewrite Le, andb_true_r. apply Z.eqb_eq. fold dp.
      destruct (Z.eq_dec c (emin prec emax)) as [Ec | Nc].
      * unfold fexp, emin, prec, emax in *. lia.
      * assert (dp = 53) by (apply Hdn; lia).
        unfold fexp, emin, prec, emax in *. lia.
Qed.

Lemma round_fraction_valid (sx : bool) (N T : positive) (d : Z) :
  magnitude (Zpos N) (Zpos T) d ->
  valid_binary prec emax (round_fraction sx (Zpos N) (Zpos T) d) = true.
Proof.
  intros [ML MG]. unfold round_fraction.
  set (c := fexp prec emax d).
  assert (Hc : emin prec emax <= c) by (unfold c, fexp; lia).
  set (A := Zpos N * 2 ^ Z.max 0 (- c)).
  set (B := Zpos T * 2 ^ Z.max 0 c).
  pose proof (pow2_pos c). pose proof (pow2_pos (- c)).
  assert (HA : 0 <= A) by (unfold A; nia).
  assert (HB : 0 < B) by (unfold B; nia).
  pose proof (rne_int_bounds A B) as [R1 R2].
  assert (Q0 : 0 <= A / B) by (apply Z.div_pos; lia).
  apply finish_round_valid; [exact Hc | | ].
  - split; [lia | ].
    assert (G : pow2_gt (Zpos T) (Zpos N) (c + 53)).
    { apply (pow2_gt_mono _ _ d); [lia | lia | | exact MG].
      unfold c, fexp, prec. lia. }
    replace (c + 53) with ((Z.max 0 c + 53) - Z.max 0 (- c)) in G by lia.
    apply (proj1 (pow2_gt_iff _ _ (Z.max 0 c + 53) (Z.max 0 (- c))
                    ltac:(lia) ltac:(lia))) in G.
    rewrite Z.pow_add_r in G by lia.
    assert (A / B < 2 ^ 53).
    { apply Z.div_lt_upper_bound; [exact HB | ]. unfold A, B. nia. }
    lia.
  - intros Hlt.
    assert (Ec : c + 52 = d - 1) by (unfold c, fexp, emin, prec, emax in *; lia).
    rewrite <- Ec in ML.
    replace (c + 52) with ((Z.max 0 c + 52) - Z.max 0 (- c)) in ML by lia.
    apply (proj1 (pow2_le_iff _ _ (Z.max 0 c + 52) (Z.max 0 (- c))
                    ltac:(lia) ltac:(lia))) in ML.
    rewrite Z.pow_add_r in ML by lia.
    assert (2 ^ 52 <= A / B).
    { apply Z.div_le_lower_bound; [exact HB | ]. unfold A, B. nia. }
    lia.
Qed.

Lemma float_of_decimal_valid (s : bool) (M E : Z) :
  0 <= M -> valid_binary prec emax (float_of_decimal s M E) = true.
Proof.
  intros HM. destruct (Z.eq_dec M 0) as [-> | NM]; [reflexivity | ].
  pose proof (pow10_pos E). pose proof (pow10_pos (- E)).
  assert (PN : 0 < M * 10 ^ Z.max 0 E) by (apply Z.mul_pos_pos; lia).
  destruct (M * 10 ^ Z.max 0 E) as [ | N | N] eqn:EN; try lia.
  destruct (10 ^ Z.max 0 (- E)) as [ | T | T] eqn:ET; try lia.
  destruct (magnitude_exists N T) as [d Hd].
  rewrite (float_of_decimal_fraction s M E d ltac:(lia))
    by (rewrite EN, ET; exact Hd).
  rewrite EN, ET. apply round_fraction_valid, Hd.
Qed.

Lemma float_of_Z_valid (n : Z) : valid_binary prec emax (float_of_Z n) = true.
Proof.
  unfold float_of_Z, binary_normalize.
  destruct n as [ | p | p]; [reflexivity | | ];
    rewrite binary_round_fraction;
    apply round_fraction_valid, magnitude_integer.
Qed.

Lemma parse_decimal_nonneg (l : list ascii) (neg : bool) (m e : Z) :
  parse_decimal l = Some (neg, m, e) -> 0 <= m.
Proof.
  unfold parse_decimal.
  destruct (read_sign l) as [sg s1].
  destruct (span_digits s1) as [ip s2] eqn:E1.
  assert (Dip : forallb is_digit ip = true).
  { clear - E1. revert ip s2 E1. induction s1 as [ | c s1 IH]; intros ip s2 E.
    - injection E as <- <-. reflexivity.
    - cbn [span_digits] in E. destruct (is_digit c) eqn:Hc.
      + destruct (span_digits s1) as [ds r]. injection E as <- <-.
        cbn [forallb]. rewrite Hc. apply (IH ds r eq_refl).
      + injection E as <- <-. reflexivity. }
  assert (Sp : forall t fp s3, span_digits t = (fp, s3) ->
            forallb is_digit fp = true).
  { clear. intros t. induction t as [ | c t IH]; intros fp s3 E.
    - injection E as <- <-. reflexivity.
    - cbn [span_digits] in E. destruct (is_digit c) eqn:Hc.
      + destruct (span_digits t) as [ds r]. injection E as <- <-.
        cbn [forallb]. rewrite Hc. apply (IH ds r eq_refl).
      + injection E as <- <-. reflexivity. }
  destruct (match s2 with
            | "."%char :: t => span_digits t
            | _ => ([], s2)
            end) as [fp s3] eqn:E2.
  assert (Dfp : forallb is_digit fp = true).
  { destruct s2 as [ | c2 t2]; [injection E2 as <- <-; reflexivity | ].
    destruct (Ascii.eqb_spec c2 "."%char) as [-> | N].
    - apply (Sp t2 fp s3 E2).
    - assert (fp = []).
      { destruct c2 as [[] [] [] [] [] [] [] []];
          first [ contradiction N; reflexivity
                | injection E2 as <- _; reflexivity ]. }
      subst fp. reflexivity. }
  assert (V : 0 <= digits_to_Z (ip ++ fp)).
  { apply digits_to_Z_nonneg. rewrite forallb_app, Dip, Dfp. reflexivity. }
  destruct (ip ++ fp) as [ | c0 l0]; [discriminate | ].
  destruct s3 as [ | c3 t3].
  - intros [= _ <- _]. exact V.
  - destruct (is_e c3); [ | discriminate].
    destruct (read_sign t3) as [eneg t1].
    destruct (span_digits t1) as [[ | d ed] [ | r rs]]; try discriminate.
    intros [= _ <- _]. exact V.
Qed.

Lemma float_from_string_inner_valid (l : list ascii) (f : float64) :
  float_from_string_inner l = Some f -> valid_binary prec emax f = true.
Proof.
  unfold float_from_string_inner.
  destruct (parse_decimal (strip_spaces l)) as [[[neg m] e] | ] eqn:E.
  - intros [= <-]. apply float_of_decimal_valid.
    apply (parse_decimal_nonneg _ _ _ _ E).
  - unfold parse_inf_or_nan. destruct (read_sign (strip_spaces l)) as [neg s1].
    destruct (_ || _); [intros [= <-]; reflexivity | ].
    destruct (eqb_nocase s1 "nan"); [intros [= <-]; reflexivity | discriminate].
Qed.

Lemma float_of_string_valid (s : string) (f : float64) :
  float_of_string s = Some f -> valid_binary prec emax f = true.
Proof.
  unfold float_of_string.
  destruct (existsb is_underscore _).
  - destruct (strip_underscores None _) as [b | ]; [ | discriminate].
    apply float_from_string_inner_valid.
  - apply float_from_string_inner_valid.
Qed.

(** [float] makes a binary64 number of every value. *)
Lemma py_float_valid (x : pyval) (f : float64) :
  floats_valid x = true -> py_float x = Ok f ->
  valid_binary prec emax f = true.
Proof.
  intros Hx. destruct x as [ | b | n | g | s | l | d]; cbn [py_float];
    try discriminate.
  - intros [= <-]. apply float_of_Z_valid.
  - pose proof (float_of_Z_valid n) as V.
    destruct (float_of_Z n); try discriminate; intros [= <-]; exact V.
  - intros [= <-]. exact Hx.
  - destruct (float_of_string s) as [g | ] eqn:E; [ | discriminate].
    intros [= <-]. apply (float_of_string_valid s g E).
Qed.

Lemma floats_valid_converted (k : conv_kind) (x v : pyval) :
  floats_valid x = true -> convert k x = Ok v -> floats_valid v = true.
Proof.
  intros Hx. destruct k; cbn [convert].
  - rewrite safe_float_eq. intros [= <-].
    destruct x; try reflexivity;
      destruct (py_float _) as [fl | ex] eqn:E; try reflexivity;
      apply (py_float_valid _ fl Hx E).
  - rewrite safe_int_eq. intros [= <-].
    destruct x; try reflexivity;
      destruct (py_float _) as [fl | ex]; try reflexivity;
      destruct (py_round fl); reflexivity.
Qed.

Lemma floats_valid_lookup (d : list (string * pyval)) (k : string) (v : pyval) :
  floats_valid (PDict d) = true -> lookup k d = Some v ->
  floats_valid v = true.
Proof.
  cbn [floats_valid]. intros H.
  induction d as [ | [k' x] d IH]; [discriminate | ].
  cbn [forallb] in H. apply andb_true_iff in H. destruct H as [Hx Hd].
  cbn [lookup]. destruct (String.eqb k k').
  - intros [= <-]. exact Hx.
  - apply IH. exact Hd.
Qed.

Lemma floats_valid_get (x : pyval) (k : string) (dflt v : pyval) :
  floats_valid x = true -> floats_valid dflt = true ->
  py_get x k dflt = Ok v -> floats_valid v = true.
Proof.
  intros Hx Hd. destruct x as [ | | | | | | d]; try discriminate.
  cbn [py_get]. unfold get_or. intros [= <-].
  destruct (lookup k d) as [v | ] eqn:E; [ | exact Hd].
  apply (floats_valid_lookup d k v Hx E).
Qed.

Lemma floats_valid_section (x : pyval) (k : string) (v : pyval) :
  floats_valid x = true -> get_section x k = Ok v -> floats_valid v = true.
Proof.
  intros Hx H. unfold get_section in H. inv_bind H. injection H as <-.
  unfold py_or. destruct (truthy a); [ | reflexivity].
  apply (floats_valid_get x k (PDict []) a Hx eq_refl E).
Qed.

Lemma floats_valid_array (x : pyval) (k : string) (v : pyval) :
  floats_valid x = true -> get_array x k = Ok v -> floats_valid v = true.
Proof.
  intros Hx H. unfold get_array in H. inv_bind H. injection H as <-.
  unfold py_or. destruct (truthy a); [ | reflexivity].
  apply (floats_valid_get x k (PList []) a Hx eq_refl E).
Qed.

Lemma floats_valid_item (x : pyval) (i : nat) (v : pyval) :
  floats_valid x = true -> py_getitem x i = Ok v -> floats_valid v = true.
Proof.
  intros Hx. destruct x as [ | | | | s | l | d]; try discriminate.
  - cbn [py_getitem]. destruct (String.get i s); [ | discriminate].
    intros [= <-]. reflexivity.
  - cbn [py_getitem]. destruct (nth_error l i) as [y | ] eqn:E; [ | discriminate].
    intros [= <-]. cbn [floats_valid] in Hx. rewrite forallb_forall in Hx.
    apply Hx. apply (nth_error_In _ _ E).
Qed.

Lemma floats_valid_bounded (k : conv_kind) (arr : pyval) (i : nat) (v : pyval) :
  floats_valid arr = true -> bounded_item (convert k) arr i = Ok v ->
  floats_valid v = true.
Proof.
  intros Ha H. destruct (bounded_item_Ok k arr i v H) as (n & _ & Out & In & _).
  destruct (Nat.lt_ge_cases i n) as [Hi | Hi].
  - destruct (In Hi) as (x & Hx & Hc).
    apply (floats_valid_converted k x v); [ | exact Hc].
    apply (floats_valid_item arr i x Ha Hx).
  - rewrite (Out Hi). reflexivity.
Qed.

Lemma floats_valid_current (raw cur : pyval) :
  floats_valid raw = true -> current_section raw = Ok cur ->
  floats_valid cur = true.
Proof.
  intros Hraw. unfold current_section, current_record, current_item. intros H.
  inv_bind H. injection H as <-.
  pose proof (floats_valid_section _ _ _ Hraw E) as Hs.
  repeat match goal with
         | Hc : bind _ _ = Ok _ |- _ => inv_bind Hc
         end.
  cbn [floats_valid forallb].
  repeat match goal with
         | Hg : py_get a ?k PNone = Ok ?x, Hc : _safe_float ?x = Ok ?v |- _ =>
             rewrite (floats_valid_converted AsFloat x v
                        (floats_valid_get a k PNone x Hs eq_refl Hg) Hc);
             clear Hc
         | Hg : py_get a ?k PNone = Ok ?x, Hc : _safe_int ?x = Ok ?v |- _ =>
             rewrite (floats_valid_converted AsInt x v
                        (floats_valid_get a k PNone x Hs eq_refl Hg) Hc);
             clear Hc
         end.
  reflexivity.
Qed.

Lemma floats_valid_hourly (raw : pyval) (hs : list pyval) :
  floats_valid raw = true -> hourly_section raw = Ok hs ->
  forallb floats_valid hs = true.
Proof.
  intros Hraw H. unfold hourly_section in H. inv_bind H.
  pose proof (floats_valid_section _ _ _ Hraw E) as Hs.
  apply forallb_forall. apply Forall_forall.
  apply (mapM_Forall _ (fun r => floats_valid r = true) _ _) in H;
    [exact H | ].
  intros i r _ Hr.
  destruct (hourly_record_Ok _ _ _ _ _ _ _ _ _ _ Hr)
    as (t & v1 & v2 & v3 & v4 & v5 & v6 & v7 & -> & Ht
        & H1 & H2 & H3 & H4 & H5 & H6 & H7).
  cbn [floats_valid forallb].
  rewrite (floats_valid_bounded _ _ _ _ (floats_valid_array _ _ _ Hs E1) H1),
    (floats_valid_bounded _ _ _ _ (floats_valid_array _ _ _ Hs E2) H2),
    (floats_valid_bounded _ _ _ _ (floats_valid_array _ _ _ Hs E3) H3),
    (floats_valid_bounded _ _ _ _ (floats_valid_array _ _ _ Hs E4) H4),
    (floats_valid_bounded _ _ _ _ (floats_valid_array _ _ _ Hs E5) H5),
    (floats_valid_bounded _ _ _ _ (floats_valid_array _ _ _ Hs E6) H6),
    (floats_valid_bounded _ _ _ _ (floats_valid_array _ _ _ Hs E7) H7).
  rewrite (floats_valid_item _ _ _ (floats_valid_array _ _ _ Hs E0) Ht).
  reflexivity.
Qed.

Lemma floats_valid_daily (raw : pyval) (ds : list pyval) :
  floats_valid raw = true -> daily_section raw = Ok ds ->
  forallb floats_valid ds = true.
Proof.
  intros Hraw H. unfold daily_section in H. inv_bind H.
  pose proof (floats_valid_section _ _ _ Hraw E) as Hs.
  apply forallb_forall. apply Forall_forall.
  apply (mapM_Forall _ (fun r => floats_valid r = true) _ _) in H;
    [exact H | ].
  intros i r _ Hr.
  destruct (daily_record_Ok _ _ _ _ _ _ _ Hr)
    as (t & v1 & v2 & v3 & v4 & -> & Ht & H1 & H2 & H3 & H4).
  cbn [floats_valid forallb].
  rewrite (floats_valid_bounded _ _ _ _ (floats_valid_array _ _ _ Hs E1) H1),
    (floats_valid_bounded _ _ _ _ (floats_valid_array _ _ _ Hs E2) H2),
    (floats_valid_bounded _ _ _ _ (floats_valid_array _ _ _ Hs E4) H3),
    (floats_valid_bounded _ _ _ _ (floats_valid_array _ _ _ Hs E3) H4).
  rewrite (floats_valid_item _ _ _ (floats_valid_array _ _ _ Hs E0) Ht).
  reflexivity.
Qed.

(** ** The written file reads back *)

Lemma document_reads_back (doc : pyval) :
  floats_valid doc = true -> keys_distinct doc = true ->
  json_loads (json_dumps doc) = Ok doc.
Proof.
  intros Hv Hk. pose proof (valid_floats_read_back doc Hv) as Hf.
  unfold json_loads, json_dumps.
  rewrite list_ascii_of_string_of_list_ascii.
  pose proof (value_reads_back doc Hf Hk 0%nat []
                (S (List.length (encode 0 doc))) eq_refl ltac:(lia)) as R.
  pose proof (skip_ws_encode 0 doc []) as Sk.
  rewrite app_nil_r in R, Sk. rewrite Sk, R. reflexivity.
Qed.

Lemma build_json_well_formed
  (utcnow : datetime) (raw place_name lat lon tz doc : pyval) :
  floats_valid raw = true -> keys_distinct raw = true ->
  floats_valid place_name = true -> keys_distinct place_name = true ->
  floats_valid lat = true -> keys_distinct lat = true ->
  floats_valid lon = true -> keys_distinct lon = true ->
  floats_valid tz = true -> keys_distinct tz = true ->
  build_json utcnow raw place_name lat lon tz = Ok doc ->
  floats_valid doc = true /\ keys_distinct doc = true.
Proof.
  intros Fr Kr Fp Kp Fla Kla Flo Klo Ftz Ktz H.
  destruct (build_json_Ok _ _ _ _ _ _ _ H) as (cur & hs & ds & -> & Hc & Hh & Hd).
  unfold meta_record. split.
  - cbn [floats_valid forallb].
    rewrite Fp, Fla, Flo, Ftz, (floats_valid_current raw cur Fr Hc),
      (floats_valid_hourly raw hs Fr Hh), (floats_valid_daily raw ds Fr Hd).
    reflexivity.
  - cbn [keys_distinct map fst distinct forallb].
    rewrite Kp, Kla, Klo, Ktz, (keys_distinct_current raw cur Hc),
      (keys_distinct_hourly raw hs Kr Hh), (keys_distinct_daily raw ds Kr Hd).
    reflexivity.
Qed.

(** The text that [json.dump] writes for a document is read back by
    [json.loads] as the same document, when the finite floats of the
    document are binary64 numbers, no dict of it has a key twice and no
    integer of it has more than 4300 digits (beyond them the library
    refuses to write or to read the integer).  The text of a float is its
    [repr], and [float] reads the [repr] of every binary64 number back as
    that number. *)
Theorem written_document_reads_back (doc : pyval) :
  floats_valid doc = true -> keys_distinct doc = true ->
  ints_bounded doc = true ->
  json_loads (json_dumps doc) = Ok doc
  /\ forall f, valid_binary prec emax f = true ->
       float_of_string (string_of_list_ascii (float_repr f)) = Some f.
Proof.
  intros Hv Hk _. split; [apply document_reads_back; assumption | ].
  intros f Hf. destruct f as [s | s | | s m e].
  - destruct s; reflexivity.
  - destruct s; reflexivity.
  - reflexivity.
  - pose proof (finite_float_reads_back s m e Hf) as R.
    cbn [float_reads_back] in R.
    destruct (float_of_string _) as [g | ]; [ | discriminate R].
    apply float_eqb_eq in R. rewrite R. reflexivity.
Qed.

Lemma written_document_reads_back_witness :
  json_loads (json_dumps sample_document) = Ok sample_document
  /\ forall f, valid_binary prec emax f = true ->
       float_of_string (string_of_list_ascii (float_repr f)) = Some f.
Proof.
  apply (written_document_reads_back sample_document); reflexivity.
Defined.

(** A float written as a string, in the form that [repr] gives it, is
    coerced to exactly that float: [_safe_float] returns the float itself
    for every binary64 number, the infinities and [nan] included. *)
Theorem repr_strings_are_coerced_exactly (f : float64) :
  valid_binary prec emax f = true ->
  _safe_float (PStr (string_of_list_ascii (float_repr f))) = Ok (PFloat f)
  /\ _safe_int (PStr (string_of_list_ascii (float_repr f)))
     = _safe_int (PFloat f).
Proof.
  intros Hf.
  assert (E : py_float (PStr (string_of_list_ascii (float_repr f))) = Ok f).
  { cbn [py_float]. destruct f as [s | s | | s m e].
    - destruct s; reflexivity.
    - destruct s; reflexivity.
    - reflexivity.
    - pose proof (finite_float_reads_back s m e Hf) as R.
      cbn [float_reads_back] in R.
      destruct (float_of_string _) as [g | ]; [ | discriminate R].
      apply float_eqb_eq in R. rewrite R. reflexivity. }
  split.
  - rewrite safe_float_eq, E. reflexivity.
  - rewrite !safe_int_eq, E. reflexivity.
Qed.

Lemma repr_strings_are_coerced_exactly_witness :
  _safe_float (PStr (string_of_list_ascii (float_repr f21_3)))
  = Ok (PFloat f21_3)
  /\ _safe_int (PStr (string_of_list_ascii (float_repr f21_3)))
     = _safe_int (PFloat f21_3).
Proof.
  apply (repr_strings_are_coerced_exactly f21_3). reflexivity.
Defined.

(** Every finite float of the document is a binary64 number, when those of
    the raw response and of the arguments are: the floats that the
    coercions make of integers and of strings are rounded into the
    format. *)
Theorem build_json_keeps_floats_valid
  (utcnow : datetime) (raw place_name lat lon tz doc : pyval) :
  floats_valid raw = true ->
  floats_valid place_name = true -> floats_valid lat = true ->
  floats_valid lon = true -> floats_valid tz = true ->
  build_json utcnow raw place_name lat lon tz = Ok doc ->
  floats_valid doc = true
  /\ (forall x v, floats_valid x = true -> _safe_float x = Ok v ->
      floats_valid v = true).
Proof.
  intros Fr Fp Fla Flo Ftz H. split.
  - destruct (build_json_Ok _ _ _ _ _ _ _ H)
      as (cur & hs & ds & -> & Hc & Hh & Hd).
    unfold meta_record. cbn [floats_valid forallb].
    rewrite Fp, Fla, Flo, Ftz, (floats_valid_current raw cur Fr Hc),
      (floats_valid_hourly raw hs Fr Hh), (floats_valid_daily raw ds Fr Hd).
    reflexivity.
  - intros x v Hx Hc. apply (floats_valid_converted AsFloat x v Hx Hc).
Qed.

Lemma build_json_keeps_floats_valid_witness :
  floats_valid sample_document = true
  /\ (forall x v, floats_valid x = true -> _safe_float x = Ok v ->
      floats_valid v = true).
Proof.
  apply (build_json_keeps_floats_valid
           sample_clock sample_raw PLACE_NAME LAT LON TIMEZONE sample_document);
    reflexivity.
Defined.

(** After a run of [main] in which the fetch, the normaliser, the opening
    and the write succeed, [weather.json] holds a text that [json.loads]
    reads back as the very document that [build_json] returned, when the
    finite floats of the raw response are binary64 numbers and no dict of
    it has a key twice (as in every response that a JSON parser has
    made). *)
Theorem written_file_reads_back
  (env : environment) (w : world) (raw doc : pyval) :
  floats_valid raw = true -> keys_distinct raw = true ->
  fetch_open_meteo env LAT LON TIMEZONE = Ok raw ->
  build_json (clock env) raw PLACE_NAME LAT LON TIMEZONE = Ok doc ->
  open_error env = None -> write_error env = None ->
  exists text,
    files (fst (main env w)) OUTFILE = Some text
    /\ json_loads text = Ok doc.
Proof.
  intros Fr Kr Hfetch Hbuild Hopen Hwrite.
  destruct (build_json_well_formed (clock env) raw
              PLACE_NAME LAT LON TIMEZONE doc Fr Kr
              eq_refl eq_refl eq_refl eq_refl eq_refl eq_refl eq_refl eq_refl
              Hbuild) as [Fd Kd].
  exists (json_dumps doc). split; [ | apply document_reads_back; assumption].
  unfold main, main_try, write_outfile.
  rewrite Hfetch, Hbuild, Hopen, Hwrite. reflexivity.
Qed.

Lemma written_file_reads_back_witness :
  exists text,
    files (fst (main env_ok empty_world)) OUTFILE = Some text
    /\ json_loads text = Ok sample_document.
Proof.
  apply (written_file_reads_back env_ok empty_world sample_raw sample_document);
    reflexivity.
Defined.


(** ** The arithmetic of floats rounds the exact result *)

Lemma pow2_transfer (X Y a b a' b' : Z) :
  0 <= a -> 0 <= b -> 0 <= a' -> 0 <= b' ->
  a + b' = a' + b -> X * 2 ^ a = Y * 2 ^ b -> X * 2 ^ a' = Y * 2 ^ b'.
Proof.
  intros Ha Hb Ha' Hb' E H.
  assert (Pb : 0 < 2 ^ b) by (apply Z.pow_pos_nonneg; lia).
  apply (Z.mul_cancel_r _ _ (2 ^ b)); [lia | ].
  rewrite <- !Z.mul_assoc, <- !Z.pow_add_r by lia.
  replace (a' + b) with (a + b') by lia.
  replace (b' + b) with (b + b') by lia.
  rewrite !Z.pow_add_r by lia. rewrite !Z.mul_assoc, H. reflexivity.
Qed.

(** Rounding an integer at an exponent. *)
Lemma binary_round_scaled (sx : bool) (p : positive) (e : Z) :
  binary_round prec emax sx p e
  = round_scaled sx (Zpos p) 1 e (Zpos (digits2_pos p)).
Proof.
  unfold binary_round, round_scaled.
  set (d := Zpos (digits2_pos p)).
  set (c := fexp prec emax (d + e)). unfold shl_align.
  destruct (c - e) as [ | k | k] eqn:E.
  - rewrite (binary_round_aux_fraction sx (Zpos p) 1 (Zpos p) e loc_Exact)
      by (apply holds_integer; lia).
    cbn [Zdigits2]. fold d. fold c.
    apply finish_round_eq.
    + replace (Z.max 0 (e - c)) with 0 by lia. rewrite Z.pow_0_r. lia.
    + do 2 f_equal. lia.
    + lia.
  - rewrite (binary_round_aux_fraction sx (Zpos p) 1 (Zpos p) e loc_Exact)
      by (apply holds_integer; lia).
    cbn [Zdigits2]. fold d. fold c.
    apply finish_round_eq.
    + replace (Z.max 0 (e - c)) with 0 by lia. rewrite Z.pow_0_r. lia.
    + do 2 f_equal. lia.
    + lia.
  - rewrite shl_pos_iter.
    rewrite (binary_round_aux_fraction sx
               (Zpos (shl p (Pos.to_nat k))) 1
               (Zpos (shl p (Pos.to_nat k))) c loc_Exact)
      by (apply holds_integer; lia).
    cbn [Zdigits2]. rewrite shl_digits, shl_value, positive_nat_Z. fold d.
    replace (d + Zpos k + c) with (d + e) by lia. fold c.
    apply finish_round_eq.
    + do 2 f_equal. lia.
    + do 2 f_equal. lia.
    + lia.
Qed.

(** The quotient of two integers at the exponents [e1] and [e2]. *)
Lemma div_round_scaled (sx : bool) (N T : positive) (e1 e2 d0 : Z) :
  magnitude (Zpos N) (Zpos T) d0 ->
  (let '(q, e', l) := SFdiv_core_binary prec emax (Zpos N) e1 (Zpos T) e2 in
   binary_round_aux prec emax sx q e' l)
  = round_scaled sx (Zpos N) (Zpos T) (e1 - e2) d0.
Proof.
  intros [ML MG]. unfold SFdiv_core_binary. cbn [Zdigits2].
  pose proof (digits_bounds N) as [N1 N2].
  pose proof (digits_bounds T) as [T1 T2].
  set (d1 := Zpos (digits2_pos N)) in *. set (d2 := Zpos (digits2_pos T)) in *.
  set (k := e1 - e2).
  set (e' := Z.min (fexp prec emax (d1 + e1 - (d2 + e2))) k).
  set (c := fexp prec emax (d0 + k)).
  (* the quotient is not above the magnitude *)
  assert (Hd : d1 - d2 <= d0).
  { set (K := Z.abs d0 + d1 + d2 + 1).
    replace d0 with ((d0 + K) - K) in MG by ring.
    apply (proj1 (pow2_gt_iff _ _ (d0 + K) K ltac:(lia) ltac:(lia))) in MG.
    assert (P : 2 ^ (d1 - 1) * 2 ^ K < 2 ^ d2 * 2 ^ (d0 + K)).
    { assert (0 < 2 ^ K) by (apply Z.pow_pos_nonneg; lia).
      assert (0 < 2 ^ (d0 + K)) by (apply Z.pow_pos_nonneg; lia). nia. }
    rewrite <- !Z.pow_add_r in P by lia.
    apply Z.pow_lt_mono_r_iff in P; lia. }
  assert (Hec : e' <= c).
  { unfold e', c.
    pose proof (fexp_monotone (d1 + e1 - (d2 + e2)) (d0 + k)
                  ltac:(unfold k; lia)). lia. }
  set (s := k - e').
  assert (Hs : 0 <= s) by (unfold s, e'; lia).
  assert (Em : match s with
               | Zpos _ => Z.shiftl (Zpos N) s
               | Z0 => Zpos N
               | Zneg _ => 0
               end = Zpos N * 2 ^ s).
  { destruct s as [ | j | j] eqn:Es; [lia | | lia].
    rewrite Z.shiftl_mul_pow2 by lia. reflexivity. }
  rewrite Em, div_eucl_div_mod.
  assert (Ps : 0 < 2 ^ s) by (apply Z.pow_pos_nonneg; lia).
  set (a := Zpos N * 2 ^ s) in *.
  pose proof (Z.div_mod a (Zpos T) ltac:(lia)) as Ed.
  pose proof (Z.mod_pos_bound a (Zpos T) ltac:(lia)) as Hr.
  assert (Hq : 0 <= a / Zpos T) by (apply Z.div_pos; lia).
  rewrite (binary_round_aux_fraction sx a (Zpos T)).
  2: { split; [lia | ]. split; [lia | ].
       destruct (loc_of_record_of_loc (a / Zpos T)
                   (new_location (Zpos T) (a mod Zpos T))) as [-> ->].
       split; [reflexivity | apply new_location_frac; lia]. }
  unfold round_scaled. fold c.
  set (n := Z.max 0 (fexp prec emax (Zdigits2 (a / Zpos T) + e') - e')).
  assert (Key : e' + n = c).
  { destruct (a / Zpos T) as [ | qp | qp] eqn:Eq; [ | | lia].
    - (* the quotient is zero: the number is below [2 ^ e'] *)
      assert (Hde : d0 + k <= e').
      { set (K := Z.abs d0 + s + 1).
        replace (d0 - 1) with ((d0 - 1 + K) - K) in ML by ring.
        apply (proj1 (pow2_le_iff _ _ (d0 - 1 + K) K ltac:(lia) ltac:(lia)))
          in ML.
        assert (P : Zpos T * 2 ^ (d0 - 1 + K) < Zpos T * 2 ^ (K - s)).
        { replace (2 ^ K) with (2 ^ s * 2 ^ (K - s)) in ML
            by (rewrite <- Z.pow_add_r by lia; f_equal; lia).
          assert (0 < 2 ^ (K - s)) by (apply Z.pow_pos_nonneg; lia).
          nia. }
        apply Z.mul_lt_mono_pos_l in P; [ | lia].
        apply Z.pow_lt_mono_r_iff in P; unfold s in *; lia. }
      unfold n, c. cbn [Zdigits2]. unfold fexp, emin, prec, emax in *. lia.
    - (* the digits of the quotient give the magnitude *)
      pose proof (digits_bounds qp) as [Q1 Q2].
      set (dq := Zpos (digits2_pos qp)) in *.
      assert (M : magnitude (Zpos N) (Zpos T) (dq - s)).
      { split.
        - replace (dq - s - 1) with ((dq - 1) - s) by ring.
          apply pow2_le_iff; [lia | lia | ]. fold a. nia.
        - apply pow2_gt_iff; [lia | lia | ]. fold a. nia. }
      assert (dq - s = d0).
      { apply (magnitude_unique (Zpos N) (Zpos T)); [lia | exact M | ].
        split; assumption. }
      unfold n. cbn [Zdigits2]. fold dq.
      replace (dq + e') with (d0 + k) by (unfold s in *; lia).
      fold c. lia. }
  rewrite Key. f_equal.
  apply rne_int_same_fraction.
  - apply Z.mul_pos_pos; [lia | apply Z.pow_pos_nonneg; unfold n; lia].
  - apply Z.mul_pos_pos; [lia | apply pow2_pos].
  - unfold a.
    assert (P : 2 ^ s * 2 ^ Z.max 0 (c - k) = 2 ^ Z.max 0 (k - c) * 2 ^ n).
    { rewrite <- !Z.pow_add_r by (unfold n; lia). f_equal. unfold s. lia. }
    nia.
Qed.

(** Rounding at an exponent is rounding the number as a fraction. *)
Lemma round_scaled_fraction (sx : bool) (n t k d0 N T : Z) :
  0 < t -> 0 < T ->
  n * 2 ^ Z.max 0 k * T = N * (t * 2 ^ Z.max 0 (- k)) ->
  round_scaled sx n t k d0 = round_fraction sx N T (d0 + k).
Proof.
  intros Ht HT E. unfold round_scaled, round_fraction.
  set (c := fexp prec emax (d0 + k)). f_equal.
  apply rne_int_same_fraction.
  - apply Z.mul_pos_pos; [exact Ht | apply pow2_pos].
  - apply Z.mul_pos_pos; [exact HT | apply pow2_pos].
  - replace (n * 2 ^ Z.max 0 (k - c) * (T * 2 ^ Z.max 0 c))
      with ((n * T) * 2 ^ (Z.max 0 (k - c) + Z.max 0 c))
      by (rewrite Z.pow_add_r by lia; ring).
    replace (N * 2 ^ Z.max 0 (- c) * (t * 2 ^ Z.max 0 (c - k)))
      with ((N * t) * 2 ^ (Z.max 0 (- c) + Z.max 0 (c - k)))
      by (rewrite Z.pow_add_r by lia; ring).
    apply (pow2_transfer _ _ (Z.max 0 k) (Z.max 0 (- k))); lia.
Qed.

(** The magnitude of a number at an exponent. *)
Lemma magnitude_scaled (n t k d0 N T : Z) :
  0 < t -> 0 < T ->
  n * 2 ^ Z.max 0 k * T = N * (t * 2 ^ Z.max 0 (- k)) ->
  magnitude n t d0 -> magnitude N T (d0 + k).
Proof.
  intros Ht HT E [L G].
  set (K := Z.abs d0 + Z.abs k + 1).
  set (a := Z.max 0 k) in *. set (b := Z.max 0 (- k)) in *.
  assert (Pa : 0 < 2 ^ a) by (apply Z.pow_pos_nonneg; lia).
  assert (Pb : 0 < 2 ^ b) by (apply Z.pow_pos_nonneg; lia).
  assert (PK : 0 < 2 ^ K) by (apply Z.pow_pos_nonneg; lia).
  replace (d0 - 1) with ((d0 - 1 + K) - K) in L by ring.
  apply (proj1 (pow2_le_iff _ _ (d0 - 1 + K) K ltac:(lia) ltac:(lia))) in L.
  replace d0 with ((d0 + K) - K) in G by ring.
  apply (proj1 (pow2_gt_iff _ _ (d0 + K) K ltac:(lia) ltac:(lia))) in G.
  split.
  - replace (d0 + k - 1) with ((d0 - 1 + K + a) - (b + K)) by lia.
    apply pow2_le_iff; [lia | lia | ].
    rewrite (Z.pow_add_r 2 (d0 - 1 + K) a), (Z.pow_add_r 2 b K) by lia.
    apply (Z.mul_le_mono_pos_l _ _ t Ht).
    replace (t * (N * (2 ^ b * 2 ^ K))) with ((N * (t * 2 ^ b)) * 2 ^ K)
      by ring.
    rewrite <- E.
    replace (t * (T * (2 ^ (d0 - 1 + K) * 2 ^ a)))
      with ((T * 2 ^ a) * (t * 2 ^ (d0 - 1 + K))) by ring.
    replace (n * 2 ^ a * T * 2 ^ K) with ((T * 2 ^ a) * (n * 2 ^ K)) by ring.
    apply Z.mul_le_mono_nonneg_l; [ | exact L].
    apply Z.lt_le_incl, Z.mul_pos_pos; assumption.
  - replace (d0 + k) with ((d0 + K + a) - (b + K)) at 1 by lia.
    apply pow2_gt_iff; [lia | lia | ].
    rewrite (Z.pow_add_r 2 (d0 + K) a), (Z.pow_add_r 2 b K) by lia.
    apply (Z.mul_lt_mono_pos_l t _ _ Ht).
    replace (t * (N * (2 ^ b * 2 ^ K))) with ((N * (t * 2 ^ b)) * 2 ^ K)
      by ring.
    rewrite <- E.
    replace (t * (T * (2 ^ (d0 + K) * 2 ^ a)))
      with ((T * 2 ^ a) * (t * 2 ^ (d0 + K))) by ring.
    replace (n * 2 ^ a * T * 2 ^ K) with ((T * 2 ^ a) * (n * 2 ^ K)) by ring.
    apply Z.mul_lt_mono_pos_l; [ | exact G].
    apply Z.mul_pos_pos; assumption.
Qed.

(** Rounding an exact mantissa that is not below its place. *)
Lemma round_aux_scaled (sx : bool) (p : positive) (k : Z) :
  k <= fexp prec emax (Zpos (digits2_pos p) + k) ->
  binary_round_aux prec emax sx (Zpos p) k loc_Exact
  = round_scaled sx (Zpos p) 1 k (Zpos (digits2_pos p)).
Proof.
  intros Hk.
  rewrite (binary_round_aux_fraction sx (Zpos p) 1 (Zpos p) k loc_Exact)
    by (apply holds_integer; lia).
  cbn [Zdigits2]. unfold round_scaled.
  set (c := fexp prec emax (Zpos (digits2_pos p) + k)) in *.
  apply finish_round_eq.
  - replace (Z.max 0 (k - c)) with 0 by lia. rewrite Z.pow_0_r. lia.
  - do 2 f_equal; lia.
  - lia.
Qed.

(** The digits of a product. *)
Lemma digits_mul (p q : positive) :
  Zpos (digits2_pos p) + Zpos (digits2_pos q) - 1
  <= Zpos (digits2_pos (p * q)).
Proof.
  pose proof (digits_bounds p) as [P1 P2].
  pose proof (digits_bounds q) as [Q1 Q2].
  pose proof (digits_bounds (p * q)) as [R1 R2].
  set (dp := Zpos (digits2_pos p)) in *. set (dq := Zpos (digits2_pos q)) in *.
  set (dr := Zpos (digits2_pos (p * q))) in *.
  assert (0 < dp) by (unfold dp; lia). assert (0 < dq) by (unfold dq; lia).
  assert (0 < dr) by (unfold dr; lia).
  assert (A : 2 ^ (dp - 1) * 2 ^ (dq - 1) <= Zpos p * Zpos q).
  { apply Z.mul_le_mono_nonneg; try lia; apply Z.pow_nonneg; lia. }
  rewrite <- Z.pow_add_r in A by lia.
  rewrite Pos2Z.inj_mul in R2.
  assert (B : 2 ^ (dp - 1 + (dq - 1)) < 2 ^ dr) by lia.
  apply Z.pow_lt_mono_r_iff in B; lia.
Qed.

(** The product of two binary64 mantissas is not below its place. *)
Lemma product_place (mx my : positive) (ex ey : Z) :
  bounded prec emax mx ex = true -> bounded prec emax my ey = true ->
  ex + ey <= fexp prec emax (Zpos (digits2_pos (mx * my)) + (ex + ey)).
Proof.
  intros Bx By.
  apply andb_true_iff in Bx. destruct Bx as [Cx _].
  apply andb_true_iff in By. destruct By as [Cy _].
  unfold canonical_mantissa in Cx, Cy.
  apply Z.eqb_eq in Cx. apply Z.eqb_eq in Cy.
  pose proof (digits_mul mx my).
  assert (0 < Zpos (digits2_pos mx)) by lia.
  assert (0 < Zpos (digits2_pos my)) by lia.
  unfold fexp, emin, prec, emax in *. lia.
Qed.

(** *** The nearest float of a fraction *)

Lemma nearest_float_valid (sx : bool) (N T : positive) (f : float64) :
  nearest_float sx N T f -> valid_binary prec emax f = true.
Proof. intros (d & M & ->). apply round_fraction_valid, M. Qed.

Lemma nearest_float_unique (sx : bool) (N T N' T' : positive)
    (f g : float64) :
  Zpos N * Zpos T' = Zpos N' * Zpos T ->
  nearest_float sx N T f -> nearest_float sx N' T' g -> f = g.
Proof.
  intros E (d & M & ->) (d' & M' & ->).
  pose proof (magnitude_same_fraction (Zpos N) (Zpos T) (Zpos N') (Zpos T') d
                ltac:(lia) ltac:(lia) E M) as M2.
  rewrite (magnitude_unique (Zpos N') (Zpos T') d' d ltac:(lia) M' M2).
  apply round_fraction_same; [lia | lia | exact E].
Qed.

Lemma nearest_float_integer (sx : bool) (p : positive) :
  nearest_float sx p 1 (binary_round prec emax sx p 0).
Proof.
  exists (Zpos (digits2_pos p)). split; [apply magnitude_integer | ].
  apply binary_round_fraction.
Qed.

Lemma nearest_float_scaled (sx : bool) (n t : positive) (k d0 : Z)
    (N T : positive) :
  Zpos n * 2 ^ Z.max 0 k * Zpos T = Zpos N * (Zpos t * 2 ^ Z.max 0 (- k)) ->
  magnitude (Zpos n) (Zpos t) d0 ->
  nearest_float sx N T (round_scaled sx (Zpos n) (Zpos t) k d0).
Proof.
  intros E M. exists (d0 + k). split.
  - apply (magnitude_scaled (Zpos n) (Zpos t) k d0); [lia | lia | exact E
                                                     | exact M].
  - apply round_scaled_fraction; [lia | lia | exact E].
Qed.

(** The product of two finite floats is the float nearest to the product of
    the numbers. *)
Lemma mul_nearest (sx sy : bool) (mx my : positive) (ex ey : Z)
    (N T : positive) :
  bounded prec emax mx ex = true -> bounded prec emax my ey = true ->
  Zpos mx * Zpos my * 2 ^ Z.max 0 (ex + ey) * Zpos T
  = Zpos N * 2 ^ Z.max 0 (- (ex + ey)) ->
  nearest_float (xorb sx sy) N T
    (SFmul prec emax (S754_finite sx mx ex) (S754_finite sy my ey)).
Proof.
  intros Bx By E. cbn [SFmul].
  rewrite round_aux_scaled by (apply product_place; assumption).
  apply nearest_float_scaled; [ | apply magnitude_integer].
  rewrite Pos2Z.inj_mul. lia.
Qed.

(** The quotient of two finite floats is the float nearest to the quotient
    of the numbers. *)
Lemma div_nearest (sx sy : bool) (mx my : positive) (ex ey : Z)
    (N T : positive) :
  Zpos mx * 2 ^ Z.max 0 (ex - ey) * Zpos T
  = Zpos N * (Zpos my * 2 ^ Z.max 0 (- (ex - ey))) ->
  nearest_float (xorb sx sy) N T
    (SFdiv prec emax (S754_finite sx mx ex) (S754_finite sy my ey)).
Proof.
  intros E. cbn [SFdiv].
  destruct (magnitude_exists mx my) as [d0 M].
  rewrite (div_round_scaled (xorb sx sy) mx my ex ey d0 M).
  apply nearest_float_scaled; [exact E | exact M].
Qed.

(** An integer at an exponent, put in form, is the float nearest to it. *)
Lemma normalize_nearest (s : bool) (p : positive) (e : Z) (N T : positive) :
  Zpos p * 2 ^ Z.max 0 e * Zpos T = Zpos N * 2 ^ Z.max 0 (- e) ->
  nearest_float s N T (binary_round prec emax s p e).
Proof.
  intros E. rewrite binary_round_scaled.
  apply nearest_float_scaled; [ | apply magnitude_integer]. lia.
Qed.

(** *** The arithmetic keeps binary64 numbers *)

Lemma pow2_positive (j : Z) : exists q : positive, Zpos q = 2 ^ Z.max 0 j.
Proof.
  pose proof (pow2_pos j) as P.
  destruct (2 ^ Z.max 0 j) as [ | q | q]; [lia | | lia].
  exists q. reflexivity.
Qed.

Lemma binary_round_valid (s : bool) (p : positive) (e : Z) :
  valid_binary prec emax (binary_round prec emax s p e) = true.
Proof.
  destruct (pow2_positive e) as [q1 E1].
  destruct (pow2_positive (- e)) as [q2 E2].
  apply (nearest_float_valid s (p * q1) q2), normalize_nearest.
  rewrite Pos2Z.inj_mul, E1, E2. reflexivity.
Qed.

Lemma SFdiv_valid (x y : float64) :
  valid_binary prec emax (SFdiv prec emax x y) = true.
Proof.
  destruct x as [sx | sx | | sx mx ex], y as [sy | sy | | sy my ey];
    try reflexivity.
  destruct (pow2_positive (ex - ey)) as [q1 E1].
  destruct (pow2_positive (- (ex - ey))) as [q2 E2].
  apply (nearest_float_valid (xorb sx sy) (mx * q1) (my * q2)).
  apply div_nearest.
  rewrite !Pos2Z.inj_mul, E1, E2. ring.
Qed.

Lemma SFadd_valid (x y : float64) :
  valid_binary prec emax x = true -> valid_binary prec emax y = true ->
  valid_binary prec emax (SFadd prec emax x y) = true.
Proof.
  intros Vx Vy.
  destruct x as [sx | sx | | sx mx ex], y as [sy | sy | | sy my ey];
    try reflexivity; try assumption.
  - destruct sx, sy; reflexivity.
  - destruct sx, sy; reflexivity.
  - cbn [SFadd]. unfold binary_normalize.
    destruct (cond_Zopp sx (Zpos (fst (shl_align mx ex (Z.min ex ey))))
              + cond_Zopp sy (Zpos (fst (shl_align my ey (Z.min ex ey)))))
      as [ | p | p]; [reflexivity | | ]; apply binary_round_valid.
Qed.

(** *** Whole numbers in floats *)

(** The float of a whole number of fewer than 54 binary digits. *)
Lemma integer_float_form (s : bool) (p : positive) :
  Zpos p < 2 ^ 53 ->
  exists m e,
    binary_round prec emax s p 0 = S754_finite s m e
    /\ bounded prec emax m e = true
    /\ e <= 0 /\ Zpos m = Zpos p * 2 ^ (- e).
Proof.
  intros Hp. destruct (small_integer_float s p Hp) as (m & e & E & He & Hm).
  exists m, e. split; [exact E | ]. split; [ | split; assumption].
  pose proof (binary_round_valid s p 0) as V. rewrite E in V. exact V.
Qed.

Lemma float_of_signed (s : bool) (p : positive) :
  float_of_Z (cond_Zopp s (Zpos p)) = binary_round prec emax s p 0.
Proof. destruct s; reflexivity. Qed.

(** The product of two whole numbers is rounded once. *)
Lemma mul_integer_floats (s s' : bool) (p q : positive) :
  Zpos p < 2 ^ 53 -> Zpos q < 2 ^ 53 ->
  SFmul prec emax (binary_round prec emax s p 0)
    (binary_round prec emax s' q 0)
  = binary_round prec emax (xorb s s') (p * q) 0.
Proof.
  intros Hp Hq.
  destruct (integer_float_form s p Hp) as (mx & ex & -> & Bx & Hex & Hmx).
  destruct (integer_float_form s' q Hq) as (my & ey & -> & By & Hey & Hmy).
  apply (nearest_float_unique (xorb s s') (p * q) 1 (p * q) 1);
    [reflexivity | | apply nearest_float_integer].
  apply mul_nearest; [exact Bx | exact By | ].
  rewrite (Z.max_l 0 (ex + ey)), (Z.max_r 0 (- (ex + ey))) by lia.
  replace (- (ex + ey)) with (- ex + - ey) by ring.
  rewrite Z.pow_add_r, Pos2Z.inj_mul, Hmx, Hmy by lia. ring.
Qed.

(** A quotient of whole numbers that is whole is exact. *)
Lemma div_integer_floats (s s' : bool) (q r : positive) :
  Zpos (q * r) < 2 ^ 53 ->
  SFdiv prec emax (binary_round prec emax s (q * r) 0)
    (binary_round prec emax s' q 0)
  = binary_round prec emax (xorb s s') r 0.
Proof.
  intros Hp.
  assert (Hq : Zpos q < 2 ^ 53) by (rewrite Pos2Z.inj_mul in Hp; nia).
  destruct (integer_float_form s (q * r) Hp)
    as (mx & ex & -> & Bx & Hex & Hmx).
  destruct (integer_float_form s' q Hq) as (my & ey & -> & By & Hey & Hmy).
  apply (nearest_float_unique (xorb s s') r 1 r 1);
    [reflexivity | | apply nearest_float_integer].
  apply div_nearest. rewrite Hmx, Hmy, Pos2Z.inj_mul.
  destruct (Z.le_gt_cases ey ex) as [L | G].
  - rewrite (Z.max_r 0 (ex - ey)), (Z.max_l 0 (- (ex - ey))) by lia.
    replace (- ey) with (- ex + (ex - ey)) by ring.
    rewrite Z.pow_add_r by lia. ring.
  - rewrite (Z.max_l 0 (ex - ey)), (Z.max_r 0 (- (ex - ey))) by lia.
    replace (- ex) with (- ey + - (ex - ey)) by ring.
    rewrite Z.pow_add_r by lia. ring.
Qed.

Lemma shl_align_value (m : positive) (e e' : Z) :
  e' <= e -> Zpos (fst (shl_align m e e')) = Zpos m * 2 ^ (e - e').
Proof.
  intros H. unfold shl_align.
  destruct (e' - e) as [ | k | k] eqn:E; cbn [fst].
  - replace (e - e') with 0 by lia. rewrite Z.pow_0_r. lia.
  - lia.
  - rewrite shl_pos_iter, shl_value, positive_nat_Z. do 2 f_equal. lia.
Qed.

Lemma cond_Zopp_mul (s : bool) (a b : Z) :
  cond_Zopp s (a * b) = cond_Zopp s a * b.
Proof. destruct s; cbn [cond_Zopp]; ring. Qed.

(** The sum of two whole numbers is rounded once. *)
Lemma add_integer_floats (s s' : bool) (p q : positive) :
  Zpos p < 2 ^ 53 -> Zpos q < 2 ^ 53 ->
  SFadd prec emax (binary_round prec emax s p 0)
    (binary_round prec emax s' q 0)
  = float_of_Z (cond_Zopp s (Zpos p) + cond_Zopp s' (Zpos q)).
Proof.
  intros Hp Hq.
  destruct (integer_float_form s p Hp) as (mx & ex & -> & Bx & Hex & Hmx).
  destruct (integer_float_form s' q Hq) as (my & ey & -> & By & Hey & Hmy).
  cbn [SFadd]. set (ez := Z.min ex ey).
  rewrite !shl_align_value by (unfold ez; lia).
  rewrite Hmx, Hmy.
  set (z := cond_Zopp s (Zpos p) + cond_Zopp s' (Zpos q)).
  assert (Pz : 0 < 2 ^ (- ez)) by (apply Z.pow_pos_nonneg; unfold ez; lia).
  assert (E : cond_Zopp s (Zpos p * 2 ^ (- ex) * 2 ^ (ex - ez))
              + cond_Zopp s' (Zpos q * 2 ^ (- ey) * 2 ^ (ey - ez))
              = z * 2 ^ (- ez)).
  { rewrite <- !Z.mul_assoc, <- !Z.pow_add_r by (unfold ez; lia).
    replace (- ex + (ex - ez)) with (- ez) by ring.
    replace (- ey + (ey - ez)) with (- ez) by ring.
    rewrite !cond_Zopp_mul. unfold z. ring. }
  rewrite E. unfold float_of_Z, binary_normalize.
  destruct z as [ | r | r] eqn:Ez.
  - reflexivity.
  - destruct (Zpos r * 2 ^ (- ez)) as [ | P | P] eqn:EP; try lia.
    apply (nearest_float_unique false r 1 r 1);
      [reflexivity | | apply nearest_float_integer].
    apply normalize_nearest.
    rewrite (Z.max_l 0 ez), (Z.max_r 0 (- ez)) by (unfold ez; lia).
    rewrite <- EP, Z.pow_0_r. ring.
  - destruct (Zneg r * 2 ^ (- ez)) as [ | P | P] eqn:EP; try lia.
    apply (nearest_float_unique true r 1 r 1);
      [reflexivity | | apply nearest_float_integer].
    apply normalize_nearest.
    rewrite (Z.max_l 0 ez), (Z.max_r 0 (- ez)) by (unfold ez; lia).
    rewrite Z.pow_0_r.
    replace (Zpos P) with (- Zneg P) by reflexivity.
    rewrite <- EP. replace (Zneg r) with (- Zpos r) by reflexivity. ring.
Qed.

(** The conversion of a whole number of degrees that five divides. *)
Lemma c_to_f_float_exact (k : Z) :
  Z.abs (45 * k) < 2 ^ 53 ->
  SFadd prec emax
    (SFdiv prec emax (SFmul prec emax (float_of_Z (5 * k)) nine) five)
    thirty_two
  = float_of_Z (9 * k + 32).
Proof.
  intros H. destruct k as [ | r | r].
  - reflexivity.
  - change (5 * Zpos r) with (cond_Zopp false (Zpos (5 * r))).
    rewrite float_of_signed.
    change nine with (binary_round prec emax false 9 0).
    change five with (binary_round prec emax false 5 0).
    change thirty_two with (binary_round prec emax false 32 0).
    rewrite mul_integer_floats by lia.
    replace (5 * r * 9)%positive with (5 * (r * 9))%positive by lia.
    rewrite div_integer_floats by lia.
    rewrite add_integer_floats by lia.
    f_equal. cbn [cond_Zopp xorb]. lia.
  - change (5 * Zneg r) with (cond_Zopp true (Zpos (5 * r))).
    rewrite float_of_signed.
    change nine with (binary_round prec emax false 9 0).
    change five with (binary_round prec emax false 5 0).
    change thirty_two with (binary_round prec emax false 32 0).
    rewrite mul_integer_floats by lia.
    replace (5 * r * 9)%positive with (5 * (r * 9))%positive by lia.
    rewrite div_integer_floats by lia.
    rewrite add_integer_floats by lia.
    f_equal. cbn [cond_Zopp xorb]. lia.
Qed.

(** *** The conversion to Fahrenheit *)

Lemma c_to_f_float (f : float64) :
  exists g,
    _c_to_f (PFloat f) = Ok (PFloat g) /\ valid_binary prec emax g = true.
Proof.
  eexists. split; [reflexivity | ].
  apply SFadd_valid; [apply SFdiv_valid | reflexivity].
Qed.

Lemma py_float_small_integer (n : Z) :
  Z.abs n < 2 ^ 53 -> py_float (PInt n) = Ok (float_of_Z n).
Proof.
  intros H. cbn [py_float].
  destruct n as [ | p | p]; [reflexivity | | ].
  - change (float_of_Z (Zpos p)) with (binary_round prec emax false p 0).
    destruct (integer_float_form false p ltac:(lia)) as (m & e & -> & _).
    reflexivity.
  - change (float_of_Z (Zneg p)) with (binary_round prec emax true p 0).
    destruct (integer_float_form true p ltac:(lia)) as (m & e & -> & _).
    reflexivity.
Qed.

Lemma py_float_huge_integer (n : Z) :
  2 ^ 1024 <= Z.abs n -> py_float (PInt n) = Raise OverflowError.
Proof.
  intros H. cbn [py_float].
  destruct n as [ | p | p]; [cbn in H; lia | | ].
  - change (float_of_Z (Zpos p)) with (binary_round prec emax false p 0).
    rewrite binary_round_overflow by lia. reflexivity.
  - change (float_of_Z (Zneg p)) with (binary_round prec emax true p 0).
    rewrite binary_round_overflow by lia. reflexivity.
Qed.

(** On a whole number of degrees Celsius that five divides, [_c_to_f] is
    exact while nine times the number has fewer than 54 binary digits: the
    result is the float of the whole number [9 * c / 5 + 32], for the
    integer [c] and for the float of [c] alike. The product with [9.0], the
    quotient by [5.0] and the sum with [32.0] are each the float nearest to
    the exact result, and here each exact result is a whole number that
    the format holds (the sum is rounded once where it has 54 digits). *)
Theorem c_to_f_exact_on_fives (c : Z) :
  c mod 5 = 0 -> Z.abs (9 * c) < 2 ^ 53 ->
  _c_to_f (PInt c) = Ok (PFloat (float_of_Z (9 * c / 5 + 32)))
  /\ _c_to_f (PFloat (float_of_Z c))
     = Ok (PFloat (float_of_Z (9 * c / 5 + 32))).
Proof.
  intros H5 Hc.
  assert (Ek : c = 5 * (c / 5)) by (apply Z_div_exact_full_2; [lia | exact H5]).
  set (k := c / 5) in *.
  assert (E9 : 9 * c / 5 = 9 * k).
  { rewrite Ek. replace (9 * (5 * k)) with (9 * k * 5) by ring.
    apply Z.div_mul. lia. }
  rewrite E9.
  assert (Hk : Z.abs (45 * k) < 2 ^ 53)
    by (replace (45 * k) with (9 * c) by lia; exact Hc).
  pose proof (c_to_f_float_exact k Hk) as X. rewrite <- Ek in X.
  split.
  - unfold _c_to_f. cbn [py_mul_float].
    rewrite (py_float_small_integer c) by lia.
    cbn [bind]. rewrite X. reflexivity.
  - unfold _c_to_f. cbn [py_mul_float bind]. rewrite X. reflexivity.
Qed.

Lemma c_to_f_exact_on_fives_witness :
  _c_to_f (PInt (-40)) = Ok (PFloat (float_of_Z (9 * -40 / 5 + 32)))
  /\ _c_to_f (PFloat (float_of_Z (-40)))
     = Ok (PFloat (float_of_Z (9 * -40 / 5 + 32))).
Proof.
  apply (c_to_f_exact_on_fives (-40)); reflexivity.
Defined.

(** What [_c_to_f] does with each kind of value. [None], a string, a list
    and a dict have no product with [9.0]: [TypeError]. A float and a
    boolean are converted, and the result is a binary64 number whatever the
    float was (an infinity and a nan pass through the three operations).
    An integer is converted like its float when it has one, always below
    [2 ^ 53] in size; at [2 ^ 1024] and beyond it has none, and the product
    raises [OverflowError]. *)
Theorem c_to_f_outcomes (c : pyval) :
  match c with
  | PNone | PStr _ | PList _ | PDict _ => _c_to_f c = Raise TypeError
  | PBool _ | PFloat _ =>
      exists g,
        _c_to_f c = Ok (PFloat g) /\ valid_binary prec emax g = true
  | PInt n =>
      (exists g,
         _c_to_f c = Ok (PFloat g) /\ valid_binary prec emax g = true
         /\ _c_to_f (PFloat (float_of_Z n)) = Ok (PFloat g)
         /\ Z.abs n < 2 ^ 1024)
      \/ (_c_to_f c = Raise OverflowError /\ 2 ^ 53 <= Z.abs n)
  end.
Proof.
  destruct c as [ | b | n | f | s | l | d]; try reflexivity.
  - apply (c_to_f_float (float_of_Z (if b then 1 else 0))).
  - destruct (py_float (PInt n)) as [f | e] eqn:E.
    + left.
      assert (Ef : f = float_of_Z n).
      { cbn [py_float] in E. destruct (float_of_Z n); congruence. }
      subst f.
      destruct (c_to_f_float (float_of_Z n)) as (g & Hg & Vg).
      exists g. split; [ | split; [exact Vg | split; [exact Hg | ]]].
      * unfold _c_to_f. cbn [py_mul_float]. rewrite E. exact Hg.
      * destruct (Z.lt_ge_cases (Z.abs n) (2 ^ 1024)) as [ | G];
          [assumption | ].
        rewrite (py_float_huge_integer n G) in E. discriminate E.
    + right.
      assert (Ee : e = OverflowError).
      { cbn [py_float] in E. destruct (float_of_Z n); congruence. }
      subst e. split.
      * unfold _c_to_f. cbn [py_mul_float]. rewrite E. reflexivity.
      * destruct (Z.lt_ge_cases (Z.abs n) (2 ^ 53)) as [L | ];
          [ | assumption].
        rewrite (py_float_small_integer n L) in E. discriminate E.
  - apply c_to_f_float.
Qed.

(** ** The document read back, and Python's [==] *)

(** *** No integer of the document is too long to be written *)

(** A string of digits that does not start with a zero is at least a power
    of ten. *)
Lemma digits_to_Z_lower (c : ascii) (ds : list ascii) :
  is_digit c = true -> is_zero_char c = false ->
  forallb is_digit ds = true ->
  10 ^ Z.of_nat (List.length ds) <= digits_to_Z (c :: ds).
Proof.
  intros Hc Hz Hds. change (c :: ds) with ([c] ++ ds).
  rewrite digits_to_Z_app, digits_to_Z_one.
  pose proof (digits_to_Z_nonneg ds Hds).
  assert (1 <= digit_val c).
  { pose proof (digits_to_Z_positive c [] Hc Hz eq_refl) as P.
    rewrite digits_to_Z_one in P. lia. }
  assert (0 < 10 ^ Z.of_nat (List.length ds))
    by (apply Z.pow_pos_nonneg; lia).
  nia.
Qed.

Lemma Z_digits_length (n : Z) (k : nat) :
  0 <= n < 10 ^ Z.of_nat k -> (1 <= k)%nat ->
  (List.length (Z_digits n) <= k)%nat.
Proof.
  intros [H0 Hn] Hk. destruct (Z.eq_dec n 0) as [-> | Nz].
  - rewrite Z_digits_zero. cbn [List.length]. lia.
  - destruct (Z_digits_pos n ltac:(lia)) as (c & ds & -> & V & D & Zc).
    cbn [forallb] in D. apply andb_true_iff in D. destruct D as [Dc Dds].
    pose proof (digits_to_Z_lower c ds Dc Zc Dds) as L. rewrite V in L.
    cbn [List.length].
    destruct (Nat.lt_ge_cases (List.length ds) k) as [ | G]; [lia | exfalso].
    assert (10 ^ Z.of_nat k <= 10 ^ Z.of_nat (List.length ds))
      by (apply Z.pow_le_mono_r; lia).
    lia.
Qed.

(** The integer that [round] makes of a binary64 number is below
    [2 ^ 1024] in size. *)
Lemma round_magnitude_bound (m : positive) (e : Z) :
  bounded prec emax m e = true ->
  0 <= round_magnitude (Zpos m) e <= 2 ^ 1024.
Proof.
  intros B. apply andb_true_iff in B. destruct B as [C Le].
  unfold canonical_mantissa in C. apply Z.eqb_eq in C. apply Z.leb_le in Le.
  pose proof (digits_bounds m) as [D1 D2].
  set (dm := Zpos (digits2_pos m)) in *.
  assert (Hdm : dm <= 53) by (unfold fexp, emin, prec, emax in *; lia).
  assert (Hm : Zpos m < 2 ^ 53).
  { assert (2 ^ dm <= 2 ^ 53) by (apply Z.pow_le_mono_r; lia). lia. }
  pose proof (round_magnitude_nearest (Zpos m) e ltac:(lia)) as [N _].
  set (r := round_magnitude (Zpos m) e) in *.
  destruct (Z.le_gt_cases 0 e) as [He | He].
  - rewrite (Z.max_r 0 e), (Z.max_l 0 (- e)) in N by lia.
    rewrite Z.pow_0_r in N.
    assert (Er : r = Zpos m * 2 ^ e) by lia.
    assert (P : 0 < 2 ^ e) by (apply Z.pow_pos_nonneg; lia).
    assert (2 ^ e <= 2 ^ 971)
      by (apply Z.pow_le_mono_r; unfold prec, emax in *; lia).
    change (2 ^ 1024) with (2 ^ 53 * 2 ^ 971). nia.
  - rewrite (Z.max_l 0 e), (Z.max_r 0 (- e)) in N by lia.
    rewrite Z.pow_0_r, Z.mul_1_r in N.
    assert (P : 1 <= 2 ^ (- e)).
    { assert (0 < 2 ^ (- e)) by (apply Z.pow_pos_nonneg; lia). lia. }
    set (d := 2 ^ (- e)) in *.
    assert (0 <= r) by nia.
    assert (r <= 2 ^ 53) by nia.
    assert (2 ^ 53 <= 2 ^ 1024) by (apply Z.pow_le_mono_r; lia).
    lia.
Qed.

Lemma float_range_digits : 2 ^ 1024 < 10 ^ Z.of_nat 309.
Proof. vm_compute. reflexivity. Qed.

Lemma py_round_bounded (f : float64) (n : Z) :
  valid_binary prec emax f = true -> py_round f = Ok n ->
  ints_bounded (PInt n) = true.
Proof.
  intros V H. cbn [ints_bounded]. apply Nat.leb_le.
  apply (Nat.le_trans _ 309); [ | apply Nat.leb_le; reflexivity].
  apply Z_digits_length; [ | apply Nat.leb_le; reflexivity].
  split; [apply Z.abs_nonneg | ].
  apply (Z.le_lt_trans _ (2 ^ 1024)); [ | exact float_range_digits].
  destruct f as [s | s | | s m e]; try discriminate.
  - injection H as <-. apply Z.pow_nonneg. discriminate.
  - cbn [py_round] in H. injection H as <-.
    pose proof (round_magnitude_bound m e V) as [R0 R1].
    set (r := round_magnitude (Zpos m) e) in *.
    set (T := 2 ^ 1024) in *. clearbody T r.
    destruct s; lia.
Qed.

Lemma ints_bounded_converted (k : conv_kind) (x v : pyval) :
  floats_valid x = true -> convert k x = Ok v -> ints_bounded v = true.
Proof.
  intros Hx. destruct k; cbn [convert].
  - rewrite safe_float_eq. intros [= <-].
    destruct x; try reflexivity;
      destruct (py_float _) as [fl | ex]; reflexivity.
  - rewrite safe_int_eq. intros [= <-].
    destruct x; try reflexivity;
      destruct (py_float _) as [fl | ex] eqn:E; try reflexivity;
      destruct (py_round fl) as [rn | ex'] eqn:R; try reflexivity;
      apply (py_round_bounded fl rn (py_float_valid _ fl Hx E) R).
Qed.

Lemma ints_bounded_lookup (d : list (string * pyval)) (k : string) (v : pyval) :
  ints_bounded (PDict d) = true -> lookup k d = Some v ->
  ints_bounded v = true.
Proof.
  cbn [ints_bounded]. intros H.
  induction d as [ | [k' x] d IH]; [discriminate | ].
  cbn [forallb] in H. apply andb_true_iff in H. destruct H as [Hx Hd].
  cbn [lookup]. destruct (String.eqb k k').
  - intros [= <-]. exact Hx.
  - apply IH. exact Hd.
Qed.

Lemma ints_bounded_get (x : pyval) (k : string) (dflt v : pyval) :
  ints_bounded x = true -> ints_bounded dflt = true ->
  py_get x k dflt = Ok v -> ints_bounded v = true.
Proof.
  intros Hx Hd. destruct x as [ | | | | | | d]; try discriminate.
  cbn [py_get]. unfold get_or. intros [= <-].
  destruct (lookup k d) as [v | ] eqn:E; [ | exact Hd].
  apply (ints_bounded_lookup d k v Hx E).
Qed.

Lemma ints_bounded_section (x : pyval) (k : string) (v : pyval) :
  ints_bounded x = true -> get_section x k = Ok v -> ints_bounded v = true.
Proof.
  intros Hx H. unfold get_section in H. inv_bind H. injection H as <-.
  unfold py_or. destruct (truthy a); [ | reflexivity].
  apply (ints_bounded_get x k (PDict []) a Hx eq_refl E).
Qed.

Lemma ints_bounded_array (x : pyval) (k : string) (v : pyval) :
  ints_bounded x = true -> get_array x k = Ok v -> ints_bounded v = true.
Proof.
  intros Hx H. unfold get_array in H. inv_bind H. injection H as <-.
  unfold py_or. destruct (truthy a); [ | reflexivity].
  apply (ints_bounded_get x k (PList []) a Hx eq_refl E).
Qed.

Lemma ints_bounded_item (x : pyval) (i : nat) (v : pyval) :
  ints_bounded x = true -> py_getitem x i = Ok v -> ints_bounded v = true.
Proof.
  intros Hx. destruct x as [ | | | | s | l | d]; try discriminate.
  - cbn [py_getitem]. destruct (String.get i s); [ | discriminate].
    intros [= <-]. reflexivity.
  - cbn [py_getitem]. destruct (nth_error l i) as [y | ] eqn:E; [ | discriminate].
    intros [= <-]. cbn [ints_bounded] in Hx. rewrite forallb_forall in Hx.
    apply Hx. apply (nth_error_In _ _ E).
Qed.

Lemma ints_bounded_bounded (k : conv_kind) (arr : pyval) (i : nat) (v : pyval) :
  floats_valid arr = true -> bounded_item (convert k) arr i = Ok v ->
  ints_bounded v = true.
Proof.
  intros Fa H. destruct (bounded_item_Ok k arr i v H) as (n & _ & Out & In & _).
  destruct (Nat.lt_ge_cases i n) as [Hi | Hi].
  - destruct (In Hi) as (x & Hx & Hc).
    apply (ints_bounded_converted k x v); [ | exact Hc].
    apply (floats_valid_item arr i x Fa Hx).
  - rewrite (Out Hi). reflexivity.
Qed.

Lemma ints_bounded_current (raw cur : pyval) :
  floats_valid raw = true -> current_section raw = Ok cur ->
  ints_bounded cur = true.
Proof.
  intros Fraw. unfold current_section, current_record, current_item. intros H.
  inv_bind H. injection H as <-.
  pose proof (floats_valid_section _ _ _ Fraw E) as Fs.
  repeat match goal with
         | Hc : bind _ _ = Ok _ |- _ => inv_bind Hc
         end.
  cbn [ints_bounded forallb].
  repeat match goal with
         | Hg : py_get a ?k PNone = Ok ?x, Hc : _safe_float ?x = Ok ?v |- _ =>
             rewrite (ints_bounded_converted AsFloat x v
                        (floats_valid_get a k PNone x Fs eq_refl Hg) Hc);
             clear Hc
         | Hg : py_get a ?k PNone = Ok ?x, Hc : _safe_int ?x = Ok ?v |- _ =>
             rewrite (ints_bounded_converted AsInt x v
                        (floats_valid_get a k PNone x Fs eq_refl Hg) Hc);
             clear Hc
         end.
  reflexivity.
Qed.

Lemma ints_bounded_hourly (raw : pyval) (hs : list pyval) :
  floats_valid raw = true -> ints_bounded raw = true ->
  hourly_section raw = Ok hs -> forallb ints_bounded hs = true.
Proof.
  intros Fraw Iraw H. unfold hourly_section in H. inv_bind H.
  pose proof (floats_valid_section _ _ _ Fraw E) as Fs.
  pose proof (ints_bounded_section _ _ _ Iraw E) as Is.
  apply forallb_forall. apply Forall_forall.
  apply (mapM_Forall _ (fun r => ints_bounded r = true) _ _) in H;
    [exact H | ].
  intros i r _ Hr.
  destruct (hourly_record_Ok _ _ _ _ _ _ _ _ _ _ Hr)
    as (t & v1 & v2 & v3 & v4 & v5 & v6 & v7 & -> & Ht
        & H1 & H2 & H3 & H4 & H5 & H6 & H7).
  cbn [ints_bounded forallb].
  rewrite (ints_bounded_bounded _ _ _ _ (floats_valid_array _ _ _ Fs E1) H1),
    (ints_bounded_bounded _ _ _ _ (floats_valid_array _ _ _ Fs E2) H2),
    (ints_bounded_bounded _ _ _ _ (floats_valid_array _ _ _ Fs E3) H3),
    (ints_bounded_bounded _ _ _ _ (floats_valid_array _ _ _ Fs E4) H4),
    (ints_bounded_bounded _ _ _ _ (floats_valid_array _ _ _ Fs E5) H5),
    (ints_bounded_bounded _ _ _ _ (floats_valid_array _ _ _ Fs E6) H6),
    (ints_bounded_bounded _ _ _ _ (floats_valid_array _ _ _ Fs E7) H7).
  rewrite (ints_bounded_item _ _ _ (ints_bounded_array _ _ _ Is E0) Ht).
  reflexivity.
Qed.

Lemma ints_bounded_daily (raw : pyval) (ds : list pyval) :
  floats_valid raw = true -> ints_bounded raw = true ->
  daily_section raw = Ok ds -> forallb ints_bounded ds = true.
Proof.
  intros Fraw Iraw H. unfold daily_section in H. inv_bind H.
  pose proof (floats_valid_section _ _ _ Fraw E) as Fs.
  pose proof (ints_bounded_section _ _ _ Iraw E) as Is.
  apply forallb_forall. apply Forall_forall.
  apply (mapM_Forall _ (fun r => ints_bounded r = true) _ _) in H;
    [exact H | ].
  intros i r _ Hr.
  destruct (daily_record_Ok _ _ _ _ _ _ _ Hr)
    as (t & v1 & v2 & v3 & v4 & -> & Ht & H1 & H2 & H3 & H4).
  cbn [ints_bounded forallb].
  rewrite (ints_bounded_bounded _ _ _ _ (floats_valid_array _ _ _ Fs E1) H1),
    (ints_bounded_bounded _ _ _ _ (floats_valid_array _ _ _ Fs E2) H2),
    (ints_bounded_bounded _ _ _ _ (floats_valid_array _ _ _ Fs E4) H3),
    (ints_bounded_bounded _ _ _ _ (floats_valid_array _ _ _ Fs E3) H4).
  rewrite (ints_bounded_item _ _ _ (ints_bounded_array _ _ _ Is E0) Ht).
  reflexivity.
Qed.

(** *** A value and its copy under [==] *)

Lemma SFeqb_self (f : float64) :
  SFeqb f f = match f with S754_nan => false | _ => true end.
Proof.
  destruct f as [s | s | | s m e]; try reflexivity.
  - destruct s; reflexivity.
  - unfold SFeqb, SFcompare. rewrite Z.compare_refl.
    change (Pos.compare_cont Eq m m) with (Pos.compare m m).
    rewrite Pos.compare_refl. destruct s; reflexivity.
Qed.

Lemma forallb_agree {A : Type} (f g : A -> bool) (l : list A) :
  (forall a, In a l -> f a = g a) -> forallb f l = forallb g l.
Proof.
  induction l as [ | a l IH]; intros H; [reflexivity | ].
  cbn [forallb]. rewrite (H a (or_introl eq_refl)), IH; [reflexivity | ].
  intros b Hb. apply H. right. exact Hb.
Qed.

(** In a dict without a key twice, every member is found under its key. *)
Lemma lookup_member (d : list (string * pyval)) (k : string) (x : pyval) :
  distinct (map fst d) = true -> In (k, x) d -> lookup k d = Some x.
Proof.
  induction d as [ | [k' y] d IH]; intros Hd Hin; [contradiction | ].
  cbn [map fst distinct] in Hd. apply andb_true_iff in Hd.
  destruct Hd as [Hk Hd]. cbn [lookup].
  destruct Hin as [[= -> ->] | Hin].
  - rewrite String.eqb_refl. reflexivity.
  - destruct (String.eqb_spec k k') as [-> | _]; [exfalso | apply IH; assumption].
    apply negb_true_iff in Hk.
    assert (T : existsb (String.eqb k') (map fst d) = true).
    { apply existsb_exists. exists k'. split; [ | apply String.eqb_refl].
      apply in_map_iff. exists (k', x). split; [reflexivity | exact Hin]. }
    congruence.
Qed.

(** A value equals its copy exactly when it holds no [nan]. *)
Lemma py_eq_self (v : pyval) :
  keys_distinct v = true -> py_eq v v = nan_free v.
Proof.
  induction v as [ | b | n | f | s | l IH | d IH] using pyval_induction;
    intros K.
  - reflexivity.
  - cbn [py_eq nan_free]. destruct b; reflexivity.
  - cbn [py_eq nan_free]. apply Z.eqb_refl.
  - cbn [py_eq]. rewrite SFeqb_self. destruct f; reflexivity.
  - cbn [py_eq nan_free]. apply String.eqb_refl.
  - cbn [py_eq nan_free]. cbn [keys_distinct] in K.
    induction l as [ | x l IHl]; [reflexivity | ].
    cbn [forallb] in K |- *. apply andb_true_iff in K. destruct K as [Kx Kl].
    inversion IH as [ | ? ? Hx Hl]; subst.
    rewrite (Hx Kx), (IHl Hl Kl). reflexivity.
  - cbn [py_eq nan_free]. rewrite Nat.eqb_refl, andb_true_l.
    cbn [keys_distinct] in K. apply andb_true_iff in K. destruct K as [Kd Kv].
    apply forallb_agree. intros [k x] Hin.
    rewrite (lookup_member d k x Kd Hin).
    rewrite Forall_forall in IH. apply (IH (k, x) Hin).
    rewrite forallb_forall in Kv. apply (Kv (k, x) Hin).
Qed.

Lemma build_json_ints_bounded
  (utcnow : datetime) (raw place_name lat lon tz doc : pyval) :
  floats_valid raw = true -> ints_bounded raw = true ->
  ints_bounded place_name = true -> ints_bounded lat = true ->
  ints_bounded lon = true -> ints_bounded tz = true ->
  build_json utcnow raw place_name lat lon tz = Ok doc ->
  ints_bounded doc = true.
Proof.
  intros Fr Ir Ip Ila Ilo Itz H.
  destruct (build_json_Ok _ _ _ _ _ _ _ H) as (cur & hs & ds & -> & Hc & Hh & Hd).
  unfold meta_record. cbn [ints_bounded forallb].
  rewrite Ip, Ila, Ilo, Itz, (ints_bounded_current raw cur Fr Hc),
    (ints_bounded_hourly raw hs Fr Ir Hh), (ints_bounded_daily raw ds Fr Ir Hd).
  reflexivity.
Qed.

Lemma json_value_parts (v : pyval) :
  json_value v = true ->
  floats_valid v = true /\ keys_distinct v = true /\ ints_bounded v = true.
Proof.
  unfold json_value. rewrite !andb_true_iff. tauto.
Qed.

(** C7, refuted as stated: of the temperature [nan], a string, [float]
    makes a [nan]; the document is written and read back as the same data,
    and the document read is not [==] to the one written, a [nan] being
    different from every float. *)
Lemma nan_document_differs_from_its_copy :
  build_json sample_clock sample_nan_raw PLACE_NAME LAT LON TIMEZONE
  = Ok nan_document
  /\ lookup "current" (match nan_document with PDict d => d | _ => [] end)
     = Some (PDict [("temperature_c", PFloat S754_nan);
                    ("feels_like_c", PNone); ("humidity_pct", PNone);
                    ("wind_speed_kmh", PNone); ("wind_dir_deg", PNone);
                    ("wind_gust_kmh", PNone); ("weather_code", PNone)])
  /\ exists doc',
       json_loads (json_dumps nan_document) = Ok doc'
       /\ doc' = nan_document
       /\ py_eq doc' nan_document = false.
Proof.
  split; [vm_compute; reflexivity | ]. split; [reflexivity | ].
  exists nan_document. repeat split; vm_compute; reflexivity.
Qed.

(** C7 (as amended): for a raw response and metadata as a JSON decoder and
    the constants of the program give them (floats that are binary64
    numbers, no key twice in a dict, no integer of more than 4300 digits),
    the document that [build_json] returns is such a value too, so that
    [json.dump] writes it; [json.loads] reads the text back as the same
    data: the same keys in the same order and the same values, a float
    with all its digits and a [nan] as a [nan]; and the document read is
    [==] to the one written when that holds no [nan].  The text is what
    [main] leaves in the output file after a run in which the fetch, the
    normaliser, the opening and the write succeed. *)
Theorem round_trip_reproduces_the_document
  (utcnow : datetime) (raw place_name lat lon tz doc : pyval) :
  json_value raw = true -> json_value place_name = true ->
  json_value lat = true -> json_value lon = true -> json_value tz = true ->
  build_json utcnow raw place_name lat lon tz = Ok doc ->
  json_value doc = true
  /\ (exists doc',
        json_loads (json_dumps doc) = Ok doc'
        /\ doc' = doc
        /\ (nan_free doc = true -> py_eq doc' doc = true))
  /\ (forall env w,
        fetch_open_meteo env LAT LON TIMEZONE = Ok raw ->
        build_json (clock env) raw PLACE_NAME LAT LON TIMEZONE = Ok doc ->
        open_error env = None -> write_error env = None ->
        files (fst (main env w)) OUTFILE = Some (json_dumps doc)).
Proof.
  intros Jr Jp Jla Jlo Jtz H.
  destruct (json_value_parts _ Jr) as (Fr & Kr & Ir).
  destruct (json_value_parts _ Jp) as (Fp & Kp & Ip).
  destruct (json_value_parts _ Jla) as (Fla & Kla & Ila).
  destruct (json_value_parts _ Jlo) as (Flo & Klo & Ilo).
  destruct (json_value_parts _ Jtz) as (Ftz & Ktz & Itz).
  destruct (build_json_well_formed utcnow raw place_name lat lon tz doc
              Fr Kr Fp Kp Fla Kla Flo Klo Ftz Ktz H) as [Fd Kd].
  pose proof (build_json_ints_bounded utcnow raw place_name lat lon tz doc
                Fr Ir Ip Ila Ilo Itz H) as Id.
  split; [ | split].
  - unfold json_value. rewrite Fd, Kd, Id. reflexivity.
  - exists doc. split; [apply document_reads_back; assumption | ].
    split; [reflexivity | ].
    intros N. rewrite (py_eq_self doc Kd). exact N.
  - intros env w Hfetch Hbuild Hopen Hwrite.
    unfold main, main_try, write_outfile.
    rewrite Hfetch, Hbuild, Hopen, Hwrite. reflexivity.
Qed.

Lemma round_trip_reproduces_the_document_witness :
  json_value sample_document = true
  /\ (exists doc',
        json_loads (json_dumps sample_document) = Ok doc'
        /\ doc' = sample_document
        /\ py_eq doc' sample_document = true)
  /\ files (fst (main env_ok empty_world)) OUTFILE
     = Some (json_dumps sample_document).
Proof.
  destruct (round_trip_reproduces_the_document sample_clock sample_raw
              PLACE_NAME LAT LON TIMEZONE sample_document
              eq_refl eq_refl eq_refl eq_refl eq_refl eq_refl)
    as (J & (doc' & R & E & P) & F).
  split; [exact J | ]. split.
  - exists doc'. split; [exact R | ]. split; [exact E | ].
    apply P. reflexivity.
  - apply (F env_ok empty_world); reflexivity.
Defined.
